(** * libpisoundmicro: the setup descriptor codec, the element registry and
      the sysfs wire protocol of [pisound-micro.c]

    The development is a shallow embedding of the C code.  C integers are
    [Z] with their wrap-around written out, C strings are [string] (the bytes
    before the terminating NUL), pointers are [option positive] ([None] is
    NULL), and every function that touches process state takes and returns an
    explicit [state].  The kernel, libc and the sysfs tree are not part of
    the library: the outcome of every system call a function makes is read
    from a [world] record that the caller of the model supplies, and every
    system call made is appended to the trace of the state. *)

From stdpp Require Import gmap strings list fin_maps pretty.
From Stdlib Require Import ZArith Lia Ascii String Bool.

Local Open Scope Z_scope.

(** ** errno values (Linux, asm-generic/errno-base.h and errno.h) *)

Definition ENOENT : Z := 2.
Definition ENOMEM : Z := 12.
Definition EACCES : Z := 13.
Definition EEXIST : Z := 17.
Definition EINVAL : Z := 22.
Definition ENAMETOOLONG : Z := 36.

(** ** types.h *)

Definition UPISND_MAX_ELEMENT_NAME_LENGTH : Z := 64.

Definition UPISND_ELEMENT_TYPE_INVALID : Z := -1.
Definition UPISND_ELEMENT_TYPE_NONE : Z := 0.
Definition UPISND_ELEMENT_TYPE_ENCODER : Z := 1.
Definition UPISND_ELEMENT_TYPE_ANALOG_INPUT : Z := 2.
Definition UPISND_ELEMENT_TYPE_GPIO : Z := 3.
Definition UPISND_ELEMENT_TYPE_ACTIVITY : Z := 4.
Definition UPISND_ELEMENT_TYPE_COUNT : Z := 5.

Definition UPISND_ACTIVITY_INVALID : Z := -1.
Definition UPISND_ACTIVITY_MIDI_INPUT : Z := 0.
Definition UPISND_ACTIVITY_MIDI_OUTPUT : Z := 1.
Definition UPISND_ACTIVITY_COUNT : Z := 2.

Definition UPISND_PIN_PULL_INVALID : Z := -1.
Definition UPISND_PIN_PULL_NONE : Z := 0.
Definition UPISND_PIN_PULL_UP : Z := 1.
Definition UPISND_PIN_PULL_DOWN : Z := 2.
Definition UPISND_PIN_PULL_COUNT : Z := 3.

Definition UPISND_PIN_DIR_INVALID : Z := -1.
Definition UPISND_PIN_DIR_INPUT : Z := 0.
Definition UPISND_PIN_DIR_OUTPUT : Z := 1.
Definition UPISND_PIN_DIR_COUNT : Z := 2.

Definition UPISND_PIN_B03 : Z := 6.
Definition UPISND_PIN_B04 : Z := 7.
Definition UPISND_PIN_COUNT : Z := 37.
Definition UPISND_PIN_INVALID : Z := UPISND_PIN_COUNT.

(** ** C integer conversions *)

(** Conversion to [uint32_t] ([upisnd_setup_t]). *)
Definition uint32 (z : Z) : Z := z mod 2 ^ 32.

(** Conversion to [int8_t] ([upisnd_pin_t]). *)
Definition int8 (z : Z) : Z :=
  let r := z mod 256 in if r <? 128 then r else r - 256.

(** Conversion to [bool]. *)
Definition to_bool (z : Z) : bool := negb (z =? 0).

Definition of_bool (b : bool) : Z := if b then 1 else 0.

(** ** The setup descriptor codec *)

(** [UPISND_DEFINE_INTERNAL_SETUP_FIELD(shift, bits, type, name)]: the getter
    before its cast to [type], and the setter.  [setup] is a [uint32_t], the
    masks are [int] expressions converted to [uint32_t] by the binary
    operators. *)
Definition field_mask (bits : Z) : Z := Z.shiftl 1 bits - 1.

Definition field_get (shift bits : Z) (setup : Z) : Z :=
  Z.shiftr (Z.land setup (uint32 (Z.shiftl (field_mask bits) shift))) shift.

Definition field_set (shift bits : Z) (setup value : Z) : Z :=
  Z.lor (Z.land setup (uint32 (Z.lnot (Z.shiftl (field_mask bits) shift))))
        (uint32 (Z.shiftl (Z.land value (field_mask bits)) shift)).

Definition upisnd_internal_setup_get_element_type (setup : Z) : Z := field_get 0 3 setup.
Definition upisnd_internal_setup_set_element_type (setup value : Z) : Z := field_set 0 3 setup value.

Definition upisnd_internal_setup_get_pin_id (setup : Z) : Z := int8 (field_get 3 8 setup).
Definition upisnd_internal_setup_set_pin_id (setup value : Z) : Z := field_set 3 8 setup value.

Definition upisnd_internal_setup_get_gpio_pull (setup : Z) : Z := field_get 11 2 setup.
Definition upisnd_internal_setup_set_gpio_pull (setup value : Z) : Z := field_set 11 2 setup value.

Definition upisnd_internal_setup_get_gpio_dir (setup : Z) : Z := field_get 13 1 setup.
Definition upisnd_internal_setup_set_gpio_dir (setup value : Z) : Z := field_set 13 1 setup value.

Definition upisnd_internal_setup_get_gpio_output (setup : Z) : bool := to_bool (field_get 12 1 setup).
Definition upisnd_internal_setup_set_gpio_output (setup : Z) (value : bool) : Z :=
  field_set 12 1 setup (of_bool value).

Definition upisnd_internal_setup_get_encoder_pin_b_id (setup : Z) : Z := int8 (field_get 13 8 setup).
Definition upisnd_internal_setup_set_encoder_pin_b_id (setup value : Z) : Z := field_set 13 8 setup value.

Definition upisnd_internal_setup_get_encoder_pin_b_pull (setup : Z) : Z := field_get 21 2 setup.
Definition upisnd_internal_setup_set_encoder_pin_b_pull (setup value : Z) : Z := field_set 21 2 setup value.

Definition upisnd_internal_setup_get_activity_type (setup : Z) : Z := field_get 11 2 setup.
Definition upisnd_internal_setup_set_activity_type (setup value : Z) : Z := field_set 11 2 setup value.

(** *** Public getters *)

Definition upisnd_setup_get_element_type (setup : Z) : Z :=
  upisnd_internal_setup_get_element_type setup.

Definition has_main_pin (t : Z) : bool :=
  (t =? UPISND_ELEMENT_TYPE_ENCODER) || (t =? UPISND_ELEMENT_TYPE_ANALOG_INPUT)
  || (t =? UPISND_ELEMENT_TYPE_GPIO) || (t =? UPISND_ELEMENT_TYPE_ACTIVITY).

Definition upisnd_setup_get_pin_id (setup : Z) : Z :=
  if has_main_pin (upisnd_internal_setup_get_element_type setup)
  then upisnd_internal_setup_get_pin_id setup
  else UPISND_PIN_INVALID.

(** The [switch] shared by [upisnd_setup_get_gpio_pull] and
    [upisnd_setup_set_gpio_pull]: [true] when control leaves the switch
    through a [break], [false] when it reaches [default]. *)
Definition pull_applies (setup : Z) : bool :=
  let t := upisnd_internal_setup_get_element_type setup in
  if t =? UPISND_ELEMENT_TYPE_ENCODER then true
  else if t =? UPISND_ELEMENT_TYPE_GPIO
       then upisnd_internal_setup_get_gpio_dir setup =? UPISND_PIN_DIR_INPUT
       else false.

Definition upisnd_setup_get_gpio_pull (setup : Z) : Z :=
  if pull_applies setup then upisnd_internal_setup_get_gpio_pull setup
  else UPISND_PIN_PULL_INVALID.

Definition upisnd_setup_get_gpio_dir (setup : Z) : Z :=
  if upisnd_internal_setup_get_element_type setup =? UPISND_ELEMENT_TYPE_GPIO
  then upisnd_internal_setup_get_gpio_dir setup
  else UPISND_PIN_DIR_INVALID.

Definition upisnd_setup_get_gpio_output (setup : Z) : Z :=
  if (upisnd_internal_setup_get_element_type setup =? UPISND_ELEMENT_TYPE_GPIO)
     && (upisnd_internal_setup_get_gpio_dir setup =? UPISND_PIN_DIR_OUTPUT)
  then (if upisnd_internal_setup_get_gpio_output setup then 1 else 0)
  else - EINVAL.

Definition upisnd_setup_get_encoder_pin_b_id (setup : Z) : Z :=
  if upisnd_internal_setup_get_element_type setup =? UPISND_ELEMENT_TYPE_ENCODER
  then upisnd_internal_setup_get_encoder_pin_b_id setup
  else UPISND_PIN_INVALID.

Definition upisnd_setup_get_encoder_pin_b_pull (setup : Z) : Z :=
  if upisnd_internal_setup_get_element_type setup =? UPISND_ELEMENT_TYPE_ENCODER
  then upisnd_internal_setup_get_encoder_pin_b_pull setup
  else UPISND_PIN_PULL_INVALID.

Definition upisnd_setup_get_activity_type (setup : Z) : Z :=
  if upisnd_internal_setup_get_element_type setup =? UPISND_ELEMENT_TYPE_ACTIVITY
  then upisnd_internal_setup_get_activity_type setup
  else UPISND_ACTIVITY_INVALID.

(** *** Public setters.  Each takes the descriptor that [*setup] holds and
    returns the [int] result together with the descriptor [*setup] holds
    afterwards. *)

Definition upisnd_setup_set_element_type (setup value : Z) : Z * Z :=
  if (value <? 0) || (value >=? UPISND_ELEMENT_TYPE_COUNT) then (- EINVAL, setup)
  else (0, upisnd_internal_setup_set_element_type 0 value).

Definition upisnd_setup_set_pin_id (setup value : Z) : Z * Z :=
  if has_main_pin (upisnd_internal_setup_get_element_type setup)
  then (0, upisnd_internal_setup_set_pin_id setup value)
  else (- EINVAL, setup).

Definition upisnd_setup_set_gpio_dir (setup value : Z) : Z * Z :=
  if negb (upisnd_internal_setup_get_element_type setup =? UPISND_ELEMENT_TYPE_GPIO)
  then (- EINVAL, setup)
  else (0, upisnd_internal_setup_set_gpio_dir setup value).

Definition upisnd_setup_set_gpio_pull (setup value : Z) : Z * Z :=
  if pull_applies setup then (0, upisnd_internal_setup_set_gpio_pull setup value)
  else (- EINVAL, setup).

Definition upisnd_setup_set_gpio_output (setup : Z) (value : bool) : Z * Z :=
  if negb (upisnd_internal_setup_get_element_type setup =? UPISND_ELEMENT_TYPE_GPIO)
     || negb (upisnd_internal_setup_get_gpio_dir setup =? UPISND_PIN_DIR_OUTPUT)
  then (- EINVAL, setup)
  else (0, upisnd_internal_setup_set_gpio_output setup value).

Definition upisnd_setup_set_encoder_pin_b_id (setup value : Z) : Z * Z :=
  if negb (upisnd_internal_setup_get_element_type setup =? UPISND_ELEMENT_TYPE_ENCODER)
  then (- EINVAL, setup)
  else (0, upisnd_internal_setup_set_encoder_pin_b_id setup value).

Definition upisnd_setup_set_encoder_pin_b_pull (setup value : Z) : Z * Z :=
  if negb (upisnd_internal_setup_get_element_type setup =? UPISND_ELEMENT_TYPE_ENCODER)
  then (- EINVAL, setup)
  else (0, upisnd_internal_setup_set_encoder_pin_b_pull setup value).

Definition upisnd_setup_set_activity_type (setup value : Z) : Z * Z :=
  if negb (upisnd_internal_setup_get_element_type setup =? UPISND_ELEMENT_TYPE_ACTIVITY)
  then (- EINVAL, setup)
  else (0, upisnd_internal_setup_set_activity_type setup value).

(** ** Process state, the trace of system calls, and the outside world *)

(** A pointer to a heap object; NULL is [None] of [option ptr]. *)
Definition ptr : Type := positive.

(** [struct upisnd_elements_list_node_t].  The [next] link is the order of
    the owning context's [ctx_elements] list. *)
Record node : Type := mk_node {
  el_refcount : Z;
  el_name : string;
  el_ctx : ptr
}.

(** [struct upisnd_ctx_t].  The mutex is left out (the model is
    sequential) and so is the seed of the name generator. *)
Record ctx_t : Type := mk_ctx {
  ctx_refcount : Z;
  ctx_sysfs_base : string;
  ctx_elements : list ptr
}.

(** One entry per system call, in the order the calls are made.  A call on a
    file descriptor is recorded with the path the descriptor was opened on. *)
Inductive event : Type :=
| EvOpen (path : string) (flags : Z)
| EvWrite (path : string) (payload : string)
| EvFdatasync (path : string)
| EvLseek (path : string)
| EvRead (path : string) (count : Z)
| EvClose (path : string)
| EvStat (path : string)
| EvSleep (usec : Z).

Record state : Type := mk_state {
  ctxs : gmap ptr ctx_t;
  nodes : gmap ptr node;
  upisnd_active_ctx : option ptr;
  errno : Z;
  now_ms : Z;            (* CLOCK_MONOTONIC, in milliseconds *)
  trace : list event;
  fault : bool           (* a pointer that is not live was dereferenced *)
}.

Definition set_errno (e : Z) (s : state) : state :=
  mk_state (ctxs s) (nodes s) (upisnd_active_ctx s) e (now_ms s) (trace s) (fault s).

Definition log (ev : event) (s : state) : state :=
  mk_state (ctxs s) (nodes s) (upisnd_active_ctx s) (errno s) (now_ms s)
           (trace s ++ [ev]) (fault s).

Definition set_nodes (m : gmap ptr node) (s : state) : state :=
  mk_state (ctxs s) m (upisnd_active_ctx s) (errno s) (now_ms s) (trace s) (fault s).

Definition set_ctxs (m : gmap ptr ctx_t) (s : state) : state :=
  mk_state m (nodes s) (upisnd_active_ctx s) (errno s) (now_ms s) (trace s) (fault s).

Definition set_fault (s : state) : state :=
  mk_state (ctxs s) (nodes s) (upisnd_active_ctx s) (errno s) (now_ms s) (trace s) true.

(** Outcome of a system call that returns 0 or -1: a failing call sets
    [errno] to a positive code. *)
Inductive sys_res : Type :=
| SysOk
| SysErr (e : positive).

(** Outcome of open(2). *)
Inductive open_res : Type :=
| Opened (fd : N)
| OpenErr (e : positive).

(** Outcome of read(2): the bytes read, or an error. *)
Inductive read_res : Type :=
| ReadOk (data : string)
| ReadErr (e : positive).

(** The system calls of one open/write/fdatasync/close transaction on a
    context-level node. *)
Record txn : Type := mk_txn {
  t_open : open_res;
  t_write : sys_res;
  t_fdatasync : sys_res;
  t_close : sys_res
}.

(** The attribute selector of [upisnd_element_path]. *)
Inductive upisnd_element_attr_e : Type :=
| UPISND_ELEMENT_ATTR_ROOT
| UPISND_ELEMENT_ATTR_TYPE
| UPISND_ELEMENT_ATTR_DIRECTION
| UPISND_ELEMENT_ATTR_PIN
| UPISND_ELEMENT_ATTR_PIN_NAME
| UPISND_ELEMENT_ATTR_PIN_PULL
| UPISND_ELEMENT_ATTR_PIN_B
| UPISND_ELEMENT_ATTR_PIN_B_NAME
| UPISND_ELEMENT_ATTR_PIN_B_PULL
| UPISND_ELEMENT_ATTR_GPIO_EXPORT
| UPISND_ELEMENT_ATTR_GPIO_UNEXPORT
| UPISND_ELEMENT_ATTR_INPUT_MIN
| UPISND_ELEMENT_ATTR_INPUT_MAX
| UPISND_ELEMENT_ATTR_VALUE_LOW
| UPISND_ELEMENT_ATTR_VALUE_HIGH
| UPISND_ELEMENT_ATTR_VALUE_MODE
| UPISND_ELEMENT_ATTR_VALUE
| UPISND_ELEMENT_ATTR_ACTIVITY_TYPE.

(** The system calls on one element attribute: the outcome of the i-th
    open attempt, and of the calls on the descriptor once it is open. *)
Record attr_io : Type := mk_attr_io {
  a_open : nat -> open_res;
  a_lseek : sys_res;
  a_read : read_res;
  a_write : sys_res;
  a_fdatasync : sys_res
}.

(** What the world answers during one call into the library. *)
Record world : Type := mk_world {
  w_malloc : option ptr;          (* upisnd_element_alloc: the block, None when malloc or strdup fails *)
  w_stat_dir : bool;              (* stat succeeds on the element directory and it is a directory *)
  w_setup : txn;                  (* the transaction on <root>/setup *)
  w_unsetup : txn;                (* the transaction on <root>/unsetup *)
  w_attr : upisnd_element_attr_e -> attr_io;
  w_strtol : string -> Z          (* libc strtol(value, NULL, 10) *)
}.

Definition O_RDONLY : Z := 0.
Definition O_WRONLY : Z := 1.
Definition O_CLOEXEC : Z := 524288.

(** ** Constants of pisound-micro.c *)

Definition UPISND_TIMEOUT_MS : Z := 2000.
Definition UPISND_TEXT_SEPARATORS : string := String " " (String "010" (String "009" "")).

Definition UPISND_PIN_NAMES : list string :=
  [ "A27"; "A28"; "A29"; "A30"; "A31"; "A32"; "B03"; "B04";
    "B05"; "B06"; "B07"; "B08"; "B09"; "B10"; "B11"; "B12";
    "B13"; "B14"; "B15"; "B16"; "B17"; "B18"; "B23"; "B24";
    "B25"; "B26"; "B27"; "B28"; "B29"; "B30"; "B31"; "B32";
    "B33"; "B34"; "B37"; "B38"; "B39" ]%string.

Definition UPISND_MAX_BASE_PATH_LENGTH : Z := 64.
Definition UPISND_ELEMENT_MAX_PATH_LENGTH : Z :=
  UPISND_MAX_ELEMENT_NAME_LENGTH + UPISND_MAX_BASE_PATH_LENGTH.
Definition UPISND_MAX_REQUEST_LENGTH : Z := UPISND_MAX_ELEMENT_NAME_LENGTH + 64.

Definition UPISND_SYSFS_DEFAULT_BASE_PATH : string := "/sys/pisound-micro".

(** Conversion to [int] (the reference counts). *)
Definition int32 (z : Z) : Z :=
  let r := z mod 2 ^ 32 in if r <? 2 ^ 31 then r else r - 2 ^ 32.

Definition INT_MAX : Z := 2 ^ 31 - 1.

(** [strlen], as the [int] the callers store it in (a name is taken to be
    shorter than 2^31 bytes). *)
Definition strlen (s : string) : Z := Z.of_nat (String.length s).

(** [strchr(s, c)]: the offset of the first [c] in [s], or NULL. *)
Fixpoint strchr (s : string) (c : ascii) : option nat :=
  match s with
  | EmptyString => None
  | String a s' => if Ascii.eqb a c then Some O else option_map S (strchr s' c)
  end.

(** ** Path builder *)

Inductive upisnd_path_type_t : Type :=
| UPISND_PATH_SETUP
| UPISND_PATH_UNSETUP.

(** [upisnd_path]: the [int] result and the text snprintf formats (the
    callers use the buffer only when the result is not negative, that is
    when the text fits and was not truncated). *)
Definition upisnd_path (type : upisnd_path_type_t) (sysfs_base : string) : Z * string :=
  let path := match type with
              | UPISND_PATH_SETUP => sysfs_base +:+ "/setup"
              | UPISND_PATH_UNSETUP => sysfs_base +:+ "/unsetup"
              end in
  let n := strlen path in
  (if (0 <? n) && (n <? UPISND_MAX_BASE_PATH_LENGTH) then n else - ENAMETOOLONG, path).

Definition attr_file (attr : upisnd_element_attr_e) : string :=
  match attr with
  | UPISND_ELEMENT_ATTR_ROOT => ""
  | UPISND_ELEMENT_ATTR_TYPE => "type"
  | UPISND_ELEMENT_ATTR_DIRECTION => "direction"
  | UPISND_ELEMENT_ATTR_PIN => "pin"
  | UPISND_ELEMENT_ATTR_PIN_NAME => "pin_name"
  | UPISND_ELEMENT_ATTR_PIN_PULL => "pin_pull"
  | UPISND_ELEMENT_ATTR_PIN_B => "pin_b"
  | UPISND_ELEMENT_ATTR_PIN_B_NAME => "pin_b_name"
  | UPISND_ELEMENT_ATTR_PIN_B_PULL => "pin_b_pull"
  | UPISND_ELEMENT_ATTR_GPIO_EXPORT => "gpio_export"
  | UPISND_ELEMENT_ATTR_GPIO_UNEXPORT => "gpio_unexport"
  | UPISND_ELEMENT_ATTR_INPUT_MIN => "input_min"
  | UPISND_ELEMENT_ATTR_INPUT_MAX => "input_max"
  | UPISND_ELEMENT_ATTR_VALUE_LOW => "value_low"
  | UPISND_ELEMENT_ATTR_VALUE_HIGH => "value_high"
  | UPISND_ELEMENT_ATTR_VALUE_MODE => "value_mode"
  | UPISND_ELEMENT_ATTR_VALUE => "value"
  | UPISND_ELEMENT_ATTR_ACTIVITY_TYPE => "activity_type"
  end.

(** [upisnd_element_path].  For the ROOT attribute [path[n--] = 0] writes the
    terminator where it already is, so the text keeps its trailing slash and
    only the returned length drops by one. *)
Definition upisnd_element_path (sysfs_base name : string) (attr : upisnd_element_attr_e)
  : Z * string :=
  let path := sysfs_base +:+ "/elements/" +:+ name +:+ "/" +:+ attr_file attr in
  let n := strlen path in
  if (0 <? n) && (n <? UPISND_ELEMENT_MAX_PATH_LENGTH)
  then (match attr with UPISND_ELEMENT_ATTR_ROOT => n - 1 | _ => n end, path)
  else (- ENAMETOOLONG, path).

(** ** Name validation *)

Definition upisnd_validate_element_name (name : option string) : Z :=
  match name with
  | None => -1
  | Some s =>
    match s with
    | EmptyString => -1
    | String _ _ =>
      let n := strlen s in
      if n >=? UPISND_MAX_ELEMENT_NAME_LENGTH then -1
      else match strchr s "/" with
           | Some _ => -1
           | None => n
           end
    end
  end.

(** ** Element nodes and the registry list *)

(** [upisnd_element_alloc]: [w_malloc] is the block malloc hands out. *)
Definition upisnd_element_alloc (w : world) (name : string) (ctx : ptr) (s : state)
  : option ptr * state :=
  match w_malloc w with
  | None => (None, s)
  | Some p => (Some p, set_nodes (<[p := mk_node 1 name ctx]> (nodes s)) s)
  end.

Definition upisnd_elements_free (el : ptr) (s : state) : state :=
  set_nodes (delete el (nodes s)) s.

Definition upisnd_elements_prepend (el : ptr) (s : state) : state :=
  match nodes s !! el with
  | None => set_fault s
  | Some nd =>
    match ctxs s !! el_ctx nd with
    | None => set_fault s
    | Some cx =>
      set_ctxs (<[el_ctx nd := mk_ctx (ctx_refcount cx) (ctx_sysfs_base cx)
                                      (el :: ctx_elements cx)]> (ctxs s)) s
    end
  end.

(** The list walk of [upisnd_elements_remove]: the list without its
    first link equal to [el], or [None] when no link is. *)
Fixpoint unlink (el : ptr) (l : list ptr) : option (list ptr) :=
  match l with
  | [] => None
  | p :: l' => if Pos.eqb p el then Some l' else option_map (cons p) (unlink el l')
  end.

Definition upisnd_elements_remove (el : ptr) (s : state) : Z * state :=
  match nodes s !! el with
  | None => (- ENOENT, set_fault s)
  | Some nd =>
    match ctxs s !! el_ctx nd with
    | None => (- ENOENT, set_fault s)
    | Some cx =>
      match unlink el (ctx_elements cx) with
      | None => (- ENOENT, set_errno ENOENT s)
      | Some l' =>
        let s1 := set_ctxs (<[el_ctx nd := mk_ctx (ctx_refcount cx) (ctx_sysfs_base cx) l']>
                              (ctxs s)) s in
        (0, set_errno 0 (upisnd_elements_free el s1))
      end
    end
  end.

(** ** Context-level nodes *)

Definition upisnd_get_ms (s : state) : Z := uint32 (now_ms s).

(** usleep: the simulated clock advances by the requested time, and by
    nothing else. *)
Definition usleep (usec : Z) (s : state) : state :=
  let s1 := log (EvSleep usec) s in
  mk_state (ctxs s1) (nodes s1) (upisnd_active_ctx s1) (errno s1)
           (now_ms s1 + usec / 1000) (trace s1) (fault s1).

Definition upisnd_open_fd (r : open_res) (type : upisnd_path_type_t) (flags : Z)
    (sysfs_base : string) (s : state) : Z * state :=
  let '(err, path) := upisnd_path type sysfs_base in
  if err <? 0 then (err, s)
  else
    let s1 := log (EvOpen path flags) (set_errno 0 s) in
    match r with
    | Opened fd => (Z.of_N fd, s1)
    | OpenErr e => (- Z.pos e, set_errno (Z.pos e) s1)
    end.

(** The tail shared by [upisnd_unsetup_do] and [upisnd_setup_do] once the
    node is open: [err = 0; if (write(..) < 0 || fdatasync(fd) < 0) err =
    errno; if (close(fd) < 0) err = errno;].  Returns [err]. *)
Definition write_sync_close (t : txn) (path payload : string) (s : state) : Z * state :=
  let s1 := log (EvWrite path payload) s in
  let '(err, s2) :=
    match t_write t with
    | SysErr e => let s' := set_errno (Z.pos e) s1 in (errno s', s')
    | SysOk =>
      let s' := log (EvFdatasync path) s1 in
      match t_fdatasync t with
      | SysErr e => let s'' := set_errno (Z.pos e) s' in (errno s'', s'')
      | SysOk => (0, s')
      end
    end in
  let s3 := log (EvClose path) s2 in
  match t_close t with
  | SysErr e => let s' := set_errno (Z.pos e) s3 in (errno s', s')
  | SysOk => (err, s3)
  end.

Definition upisnd_unsetup_do (w : world) (sysfs_base name : string) (s : state) : Z * state :=
  let '(fd, s1) := upisnd_open_fd (t_open (w_unsetup w)) UPISND_PATH_UNSETUP
                                  (Z.lor O_CLOEXEC O_WRONLY) sysfs_base s in
  if fd <? 0 then (fd, s1)
  else
    let '(err, s2) := write_sync_close (w_unsetup w)
                        (snd (upisnd_path UPISND_PATH_UNSETUP sysfs_base)) name s1 in
    (- err, set_errno err s2).

Definition upisnd_unsetup (w : world) (name : string) (s : state) : Z * state :=
  match upisnd_active_ctx s with
  | None => (-1, set_errno EINVAL s)
  | Some c =>
    match ctxs s !! c with
    | None => (-1, set_fault s)
    | Some cx => upisnd_unsetup_do w (ctx_sysfs_base cx) name s
    end
  end.

(** ** The element registry *)

Definition upisnd_element_add_ref (ref : option ptr) (s : state) : option ptr * state :=
  match ref with
  | None => (None, s)
  | Some h =>
    match nodes s !! h with
    | None => (Some h, set_fault s)
    | Some nd =>
      (Some h, set_nodes (<[h := mk_node (int32 (el_refcount nd + 1)) (el_name nd) (el_ctx nd)]>
                            (nodes s)) s)
    end
  end.

(** The [while (el)] scan of [upisnd_element_get]: the first link whose node
    carries [name].  The outer [None] is a link that is not live. *)
Fixpoint scan_elements (m : gmap ptr node) (name : string) (l : list ptr)
  : option (option ptr) :=
  match l with
  | [] => Some None
  | p :: l' =>
    match m !! p with
    | None => None
    | Some nd => if String.eqb (el_name nd) name then Some (Some p)
                 else scan_elements m name l'
    end
  end.

Definition upisnd_element_get (name : option string) (s : state) : option ptr * state :=
  match upisnd_active_ctx s, name with
  | Some c, Some nm =>
    if upisnd_validate_element_name (Some nm) <? 0 then (None, set_errno EINVAL s)
    else
      match ctxs s !! c with
      | None => (None, set_fault s)
      | Some cx =>
        match scan_elements (nodes s) nm (ctx_elements cx) with
        | None => (None, set_fault s)
        | Some None => (None, s)
        | Some (Some el) =>
          let '(_, s1) := upisnd_element_add_ref (Some el) s in
          (Some el, set_errno 0 s1)
        end
      end
  | _, _ => (None, set_errno EINVAL s)
  end.

(** [upisnd_element_unref(upisnd_element_ref_t *ref)].  [ref] is [None] for
    a NULL [ref], [Some None] for a [ref] that points to a NULL handle, and
    [Some (Some h)] otherwise; the first component of the result is what
    [ref] points to afterwards. *)
Definition upisnd_element_unref (w : world) (ref : option (option ptr)) (s : state)
  : option (option ptr) * state :=
  match ref with
  | None => (None, s)
  | Some None => (Some None, s)
  | Some (Some h) =>
    match nodes s !! h with
    | None => (Some None, set_fault s)
    | Some nd =>
      let rc := int32 (el_refcount nd - 1) in
      let s1 := set_nodes (<[h := mk_node rc (el_name nd) (el_ctx nd)]> (nodes s)) s in
      if rc =? 0 then
        match ctxs s1 !! el_ctx nd with
        | None => (Some None, set_fault s1)
        | Some cx =>
          let '(_, s2) := upisnd_unsetup_do w (ctx_sysfs_base cx) (el_name nd) s1 in
          let '(_, s3) := upisnd_elements_remove h s2 in
          (Some None, s3)
        end
      else (Some None, s1)
    end
  end.

(** ** Enumerations and their sysfs tokens *)

Definition upisnd_is_pin_valid (pin : Z) : bool := pin <? UPISND_PIN_COUNT.

(** [upisnd_pin_to_str].  A negative [pin] passes [upisnd_is_pin_valid] and
    indexes the table out of bounds: what the source returns there is
    whatever memory lies before the table, which no model can name.  The
    model gives the empty text, and nothing below rests on it: the
    statements about pin names are for the pins 0 to 36, and those about a
    setup hold for every request text. *)
Definition upisnd_pin_to_str (pin : Z) : string :=
  if upisnd_is_pin_valid pin
  then (if pin <? 0 then "" else nth (Z.to_nat pin) UPISND_PIN_NAMES "")
  else "".

Definition upisnd_pin_pull_to_str (pull : Z) : string :=
  if pull =? UPISND_PIN_PULL_NONE then "pull_none"
  else if pull =? UPISND_PIN_PULL_UP then "pull_up"
  else if pull =? UPISND_PIN_PULL_DOWN then "pull_down"
  else "".

Definition upisnd_activity_to_str (activity : Z) : string :=
  if activity =? UPISND_ACTIVITY_MIDI_INPUT then "midi_in"
  else if activity =? UPISND_ACTIVITY_MIDI_OUTPUT then "midi_out"
  else "".

Definition upisnd_element_type_to_str (type : Z) : string :=
  if type =? UPISND_ELEMENT_TYPE_NONE then "none"
  else if type =? UPISND_ELEMENT_TYPE_ENCODER then "encoder"
  else if type =? UPISND_ELEMENT_TYPE_ANALOG_INPUT then "analog_in"
  else if type =? UPISND_ELEMENT_TYPE_GPIO then "gpio"
  else if type =? UPISND_ELEMENT_TYPE_ACTIVITY then "activity"
  else "".

Definition upisnd_pin_direction_to_str (dir : Z) : string :=
  if dir =? UPISND_PIN_DIR_INPUT then "in"
  else if dir =? UPISND_PIN_DIR_OUTPUT then "out"
  else "".

(** [UPISND_DEFINE_STR_TO_ENUM(middle_part, count)]. *)
Definition str_to_enum (to_str : Z -> string) (count : Z) (str : string) : Z :=
  match List.find (fun i => String.eqb str (to_str (Z.of_nat i))) (seq 0 (Z.to_nat count)) with
  | Some i => Z.of_nat i
  | None => -1
  end.

Definition upisnd_str_to_pin_pull : string -> Z :=
  str_to_enum upisnd_pin_pull_to_str UPISND_PIN_PULL_COUNT.
Definition upisnd_str_to_activity : string -> Z :=
  str_to_enum upisnd_activity_to_str UPISND_ACTIVITY_COUNT.
Definition upisnd_str_to_element_type : string -> Z :=
  str_to_enum upisnd_element_type_to_str UPISND_ELEMENT_TYPE_COUNT.
Definition upisnd_str_to_pin_direction : string -> Z :=
  str_to_enum upisnd_pin_direction_to_str UPISND_PIN_DIR_COUNT.

(** ** The setup orchestrator *)

Definition upisnd_element_exists_in_sysfs (w : world) (sysfs_base name : string) (s : state)
  : bool * state :=
  let '(err, path) := upisnd_element_path sysfs_base name UPISND_ELEMENT_ATTR_ROOT in
  if err <? 0 then (false, s)
  else (w_stat_dir w, log (EvStat path) s).

(** Lines 1025 to 1036 of [upisnd_setup_do]: open the setup node, write
    the request, force it durable, close.  Returns [err]. *)
Definition setup_transact (w : world) (path payload : string) (s : state) : Z * state :=
  let s1 := log (EvOpen path (Z.lor O_CLOEXEC O_WRONLY)) s in
  match t_open (w_setup w) with
  | Opened _ => write_sync_close (w_setup w) path payload s1
  | OpenErr e => let s' := set_errno (Z.pos e) s1 in (errno s', s')
  end.

(** Lines 1021 to 1057 of [upisnd_setup_do], entered with [el] and the two
    flags [existing] and [existed_in_sysfs] set. *)
Definition setup_finish (w : world) (el : ptr) (existing existed_in_sysfs : bool)
    (path payload : string) (s : state) : option ptr * state :=
  let '(err, s1) := setup_transact w path payload s in
  let '(existing1, s2) :=
    if (err =? 0) && negb existing
    then (if existed_in_sysfs then true else existing, upisnd_elements_prepend el s1)
    else (existing, s1) in
  if negb (err =? 0) then
    let s3 := if existing1 && negb existed_in_sysfs
              then snd (upisnd_element_unref w (Some (Some el)) s2)
              else upisnd_elements_free el s2 in
    (None, set_errno err s3)
  else (Some el, set_errno (if negb existing1 then 0 else EEXIST) s2).

(** [upisnd_setup_do(ctx, name, request_fmt, ...)]; [request] is the text
    that [request_fmt] and its arguments format to. *)
Definition upisnd_setup_do (w : world) (ctx : option ptr) (name : option string)
    (request : string) (s : state) : option ptr * state :=
  match ctx, name with
  | Some c, Some nm =>
    let name_len := upisnd_validate_element_name (Some nm) in
    if name_len <? 0 then (None, set_errno EINVAL s)
    else
      match ctxs s !! c with
      | None => (None, set_fault s)
      | Some cx =>
        let '(err, path) := upisnd_path UPISND_PATH_SETUP (ctx_sysfs_base cx) in
        if err <? 0 then (None, set_errno (- err) s)
        else
          let name_len := name_len + 1 in
          let n := strlen request in
          if (n <? 0) || (n + name_len >=? UPISND_MAX_REQUEST_LENGTH)
          then (None, set_errno EINVAL s)
          else
            let payload := nm +:+ " " +:+ request in
            match upisnd_element_get (Some nm) s with
            | (Some el, s1) => setup_finish w el true false path payload s1
            | (None, s1) =>
              match upisnd_element_alloc w nm c s1 with
              | (None, s2) => (None, set_errno ENOMEM s2)
              | (Some el, s2) =>
                let '(existed_in_sysfs, s3) :=
                  upisnd_element_exists_in_sysfs w (ctx_sysfs_base cx) nm s2 in
                setup_finish w el false existed_in_sysfs path payload s3
              end
            end
      end
  | _, _ => (None, set_errno EINVAL s)
  end.

Definition upisnd_setup_encoder (w : world) (name : option string)
    (pin_a pull_a pin_b pull_b : Z) (s : state) : option ptr * state :=
  upisnd_setup_do w (upisnd_active_ctx s) name
    ("encoder " +:+ upisnd_pin_to_str pin_a +:+ " " +:+ upisnd_pin_pull_to_str pull_a
     +:+ " " +:+ upisnd_pin_to_str pin_b +:+ " " +:+ upisnd_pin_pull_to_str pull_b) s.

Definition upisnd_setup_analog_input (w : world) (name : option string) (pin : Z) (s : state)
  : option ptr * state :=
  upisnd_setup_do w (upisnd_active_ctx s) name
    ("analog_in " +:+ upisnd_pin_to_str pin +:+ " ") s.

Definition upisnd_setup_gpio_input (w : world) (name : option string) (pin pull : Z)
    (s : state) : option ptr * state :=
  upisnd_setup_do w (upisnd_active_ctx s) name
    ("gpio " +:+ upisnd_pin_to_str pin +:+ " input " +:+ upisnd_pin_pull_to_str pull) s.

Definition upisnd_setup_gpio_output (w : world) (name : option string) (pin : Z) (high : bool)
    (s : state) : option ptr * state :=
  upisnd_setup_do w (upisnd_active_ctx s) name
    ("gpio " +:+ upisnd_pin_to_str pin +:+ " output " +:+ (if high then "1" else "0")) s.

Definition upisnd_setup_activity (w : world) (name : option string) (pin activity : Z)
    (s : state) : option ptr * state :=
  upisnd_setup_do w (upisnd_active_ctx s) name
    ("activity_" +:+ upisnd_activity_to_str activity +:+ " " +:+ upisnd_pin_to_str pin) s.

Definition upisnd_setup (w : world) (name : option string) (setup : Z) (s : state)
  : option ptr * state :=
  let t := upisnd_setup_get_element_type setup in
  if t =? UPISND_ELEMENT_TYPE_ENCODER then
    upisnd_setup_encoder w name
      (upisnd_internal_setup_get_pin_id setup)
      (upisnd_internal_setup_get_gpio_pull setup)
      (upisnd_internal_setup_get_encoder_pin_b_id setup)
      (upisnd_internal_setup_get_encoder_pin_b_pull setup) s
  else if t =? UPISND_ELEMENT_TYPE_ANALOG_INPUT then
    upisnd_setup_analog_input w name (upisnd_internal_setup_get_pin_id setup) s
  else if t =? UPISND_ELEMENT_TYPE_GPIO then
    let d := upisnd_internal_setup_get_gpio_dir setup in
    if d =? UPISND_PIN_DIR_INPUT then
      upisnd_setup_gpio_input w name (upisnd_internal_setup_get_pin_id setup)
                              (upisnd_internal_setup_get_gpio_pull setup) s
    else if d =? UPISND_PIN_DIR_OUTPUT then
      upisnd_setup_gpio_output w name (upisnd_internal_setup_get_pin_id setup)
                               (upisnd_internal_setup_get_gpio_output setup) s
    else (None, set_errno EINVAL s)
  else if t =? UPISND_ELEMENT_TYPE_ACTIVITY then
    upisnd_setup_activity w name (upisnd_internal_setup_get_pin_id setup)
                          (upisnd_internal_setup_get_activity_type setup) s
  else (None, set_errno EINVAL s).

(** ** Retrying attribute I/O *)

(** The [do ... while] loop of [upisnd_element_attr_open], one iteration per
    unit of [fuel]; [attempt] counts the opens made so far.  [None] only when
    the fuel runs out. *)
Fixpoint attr_open_loop (fuel : nat) (io : attr_io) (path : string) (flags : Z)
    (started_at : Z) (attempt : nat) (s : state) : option (Z * state) :=
  match fuel with
  | O => None
  | S fuel' =>
    let s1 := log (EvOpen path flags) s in
    match a_open io attempt with
    | Opened fd => Some (Z.of_N fd, set_errno 0 s1)
    | OpenErr e =>
      let s2 := set_errno (Z.pos e) s1 in
      if (errno s2 =? ENOENT) || (errno s2 =? EACCES) then
        let s3 := usleep 1000 s2 in
        if uint32 (upisnd_get_ms s3 - started_at) <? UPISND_TIMEOUT_MS
        then attr_open_loop fuel' io path flags started_at (S attempt) s3
        else Some (-1, s3)
      else Some (-1, s2)
    end
  end.

(** Iterations that the loop can make before the timeout check fails. *)
Definition attr_open_fuel : nat := Z.to_nat UPISND_TIMEOUT_MS.

Definition upisnd_element_attr_open (w : world) (attr : upisnd_element_attr_e) (flags : Z)
    (el : option ptr) (s : state) : Z * state :=
  match el with
  | None => (-1, set_errno EINVAL s)
  | Some h =>
    match nodes s !! h with
    | None => (-1, set_fault s)
    | Some nd =>
      match ctxs s !! el_ctx nd with
      | None => (-1, set_fault s)
      | Some cx =>
        let '(err, path) := upisnd_element_path (ctx_sysfs_base cx) (el_name nd) attr in
        if err <? 0 then (-1, set_errno (- err) s)
        else
          match attr_open_loop attr_open_fuel (w_attr w attr) path flags
                               (upisnd_get_ms s) 0 s with
          | Some r => r
          | None => (-1, s)
          end
      end
    end
  end.

(** The path behind the descriptor that [upisnd_element_attr_open] returns,
    for the trace. *)
Definition attr_path (attr : upisnd_element_attr_e) (el : option ptr) (s : state) : string :=
  match el with
  | None => ""
  | Some h =>
    match nodes s !! h with
    | None => ""
    | Some nd =>
      match ctxs s !! el_ctx nd with
      | None => ""
      | Some cx => snd (upisnd_element_path (ctx_sysfs_base cx) (el_name nd) attr)
      end
    end
  end.

(** [lseek(fd, 0, SEEK_SET) < 0 || write(fd, s, n) < 0 || fdatasync(fd) < 0]:
    whether the disjunction holds. *)
Definition seek_write_sync (io : attr_io) (path text : string) (s : state) : bool * state :=
  let s1 := log (EvLseek path) s in
  match a_lseek io with
  | SysErr e => (true, set_errno (Z.pos e) s1)
  | SysOk =>
    let s2 := log (EvWrite path text) s1 in
    match a_write io with
    | SysErr e => (true, set_errno (Z.pos e) s2)
    | SysOk =>
      let s3 := log (EvFdatasync path) s2 in
      match a_fdatasync io with
      | SysErr e => (true, set_errno (Z.pos e) s3)
      | SysOk => (false, s3)
      end
    end
  end.

(** [upisnd_value_read(fd)]; the descriptor is given by the path it was
    opened on and the outcomes of the calls on it. *)
Definition upisnd_value_read (io : attr_io) (strtol : string -> Z) (path : string) (s : state)
  : Z * state :=
  let s1 := log (EvLseek path) (set_errno 0 s) in
  match a_lseek io with
  | SysErr e => (-1, set_errno (Z.pos e) s1)
  | SysOk =>
    let s2 := log (EvRead path 15) s1 in
    match a_read io with
    | ReadErr e => (-1, set_errno (Z.pos e) s2)
    | ReadOk data => (int32 (strtol (substring 0 15 data)), s2)
    end
  end.

(** [upisnd_value_write(fd, value)]. *)
Definition upisnd_value_write (io : attr_io) (path : string) (value : Z) (s : state)
  : Z * state :=
  let text : string := pretty value in
  let '(failed, s1) := seek_write_sync io path text (set_errno 0 s) in
  if failed then (-1, s1) else (strlen text, s1).

Definition upisnd_element_attr_read_int (w : world) (attr : upisnd_element_attr_e)
    (el : option ptr) (s : state) : Z * state :=
  let '(fd, s1) := upisnd_element_attr_open w attr (Z.lor O_CLOEXEC O_RDONLY) el s in
  if fd <? 0 then (-1, s1)
  else
    let path := attr_path attr el s in
    let '(value, s2) := upisnd_value_read (w_attr w attr) (w_strtol w) path s1 in
    let err := errno s2 in
    (value, set_errno err (log (EvClose path) s2)).

Definition upisnd_element_attr_write_int (w : world) (attr : upisnd_element_attr_e)
    (el : option ptr) (i : Z) (s : state) : Z * state :=
  let '(fd, s1) := upisnd_element_attr_open w attr (Z.lor O_CLOEXEC O_WRONLY) el s in
  if fd <? 0 then (-1, s1)
  else
    let path := attr_path attr el s in
    let '(r, s2) := upisnd_value_write (w_attr w attr) path i s1 in
    let err := if r <? 0 then errno s2 else 0 in
    (of_bool (err =? 0), set_errno err (log (EvClose path) s2)).

(** The cut that [strpbrk(dst, UPISND_TEXT_SEPARATORS)] makes. *)
Fixpoint trim_at_separator (s : string) : string :=
  match s with
  | EmptyString => EmptyString
  | String a s' =>
    match strchr UPISND_TEXT_SEPARATORS a with
    | Some _ => EmptyString
    | None => String a (trim_at_separator s')
    end
  end.

(** [upisnd_element_attr_read_str(dst, n, attr, el)]; [dst] is [None] for a
    NULL buffer, and the second component of the result is what the buffer
    holds afterwards. *)
Definition upisnd_element_attr_read_str (w : world) (dst : option string) (n : Z)
    (attr : upisnd_element_attr_e) (el : option ptr) (s : state)
  : Z * option string * state :=
  match dst with
  | None => (-1, dst, set_errno EINVAL s)
  | Some _ =>
    if n <? 2 then (-1, dst, set_errno EINVAL s)
    else
      let '(fd, s1) := upisnd_element_attr_open w attr (Z.lor O_CLOEXEC O_RDONLY) el s in
      if fd <? 0 then (-1, dst, s1)
      else
        let path := attr_path attr el s in
        let s2 := log (EvRead path (n - 1)) s1 in
        let '(r, dst1, err, s3) :=
          match a_read (w_attr w attr) with
          | ReadOk data =>
            let got := substring 0 (Z.to_nat (n - 1)) data in
            (strlen got, Some (trim_at_separator got), 0, s2)
          | ReadErr e =>
            let s' := set_errno (Z.pos e) s2 in (-1, dst, errno s', s')
          end in
        (r, dst1, set_errno err (log (EvClose path) s3))
  end.

Definition upisnd_element_attr_write_str (w : world) (attr : upisnd_element_attr_e)
    (el : option ptr) (str : string) (s : state) : Z * state :=
  let '(fd, s1) := upisnd_element_attr_open w attr (Z.lor O_CLOEXEC O_WRONLY) el s in
  if fd <? 0 then (-1, s1)
  else
    let path := attr_path attr el s in
    let text := substring 0 (Z.to_nat UPISND_MAX_REQUEST_LENGTH) str in
    let n := strlen text in
    let '(failed, s2) := seek_write_sync (w_attr w attr) path text (set_errno 0 s1) in
    let err := if failed then errno s2 else 0 in
    let s3 := log (EvClose path) s2 in
    if negb (err =? 0) then (-1, set_errno err s3) else (n, s3).

(** ** Public element operations *)

Definition upisnd_element_open_value_fd (w : world) (el : option ptr) (flags : Z) (s : state)
  : Z * state :=
  upisnd_element_attr_open w UPISND_ELEMENT_ATTR_VALUE flags el s.

Definition upisnd_element_get_name (el : option ptr) (s : state) : option string * state :=
  match el with
  | None => (None, s)
  | Some h =>
    match nodes s !! h with
    | None => (None, set_fault s)
    | Some nd => (Some (el_name nd), s)
    end
  end.

Definition upisnd_element_get_type (w : world) (el : option ptr) (s : state) : Z * state :=
  match el with
  | None => (UPISND_ELEMENT_TYPE_INVALID, s)
  | Some _ =>
    let '(n, type, s1) :=
      upisnd_element_attr_read_str w (Some "") 64 UPISND_ELEMENT_ATTR_TYPE el s in
    if n <? 0 then (UPISND_ELEMENT_TYPE_INVALID, s1)
    else (upisnd_str_to_element_type (default "" type), s1)
  end.

(** The tail shared by [upisnd_element_get_pin] and
    [upisnd_element_encoder_get_pin_b]; the argument of
    [upisnd_is_pin_valid] is converted to [upisnd_pin_t]. *)
Definition pin_of_int (i : Z) : Z :=
  if upisnd_is_pin_valid (int8 i) then int8 i else UPISND_PIN_INVALID.

Definition upisnd_element_get_pin (w : world) (el : option ptr) (s : state) : Z * state :=
  match el with
  | None => (UPISND_PIN_INVALID, set_errno EINVAL s)
  | Some _ =>
    let '(i, s1) := upisnd_element_attr_read_int w UPISND_ELEMENT_ATTR_PIN el s in
    (pin_of_int i, s1)
  end.

Definition upisnd_element_encoder_get_pin_b (w : world) (el : option ptr) (s : state)
  : Z * state :=
  match el with
  | None => (UPISND_PIN_INVALID, set_errno EINVAL s)
  | Some _ =>
    let '(i, s1) := upisnd_element_attr_read_int w UPISND_ELEMENT_ATTR_PIN_B el s in
    (pin_of_int i, s1)
  end.

(** The body shared by [upisnd_element_gpio_get_direction],
    [upisnd_element_get_pull] and [upisnd_element_activity_get_type]: read
    the token of [attr] and parse it with [parse]; every invalid sentinel of
    the three enumerations is -1. *)
Definition element_get_enum (w : world) (parse : string -> Z) (attr : upisnd_element_attr_e)
    (el : option ptr) (s : state) : Z * state :=
  match el with
  | None => (-1, set_errno EINVAL s)
  | Some _ =>
    let '(err, text, s1) := upisnd_element_attr_read_str w (Some "") 64 attr el s in
    if err <? 0 then (-1, s1)
    else
      let v := parse (default "" text) in
      if v =? -1 then (-1, set_errno EINVAL s1) else (v, s1)
  end.

Definition upisnd_element_gpio_get_direction (w : world) (el : option ptr) (s : state)
  : Z * state :=
  element_get_enum w upisnd_str_to_pin_direction UPISND_ELEMENT_ATTR_DIRECTION el s.

Definition upisnd_element_get_pull (w : world) (el : option ptr)
    (attr : upisnd_element_attr_e) (s : state) : Z * state :=
  element_get_enum w upisnd_str_to_pin_pull attr el s.

Definition upisnd_element_gpio_get_pull (w : world) (el : option ptr) (s : state) : Z * state :=
  upisnd_element_get_pull w el UPISND_ELEMENT_ATTR_PIN_PULL s.

Definition upisnd_element_encoder_get_pin_b_pull (w : world) (el : option ptr) (s : state)
  : Z * state :=
  upisnd_element_get_pull w el UPISND_ELEMENT_ATTR_PIN_B_PULL s.

Definition upisnd_element_activity_get_type (w : world) (el : option ptr) (s : state)
  : Z * state :=
  element_get_enum w upisnd_str_to_activity UPISND_ELEMENT_ATTR_ACTIVITY_TYPE el s.

(** *** Extended options *)

Definition UPISND_VALUE_MODE_INVALID : Z := -1.
Definition UPISND_VALUE_MODE_CLAMP : Z := 0.
Definition UPISND_VALUE_MODE_WRAP : Z := 1.
Definition UPISND_VALUE_MODE_COUNT : Z := 2.

Definition upisnd_value_mode_to_str (mode : Z) : string :=
  if mode =? UPISND_VALUE_MODE_CLAMP then "clamp"
  else if mode =? UPISND_VALUE_MODE_WRAP then "wrap"
  else "".

Definition upisnd_str_to_value_mode : string -> Z :=
  str_to_enum upisnd_value_mode_to_str UPISND_VALUE_MODE_COUNT.

Record upisnd_range_t : Type := mk_range { low : Z; high : Z }.

Record upisnd_encoder_opts_t : Type := mk_encoder_opts {
  enc_input_range : upisnd_range_t;
  enc_value_range : upisnd_range_t;
  enc_value_mode : Z
}.

Record upisnd_analog_input_opts_t : Type := mk_analog_input_opts {
  ain_input_range : upisnd_range_t;
  ain_value_range : upisnd_range_t
}.

(** The [for] loop over the table [t] of the two [get_opts] functions: each
    integer read is stored before [errno] is looked at.  The [bool] is
    [false] when the loop left through [return -1]. *)
Definition read_ranges (w : world) (el : option ptr) (ir vr : upisnd_range_t) (s : state)
  : bool * upisnd_range_t * upisnd_range_t * state :=
  let '(v0, s0) := upisnd_element_attr_read_int w UPISND_ELEMENT_ATTR_INPUT_MIN el s in
  let ir0 := mk_range v0 (high ir) in
  if negb (errno s0 =? 0) then (false, ir0, vr, s0)
  else
    let '(v1, s1) := upisnd_element_attr_read_int w UPISND_ELEMENT_ATTR_INPUT_MAX el s0 in
    let ir1 := mk_range (low ir0) v1 in
    if negb (errno s1 =? 0) then (false, ir1, vr, s1)
    else
      let '(v2, s2) := upisnd_element_attr_read_int w UPISND_ELEMENT_ATTR_VALUE_LOW el s1 in
      let vr2 := mk_range v2 (high vr) in
      if negb (errno s2 =? 0) then (false, ir1, vr2, s2)
      else
        let '(v3, s3) := upisnd_element_attr_read_int w UPISND_ELEMENT_ATTR_VALUE_HIGH el s2 in
        let vr3 := mk_range (low vr2) v3 in
        if negb (errno s3 =? 0) then (false, ir1, vr3, s3)
        else (true, ir1, vr3, s3).

Definition upisnd_element_encoder_get_opts (w : world) (el : option ptr)
    (opts : upisnd_encoder_opts_t) (s : state) : Z * upisnd_encoder_opts_t * state :=
  let '(ok, ir, vr, s1) := read_ranges w el (enc_input_range opts) (enc_value_range opts) s in
  let opts1 := mk_encoder_opts ir vr (enc_value_mode opts) in
  if negb ok then (-1, opts1, s1)
  else
    let '(err, mode, s2) :=
      upisnd_element_attr_read_str w (Some "") 64 UPISND_ELEMENT_ATTR_VALUE_MODE el s1 in
    if err <? 0 then (-1, opts1, s2)
    else
      let m := upisnd_str_to_value_mode (default "" mode) in
      let opts2 := mk_encoder_opts ir vr m in
      if m =? UPISND_VALUE_MODE_INVALID then (-1, opts2, set_errno EINVAL s2)
      else (0, opts2, s2).

Definition upisnd_element_analog_input_get_opts (w : world) (el : option ptr)
    (opts : upisnd_analog_input_opts_t) (s : state)
  : Z * upisnd_analog_input_opts_t * state :=
  let '(ok, ir, vr, s1) := read_ranges w el (ain_input_range opts) (ain_value_range opts) s in
  ((if ok then 0 else -1), mk_analog_input_opts ir vr, s1).

(** The chain of [(err = upisnd_element_attr_write_int(..)) >= 0 && ..] over
    the four range attributes; returns the last [err] assigned. *)
Definition write_ranges (w : world) (el : option ptr) (ir vr : upisnd_range_t) (s : state)
  : Z * state :=
  let '(e0, s0) := upisnd_element_attr_write_int w UPISND_ELEMENT_ATTR_INPUT_MIN el (low ir) s in
  if negb (e0 >=? 0) then (e0, s0)
  else
    let '(e1, s1) :=
      upisnd_element_attr_write_int w UPISND_ELEMENT_ATTR_INPUT_MAX el (high ir) s0 in
    if negb (e1 >=? 0) then (e1, s1)
    else
      let '(e2, s2) :=
        upisnd_element_attr_write_int w UPISND_ELEMENT_ATTR_VALUE_LOW el (low vr) s1 in
      if negb (e2 >=? 0) then (e2, s2)
      else upisnd_element_attr_write_int w UPISND_ELEMENT_ATTR_VALUE_HIGH el (high vr) s2.

Definition upisnd_element_encoder_set_opts (w : world) (el : option ptr)
    (opts : upisnd_encoder_opts_t) (s : state) : Z * state :=
  let '(e, s1) := write_ranges w el (enc_input_range opts) (enc_value_range opts) s in
  let '(err, s2) :=
    if negb (e >=? 0) then (e, s1)
    else upisnd_element_attr_write_str w UPISND_ELEMENT_ATTR_VALUE_MODE el
           (upisnd_value_mode_to_str (enc_value_mode opts)) s1 in
  ((if err >=? 0 then 0 else err), s2).

Definition upisnd_element_analog_input_set_opts (w : world) (el : option ptr)
    (opts : upisnd_analog_input_opts_t) (s : state) : Z * state :=
  let '(err, s1) := write_ranges w el (ain_input_range opts) (ain_value_range opts) s in
  ((if err >=? 0 then 0 else err), s1).

(** * Vocabulary of the statements *)

(** ** Descriptor fields *)

(** The fields of the descriptor other than the type tag. *)
Inductive field : Type :=
| F_pin_id
| F_gpio_pull
| F_gpio_dir
| F_gpio_output
| F_encoder_pin_b_id
| F_encoder_pin_b_pull
| F_activity_type.

(** The public setter and getter of a field, and the value the getter
    gives when the field does not apply. *)
Definition setter (f : field) (setup value : Z) : Z * Z :=
  match f with
  | F_pin_id => upisnd_setup_set_pin_id setup value
  | F_gpio_pull => upisnd_setup_set_gpio_pull setup value
  | F_gpio_dir => upisnd_setup_set_gpio_dir setup value
  | F_gpio_output => upisnd_setup_set_gpio_output setup (to_bool value)
  | F_encoder_pin_b_id => upisnd_setup_set_encoder_pin_b_id setup value
  | F_encoder_pin_b_pull => upisnd_setup_set_encoder_pin_b_pull setup value
  | F_activity_type => upisnd_setup_set_activity_type setup value
  end.

Definition getter (f : field) (setup : Z) : Z :=
  match f with
  | F_pin_id => upisnd_setup_get_pin_id setup
  | F_gpio_pull => upisnd_setup_get_gpio_pull setup
  | F_gpio_dir => upisnd_setup_get_gpio_dir setup
  | F_gpio_output => upisnd_setup_get_gpio_output setup
  | F_encoder_pin_b_id => upisnd_setup_get_encoder_pin_b_id setup
  | F_encoder_pin_b_pull => upisnd_setup_get_encoder_pin_b_pull setup
  | F_activity_type => upisnd_setup_get_activity_type setup
  end.

Definition sentinel (f : field) : Z :=
  match f with
  | F_pin_id | F_encoder_pin_b_id => UPISND_PIN_INVALID
  | F_gpio_pull | F_encoder_pin_b_pull => UPISND_PIN_PULL_INVALID
  | F_gpio_dir => UPISND_PIN_DIR_INVALID
  | F_gpio_output => - EINVAL
  | F_activity_type => UPISND_ACTIVITY_INVALID
  end.

(** The fields an element type has, as api.h documents them. *)
Definition field_of_type (f : field) (t : Z) : Prop :=
  match f with
  | F_pin_id =>
    t = UPISND_ELEMENT_TYPE_ENCODER \/ t = UPISND_ELEMENT_TYPE_ANALOG_INPUT
    \/ t = UPISND_ELEMENT_TYPE_GPIO \/ t = UPISND_ELEMENT_TYPE_ACTIVITY
  | F_gpio_pull => t = UPISND_ELEMENT_TYPE_ENCODER \/ t = UPISND_ELEMENT_TYPE_GPIO
  | F_gpio_dir | F_gpio_output => t = UPISND_ELEMENT_TYPE_GPIO
  | F_encoder_pin_b_id | F_encoder_pin_b_pull => t = UPISND_ELEMENT_TYPE_ENCODER
  | F_activity_type => t = UPISND_ELEMENT_TYPE_ACTIVITY
  end.

(** A field applies to a descriptor when the stored type has it and, for
    the two fields of a GPIO that depend on its direction, the stored
    direction is the right one: pull on a GPIO input, level on a GPIO
    output. *)
Definition applicable (f : field) (setup : Z) : Prop :=
  let t := upisnd_setup_get_element_type setup in
  field_of_type f t /\
  match f with
  | F_gpio_pull =>
    t = UPISND_ELEMENT_TYPE_GPIO -> upisnd_setup_get_gpio_dir setup = UPISND_PIN_DIR_INPUT
  | F_gpio_output => upisnd_setup_get_gpio_dir setup = UPISND_PIN_DIR_OUTPUT
  | _ => True
  end.

(** The values of the enumeration a field holds. *)
Definition valid_value (f : field) (v : Z) : Prop :=
  match f with
  | F_pin_id | F_encoder_pin_b_id => 0 <= v < UPISND_PIN_COUNT
  | F_gpio_pull | F_encoder_pin_b_pull => 0 <= v < UPISND_PIN_PULL_COUNT
  | F_gpio_dir => 0 <= v < UPISND_PIN_DIR_COUNT
  | F_gpio_output => 0 <= v <= 1
  | F_activity_type => 0 <= v < UPISND_ACTIVITY_COUNT
  end.

(** What a field holds after its setter stored [v]: the low bits of [v]
    that fit the field, read back through the cast of the getter. *)
Definition stored (f : field) (v : Z) : Z :=
  match f with
  | F_pin_id | F_encoder_pin_b_id => int8 (v mod 2 ^ 8)
  | F_gpio_pull | F_encoder_pin_b_pull | F_activity_type => v mod 2 ^ 2
  | F_gpio_dir => v mod 2 ^ 1
  | F_gpio_output => of_bool (to_bool v)
  end.

(** Set the type tag, set the field, read the field back. *)
Definition roundtrip_after_set_type (setup0 t : Z) (f : field) (v : Z) : Prop :=
  let d := snd (upisnd_setup_set_element_type setup0 t) in
  fst (setter f d v) = 0 /\ getter f (snd (setter f d v)) = v.

(** A setter rejects a value: it reports an error and stores nothing. *)
Definition rejects (f : field) (setup v : Z) : Prop :=
  fst (setter f setup v) <> 0 /\ snd (setter f setup v) = setup.

(** ** Registry *)

(** A link of the list of context [c] points to a live node of [c] that
    holds at least one reference. *)
Definition live_in (s : state) (c h : ptr) : Prop :=
  match nodes s !! h with
  | Some nd => el_ctx nd = c /\ 1 <= el_refcount nd <= INT_MAX
  | None => False
  end.

Definition names_of (s : state) (l : list ptr) : list string :=
  omap (fun h => el_name <$> nodes s !! h) l.

Definition ctx_ok (s : state) (c : ptr) (cx : ctx_t) : Prop :=
  Forall (live_in s c) (ctx_elements cx) /\ NoDup (names_of s (ctx_elements cx)).

(** Well-formed states: no fault so far, the active context is live, and
    every registry links live nodes of its own context under pairwise
    different names. *)
Definition wf (s : state) : Prop :=
  fault s = false
  /\ (forall c, upisnd_active_ctx s = Some c -> is_Some (ctxs s !! c))
  /\ forall c cx, ctxs s !! c = Some cx -> ctx_ok s c cx.

(** Counts stay below the largest [int]: the one assumption on the use of
    the library under which its counts mean what they say. *)
Definition counts_bounded (s : state) : Prop :=
  forall h nd, nodes s !! h = Some nd -> el_refcount nd < INT_MAX.

(** Context [c] holds [name] in its registry, under handle [h]. *)
Definition registered (s : state) (c : ptr) (name : string) (h : ptr) : Prop :=
  exists cx nd, ctxs s !! c = Some cx /\ h ∈ ctx_elements cx
                /\ nodes s !! h = Some nd /\ el_name nd = name.

Definition refcount_of (s : state) (h : ptr) : option Z := el_refcount <$> nodes s !! h.

Definition registry_of (s : state) (c : ptr) : option (list ptr) :=
  ctx_elements <$> ctxs s !! c.

(** ** Traces *)

(** The writes of a trace, as (path, payload). *)
Fixpoint writes (tr : list event) : list (string * string) :=
  match tr with
  | [] => []
  | EvWrite p d :: tr' => (p, d) :: writes tr'
  | _ :: tr' => writes tr'
  end.

(** The opens of a trace. *)
Fixpoint opens (tr : list event) : list string :=
  match tr with
  | [] => []
  | EvOpen p _ :: tr' => p :: opens tr'
  | _ :: tr' => opens tr'
  end.

(** The sleeps of a trace. *)
Fixpoint sleeps (tr : list event) : list Z :=
  match tr with
  | [] => []
  | EvSleep us :: tr' => us :: sleeps tr'
  | _ :: tr' => sleeps tr'
  end.

Definition setup_node (base : string) : string := base +:+ "/setup".
Definition unsetup_node (base : string) : string := base +:+ "/unsetup".

(** ** The world *)

Definition opened (r : open_res) : Prop :=
  match r with Opened _ => True | OpenErr _ => False end.

(** Every call of the transaction succeeds. *)
Definition txn_ok (t : txn) : Prop :=
  opened (t_open t) /\ t_write t = SysOk /\ t_fdatasync t = SysOk /\ t_close t = SysOk.

(** The transaction fails, and [e] is the error of the call that makes it
    fail: the open, or else the close, or else the write, or else the
    fdatasync. *)
Inductive txn_fails_with (t : txn) (e : positive) : Prop :=
| fails_open : t_open t = OpenErr e -> txn_fails_with t e
| fails_close : opened (t_open t) -> t_close t = SysErr e -> txn_fails_with t e
| fails_write :
    opened (t_open t) -> t_close t = SysOk -> t_write t = SysErr e -> txn_fails_with t e
| fails_fdatasync :
    opened (t_open t) -> t_close t = SysOk -> t_write t = SysOk ->
    t_fdatasync t = SysErr e -> txn_fails_with t e.

(** The release of an element of a context rooted at [base] reaches the
    driver: the path of the unsetup node fits its buffer and the node opens. *)
Definition release_reaches_driver (w : world) (base : string) : Prop :=
  strlen (unsetup_node base) < UPISND_MAX_BASE_PATH_LENGTH /\ opened (t_open (w_unsetup w)).

(** The path of the setup node and the request fit their buffers. *)
Definition setup_request_fits (base name request : string) : Prop :=
  strlen (setup_node base) < UPISND_MAX_BASE_PATH_LENGTH
  /\ strlen name + 1 + strlen request < UPISND_MAX_REQUEST_LENGTH.

(** The setup request reaches the driver and is accepted: it fits, and every
    call of the transaction on the setup node succeeds. *)
Definition setup_goes_through (w : world) (base name request : string) : Prop :=
  setup_request_fits base name request /\ txn_ok (w_setup w).

(** Two states with the same heap, contexts, clock and fault flag: they
    differ at most in errno and in the trace. *)
Definition same_store (s s' : state) : Prop :=
  ctxs s' = ctxs s /\ nodes s' = nodes s /\ upisnd_active_ctx s' = upisnd_active_ctx s
  /\ fault s' = fault s /\ now_ms s' = now_ms s.

(** One pass through the body of the loop of [upisnd_element_attr_open]
    that ends in [continue]: the open fails with [e], the loop sleeps. *)
Definition retry_once (path : string) (flags : Z) (e : positive) (s : state) : state :=
  usleep 1000 (set_errno (Z.pos e) (log (EvOpen path flags) s)).

(** ** Descriptors built through the public setters *)

Definition gpio_output_descriptor (pin : Z) (high : bool) : Z :=
  let d0 := snd (upisnd_setup_set_element_type 0 UPISND_ELEMENT_TYPE_GPIO) in
  let d1 := snd (upisnd_setup_set_pin_id d0 pin) in
  let d2 := snd (upisnd_setup_set_gpio_dir d1 UPISND_PIN_DIR_OUTPUT) in
  snd (upisnd_setup_set_gpio_output d2 high).

Definition encoder_descriptor (pin_a pull_a pin_b pull_b : Z) : Z :=
  let d0 := snd (upisnd_setup_set_element_type 0 UPISND_ELEMENT_TYPE_ENCODER) in
  let d1 := snd (upisnd_setup_set_pin_id d0 pin_a) in
  let d2 := snd (upisnd_setup_set_gpio_pull d1 pull_a) in
  let d3 := snd (upisnd_setup_set_encoder_pin_b_id d2 pin_b) in
  snd (upisnd_setup_set_encoder_pin_b_pull d3 pull_b).

(** The open attempt fails with one of the two errors the loop retries on. *)
Definition retried (r : open_res) : Prop :=
  r = OpenErr 2%positive \/ r = OpenErr 13%positive.

(** The interval of [usleep(1000)], in milliseconds. *)
Definition backoff_ms : Z := 1000 / 1000.

(** ** Example states and worlds *)

Definition ctx_one : ctx_t := mk_ctx 1 UPISND_SYSFS_DEFAULT_BASE_PATH [5%positive].
Definition node_one : node := mk_node 1 "enc" 1%positive.

(** One context on the default root, active, holding the element enc. *)
Definition state_one : state :=
  mk_state {[ 1%positive := ctx_one ]} {[ 5%positive := node_one ]}
           (Some 1%positive) 0 0 [] false.

Definition txn_good : txn := mk_txn (Opened 3) SysOk SysOk SysOk.

Definition attr_io_good : attr_io :=
  mk_attr_io (fun _ => Opened 4) SysOk (ReadOk "0") SysOk SysOk.

(** Every call succeeds. *)
Definition world_good : world :=
  mk_world (Some 7%positive) false txn_good txn_good (fun _ => attr_io_good) (fun _ => 0).

(** The setup node does not open: permission denied. *)
Definition world_setup_denied : world :=
  mk_world (Some 7%positive) false (mk_txn (OpenErr 13) SysOk SysOk SysOk) txn_good
           (fun _ => attr_io_good) (fun _ => 0).

(** An attribute appears at its third open attempt. *)
Definition world_late_attr : world :=
  mk_world (Some 7%positive) false txn_good txn_good
           (fun _ => mk_attr_io (fun i => if (i <? 2)%nat then OpenErr 2 else Opened 4)
                                SysOk (ReadOk "0") SysOk SysOk)
           (fun _ => 0).

(** * Pin names *)

(** [isdigit] in the C locale. *)
Definition isdigit (c : ascii) : bool :=
  let n := Z.of_nat (nat_of_ascii c) in (48 <=? n) && (n <=? 57).

(** The switch on the first character in [upisnd_str_to_pin]: the bank
    letter, in upper case, or [None] for the default branch. *)
Definition pin_bank (c : ascii) : option ascii :=
  if Ascii.eqb c "a" || Ascii.eqb c "A" then Some "A"%char
  else if Ascii.eqb c "b" || Ascii.eqb c "B" then Some "B"%char
  else None.

(** [upisnd_str_to_pin]; [None] is a NULL [str]. *)
Definition upisnd_str_to_pin (str : option string) : Z :=
  match str with
  | Some (String c0 (String c1 (String c2 EmptyString))) =>
    if negb (isdigit c1) || negb (isdigit c2) then UPISND_PIN_INVALID
    else
      match pin_bank c0 with
      | None => UPISND_PIN_INVALID
      | Some bank =>
        let sanitized := String bank (String c1 (String c2 EmptyString)) in
        match List.find (fun i => String.eqb sanitized (nth i UPISND_PIN_NAMES ""%string))
                        (seq 0 (Z.to_nat UPISND_PIN_COUNT)) with
        | Some i => Z.of_nat i
        | None => UPISND_PIN_INVALID
        end
      end
  | _ => UPISND_PIN_INVALID
  end.

(** The name of a pin with its bank letter in lower case. *)
Definition lower_bank (s : string) : string :=
  match s with
  | String c s' =>
    String (if Ascii.eqb c "A" then "a" else if Ascii.eqb c "B" then "b" else c)%char s'
  | EmptyString => EmptyString
  end.

(** The five enumerations that [UPISND_DEFINE_STR_TO_ENUM] gives a parser. *)
Inductive token_enum : Type :=
| E_pin_pull
| E_activity
| E_element_type
| E_pin_direction
| E_value_mode.

Definition enum_to_str (e : token_enum) : Z -> string :=
  match e with
  | E_pin_pull => upisnd_pin_pull_to_str
  | E_activity => upisnd_activity_to_str
  | E_element_type => upisnd_element_type_to_str
  | E_pin_direction => upisnd_pin_direction_to_str
  | E_value_mode => upisnd_value_mode_to_str
  end.

Definition str_to_enum_of (e : token_enum) : string -> Z :=
  match e with
  | E_pin_pull => upisnd_str_to_pin_pull
  | E_activity => upisnd_str_to_activity
  | E_element_type => upisnd_str_to_element_type
  | E_pin_direction => upisnd_str_to_pin_direction
  | E_value_mode => upisnd_str_to_value_mode
  end.

Definition enum_count (e : token_enum) : Z :=
  match e with
  | E_pin_pull => UPISND_PIN_PULL_COUNT
  | E_activity => UPISND_ACTIVITY_COUNT
  | E_element_type => UPISND_ELEMENT_TYPE_COUNT
  | E_pin_direction => UPISND_PIN_DIR_COUNT
  | E_value_mode => UPISND_VALUE_MODE_COUNT
  end.

(** ** Where the fields sit in the descriptor *)

(** The arguments [shift] and [bits] of the line of
    [UPISND_DEFINE_INTERNAL_SETUP_FIELD] that defines a field. *)
Definition field_shift (f : field) : Z :=
  match f with
  | F_pin_id => 3
  | F_gpio_pull => 11
  | F_gpio_dir => 13
  | F_gpio_output => 12
  | F_encoder_pin_b_id => 13
  | F_encoder_pin_b_pull => 21
  | F_activity_type => 11
  end.

Definition field_bits (f : field) : Z :=
  match f with
  | F_pin_id | F_encoder_pin_b_id => 8
  | F_gpio_pull | F_encoder_pin_b_pull | F_activity_type => 2
  | F_gpio_dir | F_gpio_output => 1
  end.

(** The value as its setter receives it, and the cast of the getter. *)
Definition field_arg (f : field) (v : Z) : Z :=
  match f with F_gpio_output => of_bool (to_bool v) | _ => v end.

Definition field_cast (f : field) (raw : Z) : Z :=
  match f with
  | F_pin_id | F_encoder_pin_b_id => int8 raw
  | F_gpio_output => of_bool (to_bool raw)
  | _ => raw
  end.

(** ** More descriptors built through the public setters *)

Definition gpio_input_descriptor (pin pull : Z) : Z :=
  let d0 := snd (upisnd_setup_set_element_type 0 UPISND_ELEMENT_TYPE_GPIO) in
  let d1 := snd (upisnd_setup_set_pin_id d0 pin) in
  let d2 := snd (upisnd_setup_set_gpio_dir d1 UPISND_PIN_DIR_INPUT) in
  snd (upisnd_setup_set_gpio_pull d2 pull).

Definition analog_input_descriptor (pin : Z) : Z :=
  let d0 := snd (upisnd_setup_set_element_type 0 UPISND_ELEMENT_TYPE_ANALOG_INPUT) in
  snd (upisnd_setup_set_pin_id d0 pin).

Definition activity_descriptor (pin activity : Z) : Z :=
  let d0 := snd (upisnd_setup_set_element_type 0 UPISND_ELEMENT_TYPE_ACTIVITY) in
  let d1 := snd (upisnd_setup_set_pin_id d0 pin) in
  snd (upisnd_setup_set_activity_type d1 activity).

(** The values of an enumeration as a list, for checks by evaluation. *)
Definition below (n : Z) : list Z := map Z.of_nat (seq 0 (Z.to_nat n)).

(** * utils.c *)

(** ** Base64 *)

Definition UPISND_BASE64_TABLE : list ascii :=
  list_ascii_of_string "ABCDEFGHIJKLMNOPQRSTUVWXYZabcdefghijklmnopqrstuvwxyz0123456789-_".

(** [UPISND_BASE64_TABLE[i]]. *)
Definition base64_char (i : Z) : ascii := nth (Z.to_nat i) UPISND_BASE64_TABLE "000"%char.

(** The characters that [upisnd_base64_encode] stores before the
    terminator: the [for] loop over the groups of three bytes, then the
    [switch] on the one or two bytes left.  [data] holds the bytes as the
    [uint8_t] values the code reads. *)
Fixpoint base64_chars (pad : bool) (data : list Z) : list ascii :=
  match data with
  | [] => []
  | [a] =>
    base64_char (Z.shiftr a 2)
    :: base64_char (Z.shiftl (Z.land a 3) 4)
    :: (if pad then ["="; "="]%char else [])
  | [a; b] =>
    base64_char (Z.shiftr a 2)
    :: base64_char (Z.lor (Z.shiftl (Z.land a 3) 4) (Z.shiftr (Z.land b 240) 4))
    :: base64_char (Z.shiftl (Z.land b 15) 2)
    :: (if pad then ["="]%char else [])
  | a :: b :: c :: rest =>
    base64_char (Z.shiftr a 2)
    :: base64_char (Z.lor (Z.shiftl (Z.land a 3) 4) (Z.shiftr (Z.land b 240) 4))
    :: base64_char (Z.lor (Z.shiftl (Z.land b 15) 2) (Z.shiftr c 6))
    :: base64_char (Z.land c 63)
    :: base64_chars pad rest
  end.

(** [upisnd_base64_encode(dst, dst_length, d, length, pad)]: the [int]
    result, and the text [dst] holds afterwards ([None]: [dst] was not
    written).  The [size_t] arithmetic of the length check is exact as long
    as [4 * length + 2] stays below 2^32, which the statements assume. *)
Definition upisnd_base64_encode (dst_length : Z) (data : list Z) (pad : bool)
  : Z * option string :=
  let length := Z.of_nat (List.length data) in
  let too_short :=
    if pad then dst_length <? 4 * ((length + 2) / 3) + 1
    else dst_length <? (4 * length + 2) / 3 + 1 in
  if too_short then (- EINVAL, None)
  else
    let text := string_of_list_ascii (base64_chars pad data) in
    (strlen text + 1, Some text).

(** Byte values. *)
Definition bytes (data : list Z) : Prop := Forall (fun b => 0 <= b < 256) data.

(** ** xoshiro128** *)

Definition rotl (x k : Z) : Z := Z.lor (uint32 (Z.shiftl x k)) (Z.shiftr x (32 - k)).

(** [upisnd_xoshiro128_star_star_seed_t]: the four words of the state. *)
Record upisnd_xoshiro128_star_star_seed_t : Type := mk_seed {
  seed0 : Z;
  seed1 : Z;
  seed2 : Z;
  seed3 : Z
}.

(** [upisnd_xoshiro128_star_star_next(seed)]: the result, and the state it
    leaves in [seed]. *)
Definition upisnd_xoshiro128_star_star_next (seed : upisnd_xoshiro128_star_star_seed_t)
  : Z * upisnd_xoshiro128_star_star_seed_t :=
  let result_starstar := uint32 (rotl (uint32 (seed0 seed * 5)) 7 * 9) in
  let t := uint32 (Z.shiftl (seed1 seed) 9) in
  let s2 := Z.lxor (seed2 seed) (seed0 seed) in
  let s3 := Z.lxor (seed3 seed) (seed1 seed) in
  let s1 := Z.lxor (seed1 seed) s2 in
  let s0 := Z.lxor (seed0 seed) s3 in
  let s2 := Z.lxor s2 t in
  let s3 := rotl s3 11 in
  (result_starstar, mk_seed s0 s1 s2 s3).

(** The four words are [uint32_t] values. *)
Definition seed_ok (seed : upisnd_xoshiro128_star_star_seed_t) : Prop :=
  0 <= seed0 seed < 2 ^ 32 /\ 0 <= seed1 seed < 2 ^ 32
  /\ 0 <= seed2 seed < 2 ^ 32 /\ 0 <= seed3 seed < 2 ^ 32.

Definition seed_zero : upisnd_xoshiro128_star_star_seed_t := mk_seed 0 0 0 0.

(** * Contexts *)

(** The part of the process state that only the context functions and the
    name generator use: the list of contexts ([upisnd_ctx_list] and the
    [next] links, as the order of a list) and the seed of each context. *)
Record lib : Type := mk_lib {
  st : state;
  upisnd_ctx_list : list ptr;
  seeds : gmap ptr upisnd_xoshiro128_star_star_seed_t
}.

Definition with_st (s : state) (l : lib) : lib := mk_lib s (upisnd_ctx_list l) (seeds l).

(** The outcome of a system call whose result the caller drops: only errno
    can change. *)
Definition sys (r : sys_res) (s : state) : state :=
  match r with
  | SysOk => s
  | SysErr e => set_errno (Z.pos e) s
  end.

(** What the world answers during [upisnd_ctx_alloc]. *)
Record ctx_io : Type := mk_ctx_io {
  c_open : open_res;          (* open of /dev/urandom *)
  c_read : read_res;          (* read of sizeof(seed) bytes from it *)
  c_close : sys_res;
  c_stack : upisnd_xoshiro128_star_star_seed_t;  (* the local [seed] before the read *)
  c_malloc : option ptr       (* the block for the context, None when malloc fails *)
}.

(** What the world answers during [upisnd_unsetup_all_elements]: the open
    and the close of the unsetup node, and the three calls made for the i-th
    element. *)
Record release_io : Type := mk_release_io {
  r_open : open_res;
  r_write : nat -> sys_res;
  r_fdatasync : nat -> sys_res;
  r_lseek : nat -> sys_res;
  r_close : sys_res
}.

(** The bytes of a [uint32_t] in memory and back (little-endian, as on the
    ARM and x86 targets of the library). *)
Definition word_bytes (x : Z) : list Z :=
  [x mod 256; (x / 256) mod 256; (x / 65536) mod 256; (x / 16777216) mod 256].

Definition bytes_word (l : list Z) : Z :=
  nth 0 l 0 + 256 * nth 1 l 0 + 65536 * nth 2 l 0 + 16777216 * nth 3 l 0.

Definition seed_bytes (sd : upisnd_xoshiro128_star_star_seed_t) : list Z :=
  word_bytes (seed0 sd) ++ word_bytes (seed1 sd) ++ word_bytes (seed2 sd)
  ++ word_bytes (seed3 sd).

Definition bytes_seed (l : list Z) : upisnd_xoshiro128_star_star_seed_t :=
  mk_seed (bytes_word (firstn 4 l)) (bytes_word (firstn 4 (skipn 4 l)))
          (bytes_word (firstn 4 (skipn 8 l))) (bytes_word (firstn 4 (skipn 12 l))).

Definition string_bytes (s : string) : list Z :=
  map (fun c => Z.of_nat (nat_of_ascii c)) (list_ascii_of_string s).

Definition URANDOM : string := "/dev/urandom".

(** [upisnd_ctx_alloc].  A short read leaves [err = -errno] with the errno
    of before the read, and the bytes of [seed] that were not read as they
    were on the stack.  The context keeps the pointer [sysfs_base]; the
    model keeps the text it points to, which the caller is taken to leave
    alone. *)
Definition upisnd_ctx_alloc (io : ctx_io) (sysfs_base : option string) (l : lib)
  : option ptr * lib :=
  let s1 := log (EvOpen URANDOM (Z.lor O_CLOEXEC O_RDONLY)) (st l) in
  match c_open io with
  | OpenErr e => (None, with_st (set_errno (Z.pos e) s1) l)
  | Opened _ =>
    let s2 := log (EvRead URANDOM 16) s1 in
    let '(err, seed, s3) :=
      match c_read io with
      | ReadErr e => let s' := set_errno (Z.pos e) s2 in (- errno s', c_stack io, s')
      | ReadOk data =>
        let got := firstn 16 (string_bytes data) in
        let n := Z.of_nat (List.length got) in
        (if n =? 16 then n else - errno s2,
         bytes_seed (got ++ skipn (List.length got) (seed_bytes (c_stack io))), s2)
      end in
    let s4 := sys (c_close io) (log (EvClose URANDOM) s3) in
    if err <? 0 then (None, with_st (set_errno (- err) s4) l)
    else
      match c_malloc io with
      | None => (None, with_st (set_errno ENOMEM s4) l)
      | Some p =>
        let cx := mk_ctx 1 (default UPISND_SYSFS_DEFAULT_BASE_PATH sysfs_base) [] in
        (Some p, mk_lib (set_ctxs (<[p := cx]> (ctxs s4)) s4) (upisnd_ctx_list l)
                        (<[p := seed]> (seeds l)))
      end
  end.

Definition upisnd_contexts_prepend (ctx : ptr) (l : lib) : lib :=
  mk_lib (st l) (ctx :: upisnd_ctx_list l) (seeds l).

(** The loop of [upisnd_unsetup_all_elements] from its [i]-th element on:
    each name is written to the unsetup node, the results of the three calls
    are dropped, and the node is freed whatever its count. *)
Fixpoint release_all (io : release_io) (path : string) (i : nat) (els : list ptr) (s : state)
  : state :=
  match els with
  | [] => s
  | n :: rest =>
    match nodes s !! n with
    | None => set_fault s
    | Some nd =>
      let s1 := sys (r_write io i) (log (EvWrite path (el_name nd)) s) in
      let s2 := sys (r_fdatasync io i) (log (EvFdatasync path) s1) in
      let s3 := sys (r_lseek io i) (log (EvLseek path) s2) in
      release_all io path (S i) rest (upisnd_elements_free n s3)
    end
  end.

Definition upisnd_unsetup_all_elements (io : release_io) (ctx : ptr) (s : state) : Z * state :=
  match ctxs s !! ctx with
  | None => (0, set_fault s)
  | Some cx =>
    match ctx_elements cx with
    | [] => (0, s)
    | _ :: _ =>
      let '(fd, s1) := upisnd_open_fd (r_open io) UPISND_PATH_UNSETUP
                                      (Z.lor O_CLOEXEC O_WRONLY) (ctx_sysfs_base cx) s in
      if fd <? 0 then (fd, s1)
      else
        let path := snd (upisnd_path UPISND_PATH_UNSETUP (ctx_sysfs_base cx)) in
        let s2 := release_all io path 0 (ctx_elements cx) s1 in
        let s3 := set_ctxs (<[ctx := mk_ctx (ctx_refcount cx) (ctx_sysfs_base cx) []]>
                              (ctxs s2)) s2 in
        (0, sys (r_close io) (log (EvClose path) s3))
    end
  end.

Definition upisnd_ctx_free (io : release_io) (ctx : ptr) (l : lib) : lib :=
  let '(_, s1) := upisnd_unsetup_all_elements io ctx (st l) in
  mk_lib (set_ctxs (delete ctx (ctxs s1)) s1) (upisnd_ctx_list l) (delete ctx (seeds l)).

(** [upisnd_contexts_remove]: the list walk is that of
    [upisnd_elements_remove]. *)
Definition upisnd_contexts_remove (io : release_io) (ctx : ptr) (l : lib) : Z * lib :=
  match unlink ctx (upisnd_ctx_list l) with
  | None => (- ENOENT, with_st (set_errno ENOENT (st l)) l)
  | Some l' =>
    let l1 := upisnd_ctx_free io ctx (mk_lib (st l) l' (seeds l)) in
    (0, with_st (set_errno 0 (st l1)) l1)
  end.

Definition upisnd_set_active_ctx (ctx : option ptr) (s : state) : option ptr * state :=
  (upisnd_active_ctx s,
   mk_state (ctxs s) (nodes s) ctx (errno s) (now_ms s) (trace s) (fault s)).

(** The contexts reached from [c] through the [next] links: the part of the
    list from [c] on.  A context leaves the list only to be freed, so a [c]
    that is not in the list is a dangling pointer ([None]). *)
Fixpoint chain_from (c : ptr) (l : list ptr) : option (list ptr) :=
  match l with
  | [] => None
  | p :: l' => if Pos.eqb p c then Some l else chain_from c l'
  end.

(** The [while (ctx)] scan of [upisnd_init_internal]: the first context of
    the chain whose root is [base].  The outer [None] is a link that is not
    live. *)
Fixpoint find_ctx (m : gmap ptr ctx_t) (base : string) (l : list ptr) : option (option ptr) :=
  match l with
  | [] => Some None
  | p :: l' =>
    match m !! p with
    | None => None
    | Some cx => if String.eqb (ctx_sysfs_base cx) base then Some (Some p)
                 else find_ctx m base l'
    end
  end.

(** The checks on the argument of [upisnd_init_internal]: the root to use,
    or the errno to fail with. *)
Definition init_root (sysfs_base : option string) : Z + string :=
  match sysfs_base with
  | None => inr UPISND_SYSFS_DEFAULT_BASE_PATH
  | Some b =>
    if strlen b >? UPISND_MAX_BASE_PATH_LENGTH then inl ENAMETOOLONG
    else match b with
         | String c _ => if Ascii.eqb c "/" then inr b else inl EINVAL
         | EmptyString => inl EINVAL
         end
  end.

Definition upisnd_init_internal (io : ctx_io) (sysfs_base : option string) (l : lib)
  : option ptr * lib :=
  match init_root sysfs_base with
  | inl e => (None, with_st (set_errno e (st l)) l)
  | inr base =>
    let chain := match upisnd_active_ctx (st l) with
                 | None => Some []
                 | Some c => chain_from c (upisnd_ctx_list l)
                 end in
    match chain with
    | None => (None, with_st (set_fault (st l)) l)
    | Some ch =>
      match find_ctx (ctxs (st l)) base ch with
      | None => (None, with_st (set_fault (st l)) l)
      | Some (Some c) =>
        match ctxs (st l) !! c with
        | None => (None, with_st (set_fault (st l)) l)
        | Some cx =>
          let s1 := set_ctxs (<[c := mk_ctx (int32 (ctx_refcount cx + 1)) (ctx_sysfs_base cx)
                                             (ctx_elements cx)]> (ctxs (st l))) (st l) in
          (Some c, with_st (snd (upisnd_set_active_ctx (Some c) s1)) l)
        end
      | Some None =>
        match upisnd_ctx_alloc io (Some base) l with
        | (None, l1) => (None, l1)
        | (Some p, l1) =>
          let l2 := upisnd_contexts_prepend p l1 in
          (Some p, with_st (snd (upisnd_set_active_ctx (Some p) (st l2))) l2)
        end
      end
    end
  end.

Definition upisnd_init (io : ctx_io) (l : lib) : Z * lib :=
  match upisnd_init_internal io None l with
  | (Some _, l') => (0, l')
  | (None, l') => (-1, l')
  end.

Definition upisnd_uninit (io : release_io) (l : lib) : lib :=
  match upisnd_active_ctx (st l) with
  | None => l
  | Some c =>
    match ctxs (st l) !! c with
    | None => with_st (set_fault (st l)) l
    | Some cx =>
      let rc := int32 (ctx_refcount cx - 1) in
      let l1 := with_st (set_ctxs (<[c := mk_ctx rc (ctx_sysfs_base cx) (ctx_elements cx)]>
                                     (ctxs (st l))) (st l)) l in
      if rc =? 0 then
        let '(_, l2) := upisnd_contexts_remove io c l1 in
        with_st (snd (upisnd_set_active_ctx (head (upisnd_ctx_list l2)) (st l2))) l2
      else l1
    end
  end.

(** ** Random names *)

(** [snprintf(dst, n, fmt, ...)] where the format and its arguments give
    [text]: the length of [text], and what [dst] holds afterwards. *)
Definition snprintf (n : Z) (text : string) : Z * option string :=
  (strlen text, if n <=? 0 then None else Some (substring 0 (Z.to_nat (n - 1)) text)).

(** The text that the format of [upisnd_generate_random_element_name] gives:
    the name alone when [prefix] is NULL or empty, else the prefix, a hyphen
    and the name. *)
Definition prefixed (prefix : option string) (name : string) : string :=
  match prefix with
  | Some (String a p) => String a p +:+ "-" +:+ name
  | _ => name
  end.

Definition upisnd_generate_random_element_name (n : Z) (prefix : option string) (l : lib)
  : Z * option string * lib :=
  match upisnd_active_ctx (st l) with
  | None => (-1, None, with_st (set_errno EINVAL (st l)) l)
  | Some c =>
    match ctxs (st l) !! c, seeds l !! c with
    | Some _, Some sd =>
      let '(u0, sd) := upisnd_xoshiro128_star_star_next sd in
      let '(u1, sd) := upisnd_xoshiro128_star_star_next sd in
      let '(u2, sd) := upisnd_xoshiro128_star_star_next sd in
      let '(u3, sd) := upisnd_xoshiro128_star_star_next sd in
      let l1 := mk_lib (st l) (upisnd_ctx_list l) (<[c := sd]> (seeds l)) in
      let uuid := word_bytes u0 ++ word_bytes u1 ++ word_bytes u2 ++ word_bytes u3 in
      let name := default ""%string (snd (upisnd_base64_encode 23 uuid false)) in
      let '(r, dst) := snprintf n (prefixed prefix name) in
      (r, dst, l1)
    | _, _ => (-1, None, with_st (set_fault (st l)) l)
    end
  end.

(** ** name.cpp *)


Definition ElementName_copy (m_name : string) : string :=
  substring 0 (Z.to_nat (UPISND_MAX_ELEMENT_NAME_LENGTH - 1)) m_name.


(** [ElementName::randomized]; the object returned is a copy of [ret]. *)
Definition ElementName_randomized (prefix : option string) (l : lib) : string * lib :=
  let '(n, m_name, l1) :=
    upisnd_generate_random_element_name UPISND_MAX_ELEMENT_NAME_LENGTH prefix l in
  (if (0 <? n) && (n <? UPISND_MAX_ELEMENT_NAME_LENGTH)
   then ElementName_copy (default ""%string m_name)
   else ""%string, l1).

(** The state before the first call into the library. *)
Definition lib_initial : lib :=
  mk_lib (mk_state (∅ : gmap ptr ctx_t) (∅ : gmap ptr node) None 0 0 [] false) []
         (∅ : gmap ptr upisnd_xoshiro128_star_star_seed_t).

(** Two library states with the same contexts, nodes, active context, list
    and seeds: they differ at most in errno, the trace and the fault flag. *)
Definition same_contexts (l l' : lib) : Prop :=
  ctxs (st l') = ctxs (st l) /\ nodes (st l') = nodes (st l)
  /\ upisnd_active_ctx (st l') = upisnd_active_ctx (st l)
  /\ upisnd_ctx_list l' = upisnd_ctx_list l /\ seeds l' = seeds l.

(** The root a call of [upisnd_init_internal] asks for. *)
Definition root_of (sysfs_base : option string) : string :=
  default UPISND_SYSFS_DEFAULT_BASE_PATH sysfs_base.

(** The argument passes the checks of [upisnd_init_internal]. *)
Definition root_accepted (sysfs_base : option string) : Prop :=
  match sysfs_base with
  | None => True
  | Some b => strlen b <= UPISND_MAX_BASE_PATH_LENGTH /\ exists rest, b = String "/" rest
  end.

(** The random device answers in full and malloc gives the block [p]. *)
Definition ctx_io_ok (io : ctx_io) (p : ptr) (data : string) : Prop :=
  opened (c_open io) /\ c_read io = ReadOk data /\ 16 <= strlen data
  /\ c_malloc io = Some p.

(** The list of contexts without its first link to [c]. *)
Definition without (c : ptr) (l : list ptr) : list ptr := default l (unlink c l).

(** The release of the elements of a context on [base] reaches the driver:
    the path of the unsetup node fits its buffer and the node opens. *)
Definition release_all_reaches_driver (io : release_io) (base : string) : Prop :=
  strlen (unsetup_node base) < UPISND_MAX_BASE_PATH_LENGTH /\ opened (r_open io).

(** ** Attribute files *)

(** The attribute file opens at the first attempt. *)
Definition attr_opens (w : world) (attr : upisnd_element_attr_e) : Prop :=
  opened (a_open (w_attr w attr) 0%nat).

(** The attribute file opens at the first attempt and a read gives [text],
    a line feed and possibly more, 63 bytes at most. *)
Definition attr_holds (w : world) (attr : upisnd_element_attr_e) (text : string) : Prop :=
  attr_opens w attr
  /\ exists rest, a_read (w_attr w attr) = ReadOk (text +:+ String "010" rest)
                  /\ strlen (text +:+ String "010" rest) <= 63.

(** No character of [text] is a separator. *)
Definition no_separator (text : string) : Prop :=
  forall c, In c (list_ascii_of_string text) -> strchr UPISND_TEXT_SEPARATORS c = None.

(** The element [h] is live, in a live context, and the paths of its
    attribute files fit their buffer. *)
Definition element_ready (s : state) (h : ptr) : Prop :=
  exists nd cx, nodes s !! h = Some nd /\ ctxs s !! el_ctx nd = Some cx
                /\ strlen (ctx_sysfs_base cx) <= 40
                /\ 0 <= upisnd_validate_element_name (Some (el_name nd)).

(** The element name of the four getters of enumerations, their attribute
    and the value they return for an error. *)
Inductive enum_getter : Type :=
| G_type
| G_direction
| G_pull
| G_pin_b_pull
| G_activity.

Definition getter_call (g : enum_getter) (w : world) (el : option ptr) (s : state)
  : Z * state :=
  match g with
  | G_type => upisnd_element_get_type w el s
  | G_direction => upisnd_element_gpio_get_direction w el s
  | G_pull => upisnd_element_gpio_get_pull w el s
  | G_pin_b_pull => upisnd_element_encoder_get_pin_b_pull w el s
  | G_activity => upisnd_element_activity_get_type w el s
  end.

Definition getter_attr (g : enum_getter) : upisnd_element_attr_e :=
  match g with
  | G_type => UPISND_ELEMENT_ATTR_TYPE
  | G_direction => UPISND_ELEMENT_ATTR_DIRECTION
  | G_pull => UPISND_ELEMENT_ATTR_PIN_PULL
  | G_pin_b_pull => UPISND_ELEMENT_ATTR_PIN_B_PULL
  | G_activity => UPISND_ELEMENT_ATTR_ACTIVITY_TYPE
  end.

Definition getter_enum (g : enum_getter) : token_enum :=
  match g with
  | G_type => E_element_type
  | G_direction => E_pin_direction
  | G_pull | G_pin_b_pull => E_pin_pull
  | G_activity => E_activity
  end.

(** The calls on the descriptor of an attribute file that is written all
    succeed. *)
Definition attr_write_ok (w : world) (attr : upisnd_element_attr_e) : Prop :=
  a_lseek (w_attr w attr) = SysOk /\ a_write (w_attr w attr) = SysOk
  /\ a_fdatasync (w_attr w attr) = SysOk.

(** The four range attributes, in the order the option setters write them. *)
Definition range_attrs : list upisnd_element_attr_e :=
  [UPISND_ELEMENT_ATTR_INPUT_MIN; UPISND_ELEMENT_ATTR_INPUT_MAX;
   UPISND_ELEMENT_ATTR_VALUE_LOW; UPISND_ELEMENT_ATTR_VALUE_HIGH].

(** The writes that set the two ranges of an element make when all succeed. *)
Definition range_writes (s : state) (h : ptr) (ir vr : upisnd_range_t)
  : list (string * string) :=
  [(attr_path UPISND_ELEMENT_ATTR_INPUT_MIN (Some h) s, pretty (low ir));
   (attr_path UPISND_ELEMENT_ATTR_INPUT_MAX (Some h) s, pretty (high ir));
   (attr_path UPISND_ELEMENT_ATTR_VALUE_LOW (Some h) s, pretty (low vr));
   (attr_path UPISND_ELEMENT_ATTR_VALUE_HIGH (Some h) s, pretty (high vr))].

(** An error of open that [upisnd_element_attr_open] does not retry on. *)
Definition not_retried (e : positive) : Prop := Z.pos e <> ENOENT /\ Z.pos e <> EACCES.

(** The attribute file opens at the first attempt, the seek succeeds and
    the read gives [data]. *)
Definition attr_reads (w : world) (attr : upisnd_element_attr_e) (data : string) : Prop :=
  attr_opens w attr /\ a_lseek (w_attr w attr) = SysOk
  /\ a_read (w_attr w attr) = ReadOk data.

(** The number [upisnd_value_read] makes of what the attribute file holds. *)
Definition attr_number (w : world) (data : string) : Z :=
  int32 (w_strtol w (substring 0 15 data)).

(** * element.cpp *)

(** The C++ objects: the library state, and the member [m_ref] of every
    live [Element] object, by the address of the object. *)
Record cxx : Type := mk_cxx {
  c_st : state;
  c_refs : gmap ptr (option ptr)
}.

(** [Element::ref()]. *)
Definition Element_ref (this : ptr) (x : cxx) : option ptr := default None (c_refs x !! this).

(** [Element::Element()]. *)
Definition Element_default (this : ptr) (x : cxx) : cxx :=
  mk_cxx (c_st x) (<[this := None]> (c_refs x)).

(** [Element::Element(upisnd_element_ref_t el)]. *)
Definition Element_from_ref (this : ptr) (el : option ptr) (x : cxx) : cxx :=
  let '(r, s1) := upisnd_element_add_ref el (c_st x) in
  mk_cxx s1 (<[this := r]> (c_refs x)).

(** [Element::Element(upisnd_element_ref_t el, bool)]. *)
Definition Element_adopt (this : ptr) (el : option ptr) (x : cxx) : cxx :=
  mk_cxx (c_st x) (<[this := el]> (c_refs x)).

(** The copy constructor. *)
Definition Element_copy (this rhs : ptr) (x : cxx) : cxx :=
  Element_from_ref this (Element_ref rhs x) x.

(** The copy assignment. *)
Definition Element_assign (w : world) (this rhs : ptr) (x : cxx) : cxx :=
  if Pos.eqb this rhs then x
  else
    let r := Element_ref rhs x in
    let s1 := match r with
              | Some _ => snd (upisnd_element_add_ref r (c_st x))
              | None => c_st x
              end in
    let '(_, s2) := upisnd_element_unref w (Some (Element_ref this x)) s1 in
    mk_cxx s2 (<[this := r]> (c_refs x)).

(** The move constructor. *)
Definition Element_move (this rhs : ptr) (x : cxx) : cxx :=
  mk_cxx (c_st x) (<[rhs := None]> (<[this := Element_ref rhs x]> (c_refs x))).

(** The move assignment. *)
Definition Element_move_assign (w : world) (this rhs : ptr) (x : cxx) : cxx :=
  if Pos.eqb this rhs then x
  else
    let '(_, s1) := upisnd_element_unref w (Some (Element_ref this x)) (c_st x) in
    mk_cxx s1 (<[rhs := None]> (<[this := Element_ref rhs x]> (c_refs x))).

(** The destructor: the object is gone afterwards. *)
Definition Element_dtor (w : world) (this : ptr) (x : cxx) : cxx :=
  let '(_, s1) := upisnd_element_unref w (Some (Element_ref this x)) (c_st x) in
  mk_cxx s1 (delete this (c_refs x)).

(** [Element::release()]. *)
Definition Element_release (w : world) (this : ptr) (x : cxx) : cxx :=
  let '(r, s1) := upisnd_element_unref w (Some (Element_ref this x)) (c_st x) in
  mk_cxx s1 (<[this := default None r]> (c_refs x)).

(** [Element::get(ElementName name)] into the object [this]; [name] is the
    text of the [ElementName]. *)
Definition Element_get (this : ptr) (name : string) (x : cxx) : cxx :=
  let '(r, s1) := upisnd_element_get (Some name) (c_st x) in
  Element_adopt this r (mk_cxx s1 (c_refs x)).

(** [Element::setup(ElementName name, upisnd_setup_t setup)] into [this]. *)
Definition Element_setup (w : world) (this : ptr) (name : string) (setup : Z) (x : cxx)
  : cxx :=
  let '(r, s1) := upisnd_setup w (Some name) setup (c_st x) in
  Element_adopt this r (mk_cxx s1 (c_refs x)).

(** * value_fd.cpp, gpio.cpp, encoder.cpp, analog_input.cpp *)

Definition EBADF : Z := 9.

(** [ValueFd::read()] on the descriptor [Element::openValueFd] gave for
    [el].  On an invalid descriptor the lseek of [upisnd_value_read] fails
    with EBADF; it is recorded with an empty path. *)
Definition ValueFd_read (w : world) (el : option ptr) (fd : Z) (s : state) : Z * state :=
  if 0 <=? fd
  then upisnd_value_read (w_attr w UPISND_ELEMENT_ATTR_VALUE) (w_strtol w)
                         (attr_path UPISND_ELEMENT_ATTR_VALUE el s) s
  else (-1, set_errno EBADF (log (EvLseek EmptyString) (set_errno 0 s))).

(** [ValueFd::write(value)]. *)
Definition ValueFd_write (w : world) (el : option ptr) (fd : Z) (value : Z) (s : state)
  : Z * state :=
  if 0 <=? fd
  then upisnd_value_write (w_attr w UPISND_ELEMENT_ATTR_VALUE)
                          (attr_path UPISND_ELEMENT_ATTR_VALUE el s) value s
  else (-1, set_errno EBADF (log (EvLseek EmptyString) (set_errno 0 s))).

(** The destructor of the local [ValueFd]: [close()], which calls close(2)
    on a valid descriptor only; [cl] is what close(2) answers. *)
Definition ValueFd_drop (cl : sys_res) (el : option ptr) (fd : Z) (s : state) : state :=
  if 0 <=? fd
  then
    let s1 := log (EvClose (attr_path UPISND_ELEMENT_ATTR_VALUE el s)) s in
    match cl with SysOk => s1 | SysErr e => set_errno (Z.pos e) s1 end
  else s.

(** [Gpio::get()]; [el] is [ref()]. *)
Definition Gpio_get (w : world) (cl : sys_res) (el : option ptr) (s : state) : Z * state :=
  let '(fd, s1) := upisnd_element_open_value_fd w el (Z.lor O_RDONLY O_CLOEXEC) s in
  let '(r, s2) := ValueFd_read w el fd s1 in
  (r, ValueFd_drop cl el fd s2).

(** [Gpio::set(high)]. *)
Definition Gpio_set (w : world) (cl : sys_res) (el : option ptr) (high : bool) (s : state)
  : Z * state :=
  let '(fd, s1) := upisnd_element_open_value_fd w el (Z.lor O_WRONLY O_CLOEXEC) s in
  let '(r, s2) :=
    if 0 <=? fd then ValueFd_write w el fd (if high then 1 else 0) s1
    else (- errno s1, s1) in
  (r, ValueFd_drop cl el fd s2).

(** [Encoder::get()].  As in [upisnd_value_read], strtol is taken not to
    touch errno. *)
Definition Encoder_get (w : world) (cl : sys_res) (el : option ptr) (s : state) : Z * state :=
  let '(fd, s1) := upisnd_element_open_value_fd w el (Z.lor O_RDONLY O_CLOEXEC) s in
  let '(result, s2) := ValueFd_read w el fd s1 in
  (if negb (errno s2 =? 0) then - errno s2 else result, ValueFd_drop cl el fd s2).

(** [AnalogInput::get()]. *)
Definition AnalogInput_get (w : world) (cl : sys_res) (el : option ptr) (s : state)
  : Z * state :=
  let '(fd, s1) := upisnd_element_open_value_fd w el (Z.lor O_RDONLY O_CLOEXEC) s in
  let '(result, s2) := ValueFd_read w el fd s1 in
  (if negb (errno s2 =? 0) then - errno s2 else result, ValueFd_drop cl el fd s2).

(** ** Clients of class Element *)

(** One operation on Element objects, as a client writes it. *)
Inductive Element_op : Type :=
| OpDefault (this : ptr)
| OpFromRef (this : ptr) (el : option ptr)
| OpCopy (this rhs : ptr)
| OpAssign (this rhs : ptr)
| OpMove (this rhs : ptr)
| OpMoveAssign (this rhs : ptr)
| OpDtor (this : ptr)
| OpRelease (this : ptr)
| OpGet (this : ptr) (name : string)
| OpSetup (this : ptr) (name : string) (setup : Z).

Definition Element_step (w : world) (op : Element_op) (x : cxx) : cxx :=
  match op with
  | OpDefault this => Element_default this x
  | OpFromRef this el => Element_from_ref this el x
  | OpCopy this rhs => Element_copy this rhs x
  | OpAssign this rhs => Element_assign w this rhs x
  | OpMove this rhs => Element_move this rhs x
  | OpMoveAssign this rhs => Element_move_assign w this rhs x
  | OpDtor this => Element_dtor w this x
  | OpRelease this => Element_release w this x
  | OpGet this name => Element_get this name x
  | OpSetup this name setup => Element_setup w this name setup x
  end.

(** A client program: the operations in order, each with what the world
    answers while it runs. *)
Fixpoint Element_run (prog : list (world * Element_op)) (x : cxx) : cxx :=
  match prog with
  | [] => x
  | (w, op) :: prog' => Element_run prog' (Element_step w op x)
  end.

(** The handle is linked in the registry of its context. *)
Definition linked (s : state) (h : ptr) : Prop :=
  exists nd cx, nodes s !! h = Some nd /\ ctxs s !! el_ctx nd = Some cx
                /\ h ∈ ctx_elements cx.

(** The number of Element objects that hold [h]. *)
Definition holders (refs : gmap ptr (option ptr)) (h : ptr) : Z :=
  Z.of_nat (size (filter (fun kv : ptr * option ptr => kv.2 = Some h) refs)).

(** The count of a node, 0 for a node that is not live. *)
Definition rcz (s : state) (h : ptr) : Z :=
  match nodes s !! h with Some nd => el_refcount nd | None => 0 end.

(** Every object holds a counted reference: the library state is well
    formed, a handle an object holds is linked, and the count of a linked
    node is at least the number of objects that hold it. *)
Definition counted (x : cxx) : Prop :=
  wf (c_st x)
  /\ (forall o h, c_refs x !! o = Some (Some h) -> linked (c_st x) h)
  /\ (forall h, linked (c_st x) h -> holders (c_refs x) h <= rcz (c_st x) h).

(** What an operation asks of its operands: a constructor builds at an
    address that holds no object, every other operand is an object; a
    handle given from outside is linked; where the operation takes a
    reference, the counts are below the largest int; and where it
    allocates, malloc hands out a block that is not in use. *)
Definition Element_op_ok (w : world) (op : Element_op) (x : cxx) : Prop :=
  match op with
  | OpDefault this => c_refs x !! this = None
  | OpFromRef this el =>
    c_refs x !! this = None /\ (forall h, el = Some h -> linked (c_st x) h)
    /\ counts_bounded (c_st x)
  | OpCopy this rhs =>
    c_refs x !! this = None /\ is_Some (c_refs x !! rhs) /\ counts_bounded (c_st x)
  | OpAssign this rhs =>
    is_Some (c_refs x !! this) /\ is_Some (c_refs x !! rhs) /\ counts_bounded (c_st x)
  | OpMove this rhs => c_refs x !! this = None /\ is_Some (c_refs x !! rhs)
  | OpMoveAssign this rhs => is_Some (c_refs x !! this) /\ is_Some (c_refs x !! rhs)
  | OpDtor this => is_Some (c_refs x !! this)
  | OpRelease this => is_Some (c_refs x !! this)
  | OpGet this name => c_refs x !! this = None /\ counts_bounded (c_st x)
  | OpSetup this name setup =>
    c_refs x !! this = None /\ counts_bounded (c_st x)
    /\ (forall p, w_malloc w = Some p -> nodes (c_st x) !! p = None)
  end.

Fixpoint Element_run_ok (prog : list (world * Element_op)) (x : cxx) : Prop :=
  match prog with
  | [] => True
  | (w, op) :: prog' => Element_op_ok w op x /\ Element_run_ok prog' (Element_step w op x)
  end.

(** 1 when [v] is the handle [h], else 0. *)
Definition ind (v : option ptr) (h : ptr) : Z := if decide (v = Some h) then 1 else 0.

(** The objects hold counted references and one more reference to [v] is
    in hand, not yet stored in an object. *)
Definition counted_with (s : state) (refs : gmap ptr (option ptr)) (v : option ptr) : Prop :=
  wf s
  /\ (forall o h, refs !! o = Some (Some h) -> linked s h)
  /\ (forall h, v = Some h -> linked s h)
  /\ (forall h, linked s h -> holders refs h + ind v h <= rcz s h).

(** ** More example states and worlds *)

(** A root of 58 bytes. *)
Definition root_long : string :=
  "/sys/devices/platform/soc/fe804000.i2c/i2c-1/pisound-micro".

Definition ctx_long : ctx_t := mk_ctx 1 root_long [].

(** One context on the long root, active, with no element. *)
Definition state_long : state :=
  mk_state {[ 1%positive := ctx_long ]} ∅ (Some 1%positive) 0 0 [] false.

(** Every call succeeds, and every attribute file reads as [data]. *)
Definition world_reads (data : string) : world :=
  mk_world (Some 7%positive) false txn_good txn_good
           (fun _ => mk_attr_io (fun _ => Opened 4) SysOk (ReadOk data) SysOk SysOk)
           (fun _ => 0).

(** A client of class Element on [state_one]: set an element up and let it
    go, look another up, move the handle into a second object, copy it into
    a third, and let the three go. *)
Definition client_one : list (world * Element_op) :=
  [(world_good, OpSetup 9%positive "led" (gpio_output_descriptor UPISND_PIN_B03 true));
   (world_good, OpDtor 9%positive);
   (world_good, OpDefault 10%positive);
   (world_good, OpGet 11%positive "enc");
   (world_good, OpMoveAssign 10%positive 11%positive);
   (world_good, OpCopy 12%positive 10%positive);
   (world_good, OpDtor 11%positive);
   (world_good, OpRelease 10%positive);
   (world_good, OpDtor 12%positive);
   (world_good, OpDtor 10%positive)].

(** * Properties of the descriptor codec *)

Section CodecBits.

Lemma field_mask_ones b : field_mask b = Z.ones b.
Proof. unfold field_mask. rewrite Z.shiftl_1_l, Z.ones_equiv. lia. Qed.

Lemma testbit_uint32 x i : Z.testbit (uint32 x) i = (i <? 32) && Z.testbit x i.
Proof. unfold uint32. apply Z.testbit_mod_pow2. lia. Qed.

(** Bit [i] of a field read is bit [i + shift] of the descriptor, inside
    the field and inside the 32 bits. *)
Lemma testbit_field_get sh b s i :
  0 <= sh -> 0 <= b -> 0 <= i ->
  Z.testbit (field_get sh b s) i = Z.testbit s (i + sh) && ((i + sh <? 32) && (i <? b)).
Proof.
  intros Hsh Hb Hi. unfold field_get.
  rewrite Z.shiftr_spec, Z.land_spec, testbit_uint32, field_mask_ones by lia.
  rewrite Z.shiftl_spec by lia.
  rewrite Z.testbit_ones by lia.
  replace (i + sh - sh) with i by lia.
  destruct (Z.leb_spec 0 i); [|lia]. reflexivity.
Qed.

(** A field write replaces the bits of the field and keeps the others. *)
Lemma testbit_field_set sh b s v j :
  0 <= sh -> 0 <= b -> 0 <= j ->
  Z.testbit (field_set sh b s v) j =
    if (sh <=? j) && (j <? sh + b)
    then (j <? 32) && Z.testbit v (j - sh)
    else Z.testbit s j && (j <? 32).
Proof.
  intros Hsh Hb Hj. unfold field_set.
  rewrite Z.lor_spec, Z.land_spec, !testbit_uint32, Z.lnot_spec, field_mask_ones by lia.
  rewrite !Z.shiftl_spec, Z.land_spec by lia.
  rewrite Z.testbit_ones by lia.
  destruct (Z.leb_spec sh j), (Z.ltb_spec j (sh + b)), (Z.ltb_spec j 32); cbn;
    repeat match goal with
    | |- context [?a <=? ?b] => destruct (Z.leb_spec a b); try lia
    | |- context [?a <? ?b] => destruct (Z.ltb_spec a b); try lia
    end; cbn;
    rewrite ?andb_true_r, ?andb_false_r, ?orb_false_r, ?Z.testbit_neg_r by lia;
    try reflexivity.
  all: try (destruct (Z.testbit s j); reflexivity).
Qed.

Lemma field_get_set sh b s v :
  0 <= sh -> 0 <= b -> sh + b <= 32 ->
  field_get sh b (field_set sh b s v) = v mod 2 ^ b.
Proof.
  intros Hsh Hb Hle. apply Z.bits_inj'. intros i Hi.
  rewrite testbit_field_get, testbit_field_set, Z.testbit_mod_pow2 by lia.
  replace (i + sh - sh) with i by lia.
  destruct (Z.leb_spec sh (i + sh)), (Z.ltb_spec (i + sh) (sh + b)), (Z.ltb_spec i b),
    (Z.ltb_spec (i + sh) 32); cbn; try lia; rewrite ?andb_true_r, ?andb_false_r; reflexivity.
Qed.

Lemma field_get_set_other sh b sh' b' s v :
  0 <= sh -> 0 <= b -> 0 <= sh' -> 0 <= b' ->
  sh' + b' <= sh \/ sh + b <= sh' ->
  field_get sh' b' (field_set sh b s v) = field_get sh' b' s.
Proof.
  intros Hsh Hb Hsh' Hb' Hd. apply Z.bits_inj'. intros i Hi.
  rewrite !testbit_field_get, testbit_field_set by lia.
  destruct (Z.leb_spec sh (i + sh')), (Z.ltb_spec (i + sh') (sh + b)), (Z.ltb_spec i b'),
    (Z.ltb_spec (i + sh') 32); cbn; try lia; rewrite ?andb_true_r, ?andb_false_r; reflexivity.
Qed.

End CodecBits.

(** Unfold the named constants of types.h and errno.h. *)
Ltac consts :=
  unfold UPISND_ELEMENT_TYPE_INVALID, UPISND_ELEMENT_TYPE_NONE, UPISND_ELEMENT_TYPE_ENCODER,
    UPISND_ELEMENT_TYPE_ANALOG_INPUT, UPISND_ELEMENT_TYPE_GPIO, UPISND_ELEMENT_TYPE_ACTIVITY,
    UPISND_ELEMENT_TYPE_COUNT, UPISND_ACTIVITY_INVALID, UPISND_ACTIVITY_COUNT,
    UPISND_PIN_PULL_INVALID, UPISND_PIN_PULL_COUNT, UPISND_PIN_DIR_INVALID,
    UPISND_PIN_DIR_INPUT, UPISND_PIN_DIR_OUTPUT, UPISND_PIN_DIR_COUNT,
    UPISND_PIN_INVALID, UPISND_PIN_COUNT, EINVAL in *.

(** Decide the comparisons of a goal one after the other. *)
Ltac cmp :=
  repeat match goal with
  | |- context [?a =? ?b] => destruct (Z.eqb_spec a b); try lia
  | |- context [?a <? ?b] => destruct (Z.ltb_spec a b); try lia
  | |- context [?a >=? ?b] => rewrite (Z.geb_leb a b)
  | |- context [?a <=? ?b] => destruct (Z.leb_spec a b); try lia
  end.

Lemma int8_small v : 0 <= v < 128 -> int8 (v mod 2 ^ 8) = v.
Proof.
  intros H. unfold int8. change (2 ^ 8) with 256.
  rewrite Z.mod_mod by lia. rewrite Z.mod_small by lia.
  destruct (Z.ltb_spec v 128); lia.
Qed.

(** The type tag survives a write to any other field. *)
Lemma tag_after_field_set sh b s v :
  3 <= sh -> 0 <= b ->
  upisnd_internal_setup_get_element_type (field_set sh b s v)
  = upisnd_internal_setup_get_element_type s.
Proof.
  intros. unfold upisnd_internal_setup_get_element_type.
  apply field_get_set_other; lia.
Qed.

Lemma pull_applies_spec s : applicable F_gpio_pull s -> pull_applies s = true.
Proof.
  unfold applicable, pull_applies, upisnd_setup_get_gpio_dir, upisnd_setup_get_element_type.
  cbn. consts. intros [Ht Hd].
  destruct (Z.eqb_spec (upisnd_internal_setup_get_element_type s) 1) as [E|E]; [reflexivity|].
  destruct (Z.eqb_spec (upisnd_internal_setup_get_element_type s) 3) as [E'|E']; [|lia].
  specialize (Hd E'). rewrite Hd. reflexivity.
Qed.

Lemma output_applies_spec s :
  applicable F_gpio_output s ->
  upisnd_internal_setup_get_element_type s = UPISND_ELEMENT_TYPE_GPIO
  /\ upisnd_internal_setup_get_gpio_dir s = UPISND_PIN_DIR_OUTPUT.
Proof.
  unfold applicable, upisnd_setup_get_gpio_dir, upisnd_setup_get_element_type.
  cbn. intros [Ht Hd]. rewrite Ht in Hd. rewrite Z.eqb_refl in Hd. auto.
Qed.

(** Set-then-get on any descriptor the field applies to: the setter
    reports success and the getter gives the value cut to the field. *)
Lemma set_get_applicable (f : field) (setup v : Z) :
  applicable f setup ->
  fst (setter f setup v) = 0 /\ getter f (snd (setter f setup v)) = stored f v.
Proof.
  intros Ha. destruct f.
  - (* pin id *)
    destruct Ha as [Ht _]. cbn in Ht. unfold upisnd_setup_get_element_type in Ht.
    assert (Hm : has_main_pin (upisnd_internal_setup_get_element_type setup) = true).
    { unfold has_main_pin. destruct Ht as [-> | [-> | [-> | ->]]]; reflexivity. }
    cbn. unfold upisnd_setup_set_pin_id, upisnd_setup_get_pin_id. rewrite Hm. cbn.
    unfold upisnd_internal_setup_set_pin_id. rewrite tag_after_field_set, Hm by lia.
    unfold upisnd_internal_setup_get_pin_id. rewrite field_get_set by lia.
    split; reflexivity.
  - (* pull *)
    pose proof (pull_applies_spec _ Ha) as Hp.
    cbn. unfold upisnd_setup_set_gpio_pull, upisnd_setup_get_gpio_pull. rewrite Hp. cbn.
    assert (Hp' : pull_applies (upisnd_internal_setup_set_gpio_pull setup v) = true).
    { revert Hp. unfold pull_applies, upisnd_internal_setup_set_gpio_pull.
      rewrite tag_after_field_set by lia.
      unfold upisnd_internal_setup_get_gpio_dir. rewrite field_get_set_other by lia. auto. }
    rewrite Hp'. split; [reflexivity|].
    unfold upisnd_internal_setup_get_gpio_pull, upisnd_internal_setup_set_gpio_pull.
    rewrite field_get_set by lia. reflexivity.
  - (* direction *)
    destruct Ha as [Ht _]. cbn in Ht. unfold upisnd_setup_get_element_type in Ht.
    cbn. unfold upisnd_setup_set_gpio_dir, upisnd_setup_get_gpio_dir. rewrite Ht. cbn.
    unfold upisnd_internal_setup_set_gpio_dir. rewrite tag_after_field_set, Ht by lia. cbn.
    split; [reflexivity|].
    unfold upisnd_internal_setup_get_gpio_dir. rewrite field_get_set by lia. reflexivity.
  - (* output level *)
    destruct (output_applies_spec _ Ha) as [Ht Hd].
    cbn. unfold upisnd_setup_set_gpio_output, upisnd_setup_get_gpio_output.
    rewrite Ht, Hd. cbn.
    unfold upisnd_internal_setup_set_gpio_output.
    rewrite tag_after_field_set, Ht by lia.
    unfold upisnd_internal_setup_get_gpio_dir in *. rewrite field_get_set_other, Hd by lia.
    cbn. split; [reflexivity|].
    unfold upisnd_internal_setup_get_gpio_output. rewrite field_get_set by lia.
    destruct (to_bool v); reflexivity.
  - (* encoder pin b *)
    destruct Ha as [Ht _]. cbn in Ht. unfold upisnd_setup_get_element_type in Ht.
    cbn. unfold upisnd_setup_set_encoder_pin_b_id, upisnd_setup_get_encoder_pin_b_id.
    rewrite Ht. cbn.
    unfold upisnd_internal_setup_set_encoder_pin_b_id.
    rewrite tag_after_field_set, Ht by lia. cbn. split; [reflexivity|].
    unfold upisnd_internal_setup_get_encoder_pin_b_id. rewrite field_get_set by lia.
    reflexivity.
  - (* encoder pin b pull *)
    destruct Ha as [Ht _]. cbn in Ht. unfold upisnd_setup_get_element_type in Ht.
    cbn. unfold upisnd_setup_set_encoder_pin_b_pull, upisnd_setup_get_encoder_pin_b_pull.
    rewrite Ht. cbn.
    unfold upisnd_internal_setup_set_encoder_pin_b_pull.
    rewrite tag_after_field_set, Ht by lia. cbn. split; [reflexivity|].
    unfold upisnd_internal_setup_get_encoder_pin_b_pull. rewrite field_get_set by lia.
    reflexivity.
  - (* activity kind *)
    destruct Ha as [Ht _]. cbn in Ht. unfold upisnd_setup_get_element_type in Ht.
    cbn. unfold upisnd_setup_set_activity_type, upisnd_setup_get_activity_type.
    rewrite Ht. cbn.
    unfold upisnd_internal_setup_set_activity_type.
    rewrite tag_after_field_set, Ht by lia. cbn. split; [reflexivity|].
    unfold upisnd_internal_setup_get_activity_type. rewrite field_get_set by lia.
    reflexivity.
Qed.

(** A value of the enumeration fits its field. *)
Lemma stored_valid (f : field) (v : Z) : valid_value f v -> stored f v = v.
Proof.
  destruct f; cbn; consts; intros H.
  - apply int8_small; lia.
  - apply Z.mod_small. change (2 ^ 2) with 4. lia.
  - apply Z.mod_small. change (2 ^ 1) with 2. lia.
  - assert (Hc : v = 0 \/ v = 1) by lia. destruct Hc as [-> | ->]; reflexivity.
  - apply int8_small; lia.
  - apply Z.mod_small. change (2 ^ 2) with 4. lia.
  - apply Z.mod_small. change (2 ^ 2) with 4. lia.
Qed.

Lemma roundtrip_applicable (f : field) (setup v : Z) :
  applicable f setup -> valid_value f v ->
  fst (setter f setup v) = 0 /\ getter f (snd (setter f setup v)) = v.
Proof.
  intros Ha Hv. rewrite <- (stored_valid f v Hv) at 3. apply set_get_applicable, Ha.
Qed.

(** What [upisnd_setup_set_element_type] leaves: the tag, and direction
    input. *)
Lemma set_element_type_ok (setup0 t : Z) :
  0 <= t < UPISND_ELEMENT_TYPE_COUNT ->
  let d := snd (upisnd_setup_set_element_type setup0 t) in
  fst (upisnd_setup_set_element_type setup0 t) = 0
  /\ upisnd_setup_get_element_type d = t
  /\ upisnd_internal_setup_get_gpio_dir d = UPISND_PIN_DIR_INPUT.
Proof.
  consts. intros Ht. unfold upisnd_setup_set_element_type. consts.
  destruct (Z.ltb_spec t 0); [lia|]. rewrite Z.geb_leb.
  destruct (Z.leb_spec 5 t); [lia|]. cbn [orb fst snd].
  unfold upisnd_setup_get_element_type, upisnd_internal_setup_get_element_type,
    upisnd_internal_setup_set_element_type, upisnd_internal_setup_get_gpio_dir.
  rewrite field_get_set, field_get_set_other by lia.
  repeat split. apply Z.mod_small. change (2 ^ 3) with 8. lia.
Qed.

Lemma applicable_after_set_type (setup0 t : Z) (f : field) :
  field_of_type f t -> f <> F_gpio_output ->
  applicable f (snd (upisnd_setup_set_element_type setup0 t)).
Proof.
  intros Hf Hne.
  assert (Ht : 0 <= t < UPISND_ELEMENT_TYPE_COUNT).
  { destruct f; cbn in Hf; consts; lia. }
  destruct (set_element_type_ok setup0 t Ht) as (_ & Htag & Hdir).
  unfold applicable. rewrite Htag. split; [exact Hf|].
  destruct f; try exact I; [|congruence].
  intros Hg. unfold upisnd_setup_get_gpio_dir.
  unfold upisnd_setup_get_element_type in Htag. rewrite Htag.
  destruct (Z.eqb_spec t UPISND_ELEMENT_TYPE_GPIO); [exact Hdir | contradiction].
Qed.

Lemma output_applicable_after_dir (setup0 : Z) :
  applicable F_gpio_output
    (snd (upisnd_setup_set_gpio_dir
            (snd (upisnd_setup_set_element_type setup0 UPISND_ELEMENT_TYPE_GPIO))
            UPISND_PIN_DIR_OUTPUT)).
Proof.
  assert (Ht : 0 <= UPISND_ELEMENT_TYPE_GPIO < UPISND_ELEMENT_TYPE_COUNT) by (consts; lia).
  destruct (set_element_type_ok setup0 _ Ht) as (_ & Htag & _).
  set (d0 := snd (upisnd_setup_set_element_type setup0 UPISND_ELEMENT_TYPE_GPIO)) in *.
  assert (Ha : applicable F_gpio_dir d0) by (split; [exact Htag | exact I]).
  destruct (set_get_applicable F_gpio_dir d0 UPISND_PIN_DIR_OUTPUT Ha) as [_ Hg].
  cbn [setter getter] in Hg.
  assert (Htag' : upisnd_setup_get_element_type
                    (snd (upisnd_setup_set_gpio_dir d0 UPISND_PIN_DIR_OUTPUT))
                  = UPISND_ELEMENT_TYPE_GPIO).
  { unfold upisnd_setup_set_gpio_dir.
    unfold upisnd_setup_get_element_type in Htag. rewrite Htag, Z.eqb_refl. cbn [negb snd].
    unfold upisnd_setup_get_element_type, upisnd_internal_setup_set_gpio_dir.
    rewrite tag_after_field_set by lia. exact Htag. }
  split; [exact Htag'|]. rewrite Hg. reflexivity.
Qed.

(** ** C4 *)

(** C4, as stated, fails: right after the type tag is set to GPIO the
    direction is input, so the output level, a field of the GPIO type, cannot
    be set and does not read back. *)
Lemma C4_counterexample :
  field_of_type F_gpio_output UPISND_ELEMENT_TYPE_GPIO
  /\ valid_value F_gpio_output 1
  /\ ~ roundtrip_after_set_type 0 UPISND_ELEMENT_TYPE_GPIO F_gpio_output 1.
Proof.
  split; [reflexivity|]. split; [cbn; lia|].
  unfold roundtrip_after_set_type. vm_compute. intros [H _]. discriminate H.
Qed.

(** C4 (amended): for every element type the tag reads back, and for every
    field of the type and every valid value, setting the type tag, then (for
    the GPIO output level only) the direction to output, then the field, and
    reading the field through its public getter gives the value back. *)
Theorem C4_roundtrip (setup0 t : Z) (f : field) (v : Z) :
  let d0 := snd (upisnd_setup_set_element_type setup0 t) in
  let d := match f with
           | F_gpio_output => snd (upisnd_setup_set_gpio_dir d0 UPISND_PIN_DIR_OUTPUT)
           | _ => d0
           end in
  (0 <= t < UPISND_ELEMENT_TYPE_COUNT ->
   fst (upisnd_setup_set_element_type setup0 t) = 0 /\ upisnd_setup_get_element_type d0 = t)
  /\ (field_of_type f t -> valid_value f v ->
      fst (setter f d v) = 0 /\ getter f (snd (setter f d v)) = v).
Proof.
  intros d0 d. split.
  - intros Ht. destruct (set_element_type_ok setup0 t Ht) as (H1 & H2 & _). auto.
  - intros Hf Hv. apply roundtrip_applicable; [|exact Hv].
    destruct f; try (apply applicable_after_set_type; [exact Hf | discriminate]).
    cbn in Hf. subst t. apply output_applicable_after_dir.
Qed.

Lemma C4_roundtrip_witness :
  field_of_type F_gpio_output UPISND_ELEMENT_TYPE_GPIO /\ valid_value F_gpio_output 1
  /\ getter F_gpio_output
       (snd (setter F_gpio_output
               (snd (upisnd_setup_set_gpio_dir
                       (snd (upisnd_setup_set_element_type 0 UPISND_ELEMENT_TYPE_GPIO))
                       UPISND_PIN_DIR_OUTPUT)) 1)) = 1.
Proof.
  split; [reflexivity|]. split; [cbn; lia|].
  apply (C4_roundtrip 0 UPISND_ELEMENT_TYPE_GPIO F_gpio_output 1); [reflexivity | cbn; lia].
Defined.

(** ** C5 *)

(** C5: on every descriptor, a field that does not apply to the stored type
    (or, for the pull and the level of a GPIO, to the stored direction) is
    refused: the setter returns -EINVAL and leaves the descriptor as it was,
    the getter returns its invalid value. *)
Theorem C5_inapplicable_field (f : field) (setup v : Z) :
  ~ applicable f setup ->
  setter f setup v = (- EINVAL, setup) /\ getter f setup = sentinel f.
Proof.
  intros Hn. unfold applicable, upisnd_setup_get_gpio_dir, upisnd_setup_get_element_type in Hn.
  destruct f; cbn in Hn; cbn [setter getter sentinel].
  - unfold upisnd_setup_set_pin_id, upisnd_setup_get_pin_id, has_main_pin.
    consts. cmp; cbn; try (split; reflexivity); exfalso; apply Hn; split; auto.
  - unfold upisnd_setup_set_gpio_pull, upisnd_setup_get_gpio_pull, pull_applies.
    revert Hn. consts.
    destruct (Z.eqb_spec (upisnd_internal_setup_get_element_type setup) 1) as [E|E];
      [intros Hn; exfalso; apply Hn; split; [auto | intros; lia]|].
    destruct (Z.eqb_spec (upisnd_internal_setup_get_element_type setup) 3) as [E'|E'];
      [|intros _; split; reflexivity].
    destruct (Z.eqb_spec (upisnd_internal_setup_get_gpio_dir setup) 0) as [D|D];
      [intros Hn; exfalso; apply Hn; split; auto | intros _; split; reflexivity].
  - unfold upisnd_setup_set_gpio_dir, upisnd_setup_get_gpio_dir. revert Hn. consts.
    destruct (Z.eqb_spec (upisnd_internal_setup_get_element_type setup) 3) as [E|E];
      [intros Hn; exfalso; apply Hn; split; auto | intros _; split; reflexivity].
  - unfold upisnd_setup_set_gpio_output, upisnd_setup_get_gpio_output. revert Hn. consts.
    destruct (Z.eqb_spec (upisnd_internal_setup_get_element_type setup) 3) as [E|E];
      [|intros _; split; reflexivity].
    destruct (Z.eqb_spec (upisnd_internal_setup_get_gpio_dir setup) 1) as [D|D];
      [intros Hn; exfalso; apply Hn; split; auto | intros _; split; reflexivity].
  - unfold upisnd_setup_set_encoder_pin_b_id, upisnd_setup_get_encoder_pin_b_id.
    revert Hn. consts.
    destruct (Z.eqb_spec (upisnd_internal_setup_get_element_type setup) 1) as [E|E];
      [intros Hn; exfalso; apply Hn; split; auto | intros _; split; reflexivity].
  - unfold upisnd_setup_set_encoder_pin_b_pull, upisnd_setup_get_encoder_pin_b_pull.
    revert Hn. consts.
    destruct (Z.eqb_spec (upisnd_internal_setup_get_element_type setup) 1) as [E|E];
      [intros Hn; exfalso; apply Hn; split; auto | intros _; split; reflexivity].
  - unfold upisnd_setup_set_activity_type, upisnd_setup_get_activity_type.
    revert Hn. consts.
    destruct (Z.eqb_spec (upisnd_internal_setup_get_element_type setup) 4) as [E|E];
      [intros Hn; exfalso; apply Hn; split; auto | intros _; split; reflexivity].
Qed.

Lemma C5_inapplicable_field_witness :
  setter F_gpio_pull 8195 UPISND_PIN_PULL_UP = (- EINVAL, 8195)
  /\ getter F_gpio_pull 8195 = sentinel F_gpio_pull.
Proof.
  apply (C5_inapplicable_field F_gpio_pull 8195 UPISND_PIN_PULL_UP).
  intros [_ H]. specialize (H eq_refl). vm_compute in H. discriminate H.
Defined.

(** ** C6 *)

(** C6, as stated, fails: on a GPIO descriptor the direction setter takes
    the value -1, which is outside the enumeration, reports success and
    stores its low bit, so the descriptor then reads as an output. *)
Lemma C6_counterexample :
  let d := snd (upisnd_setup_set_element_type 0 UPISND_ELEMENT_TYPE_GPIO) in
  ~ valid_value F_gpio_dir UPISND_PIN_DIR_INVALID
  /\ applicable F_gpio_dir d
  /\ ~ rejects F_gpio_dir d UPISND_PIN_DIR_INVALID
  /\ fst (setter F_gpio_dir d UPISND_PIN_DIR_INVALID) = 0
  /\ getter F_gpio_dir (snd (setter F_gpio_dir d UPISND_PIN_DIR_INVALID))
     = UPISND_PIN_DIR_OUTPUT.
Proof.
  cbv zeta. split; [cbn; consts; lia|]. split; [split; [reflexivity | exact I]|].
  split; [|split; reflexivity].
  unfold rejects. vm_compute. intros [H _]. apply H. reflexivity.
Qed.

(** C6 (amended): only the type setter checks the range of its value: a
    type outside the enumeration is refused with -EINVAL and the descriptor
    is left as it was.  A field setter whose field applies reports success
    for every value and stores the value cut to the width of the field, so
    the getter then gives the cut value. *)
Theorem C6_setters_mask (f : field) (setup v t : Z) :
  (~ 0 <= t < UPISND_ELEMENT_TYPE_COUNT ->
   upisnd_setup_set_element_type setup t = (- EINVAL, setup))
  /\ (applicable f setup ->
      fst (setter f setup v) = 0 /\ getter f (snd (setter f setup v)) = stored f v).
Proof.
  split.
  - unfold upisnd_setup_set_element_type. consts. intros Ht.
    destruct (Z.ltb_spec t 0); [reflexivity|]. rewrite Z.geb_leb.
    destruct (Z.leb_spec 5 t); [reflexivity | lia].
  - apply set_get_applicable.
Qed.

Lemma C6_setters_mask_witness :
  upisnd_setup_set_element_type 3 7 = (- EINVAL, 3)
  /\ fst (setter F_gpio_pull 3 7) = 0
  /\ getter F_gpio_pull (snd (setter F_gpio_pull 3 7)) = stored F_gpio_pull 7.
Proof.
  destruct (C6_setters_mask F_gpio_pull 3 7 7) as [H1 H2].
  split; [apply H1; consts; lia|].
  apply H2. split; [right; reflexivity | intros _; reflexivity].
Defined.

(** * Name validation *)

Lemma strchr_None s c : strchr s c = None <-> ~ In c (list_ascii_of_string s).
Proof.
  induction s as [|a s IH]; cbn.
  - split; [intros _ [] | reflexivity].
  - destruct (Ascii.eqb_spec a c) as [->|Hne].
    + split; [discriminate | intros H; exfalso; apply H; left; reflexivity].
    + destruct (strchr s c); cbn.
      * split; [discriminate|]. intros H. exfalso.
        destruct IH as [_ IH]. assert (Hn : ~ In c (list_ascii_of_string s)) by tauto.
        specialize (IH Hn). discriminate IH.
      * split; [|reflexivity]. intros _ [H|H]; [congruence | tauto].
Qed.

Lemma strlen_app s1 s2 : strlen (s1 +:+ s2) = strlen s1 + strlen s2.
Proof.
  unfold strlen. induction s1 as [|a s1 IH].
  - reflexivity.
  - change (String a s1 +:+ s2) with (String a (s1 +:+ s2)).
    cbn [String.length]. lia.
Qed.

Lemma strlen_nonneg s : 0 <= strlen s.
Proof. unfold strlen. lia. Qed.

(** What an accepted name looks like, and what the validator returns. *)
Lemma validate_accepts (name : string) :
  0 <= upisnd_validate_element_name (Some name) ->
  (1 <= String.length name <= 63)%nat
  /\ ~ In "/"%char (list_ascii_of_string name)
  /\ upisnd_validate_element_name (Some name) = strlen name.
Proof.
  unfold upisnd_validate_element_name, UPISND_MAX_ELEMENT_NAME_LENGTH, strlen.
  destruct name as [|a name]; [lia|].
  rewrite Z.geb_leb.
  destruct (Z.leb_spec 64 (Z.of_nat (String.length (String a name)))); [lia|].
  destruct (strchr (String a name) "/") eqn:E; [lia|].
  intros _. apply strchr_None in E. cbn [String.length] in *. repeat split; auto; lia.
Qed.


(** * The registry *)

Section Registry.

Implicit Types (s : state) (c h p : ptr) (l : list ptr).

Lemma names_of_cons s p l nd :
  nodes s !! p = Some nd -> names_of s (p :: l) = el_name nd :: names_of s l.
Proof. intros H. unfold names_of. cbn. rewrite H. reflexivity. Qed.

Lemma live_in_lookup s c h : live_in s c h -> exists nd, nodes s !! h = Some nd.
Proof. unfold live_in. destruct (nodes s !! h); [eauto | tauto]. Qed.

(** The scan finds the handle a name is registered under. *)
Lemma scan_elements_found s c name h nd l :
  Forall (live_in s c) l -> NoDup (names_of s l) ->
  h ∈ l -> nodes s !! h = Some nd -> el_name nd = name ->
  scan_elements (nodes s) name l = Some (Some h).
Proof.
  intros Hlive Hnd Hin Hh Hname.
  induction l as [|p l IH]; [inversion Hin|].
  apply Forall_cons in Hlive as [Hp Hlive].
  destruct (live_in_lookup _ _ _ Hp) as [ndp Hndp].
  rewrite (names_of_cons _ _ _ _ Hndp) in Hnd. apply NoDup_cons in Hnd as [Hnotin Hnd].
  cbn. rewrite Hndp.
  destruct (String.eqb_spec (el_name ndp) name) as [E|E].
  - apply elem_of_cons in Hin as [->|Hin]; [reflexivity|].
    exfalso. apply Hnotin. unfold names_of. apply list_elem_of_omap.
    exists h. split; [exact Hin|]. rewrite Hh. cbn. congruence.
  - apply elem_of_cons in Hin as [->|Hin]; [congruence|]. auto.
Qed.

(** The scan finds nothing when no link carries the name. *)
Lemma scan_elements_absent s c name l :
  Forall (live_in s c) l ->
  (forall h nd, h ∈ l -> nodes s !! h = Some nd -> el_name nd <> name) ->
  scan_elements (nodes s) name l = Some None.
Proof.
  intros Hlive Habs. induction l as [|p l IH]; [reflexivity|].
  apply Forall_cons in Hlive as [Hp Hlive].
  destruct (live_in_lookup _ _ _ Hp) as [ndp Hndp].
  cbn. rewrite Hndp.
  destruct (String.eqb_spec (el_name ndp) name) as [E|E].
  - exfalso. apply (Habs p ndp); [left | exact Hndp | exact E].
  - apply IH; [exact Hlive|]. intros h nd Hin. apply Habs. right. exact Hin.
Qed.

(** Whatever the scan finds is a link of the list that carries the name. *)
Lemma scan_elements_sound (m : gmap ptr node) name l h :
  scan_elements m name l = Some (Some h) ->
  h ∈ l /\ exists nd, m !! h = Some nd /\ el_name nd = name.
Proof.
  induction l as [|p l IH]; cbn; [discriminate|].
  destruct (m !! p) as [ndp|] eqn:Hp; [|discriminate].
  destruct (String.eqb_spec (el_name ndp) name) as [E|E].
  - intros [= <-]. split; [left | eauto].
  - intros H. destruct (IH H) as [Hin Hnd]. split; [right; exact Hin | exact Hnd].
Qed.

Lemma int32_small z : - 2 ^ 31 <= z < 2 ^ 31 -> int32 z = z.
Proof.
  intros H. unfold int32.
  destruct (Z.neg_nonneg_cases z) as [Hneg|Hpos].
  - replace (z mod 2 ^ 32) with (z + 2 ^ 32).
    + destruct (Z.ltb_spec (z + 2 ^ 32) (2 ^ 31)); lia.
    + apply Z.mod_unique with (q := -1); lia.
  - rewrite Z.mod_small by lia. destruct (Z.ltb_spec z (2 ^ 31)); lia.
Qed.

Lemma wf_ctx s c cx : wf s -> ctxs s !! c = Some cx -> ctx_ok s c cx.
Proof. intros (_ & _ & H). apply H. Qed.

Lemma registered_live s c name h :
  wf s -> registered s c name h ->
  exists cx nd, ctxs s !! c = Some cx /\ h ∈ ctx_elements cx /\ nodes s !! h = Some nd
                /\ el_name nd = name /\ el_ctx nd = c /\ 1 <= el_refcount nd <= INT_MAX.
Proof.
  intros Hwf (cx & nd & Hc & Hin & Hh & Hn).
  destruct (wf_ctx _ _ _ Hwf Hc) as [Hlive _].
  rewrite Forall_forall in Hlive. specialize (Hlive h Hin).
  unfold live_in in Hlive. rewrite Hh in Hlive. destruct Hlive as [Hctx Hrc].
  exists cx, nd. auto 10.
Qed.

(** [upisnd_element_get] on a registered name: the registered handle, one
    more reference, errno cleared, nothing else touched. *)
Lemma element_get_registered s c name h nd cx :
  wf s -> upisnd_active_ctx s = Some c -> ctxs s !! c = Some cx ->
  0 <= upisnd_validate_element_name (Some name) ->
  h ∈ ctx_elements cx -> nodes s !! h = Some nd -> el_name nd = name ->
  upisnd_element_get (Some name) s
  = (Some h,
     set_errno 0
       (set_nodes (<[h := mk_node (int32 (el_refcount nd + 1)) (el_name nd) (el_ctx nd)]>
                     (nodes s)) s)).
Proof.
  intros Hwf Hact Hc Hval Hin Hh Hname.
  unfold upisnd_element_get. rewrite Hact.
  destruct (Z.ltb_spec (upisnd_validate_element_name (Some name)) 0); [lia|].
  rewrite Hc.
  destruct (wf_ctx _ _ _ Hwf Hc) as [Hlive Hnd].
  rewrite (scan_elements_found s c name h nd _ Hlive Hnd Hin Hh Hname).
  unfold upisnd_element_add_ref. rewrite Hh. reflexivity.
Qed.

(** [upisnd_element_get] on a name the registry does not hold: NULL, and
    the state is left as it was. *)
Lemma element_get_absent s c name cx :
  wf s -> upisnd_active_ctx s = Some c -> ctxs s !! c = Some cx ->
  0 <= upisnd_validate_element_name (Some name) ->
  (forall h, ~ registered s c name h) ->
  upisnd_element_get (Some name) s = (None, s).
Proof.
  intros Hwf Hact Hc Hval Habs.
  unfold upisnd_element_get. rewrite Hact.
  destruct (Z.ltb_spec (upisnd_validate_element_name (Some name)) 0); [lia|].
  rewrite Hc.
  destruct (wf_ctx _ _ _ Hwf Hc) as [Hlive Hnd].
  rewrite (scan_elements_absent s c name _ Hlive); [reflexivity|].
  intros h nd Hin Hh Hn. apply (Habs h). exists cx, nd. auto.
Qed.

End Registry.

(** * Traces and transactions *)

Lemma writes_app tr1 tr2 : writes (tr1 ++ tr2) = writes tr1 ++ writes tr2.
Proof.
  induction tr1 as [|ev tr1 IH]; [reflexivity|].
  destruct ev; cbn; rewrite IH; reflexivity.
Qed.

Lemma opens_app tr1 tr2 : opens (tr1 ++ tr2) = opens tr1 ++ opens tr2.
Proof.
  induction tr1 as [|ev tr1 IH]; [reflexivity|].
  destruct ev; cbn; rewrite IH; reflexivity.
Qed.

Lemma sleeps_app tr1 tr2 : sleeps (tr1 ++ tr2) = sleeps tr1 ++ sleeps tr2.
Proof.
  induction tr1 as [|ev tr1 IH]; [reflexivity|].
  destruct ev; cbn; rewrite IH; reflexivity.
Qed.

(** Simplify the writes and opens of a trace that grew by known events. *)
Ltac trace_simpl :=
  cbn [trace log set_errno set_nodes set_ctxs set_fault usleep];
  rewrite ?writes_app, ?opens_app, ?sleeps_app; cbn [writes opens sleeps];
  rewrite ?app_nil_r, <- ?app_assoc; cbn [app].

Lemma same_store_refl s : same_store s s.
Proof. repeat split. Qed.

Lemma upisnd_path_setup base :
  strlen (setup_node base) < UPISND_MAX_BASE_PATH_LENGTH ->
  upisnd_path UPISND_PATH_SETUP base = (strlen (setup_node base), setup_node base).
Proof.
  intros H. unfold upisnd_path. fold (setup_node base).
  assert (0 < strlen (setup_node base)).
  { unfold setup_node. rewrite strlen_app. pose proof (strlen_nonneg base).
    change (strlen "/setup") with 6. lia. }
  destruct (Z.ltb_spec 0 (strlen (setup_node base))); [|lia].
  destruct (Z.ltb_spec (strlen (setup_node base)) UPISND_MAX_BASE_PATH_LENGTH); [|lia].
  reflexivity.
Qed.

Lemma upisnd_path_unsetup base :
  strlen (unsetup_node base) < UPISND_MAX_BASE_PATH_LENGTH ->
  upisnd_path UPISND_PATH_UNSETUP base = (strlen (unsetup_node base), unsetup_node base).
Proof.
  intros H. unfold upisnd_path. fold (unsetup_node base).
  assert (0 < strlen (unsetup_node base)).
  { unfold unsetup_node. rewrite strlen_app. pose proof (strlen_nonneg base).
    change (strlen "/unsetup") with 8. lia. }
  destruct (Z.ltb_spec 0 (strlen (unsetup_node base))); [|lia].
  destruct (Z.ltb_spec (strlen (unsetup_node base)) UPISND_MAX_BASE_PATH_LENGTH); [|lia].
  reflexivity.
Qed.

Lemma upisnd_path_snd_unsetup base :
  snd (upisnd_path UPISND_PATH_UNSETUP base) = unsetup_node base.
Proof. reflexivity. Qed.

(** The tail of a transaction: the store is kept, exactly one write is
    made, and the error returned is 0 exactly when the three calls succeed. *)
Lemma write_sync_close_spec t path payload s :
  exists err s',
    write_sync_close t path payload s = (err, s')
    /\ same_store s s'
    /\ writes (trace s') = writes (trace s) ++ [(path, payload)]
    /\ opens (trace s') = opens (trace s)
    /\ (t_write t = SysOk -> t_fdatasync t = SysOk -> t_close t = SysOk ->
        err = 0 /\ errno s' = errno s)
    /\ (forall e, t_close t = SysErr e -> err = Z.pos e /\ errno s' = Z.pos e)
    /\ (forall e, t_close t = SysOk -> t_write t = SysErr e ->
        err = Z.pos e /\ errno s' = Z.pos e)
    /\ (forall e, t_close t = SysOk -> t_write t = SysOk -> t_fdatasync t = SysErr e ->
        err = Z.pos e /\ errno s' = Z.pos e).
Proof.
  unfold write_sync_close.
  destruct (t_write t) as [|ew], (t_fdatasync t) as [|ef], (t_close t) as [|ec];
    eexists; eexists; (split; [reflexivity|]); (split; [repeat split|]);
    trace_simpl; repeat split; intros; try discriminate; try congruence;
    repeat match goal with H : SysErr _ = SysErr _ |- _ => injection H as <- end;
    reflexivity.
Qed.


(** The transaction on the setup node when every call succeeds. *)
Lemma setup_transact_ok w path payload s :
  txn_ok (w_setup w) ->
  exists s', setup_transact w path payload s = (0, s')
             /\ same_store s s' /\ errno s' = errno s
             /\ writes (trace s') = writes (trace s) ++ [(path, payload)]
             /\ opens (trace s') = opens (trace s) ++ [path].
Proof.
  intros (Ho & Hw & Hf & Hc). unfold setup_transact.
  destruct (t_open (w_setup w)) as [fd|e]; [|destruct Ho].
  destruct (write_sync_close_spec (w_setup w) path payload
              (log (EvOpen path (Z.lor O_CLOEXEC O_WRONLY)) s))
    as (err & s' & Heq & Hst & Hwr & Hop & Hok & _).
  destruct (Hok Hw Hf Hc) as [-> He].
  exists s'. split; [exact Heq|]. split; [exact Hst|]. split; [exact He|].
  split; [rewrite Hwr | rewrite Hop]; trace_simpl; reflexivity.
Qed.

(** The transaction on the setup node when it fails with [e]: the error is
    returned and left in errno, the store is kept, the setup node is the only
    node opened and at most the one request is written. *)
Lemma setup_transact_fails w path payload s e :
  txn_fails_with (w_setup w) e ->
  exists s' l, setup_transact w path payload s = (Z.pos e, s')
               /\ same_store s s' /\ errno s' = Z.pos e
               /\ writes (trace s') = writes (trace s) ++ l
               /\ (l = [] \/ l = [(path, payload)])
               /\ opens (trace s') = opens (trace s) ++ [path].
Proof.
  intros Hf. unfold setup_transact.
  destruct Hf as [Ho | Ho Hc | Ho Hc Hw | Ho Hc Hw Hd].
  - rewrite Ho. eexists; exists []. split; [reflexivity|]. split; [repeat split|].
    trace_simpl. repeat split; auto.
  - destruct (t_open (w_setup w)) as [fd|e']; [|destruct Ho].
    destruct (write_sync_close_spec (w_setup w) path payload
                (log (EvOpen path (Z.lor O_CLOEXEC O_WRONLY)) s))
      as (err & s' & Heq & Hst & Hwr & Hop & _ & Hcl & _).
    destruct (Hcl e Hc) as [-> He].
    exists s', [(path, payload)]. split; [exact Heq|]. split; [exact Hst|].
    split; [exact He|]. rewrite Hwr, Hop. trace_simpl. repeat split; auto.
  - destruct (t_open (w_setup w)) as [fd|e']; [|destruct Ho].
    destruct (write_sync_close_spec (w_setup w) path payload
                (log (EvOpen path (Z.lor O_CLOEXEC O_WRONLY)) s))
      as (err & s' & Heq & Hst & Hwr & Hop & _ & _ & Hwf & _).
    destruct (Hwf e Hc Hw) as [-> He].
    exists s', [(path, payload)]. split; [exact Heq|]. split; [exact Hst|].
    split; [exact He|]. rewrite Hwr, Hop. trace_simpl. repeat split; auto.
  - destruct (t_open (w_setup w)) as [fd|e']; [|destruct Ho].
    destruct (write_sync_close_spec (w_setup w) path payload
                (log (EvOpen path (Z.lor O_CLOEXEC O_WRONLY)) s))
      as (err & s' & Heq & Hst & Hwr & Hop & _ & _ & _ & Hdf).
    destruct (Hdf e Hc Hw Hd) as [-> He].
    exists s', [(path, payload)]. split; [exact Heq|]. split; [exact Hst|].
    split; [exact He|]. rewrite Hwr, Hop. trace_simpl. repeat split; auto.
Qed.

(** [upisnd_unsetup_do]: the store is kept; the name is written to the
    unsetup node once when the node opens, and nothing is written when its
    path does not fit or the open fails. *)
Lemma unsetup_do_spec w base name s :
  exists r s',
    upisnd_unsetup_do w base name s = (r, s')
    /\ same_store s s'
    /\ (strlen (unsetup_node base) < UPISND_MAX_BASE_PATH_LENGTH ->
        opened (t_open (w_unsetup w)) ->
        writes (trace s') = writes (trace s) ++ [(unsetup_node base, name)]
        /\ opens (trace s') = opens (trace s) ++ [unsetup_node base])
    /\ (exists l, writes (trace s') = writes (trace s) ++ l
                  /\ (l = [] \/ l = [(unsetup_node base, name)])).
Proof.
  unfold upisnd_unsetup_do, upisnd_open_fd.
  rewrite upisnd_path_snd_unsetup.
  destruct (upisnd_path UPISND_PATH_UNSETUP base) as [err path] eqn:Hp.
  destruct (err <? 0) eqn:Hlt.
  - (* the path does not fit *)
    cbv beta iota zeta. rewrite Hlt.
    exists err, s. split; [reflexivity|]. split; [apply same_store_refl|]. split.
    + intros Hfit. rewrite (upisnd_path_unsetup _ Hfit) in Hp.
      injection Hp as <- <-. pose proof (strlen_nonneg (unsetup_node base)). lia.
    + exists []. rewrite app_nil_r. auto.
  - assert (Hpath : path = unsetup_node base).
    { unfold upisnd_path in Hp. injection Hp as _ <-. reflexivity. }
    subst path.
    destruct (t_open (w_unsetup w)) as [fd|e]; cbv beta iota zeta.
    + destruct (Z.ltb_spec (Z.of_N fd) 0) as [Hfd|Hfd]; [lia|].
      destruct (write_sync_close_spec (w_unsetup w) (unsetup_node base) name
                  (log (EvOpen (unsetup_node base) (Z.lor O_CLOEXEC O_WRONLY)) (set_errno 0 s)))
        as (e' & s' & Heq & Hst & Hwr & Hop & _).
      rewrite Heq. eexists; eexists. split; [reflexivity|].
      split; [destruct Hst as (?&?&?&?&?); repeat split; cbn; assumption|].
      cbn [trace set_errno]. rewrite Hwr, Hop. trace_simpl. split.
      * intros _ _. split; reflexivity.
      * eexists. split; [reflexivity|]. auto.
    + destruct (Z.ltb_spec (- Z.pos e) 0) as [Hfd|Hfd]; [|lia].
      eexists; eexists. split; [reflexivity|]. split; [repeat split|].
      trace_simpl. split.
      * intros _ Ho. destruct Ho.
      * exists []. split; [symmetry; apply app_nil_r | auto].
Qed.

(** * Unlinking *)

Lemma unlink_elem el l :
  el ∈ l -> exists l', unlink el l = Some l'.
Proof.
  induction l as [|p l IH]; [intros H; inversion H|].
  intros Hin. cbn. destruct (Pos.eqb_spec p el) as [->|Hne]; [eauto|].
  apply elem_of_cons in Hin as [->|Hin]; [congruence|].
  destruct (IH Hin) as [l' ->]. cbn. eauto.
Qed.

Lemma unlink_spec el l l' :
  unlink el l = Some l' -> NoDup l ->
  forall x, x ∈ l' <-> x ∈ l /\ x <> el.
Proof.
  revert l'. induction l as [|p l IH]; intros l'; cbn; [discriminate|].
  destruct (Pos.eqb_spec p el) as [->|Hne].
  - intros [= <-] Hnd x. apply NoDup_cons in Hnd as [Hnotin _].
    rewrite elem_of_cons. split.
    + intros Hx. split; [auto|]. intros ->. contradiction.
    + intros [[->|Hx] Hne]; [congruence | exact Hx].
  - destruct (unlink el l) as [l0|] eqn:E; [|discriminate].
    cbn. intros [= <-] Hnd x. apply NoDup_cons in Hnd as [_ Hnd].
    specialize (IH l0 eq_refl Hnd). rewrite !elem_of_cons, IH.
    split.
    + intros [->|[H1 H2]]; auto.
    + intros [[->|H1] H2]; auto.
Qed.

(** The links of a well-formed registry are pairwise different. *)
Lemma NoDup_links s c l :
  Forall (live_in s c) l -> NoDup (names_of s l) -> NoDup l.
Proof.
  induction l as [|p l IH]; intros Hlive Hnd; [constructor|].
  apply Forall_cons in Hlive as [Hp Hlive].
  destruct (live_in_lookup _ _ _ Hp) as [ndp Hndp].
  rewrite (names_of_cons _ _ _ _ Hndp) in Hnd. apply NoDup_cons in Hnd as [Hnotin Hnd].
  apply NoDup_cons. split; [|auto].
  intros Hin. apply Hnotin. unfold names_of. apply list_elem_of_omap.
  exists p. rewrite Hndp. auto.
Qed.

(** * Releasing a reference *)

(** [upisnd_elements_remove] on a registered handle: the link is taken out
    of the list of its context and the node is freed. *)
Lemma elements_remove_registered s h nd cx l' :
  nodes s !! h = Some nd -> ctxs s !! el_ctx nd = Some cx ->
  unlink h (ctx_elements cx) = Some l' ->
  exists s', upisnd_elements_remove h s = (0, s')
             /\ nodes s' = delete h (nodes s)
             /\ ctxs s' = <[el_ctx nd := mk_ctx (ctx_refcount cx) (ctx_sysfs_base cx) l']> (ctxs s)
             /\ trace s' = trace s /\ fault s' = fault s
             /\ upisnd_active_ctx s' = upisnd_active_ctx s.
Proof.
  intros Hh Hc Hu. unfold upisnd_elements_remove. rewrite Hh, Hc, Hu.
  eexists. split; [reflexivity|]. repeat split.
Qed.

(** An unref that does not bring the count to zero only stores the count. *)
Lemma element_unref_keeps w s h nd :
  nodes s !! h = Some nd -> int32 (el_refcount nd - 1) <> 0 ->
  upisnd_element_unref w (Some (Some h)) s
  = (Some None,
     set_nodes (<[h := mk_node (int32 (el_refcount nd - 1)) (el_name nd) (el_ctx nd)]>
                  (nodes s)) s).
Proof.
  intros Hh Hrc. unfold upisnd_element_unref. rewrite Hh. cbv zeta.
  destruct (Z.eqb_spec (int32 (el_refcount nd - 1)) 0); [contradiction | reflexivity].
Qed.

(** The unref that takes the count from 1 to 0: the release is asked of
    the driver, the link is taken out of the list and the node is freed. *)
Lemma element_unref_last w s h nd cx :
  nodes s !! h = Some nd -> el_refcount nd = 1 ->
  ctxs s !! el_ctx nd = Some cx -> h ∈ ctx_elements cx ->
  exists s' l',
    upisnd_element_unref w (Some (Some h)) s = (Some None, s')
    /\ unlink h (ctx_elements cx) = Some l'
    /\ nodes s' = delete h (nodes s)
    /\ ctxs s' = <[el_ctx nd := mk_ctx (ctx_refcount cx) (ctx_sysfs_base cx) l']> (ctxs s)
    /\ fault s' = fault s /\ upisnd_active_ctx s' = upisnd_active_ctx s
    /\ (exists l, writes (trace s') = writes (trace s) ++ l
                  /\ (l = [] \/ l = [(unsetup_node (ctx_sysfs_base cx), el_name nd)]))
    /\ (release_reaches_driver w (ctx_sysfs_base cx) ->
        writes (trace s') = writes (trace s) ++ [(unsetup_node (ctx_sysfs_base cx), el_name nd)]
        /\ opens (trace s') = opens (trace s) ++ [unsetup_node (ctx_sysfs_base cx)]).
Proof.
  intros Hh H1 Hc Hin. unfold upisnd_element_unref. rewrite Hh, H1.
  change (int32 (1 - 1)) with 0. cbv zeta. change (0 =? 0) with true. cbv iota.
  set (s1 := set_nodes (<[h := mk_node 0 (el_name nd) (el_ctx nd)]> (nodes s)) s).
  change (ctxs s1) with (ctxs s). rewrite Hc.
  destruct (unsetup_do_spec w (ctx_sysfs_base cx) (el_name nd) s1)
    as (r & s2 & Heq & (Hs1 & Hs2 & Hs3 & Hs4 & Hs5) & Hreach & Hmost).
  rewrite Heq.
  destruct (unlink_elem h _ Hin) as [l' Hu].
  destruct (elements_remove_registered s2 h (mk_node 0 (el_name nd) (el_ctx nd)) cx l')
    as (s3 & Heq3 & Hn3 & Hc3 & Ht3 & Hf3 & Ha3).
  { rewrite Hs2. subst s1. cbn. apply lookup_insert_eq. }
  { rewrite Hs1. exact Hc. }
  { exact Hu. }
  rewrite Heq3. exists s3, l'. split; [reflexivity|]. split; [exact Hu|].
  split; [rewrite Hn3, Hs2; subst s1; cbn; apply delete_insert_eq|].
  split; [rewrite Hc3, Hs1; reflexivity|].
  split; [rewrite Hf3, Hs4; reflexivity|].
  split; [rewrite Ha3, Hs3; reflexivity|].
  rewrite Ht3. split; [exact Hmost|].
  intros [Hfit Hopen]. apply Hreach; assumption.
Qed.

(** C2: on a registered handle, the unref that takes the count from 1 to 0
    removes the handle from the registry, frees it, and asks the driver for
    the release once: when the unsetup node can be opened, exactly one write
    is made, of the name of the element to the unsetup node of its context,
    and in no case is more than that one write made.  An unref that leaves
    the count above zero makes no system call and leaves the registry as it
    is. *)
Theorem C2_release_once (s : state) (w : world) (h : ptr) (nd : node) (cx : ctx_t) :
  wf s -> nodes s !! h = Some nd -> ctxs s !! el_ctx nd = Some cx ->
  h ∈ ctx_elements cx ->
  let s' := snd (upisnd_element_unref w (Some (Some h)) s) in
  let dev := unsetup_node (ctx_sysfs_base cx) in
  (el_refcount nd = 1 ->
   nodes s' !! h = None
   /\ (exists l', registry_of s' (el_ctx nd) = Some l'
                  /\ forall x, x ∈ l' <-> x ∈ ctx_elements cx /\ x <> h)
   /\ (exists l, writes (trace s') = writes (trace s) ++ l
                 /\ (l = [] \/ l = [(dev, el_name nd)]))
   /\ (release_reaches_driver w (ctx_sysfs_base cx) ->
       writes (trace s') = writes (trace s) ++ [(dev, el_name nd)]
       /\ opens (trace s') = opens (trace s) ++ [dev]))
  /\ (el_refcount nd <> 1 ->
      trace s' = trace s /\ ctxs s' = ctxs s
      /\ refcount_of s' h = Some (el_refcount nd - 1)).
Proof.
  intros Hwf Hh Hc Hin s' dev.
  destruct (wf_ctx _ _ _ Hwf Hc) as [Hlive Hnames].
  pose proof (NoDup_links _ _ _ Hlive Hnames) as Hnd.
  assert (Hrc : 1 <= el_refcount nd <= INT_MAX).
  { rewrite Forall_forall in Hlive. specialize (Hlive h Hin).
    unfold live_in in Hlive. rewrite Hh in Hlive. tauto. }
  split.
  - intros H1. subst s'.
    destruct (element_unref_last w s h nd cx Hh H1 Hc Hin)
      as (s3 & l' & Heq & Hu & Hn3 & Hc3 & _ & _ & Hmost & Hreach).
    rewrite Heq. cbn [snd].
    split; [rewrite Hn3; apply lookup_delete_eq|].
    split; [|split; [exact Hmost | exact Hreach]].
    exists l'. split.
    + unfold registry_of. rewrite Hc3, lookup_insert_eq. reflexivity.
    + apply (unlink_spec _ _ _ Hu Hnd).
  - intros Hne. subst s'.
    assert (Hi : int32 (el_refcount nd - 1) = el_refcount nd - 1).
    { apply int32_small. unfold INT_MAX in Hrc. lia. }
    rewrite (element_unref_keeps w s h nd Hh) by (rewrite Hi; lia).
    cbn. repeat split. unfold refcount_of. cbn. rewrite lookup_insert_eq. cbn.
    rewrite Hi. reflexivity.
Qed.

(** * The setup orchestrator *)

(** [setup_finish] returns the handle it was entered with, or NULL. *)
Lemma setup_finish_result w el existing existed path payload s :
  fst (setup_finish w el existing existed path payload s) = Some el
  \/ fst (setup_finish w el existing existed path payload s) = None.
Proof.
  unfold setup_finish.
  destruct (setup_transact w path payload s) as [err s1].
  destruct ((err =? 0) && negb existing); cbv beta iota zeta;
    destruct (negb (err =? 0)); cbn; auto.
Qed.

(** Attach, the transaction succeeds: the handle is returned, errno says
    EEXIST and the store is kept. *)
Lemma setup_finish_attach_ok w h path payload s :
  txn_ok (w_setup w) ->
  exists s', setup_finish w h true false path payload s = (Some h, s')
             /\ same_store s s' /\ errno s' = EEXIST
             /\ writes (trace s') = writes (trace s) ++ [(path, payload)]
             /\ opens (trace s') = opens (trace s) ++ [path].
Proof.
  intros Hok. unfold setup_finish.
  destruct (setup_transact_ok w path payload s Hok) as (s' & Heq & Hst & _ & Hwr & Hop).
  rewrite Heq. cbn.
  eexists. split; [reflexivity|]. cbn.
  split; [destruct Hst as (?&?&?&?&?); repeat split; assumption | auto].
Qed.

(** Attach, the transaction fails: NULL, the error in errno, and the
    reference taken by the lookup is given back. *)
Lemma setup_finish_attach_fails w h nd path payload s e :
  txn_fails_with (w_setup w) e ->
  nodes s !! h = Some nd -> int32 (el_refcount nd - 1) <> 0 ->
  exists s' l,
    setup_finish w h true false path payload s = (None, s')
    /\ errno s' = Z.pos e
    /\ nodes s' = <[h := mk_node (int32 (el_refcount nd - 1)) (el_name nd) (el_ctx nd)]> (nodes s)
    /\ ctxs s' = ctxs s /\ fault s' = fault s
    /\ writes (trace s') = writes (trace s) ++ l /\ (l = [] \/ l = [(path, payload)])
    /\ opens (trace s') = opens (trace s) ++ [path]
    /\ upisnd_active_ctx s' = upisnd_active_ctx s.
Proof.
  intros Hf Hh Hrc. unfold setup_finish.
  destruct (setup_transact_fails w path payload s e Hf)
    as (s' & l & Heq & (Hs1 & Hs2 & Hs3 & Hs4 & Hs5) & He & Hwr & Hl & Hop).
  rewrite Heq. cbv beta iota zeta. change (Z.pos e =? 0) with false.
  cbv beta iota zeta delta [andb negb].
  rewrite (element_unref_keeps w s' h nd) by (rewrite ?Hs2; assumption).
  eexists; exists l. split; [reflexivity|]. cbn.
  rewrite Hs1, Hs2, Hs3, Hs4. auto 10.
Qed.

(** Fresh element, the transaction succeeds: the node is linked at the head
    of the list of its context and returned. *)
Lemma setup_finish_fresh_ok w p nd cx existed path payload s :
  txn_ok (w_setup w) ->
  nodes s !! p = Some nd -> ctxs s !! el_ctx nd = Some cx ->
  exists s',
    setup_finish w p false existed path payload s = (Some p, s')
    /\ nodes s' = nodes s
    /\ ctxs s' = <[el_ctx nd := mk_ctx (ctx_refcount cx) (ctx_sysfs_base cx)
                                       (p :: ctx_elements cx)]> (ctxs s)
    /\ fault s' = fault s /\ upisnd_active_ctx s' = upisnd_active_ctx s
    /\ errno s' = (if existed then EEXIST else 0)
    /\ writes (trace s') = writes (trace s) ++ [(path, payload)]
    /\ opens (trace s') = opens (trace s) ++ [path].
Proof.
  intros Hok Hp Hc. unfold setup_finish.
  destruct (setup_transact_ok w path payload s Hok)
    as (s' & Heq & (Hs1 & Hs2 & Hs3 & Hs4 & Hs5) & _ & Hwr & Hop).
  rewrite Heq. cbn.
  unfold upisnd_elements_prepend. rewrite Hs2, Hp, Hs1, Hc.
  eexists. split; [reflexivity|]. cbn.
  repeat split; auto. destruct existed; reflexivity.
Qed.

(** Fresh element, the transaction fails: the node is freed and not
    linked. *)
Lemma setup_finish_fresh_fails w p existed path payload s e :
  txn_fails_with (w_setup w) e ->
  exists s' l,
    setup_finish w p false existed path payload s = (None, s')
    /\ errno s' = Z.pos e
    /\ nodes s' = delete p (nodes s)
    /\ ctxs s' = ctxs s /\ fault s' = fault s
    /\ writes (trace s') = writes (trace s) ++ l /\ (l = [] \/ l = [(path, payload)])
    /\ opens (trace s') = opens (trace s) ++ [path]
    /\ upisnd_active_ctx s' = upisnd_active_ctx s.
Proof.
  intros Hf. unfold setup_finish.
  destruct (setup_transact_fails w path payload s e Hf)
    as (s' & l & Heq & (Hs1 & Hs2 & Hs3 & Hs4 & Hs5) & He & Hwr & Hl & Hop).
  rewrite Heq. cbn.
  eexists; exists l. split; [reflexivity|]. cbn. rewrite Hs2, Hs3. auto 10.
Qed.

(** The checks of [upisnd_setup_do] before the lookup, when they pass. *)
Lemma setup_do_enters w s c cx name request :
  ctxs s !! c = Some cx ->
  0 <= upisnd_validate_element_name (Some name) ->
  strlen (setup_node (ctx_sysfs_base cx)) < UPISND_MAX_BASE_PATH_LENGTH ->
  strlen name + 1 + strlen request < UPISND_MAX_REQUEST_LENGTH ->
  upisnd_setup_do w (Some c) (Some name) request s
  = match upisnd_element_get (Some name) s with
    | (Some el, s1) =>
      setup_finish w el true false (setup_node (ctx_sysfs_base cx))
                   (name +:+ " " +:+ request) s1
    | (None, s1) =>
      match upisnd_element_alloc w name c s1 with
      | (None, s2) => (None, set_errno ENOMEM s2)
      | (Some el, s2) =>
        let '(existed_in_sysfs, s3) :=
          upisnd_element_exists_in_sysfs w (ctx_sysfs_base cx) name s2 in
        setup_finish w el false existed_in_sysfs (setup_node (ctx_sysfs_base cx))
                     (name +:+ " " +:+ request) s3
      end
    end.
Proof.
  intros Hc Hval Hfit Hreq. unfold upisnd_setup_do.
  destruct (validate_accepts name Hval) as (_ & _ & Hlen).
  destruct (Z.ltb_spec (upisnd_validate_element_name (Some name)) 0); [lia|].
  rewrite Hc, (upisnd_path_setup _ Hfit).
  pose proof (strlen_nonneg (setup_node (ctx_sysfs_base cx))).
  destruct (Z.ltb_spec (strlen (setup_node (ctx_sysfs_base cx))) 0); [lia|].
  pose proof (strlen_nonneg request).
  destruct (Z.ltb_spec (strlen request) 0); [lia|].
  rewrite Z.geb_leb, Hlen.
  destruct (Z.leb_spec UPISND_MAX_REQUEST_LENGTH (strlen request + (strlen name + 1)));
    [lia|].
  reflexivity.
Qed.

(** [upisnd_element_exists_in_sysfs] keeps the store and errno, and neither
    opens nor writes. *)
Lemma exists_in_sysfs_spec w base name s :
  exists b s', upisnd_element_exists_in_sysfs w base name s = (b, s')
               /\ same_store s s' /\ errno s' = errno s
               /\ writes (trace s') = writes (trace s)
               /\ opens (trace s') = opens (trace s).
Proof.
  unfold upisnd_element_exists_in_sysfs.
  destruct (upisnd_element_path base name UPISND_ELEMENT_ATTR_ROOT) as [err path].
  destruct (err <? 0); eexists; eexists; (split; [reflexivity|]);
    (split; [repeat split|]); trace_simpl; auto.
Qed.

(** A repeated setup whose request goes through attaches: the registered
    handle comes back with one more reference, and the one request is written
    to the setup node. *)
Lemma setup_do_attach_ok w s c cx name request h nd :
  wf s -> upisnd_active_ctx s = Some c -> ctxs s !! c = Some cx ->
  0 <= upisnd_validate_element_name (Some name) ->
  h ∈ ctx_elements cx -> nodes s !! h = Some nd -> el_name nd = name ->
  setup_goes_through w (ctx_sysfs_base cx) name request ->
  exists s',
    upisnd_setup_do w (Some c) (Some name) request s = (Some h, s')
    /\ nodes s' = <[h := mk_node (int32 (el_refcount nd + 1)) (el_name nd) (el_ctx nd)]> (nodes s)
    /\ ctxs s' = ctxs s /\ fault s' = fault s /\ errno s' = EEXIST
    /\ upisnd_active_ctx s' = upisnd_active_ctx s
    /\ writes (trace s') = writes (trace s)
                           ++ [(setup_node (ctx_sysfs_base cx), name +:+ " " +:+ request)].
Proof.
  intros Hwf Hact Hc Hval Hin Hh Hname ((Hfit & Hreq) & Hok).
  rewrite (setup_do_enters w s c cx name request Hc Hval Hfit Hreq).
  rewrite (element_get_registered s c name h nd cx Hwf Hact Hc Hval Hin Hh Hname).
  match goal with |- context [setup_finish w h true false ?p ?q ?st] =>
    destruct (setup_finish_attach_ok w h p q st Hok)
      as (s' & Heq & (Hs1 & Hs2 & Hs3 & Hs4 & Hs5) & He & Hwr & Hop)
  end.
  rewrite Heq. exists s'. split; [reflexivity|].
  rewrite Hs1, Hs2, Hs3, Hs4, Hwr. cbn. auto 10.
Qed.

(** A first setup whose request goes through claims: a fresh node with one
    reference is linked at the head of the registry and returned, and the
    one request is written to the setup node. *)
Lemma setup_do_fresh_ok w s c cx name request p :
  wf s -> upisnd_active_ctx s = Some c -> ctxs s !! c = Some cx ->
  0 <= upisnd_validate_element_name (Some name) ->
  (forall h, ~ registered s c name h) ->
  w_malloc w = Some p ->
  setup_goes_through w (ctx_sysfs_base cx) name request ->
  exists s',
    upisnd_setup_do w (Some c) (Some name) request s = (Some p, s')
    /\ nodes s' = <[p := mk_node 1 name c]> (nodes s)
    /\ ctxs s' = <[c := mk_ctx (ctx_refcount cx) (ctx_sysfs_base cx) (p :: ctx_elements cx)]>
                   (ctxs s)
    /\ fault s' = fault s /\ upisnd_active_ctx s' = upisnd_active_ctx s
    /\ writes (trace s') = writes (trace s)
                           ++ [(setup_node (ctx_sysfs_base cx), name +:+ " " +:+ request)].
Proof.
  intros Hwf Hact Hc Hval Habs Hm ((Hfit & Hreq) & Hok).
  rewrite (setup_do_enters w s c cx name request Hc Hval Hfit Hreq).
  rewrite (element_get_absent s c name cx Hwf Hact Hc Hval Habs).
  unfold upisnd_element_alloc. rewrite Hm.
  set (s2 := set_nodes (<[p := mk_node 1 name c]> (nodes s)) s).
  destruct (exists_in_sysfs_spec w (ctx_sysfs_base cx) name s2)
    as (b & s3 & Heq3 & (Hs1 & Hs2 & Hs3 & Hs4 & Hs5) & He3 & Hw3 & Ho3).
  rewrite Heq3.
  destruct (setup_finish_fresh_ok w p (mk_node 1 name c) cx b
              (setup_node (ctx_sysfs_base cx)) (name +:+ " " +:+ request) s3 Hok)
    as (s' & Heq & Hn & Hcx & Hf & Ha & _ & Hwr & _).
  { rewrite Hs2. subst s2. cbn. apply lookup_insert_eq. }
  { cbn. rewrite Hs1. exact Hc. }
  rewrite Heq. exists s'. split; [reflexivity|].
  rewrite Hn, Hcx, Hf, Ha, Hwr, Hs1, Hs2, Hs3, Hs4, Hw3. subst s2. cbn. auto 10.
Qed.

(** The lookup finds a name carried by the head of the list. *)
Lemma element_get_head s c cx name p l nd :
  upisnd_active_ctx s = Some c -> ctxs s !! c = Some cx ->
  0 <= upisnd_validate_element_name (Some name) ->
  ctx_elements cx = p :: l -> nodes s !! p = Some nd -> el_name nd = name ->
  upisnd_element_get (Some name) s
  = (Some p,
     set_errno 0
       (set_nodes (<[p := mk_node (int32 (el_refcount nd + 1)) (el_name nd) (el_ctx nd)]>
                     (nodes s)) s)).
Proof.
  intros Hact Hc Hval Hl Hp Hname.
  unfold upisnd_element_get. rewrite Hact.
  destruct (Z.ltb_spec (upisnd_validate_element_name (Some name)) 0); [lia|].
  rewrite Hc, Hl. cbn [scan_elements]. rewrite Hp, Hname, String.eqb_refl.
  unfold upisnd_element_add_ref. rewrite Hp, Hname. reflexivity.
Qed.

Lemma int32_inc_dec z : - 2 ^ 31 <= z < 2 ^ 31 -> int32 (int32 (z + 1) - 1) = z.
Proof.
  intros H. destruct (Z.eq_dec z (2 ^ 31 - 1)) as [->|Hne]; [reflexivity|].
  rewrite (int32_small (z + 1)) by lia. replace (z + 1 - 1) with z by lia.
  apply int32_small. lia.
Qed.

Lemma node_eta nd : mk_node (el_refcount nd) (el_name nd) (el_ctx nd) = nd.
Proof. destruct nd; reflexivity. Qed.

(** ** C1 *)

(** C1: in a context that holds a valid name under handle [h], a lookup of
    the name returns [h] with one more reference; a repeated setup of the
    name whose request goes through returns [h] with one more reference, and
    whatever the world answers it returns [h] or NULL, never another handle.
    In particular, two setups of one name in a row from one context, both
    going through, return the same handle, which then holds 2 references. *)
Theorem C1_same_handle (c : ptr) (name : string) :
  0 <= upisnd_validate_element_name (Some name) ->
  (forall (s : state) (w : world) (h : ptr) (cx : ctx_t) (nd : node) (request : string),
      wf s -> upisnd_active_ctx s = Some c -> ctxs s !! c = Some cx ->
      registered s c name h -> nodes s !! h = Some nd -> el_refcount nd < INT_MAX ->
      let g := upisnd_element_get (Some name) s in
      let r := upisnd_setup_do w (Some c) (Some name) request s in
      (fst g = Some h /\ refcount_of (snd g) h = Some (el_refcount nd + 1))
      /\ (setup_goes_through w (ctx_sysfs_base cx) name request ->
          fst r = Some h /\ refcount_of (snd r) h = Some (el_refcount nd + 1))
      /\ (fst r = Some h \/ fst r = None))
  /\ (forall (s : state) (w1 w2 : world) (p : ptr) (cx : ctx_t) (req1 req2 : string),
      wf s -> upisnd_active_ctx s = Some c -> ctxs s !! c = Some cx ->
      (forall h, ~ registered s c name h) ->
      w_malloc w1 = Some p ->
      setup_goes_through w1 (ctx_sysfs_base cx) name req1 ->
      setup_goes_through w2 (ctx_sysfs_base cx) name req2 ->
      let r1 := upisnd_setup_do w1 (Some c) (Some name) req1 s in
      let r2 := upisnd_setup_do w2 (Some c) (Some name) req2 (snd r1) in
      fst r1 = Some p /\ refcount_of (snd r1) p = Some 1
      /\ fst r2 = Some p /\ refcount_of (snd r2) p = Some 2).
Proof.
  intros Hval. split.
  - intros s w h cx nd request Hwf Hact Hc Hreg Hh Hmax g r.
    destruct (registered_live _ _ _ _ Hwf Hreg)
      as (cx' & nd' & Hc' & Hin & Hh' & Hname & Hctx & Hrc).
    assert (cx' = cx) by congruence. assert (nd' = nd) by congruence. subst cx' nd'.
    assert (Hinc : int32 (el_refcount nd + 1) = el_refcount nd + 1).
    { apply int32_small. unfold INT_MAX in *. lia. }
    assert (Hg : g = (Some h,
       set_errno 0
         (set_nodes (<[h := mk_node (int32 (el_refcount nd + 1)) (el_name nd) (el_ctx nd)]>
                       (nodes s)) s))).
    { apply (element_get_registered s c name h nd cx); assumption. }
    split; [|split].
    + rewrite Hg. split; [reflexivity|].
      unfold refcount_of. cbn. rewrite lookup_insert_eq. cbn. rewrite Hinc. reflexivity.
    + intros Hgo.
      destruct (setup_do_attach_ok w s c cx name request h nd
                  Hwf Hact Hc Hval Hin Hh Hname Hgo) as (s' & Heq & Hn & _).
      subst r. rewrite Heq. split; [reflexivity|].
      unfold refcount_of. cbn. rewrite Hn, lookup_insert_eq. cbn. rewrite Hinc. reflexivity.
    + subst r. unfold upisnd_setup_do.
      destruct (upisnd_validate_element_name (Some name) <? 0); [right; reflexivity|].
      rewrite Hc.
      destruct (upisnd_path UPISND_PATH_SETUP (ctx_sysfs_base cx)) as [err path].
      destruct (err <? 0); [right; reflexivity|].
      cbv zeta.
      destruct ((strlen request <? 0)
                || (strlen request + (upisnd_validate_element_name (Some name) + 1)
                    >=? UPISND_MAX_REQUEST_LENGTH)); [right; reflexivity|].
      fold g. rewrite Hg. apply setup_finish_result.
  - intros s w1 w2 p cx req1 req2 Hwf Hact Hc Habs Hm Hgo1 Hgo2 r1 r2.
    destruct (setup_do_fresh_ok w1 s c cx name req1 p Hwf Hact Hc Hval Habs Hm Hgo1)
      as (s1 & Heq1 & Hn1 & Hc1 & Hf1 & Ha1 & _).
    subst r2 r1. rewrite Heq1. cbn [fst snd].
    split; [reflexivity|]. split.
    { unfold refcount_of. rewrite Hn1, lookup_insert_eq. reflexivity. }
    destruct Hgo2 as ((Hfit & Hreq) & Hok).
    set (cx1 := mk_ctx (ctx_refcount cx) (ctx_sysfs_base cx) (p :: ctx_elements cx)) in *.
    assert (Hcs1 : ctxs s1 !! c = Some cx1).
    { rewrite Hc1. apply lookup_insert_eq. }
    rewrite (setup_do_enters w2 s1 c cx1 name req2 Hcs1 Hval Hfit Hreq).
    rewrite (element_get_head s1 c cx1 name p (ctx_elements cx) (mk_node 1 name c));
      [|congruence|exact Hcs1|exact Hval|reflexivity|rewrite Hn1; apply lookup_insert_eq
       |reflexivity].
    match goal with |- context [setup_finish w2 p true false ?pa ?q ?st] =>
      destruct (setup_finish_attach_ok w2 p pa q st Hok)
        as (s2 & Heq2 & (Hs1 & Hs2 & Hs3 & Hs4 & Hs5) & _)
    end.
    rewrite Heq2. cbn [fst snd]. split; [reflexivity|].
    unfold refcount_of. rewrite Hs2. cbn. rewrite lookup_insert_eq. reflexivity.
Qed.

(** ** C8 *)

(** C8: when the transaction on the setup node fails with error [e], setup
    returns NULL with errno [e], and the heap and the registries are what
    they were before the call: a name that was registered keeps its handle
    and its count, a node allocated by the call is freed and was never
    linked.  The setup node is the only node opened, so no release is asked
    of the driver, and at most the one request was written to it. *)
Theorem C8_setup_failure_rollback (s : state) (w : world) (c : ptr) (cx : ctx_t)
    (name request : string) (e : positive) :
  wf s -> upisnd_active_ctx s = Some c -> ctxs s !! c = Some cx ->
  0 <= upisnd_validate_element_name (Some name) ->
  setup_request_fits (ctx_sysfs_base cx) name request ->
  txn_fails_with (w_setup w) e ->
  let r := upisnd_setup_do w (Some c) (Some name) request s in
  let dev := setup_node (ctx_sysfs_base cx) in
  let rolled_back :=
    fst r = None /\ errno (snd r) = Z.pos e
    /\ nodes (snd r) = nodes s /\ ctxs (snd r) = ctxs s
    /\ opens (trace (snd r)) = opens (trace s) ++ [dev]
    /\ exists l, writes (trace (snd r)) = writes (trace s) ++ l
                 /\ (l = [] \/ l = [(dev, name +:+ " " +:+ request)]) in
  (forall h, registered s c name h -> rolled_back)
  /\ ((forall h, ~ registered s c name h) ->
      forall p, w_malloc w = Some p -> nodes s !! p = None -> rolled_back).
Proof.
  intros Hwf Hact Hc Hval (Hfit & Hreq) Hf r dev rolled_back.
  subst rolled_back r dev. split.
  - intros h Hreg.
    destruct (registered_live _ _ _ _ Hwf Hreg)
      as (cx' & nd & Hc' & Hin & Hh & Hname & Hctx & Hrc).
    assert (cx' = cx) by congruence. subst cx'.
    rewrite (setup_do_enters w s c cx name request Hc Hval Hfit Hreq).
    rewrite (element_get_registered s c name h nd cx Hwf Hact Hc Hval Hin Hh Hname).
    assert (Hback : int32 (int32 (el_refcount nd + 1) - 1) = el_refcount nd).
    { apply int32_inc_dec. unfold INT_MAX in Hrc. lia. }
    match goal with |- context [setup_finish w h true false ?pa ?q ?st] =>
      destruct (setup_finish_attach_fails w h
                  (mk_node (int32 (el_refcount nd + 1)) (el_name nd) (el_ctx nd)) pa q st e Hf)
        as (s' & l & Heq & He & Hn & Hcx & _ & Hwr & Hl & Hop & _)
    end.
    { cbn. apply lookup_insert_eq. }
    { cbn. rewrite Hback. lia. }
    rewrite Heq. cbn [fst snd]. cbn in Hn, Hcx, Hwr, Hop.
    split; [reflexivity|]. split; [exact He|]. split.
    { rewrite Hn, Hback, insert_insert_eq, node_eta. apply insert_id, Hh. }
    split; [exact Hcx|]. split; [exact Hop|]. exists l. auto.
  - intros Habs p Hm Hfresh.
    rewrite (setup_do_enters w s c cx name request Hc Hval Hfit Hreq).
    rewrite (element_get_absent s c name cx Hwf Hact Hc Hval Habs).
    unfold upisnd_element_alloc. rewrite Hm.
    set (s2 := set_nodes (<[p := mk_node 1 name c]> (nodes s)) s).
    destruct (exists_in_sysfs_spec w (ctx_sysfs_base cx) name s2)
      as (b & s3 & Heq3 & (Hs1 & Hs2 & Hs3 & Hs4 & Hs5) & He3 & Hw3 & Ho3).
    rewrite Heq3.
    destruct (setup_finish_fresh_fails w p b (setup_node (ctx_sysfs_base cx))
                (name +:+ " " +:+ request) s3 e Hf)
      as (s' & l & Heq & He & Hn & Hcx & _ & Hwr & Hl & Hop & _).
    rewrite Heq. cbn [fst snd].
    split; [reflexivity|]. split; [exact He|]. split.
    { rewrite Hn, Hs2. subst s2. cbn. apply delete_insert_id, Hfresh. }
    split; [rewrite Hcx, Hs1; reflexivity|].
    split; [rewrite Hop, Ho3; reflexivity|].
    exists l. rewrite Hwr, Hw3. auto.
Qed.

(** ** C3 *)

(** C3: a setup through a GPIO output descriptor of pin B03 at high level
    is the setup request with the text gpio B03 output 1, and through an
    encoder descriptor of B03 pulled up and B04 pulled down it is the request
    with the text encoder B03 pull_up B04 pull_down.  Setting up gpio1 with
    the former, in a context that does not hold the name and whose requests
    go through, makes exactly one write, of the payload gpio1 gpio B03
    output 1 to the setup node; releasing the handle then makes exactly one
    write, of gpio1 to the unsetup node. *)
Theorem C3_wire_payloads :
  (forall w name s,
      upisnd_setup w name (gpio_output_descriptor UPISND_PIN_B03 true) s
      = upisnd_setup_do w (upisnd_active_ctx s) name "gpio B03 output 1" s)
  /\ (forall w name s,
      upisnd_setup w name
        (encoder_descriptor UPISND_PIN_B03 UPISND_PIN_PULL_UP
                            UPISND_PIN_B04 UPISND_PIN_PULL_DOWN) s
      = upisnd_setup_do w (upisnd_active_ctx s) name "encoder B03 pull_up B04 pull_down" s)
  /\ (forall (s : state) (w1 w2 : world) (c p : ptr) (cx : ctx_t),
      wf s -> upisnd_active_ctx s = Some c -> ctxs s !! c = Some cx ->
      (forall h, ~ registered s c "gpio1" h) ->
      w_malloc w1 = Some p ->
      strlen (setup_node (ctx_sysfs_base cx)) < UPISND_MAX_BASE_PATH_LENGTH ->
      txn_ok (w_setup w1) ->
      release_reaches_driver w2 (ctx_sysfs_base cx) ->
      let r1 := upisnd_setup w1 (Some "gpio1")
                  (gpio_output_descriptor UPISND_PIN_B03 true) s in
      let r2 := upisnd_element_unref w2 (Some (fst r1)) (snd r1) in
      fst r1 = Some p
      /\ writes (trace (snd r1))
         = writes (trace s) ++ [(setup_node (ctx_sysfs_base cx), "gpio1 gpio B03 output 1")]
      /\ writes (trace (snd r2))
         = writes (trace (snd r1)) ++ [(unsetup_node (ctx_sysfs_base cx), "gpio1")]).
Proof.
  assert (Hg : forall w name s,
      upisnd_setup w name (gpio_output_descriptor UPISND_PIN_B03 true) s
      = upisnd_setup_do w (upisnd_active_ctx s) name "gpio B03 output 1" s)
    by reflexivity.
  split; [exact Hg|]. split; [reflexivity|].
  intros s w1 w2 c p cx Hwf Hact Hc Habs Hm Hfit Hok Hrel r1 r2.
  assert (Hval : 0 <= upisnd_validate_element_name (Some "gpio1")) by (vm_compute; discriminate).
  assert (Hgo : setup_goes_through w1 (ctx_sysfs_base cx) "gpio1" "gpio B03 output 1").
  { split; [split; [exact Hfit | vm_compute; reflexivity] | exact Hok]. }
  destruct (setup_do_fresh_ok w1 s c cx "gpio1" "gpio B03 output 1" p
              Hwf Hact Hc Hval Habs Hm Hgo)
    as (s1 & Heq1 & Hn1 & Hc1 & Hf1 & Ha1 & Hw1).
  subst r2 r1. rewrite Hg, Hact, Heq1. cbn [fst snd].
  split; [reflexivity|]. split; [exact Hw1|].
  destruct (element_unref_last w2 s1 p (mk_node 1 "gpio1" c)
              (mk_ctx (ctx_refcount cx) (ctx_sysfs_base cx) (p :: ctx_elements cx)))
    as (s2 & l' & Heq2 & _ & _ & _ & _ & _ & _ & Hreach).
  { rewrite Hn1. apply lookup_insert_eq. }
  { reflexivity. }
  { cbn. rewrite Hc1. apply lookup_insert_eq. }
  { cbn. left. }
  rewrite Heq2. cbn [snd]. apply (Hreach Hrel).
Qed.

(** * The invariant *)

(** [wf] holds of a state without elements and every operation of the
    registry keeps it, so the states the claims speak of are the states the
    library can be in. *)

Section Invariant.

Implicit Types (s : state) (c h p : ptr) (l : list ptr).

(** Names and liveness only depend on the nodes behind the links. *)
Lemma names_of_names s s' l :
  (forall x, x ∈ l -> el_name <$> nodes s' !! x = el_name <$> nodes s !! x) ->
  names_of s' l = names_of s l.
Proof.
  induction l as [|x l IH]; intros H; [reflexivity|].
  unfold names_of in *. cbn. rewrite (H x) by left.
  rewrite IH; [reflexivity|]. intros y Hy. apply H. right. exact Hy.
Qed.

Lemma names_of_ext s s' l :
  (forall x, x ∈ l -> nodes s' !! x = nodes s !! x) -> names_of s' l = names_of s l.
Proof. intros H. apply names_of_names. intros x Hx. rewrite (H x Hx). reflexivity. Qed.

Lemma live_in_ext s s' c x :
  nodes s' !! x = nodes s !! x -> live_in s c x -> live_in s' c x.
Proof. unfold live_in. intros ->. auto. Qed.

Lemma wf_no_elements (m : gmap ptr ctx_t) (a : option ptr) (e t : Z) (tr : list event) :
  (forall c, a = Some c -> is_Some (m !! c)) ->
  (forall c cx, m !! c = Some cx -> ctx_elements cx = []) ->
  wf (mk_state m ∅ a e t tr false).
Proof.
  intros Ha Hm. split; [reflexivity|]. split; [exact Ha|]. intros c cx Hc. cbn in Hc.
  unfold ctx_ok. rewrite (Hm c cx Hc). split; constructor.
Qed.

(** A state with the same contexts and heap is as well formed. *)
Lemma wf_frame s s' :
  wf s -> ctxs s' = ctxs s -> nodes s' = nodes s -> fault s' = fault s ->
  upisnd_active_ctx s' = upisnd_active_ctx s -> wf s'.
Proof.
  intros (Hf & Ha & Hw) Hc Hn Hfl Hac. split; [congruence|].
  split; [rewrite Hc, Hac; exact Ha|].
  intros c cx Hcx. rewrite Hc in Hcx. destruct (Hw c cx Hcx) as [Hlive Hnames].
  split.
  - eapply Forall_impl; [exact Hlive|]. intros x. unfold live_in. rewrite Hn. auto.
  - unfold names_of in *. rewrite Hn. exact Hnames.
Qed.

(** Storing another count in a live node keeps the invariant. *)
Lemma wf_store_refcount s s' h nd rc :
  wf s -> nodes s !! h = Some nd -> 1 <= rc <= INT_MAX ->
  nodes s' = <[h := mk_node rc (el_name nd) (el_ctx nd)]> (nodes s) ->
  ctxs s' = ctxs s -> fault s' = fault s ->
  upisnd_active_ctx s' = upisnd_active_ctx s ->
  wf s'.
Proof.
  intros (Hfault & Ha & Hwf) Hh Hrc Hn Hc Hf Hac. split; [congruence|].
  split; [rewrite Hc, Hac; exact Ha|].
  intros c cx Hcx. rewrite Hc in Hcx. destruct (Hwf c cx Hcx) as [Hlive Hnames].
  split.
  - rewrite Forall_forall in *. intros x Hx. specialize (Hlive x Hx).
    unfold live_in in *. rewrite Hn. destruct (decide (h = x)) as [->|Hne].
    + rewrite lookup_insert_eq. rewrite Hh in Hlive. cbn. tauto.
    + rewrite lookup_insert_ne by exact Hne. exact Hlive.
  - assert (Heq : names_of s' (ctx_elements cx) = names_of s (ctx_elements cx));
      [|rewrite Heq; exact Hnames].
    apply names_of_names. intros x Hx.
    rewrite Hn. destruct (decide (h = x)) as [->|Hne].
    + rewrite lookup_insert_eq, Hh. reflexivity.
    + rewrite lookup_insert_ne by exact Hne. reflexivity.
Qed.

(** Linking a fresh node under a name the registry does not hold keeps
    the invariant. *)
Lemma wf_link_fresh s s' c cx p name :
  wf s -> ctxs s !! c = Some cx -> nodes s !! p = None ->
  (forall h, ~ registered s c name h) ->
  nodes s' = <[p := mk_node 1 name c]> (nodes s) ->
  ctxs s' = <[c := mk_ctx (ctx_refcount cx) (ctx_sysfs_base cx) (p :: ctx_elements cx)]>
              (ctxs s) ->
  fault s' = fault s -> upisnd_active_ctx s' = upisnd_active_ctx s ->
  wf s'.
Proof.
  intros (Hfault & Ha & Hwf) Hc Hp Habs Hn Hcs Hf Hac. split; [congruence|].
  split.
  { intros c' Hc'. rewrite Hac in Hc'. rewrite Hcs.
    destruct (decide (c = c')) as [->|Hne]; [rewrite lookup_insert_eq; eauto|].
    rewrite lookup_insert_ne by exact Hne. auto. }
  assert (Hold : forall c' cx' x, ctxs s !! c' = Some cx' -> x ∈ ctx_elements cx' ->
                   nodes s' !! x = nodes s !! x).
  { intros c' cx' x Hcx' Hx. destruct (Hwf c' cx' Hcx') as [Hlive _].
    rewrite Forall_forall in Hlive. specialize (Hlive x Hx).
    rewrite Hn. apply lookup_insert_ne. intros <-.
    unfold live_in in Hlive. rewrite Hp in Hlive. exact Hlive. }
  intros c' cx' Hcx'. rewrite Hcs in Hcx'.
  destruct (decide (c = c')) as [<-|Hne].
  - rewrite lookup_insert_eq in Hcx'. injection Hcx' as <-.
    unfold ctx_ok. cbn [ctx_elements].
    destruct (Hwf c cx Hc) as [Hlive Hnames]. split.
    + apply Forall_cons. split.
      * unfold live_in. rewrite Hn, lookup_insert_eq. cbn. unfold INT_MAX. lia.
      * rewrite Forall_forall in *. intros x Hx.
        eapply live_in_ext; [apply (Hold c cx x Hc Hx) | auto].
    + rewrite (names_of_cons s' p _ (mk_node 1 name c))
        by (rewrite Hn; apply lookup_insert_eq).
      rewrite (names_of_ext s s') by (intros x Hx; apply (Hold c cx x Hc Hx)).
      apply NoDup_cons. split; [|exact Hnames].
      cbn. unfold names_of. rewrite list_elem_of_omap. intros (x & Hx & Hname).
      destruct (nodes s !! x) as [nd|] eqn:Hnd; [|discriminate].
      apply (Habs x). exists cx, nd. cbn in Hname. injection Hname as Hname. auto.
  - rewrite lookup_insert_ne in Hcx' by exact Hne.
    destruct (Hwf c' cx' Hcx') as [Hlive Hnames]. split.
    + rewrite Forall_forall in *. intros x Hx.
      eapply live_in_ext; [apply (Hold c' cx' x Hcx' Hx) | auto].
    + rewrite (names_of_ext s s') by (intros x Hx; apply (Hold c' cx' x Hcx' Hx)).
      exact Hnames.
Qed.

(** What the list walk takes out. *)
Lemma unlink_split el l l' :
  unlink el l = Some l' -> exists l1 l2, l = l1 ++ el :: l2 /\ l' = l1 ++ l2.
Proof.
  revert l'. induction l as [|x l IH]; intros l'; cbn; [discriminate|].
  destruct (Pos.eqb_spec x el) as [->|Hne].
  - intros [= <-]. exists [], l. auto.
  - destruct (unlink el l) as [l0|]; [|discriminate]. cbn. intros [= <-].
    destruct (IH l0 eq_refl) as (l1 & l2 & -> & ->). exists (x :: l1), l2. auto.
Qed.

(** Unlinking and freeing a registered node keeps the invariant. *)
Lemma wf_unlink s s' h nd cx l' :
  wf s -> nodes s !! h = Some nd -> ctxs s !! el_ctx nd = Some cx ->
  unlink h (ctx_elements cx) = Some l' ->
  nodes s' = delete h (nodes s) ->
  ctxs s' = <[el_ctx nd := mk_ctx (ctx_refcount cx) (ctx_sysfs_base cx) l']> (ctxs s) ->
  fault s' = fault s -> upisnd_active_ctx s' = upisnd_active_ctx s ->
  wf s'.
Proof.
  intros (Hfault & Ha & Hwf) Hh Hc Hu Hn Hcs Hf Hac. split; [congruence|].
  split.
  { intros c' Hc'. rewrite Hac in Hc'. rewrite Hcs.
    destruct (decide (el_ctx nd = c')) as [->|Hne]; [rewrite lookup_insert_eq; eauto|].
    rewrite lookup_insert_ne by exact Hne. auto. }
  destruct (Hwf _ cx Hc) as [Hlive Hnames].
  pose proof (NoDup_links _ _ _ Hlive Hnames) as Hnd.
  pose proof (unlink_spec _ _ _ Hu Hnd) as Hl'.
  destruct (unlink_split _ _ _ Hu) as (l1 & l2 & Hl & ->).
  intros c' cx' Hcx'. rewrite Hcs in Hcx'.
  destruct (decide (el_ctx nd = c')) as [<-|Hne].
  - rewrite lookup_insert_eq in Hcx'. injection Hcx' as <-.
    unfold ctx_ok. cbn [ctx_elements].
    assert (Hkeep : forall x, x ∈ l1 ++ l2 -> nodes s' !! x = nodes s !! x).
    { intros x Hx. apply Hl' in Hx as [_ Hx]. rewrite Hn. apply lookup_delete_ne. auto. }
    split.
    + rewrite Forall_forall in *. intros x Hx.
      eapply live_in_ext; [apply (Hkeep x Hx)|]. apply Hlive. apply Hl' in Hx. tauto.
    + rewrite (names_of_ext s s') by exact Hkeep.
      rewrite Hl in Hnames. unfold names_of in *.
      rewrite omap_app in *. cbn in Hnames. rewrite Hh in Hnames. cbn in Hnames.
      apply NoDup_app in Hnames as (H1 & H2 & H3).
      apply NoDup_cons in H3 as [_ H3].
      apply NoDup_app. split; [exact H1|]. split; [|exact H3].
      intros x Hx1 Hx2. apply (H2 x Hx1). right. exact Hx2.
  - rewrite lookup_insert_ne in Hcx' by exact Hne.
    destruct (Hwf c' cx' Hcx') as [Hlive' Hnames'].
    assert (Hkeep : forall x, x ∈ ctx_elements cx' -> nodes s' !! x = nodes s !! x).
    { intros x Hx. rewrite Hn. apply lookup_delete_ne. intros <-.
      rewrite Forall_forall in Hlive'. specialize (Hlive' h Hx).
      unfold live_in in Hlive'. rewrite Hh in Hlive'. tauto. }
    split.
    + rewrite Forall_forall in *. intros x Hx.
      eapply live_in_ext; [apply (Hkeep x Hx) | auto].
    + rewrite (names_of_ext s s') by exact Hkeep. exact Hnames'.
Qed.

End Invariant.

Section InvariantKept.

Implicit Types (s : state) (c h p : ptr) (l : list ptr).

(** On live links the scan never meets a dangling one. *)
Lemma scan_elements_live s c name l :
  Forall (live_in s c) l -> scan_elements (nodes s) name l <> None.
Proof.
  induction l as [|x l IH]; intros Hlive; [discriminate|].
  apply Forall_cons in Hlive as [Hx Hlive].
  destruct (live_in_lookup _ _ _ Hx) as [nd Hnd]. cbn. rewrite Hnd.
  destruct (String.eqb (el_name nd) name); [discriminate | auto].
Qed.

(** What the scan gives back when it finds nothing. *)
Lemma scan_elements_none (m : gmap ptr node) name l :
  scan_elements m name l = Some None ->
  forall h nd, h ∈ l -> m !! h = Some nd -> el_name nd <> name.
Proof.
  induction l as [|x l IH]; cbn; [intros _ h nd Hin; inversion Hin|].
  destruct (m !! x) as [ndx|] eqn:Hx; [|discriminate].
  destruct (String.eqb_spec (el_name ndx) name) as [E|E]; [discriminate|].
  intros Hs h nd Hin Hh. apply elem_of_cons in Hin as [->|Hin]; [congruence | eauto].
Qed.

(** A name is registered in a context or it is not. *)
Lemma registered_or_absent s c cx name :
  wf s -> ctxs s !! c = Some cx ->
  (exists h nd, h ∈ ctx_elements cx /\ nodes s !! h = Some nd /\ el_name nd = name)
  \/ (forall h, ~ registered s c name h).
Proof.
  intros Hwf Hc. destruct (wf_ctx _ _ _ Hwf Hc) as [Hlive _].
  destruct (scan_elements (nodes s) name (ctx_elements cx)) as [[h|]|] eqn:Hscan.
  - left. apply scan_elements_sound in Hscan as (Hin & nd & Hnd & Hname). eauto.
  - right. intros h (cx' & nd & Hc' & Hin & Hh & Hname).
    assert (cx' = cx) by congruence. subst cx'.
    apply (scan_elements_none _ _ _ Hscan h nd Hin Hh Hname).
  - exfalso. apply (scan_elements_live _ _ _ _ Hlive Hscan).
Qed.

Lemma txn_cases (t : txn) : txn_ok t \/ exists e, txn_fails_with t e.
Proof.
  destruct (t_open t) as [fd|e] eqn:Ho; [|right; exists e; apply fails_open; exact Ho].
  assert (Hop : opened (t_open t)) by (rewrite Ho; exact I).
  destruct (t_close t) as [|e] eqn:Hc; [|right; exists e; apply fails_close; assumption].
  destruct (t_write t) as [|e] eqn:Hw; [|right; exists e; apply fails_write; assumption].
  destruct (t_fdatasync t) as [|e] eqn:Hd;
    [|right; exists e; apply fails_fdatasync; assumption].
  left. repeat split; assumption.
Qed.

(** The lookup keeps the invariant. *)
Lemma wf_element_get s name :
  wf s -> counts_bounded s -> wf (snd (upisnd_element_get name s)).
Proof.
  intros Hwf Hmax. unfold upisnd_element_get.
  assert (Herr : forall e, wf (set_errno e s)) by (intros e; apply (wf_frame s); auto).
  destruct (upisnd_active_ctx s) as [c|] eqn:Hact; [|apply Herr].
  destruct name as [name|]; [|apply Herr].
  destruct (upisnd_validate_element_name (Some name) <? 0); [apply Herr|].
  destruct Hwf as (Hf & Ha & Hw). destruct (Ha c Hact) as [cx Hc]. rewrite Hc.
  assert (Hwf : wf s) by (split; [|split]; assumption).
  destruct (Hw c cx Hc) as [Hlive _].
  destruct (scan_elements (nodes s) name (ctx_elements cx)) as [[h|]|] eqn:Hscan.
  - apply scan_elements_sound in Hscan as (Hin & nd & Hnd & Hname).
    unfold upisnd_element_add_ref. rewrite Hnd. cbn [snd].
    rewrite Forall_forall in Hlive. specialize (Hlive h Hin).
    unfold live_in in Hlive. rewrite Hnd in Hlive.
    apply (wf_store_refcount s _ h nd (int32 (el_refcount nd + 1))); try reflexivity; auto.
    specialize (Hmax h nd Hnd). rewrite int32_small; unfold INT_MAX in *; lia.
  - exact Hwf.
  - exfalso. apply (scan_elements_live _ _ _ _ Hlive Hscan).
Qed.

(** Giving a reference back keeps the invariant. *)
Lemma wf_element_unref w s h nd cx :
  wf s -> nodes s !! h = Some nd -> ctxs s !! el_ctx nd = Some cx ->
  h ∈ ctx_elements cx ->
  wf (snd (upisnd_element_unref w (Some (Some h)) s)).
Proof.
  intros Hwf Hh Hc Hin.
  destruct (wf_ctx _ _ _ Hwf Hc) as [Hlive _].
  rewrite Forall_forall in Hlive. specialize (Hlive h Hin).
  unfold live_in in Hlive. rewrite Hh in Hlive. destruct Hlive as [_ Hrc].
  destruct (Z.eq_dec (el_refcount nd) 1) as [H1|Hne].
  - destruct (element_unref_last w s h nd cx Hh H1 Hc Hin)
      as (s' & l' & Heq & Hu & Hn & Hcs & Hf & Ha & _).
    rewrite Heq. cbn [snd]. apply (wf_unlink s s' h nd cx l'); assumption.
  - assert (Hi : int32 (el_refcount nd - 1) = el_refcount nd - 1).
    { apply int32_small. unfold INT_MAX in Hrc. lia. }
    rewrite (element_unref_keeps w s h nd Hh) by (rewrite Hi; lia). cbn [snd].
    apply (wf_store_refcount s _ h nd (int32 (el_refcount nd - 1))); try reflexivity; auto.
    rewrite Hi. lia.
Qed.

(** A setup keeps the invariant, whatever the world answers, as long as
    malloc hands out a block that is not in use. *)
Lemma wf_setup_do w s c name request :
  wf s -> counts_bounded s -> upisnd_active_ctx s = Some c ->
  (forall p, w_malloc w = Some p -> nodes s !! p = None) ->
  wf (snd (upisnd_setup_do w (Some c) name request s)).
Proof.
  intros Hwf Hmax Hact Hfresh. unfold upisnd_setup_do.
  assert (Herr : forall e, wf (set_errno e s)) by (intros e; apply (wf_frame s); auto).
  destruct name as [name|]; [|apply Herr].
  destruct (Z.ltb_spec (upisnd_validate_element_name (Some name)) 0) as [|Hval];
    [apply Herr|].
  pose proof Hwf as (Hf & Ha & Hw). destruct (Ha c Hact) as [cx Hc]. rewrite Hc.
  destruct (upisnd_path UPISND_PATH_SETUP (ctx_sysfs_base cx)) as [err path].
  destruct (err <? 0); [apply Herr|]. cbv zeta.
  destruct ((strlen request <? 0)
            || (strlen request + (upisnd_validate_element_name (Some name) + 1)
                >=? UPISND_MAX_REQUEST_LENGTH)); [apply Herr|].
  set (payload := (name +:+ " " +:+ request)%string).
  destruct (registered_or_absent s c cx name Hwf Hc) as [(h & nd & Hin & Hh & Hname)|Habs].
  - (* attach *)
    rewrite (element_get_registered s c name h nd cx Hwf Hact Hc Hval Hin Hh Hname).
    set (nd1 := mk_node (int32 (el_refcount nd + 1)) (el_name nd) (el_ctx nd)).
    set (s1 := set_errno 0 (set_nodes (<[h := nd1]> (nodes s)) s)).
    destruct (registered_live s c name h Hwf) as (cx' & nd' & _ & _ & Hh' & _ & _ & Hrc).
    { exists cx, nd. auto. }
    assert (nd' = nd) by congruence. subst nd'.
    pose proof (Hmax h nd Hh) as Hlt.
    assert (Hinc : int32 (el_refcount nd + 1) = el_refcount nd + 1).
    { apply int32_small. unfold INT_MAX in *. lia. }
    assert (Hwf1 : wf s1).
    { apply (wf_store_refcount s s1 h nd (int32 (el_refcount nd + 1)));
        try reflexivity; auto. rewrite Hinc. lia. }
    destruct (txn_cases (w_setup w)) as [Hok|[e Hfail]].
    + destruct (setup_finish_attach_ok w h path payload s1 Hok)
        as (s' & Heq & (Hs1 & Hs2 & Hs3 & Hs4 & Hs5) & _).
      rewrite Heq. cbn [snd]. apply (wf_frame s1); assumption.
    + destruct (setup_finish_attach_fails w h nd1 path payload s1 e Hfail)
        as (s' & l & Heq & _ & Hn & Hcs & Hfl & _ & _ & _ & Hac).
      { subst s1. cbn. apply lookup_insert_eq. }
      { subst nd1. cbn. rewrite int32_inc_dec by (unfold INT_MAX in *; lia). lia. }
      rewrite Heq. cbn [snd].
      apply (wf_store_refcount s1 s' h nd1 (int32 (el_refcount nd1 - 1))); auto.
      * subst s1. cbn. apply lookup_insert_eq.
      * subst nd1. cbn. rewrite int32_inc_dec by (unfold INT_MAX in *; lia). lia.
  - (* first setup *)
    rewrite (element_get_absent s c name cx Hwf Hact Hc Hval Habs).
    unfold upisnd_element_alloc.
    destruct (w_malloc w) as [p|] eqn:Hm; [|apply Herr].
    specialize (Hfresh p eq_refl).
    set (s2 := set_nodes (<[p := mk_node 1 name c]> (nodes s)) s).
    destruct (exists_in_sysfs_spec w (ctx_sysfs_base cx) name s2)
      as (b & s3 & Heq3 & (Hs1 & Hs2 & Hs3 & Hs4 & Hs5) & _).
    rewrite Heq3.
    destruct (txn_cases (w_setup w)) as [Hok|[e Hfail]].
    + destruct (setup_finish_fresh_ok w p (mk_node 1 name c) cx b path payload s3 Hok)
        as (s' & Heq & Hn & Hcs & Hfl & Hac & _).
      { rewrite Hs2. subst s2. cbn. apply lookup_insert_eq. }
      { cbn. rewrite Hs1. exact Hc. }
      rewrite Heq. cbn [snd]. cbn [el_ctx] in Hcs.
      apply (wf_link_fresh s s' c cx p name); auto.
      * rewrite Hn, Hs2. reflexivity.
      * rewrite Hcs, Hs1. reflexivity.
      * rewrite Hfl, Hs4. reflexivity.
      * rewrite Hac, Hs3. reflexivity.
    + destruct (setup_finish_fresh_fails w p b path payload s3 e Hfail)
        as (s' & l & Heq & _ & Hn & Hcs & Hfl & _ & _ & _ & Hac).
      rewrite Heq. cbn [snd]. apply (wf_frame s); auto.
      * rewrite Hcs, Hs1. reflexivity.
      * rewrite Hn, Hs2. subst s2. cbn. apply delete_insert_id, Hfresh.
      * rewrite Hfl, Hs4. reflexivity.
      * rewrite Hac, Hs3. reflexivity.
Qed.

End InvariantKept.

(** * Retrying attribute I/O *)

Section AttrOpen.

Variables (io : attr_io) (path : string) (flags : Z) (now0 : Z).

(** The reading the loop compares with the timeout, [k] ms after it
    started. *)
Lemma elapsed_ms s k :
  now_ms s = now0 + k -> 0 <= k < 2 ^ 32 ->
  uint32 (upisnd_get_ms s - uint32 now0) = k.
Proof.
  intros Hnow Hk. unfold upisnd_get_ms, uint32. rewrite Hnow.
  rewrite <- Zminus_mod. replace (now0 + k - now0) with k by lia.
  apply Z.mod_small. exact Hk.
Qed.

Lemma retried_cases r :
  retried r -> exists e, r = OpenErr e /\ (Z.pos e = ENOENT \/ Z.pos e = EACCES).
Proof. intros [-> | ->]; eexists; split; try reflexivity; [left | right]; reflexivity. Qed.

(** The loop never runs out of fuel, and it returns within the timeout. *)
Lemma attr_open_loop_total fuel : forall attempt s,
  now_ms s = now0 + Z.of_nat attempt ->
  (attempt < 2000)%nat -> (2000 <= fuel + attempt)%nat ->
  exists r s', attr_open_loop fuel io path flags (uint32 now0) attempt s = Some (r, s')
               /\ now_ms s' <= now0 + UPISND_TIMEOUT_MS
               /\ ctxs s' = ctxs s /\ nodes s' = nodes s /\ fault s' = fault s
               /\ writes (trace s') = writes (trace s).
Proof.
  unfold UPISND_TIMEOUT_MS.
  induction fuel as [|fuel IH]; intros attempt s Hnow Hlt Hfuel; [lia|].
  cbn [attr_open_loop].
  destruct (a_open io attempt) as [fd|e].
  - eexists; eexists. split; [reflexivity|]. cbn. rewrite writes_app, app_nil_r.
    repeat split; lia.
  - cbn [errno set_errno].
    destruct ((Z.pos e =? ENOENT) || (Z.pos e =? EACCES)).
    + set (s3 := usleep 1000 _).
      assert (Hnow3 : now_ms s3 = now0 + Z.of_nat (S attempt)).
      { subst s3. cbn. rewrite Hnow. change (1000 / 1000) with 1. lia. }
      rewrite (elapsed_ms s3 (Z.of_nat (S attempt)) Hnow3) by lia.
      assert (Hw3 : writes (trace s3) = writes (trace s)).
      { subst s3. cbn. rewrite !writes_app. cbn. rewrite !app_nil_r. reflexivity. }
      unfold UPISND_TIMEOUT_MS.
      destruct (Z.ltb_spec (Z.of_nat (S attempt)) 2000).
      * destruct (IH (S attempt) s3 Hnow3) as (r & s' & Heq & Hb & Hc & Hn & Hf & Hw);
          [lia | lia |].
        exists r, s'. split; [exact Heq|]. rewrite Hc, Hn, Hf, Hw, Hw3. auto.
      * eexists; eexists. split; [reflexivity|]. rewrite Hnow3, Hw3.
        repeat split. lia.
    + eexists; eexists. split; [reflexivity|]. cbn. rewrite writes_app, app_nil_r.
      repeat split; lia.
Qed.

(** [j] failed attempts in a row that the loop retries on, within the
    timeout: the loop is back at its head [j] opens and [j] sleeps later. *)
Lemma attr_open_loop_retries j : forall fuel attempt s,
  now_ms s = now0 + Z.of_nat attempt ->
  (forall i, (attempt <= i < attempt + j)%nat -> retried (a_open io i)) ->
  (attempt + j < 2000)%nat ->
  exists s',
    attr_open_loop (j + fuel) io path flags (uint32 now0) attempt s
    = attr_open_loop fuel io path flags (uint32 now0) (attempt + j) s'
    /\ now_ms s' = now0 + Z.of_nat (attempt + j)
    /\ opens (trace s') = opens (trace s) ++ repeat path j
    /\ sleeps (trace s') = sleeps (trace s) ++ repeat 1000 j.
Proof.
  induction j as [|j IH]; intros fuel attempt s Hnow Hret Hlt.
  - exists s. rewrite Nat.add_0_r, !app_nil_r. auto.
  - destruct (retried_cases _ (Hret attempt ltac:(lia))) as (e & He & Hcode).
    change (S j + fuel)%nat with (S (j + fuel)). cbn [attr_open_loop]. rewrite He.
    cbn [errno set_errno].
    assert (Hre : (Z.pos e =? ENOENT) || (Z.pos e =? EACCES) = true).
    { destruct Hcode as [-> | ->]; reflexivity. }
    rewrite Hre. fold (retry_once path flags e s).
    assert (Hnow3 : now_ms (retry_once path flags e s) = now0 + Z.of_nat (S attempt)).
    { cbn. rewrite Hnow. change (1000 / 1000) with 1. lia. }
    rewrite (elapsed_ms _ (Z.of_nat (S attempt)) Hnow3) by lia.
    unfold UPISND_TIMEOUT_MS.
    destruct (Z.ltb_spec (Z.of_nat (S attempt)) 2000); [|lia].
    destruct (IH fuel (S attempt) (retry_once path flags e s) Hnow3) as (s' & Heq & Hn & Ho & Hs).
    { intros i Hi. apply Hret. lia. }
    { lia. }
    exists s'. rewrite Heq. replace (attempt + S j)%nat with (S attempt + j)%nat by lia.
    split; [reflexivity|]. split; [exact Hn|].
    rewrite Ho, Hs. cbn. rewrite !opens_app, !sleeps_app. cbn.
    rewrite !app_nil_r, <- !app_assoc. auto.
Qed.

End AttrOpen.

Lemma repeat_snoc {A : Type} (x : A) (n : nat) : repeat x n ++ [x] = repeat x (S n).
Proof. rewrite <- repeat_cons. reflexivity. Qed.

(** [upisnd_element_attr_open] on a live handle whose attribute path fits:
    the result of the loop. *)
Lemma attr_open_enters w attr flags h nd cx s :
  nodes s !! h = Some nd -> ctxs s !! el_ctx nd = Some cx ->
  0 <= fst (upisnd_element_path (ctx_sysfs_base cx) (el_name nd) attr) ->
  upisnd_element_attr_open w attr flags (Some h) s
  = match attr_open_loop 2000 (w_attr w attr)
            (snd (upisnd_element_path (ctx_sysfs_base cx) (el_name nd) attr))
            flags (uint32 (now_ms s)) 0 s with
    | Some r => r
    | None => (-1, s)
    end.
Proof.
  intros Hh Hc Hp. unfold upisnd_element_attr_open. rewrite Hh, Hc.
  destruct (upisnd_element_path (ctx_sysfs_base cx) (el_name nd) attr) as [err path].
  cbn [fst snd] in *. destruct (Z.ltb_spec err 0); [lia|]. reflexivity.
Qed.

(** C7: opening an attribute of a live element.  When the first [K] open
    attempts fail with ENOENT or EACCES and the next one would succeed, the
    open succeeds exactly when [K] times the sleep interval is below the
    timeout of 2000 ms: it then returns the descriptor after [K + 1] opens and
    [K] sleeps of 1000 us, and otherwise it returns -1 after 2000 opens and
    2000 sleeps, with the error of the last open left in errno.  An open
    that fails with any other error ends the loop at once: -1 with that error
    in errno, and no sleep after it.  Whatever the world answers, the
    simulated clock is at most 2000 ms further when the call returns. *)
Theorem C7_attr_open_retry (s : state) (w : world) (attr : upisnd_element_attr_e) (flags : Z)
    (h : ptr) (nd : node) (cx : ctx_t) (K : nat) :
  nodes s !! h = Some nd -> ctxs s !! el_ctx nd = Some cx ->
  0 <= fst (upisnd_element_path (ctx_sysfs_base cx) (el_name nd) attr) ->
  (forall i, (i < K)%nat -> retried (a_open (w_attr w attr) i)) ->
  let io := w_attr w attr in
  let path := snd (upisnd_element_path (ctx_sysfs_base cx) (el_name nd) attr) in
  let r := upisnd_element_attr_open w attr flags (Some h) s in
  (forall fd, a_open io K = Opened fd ->
     (0 <= fst r <-> Z.of_nat K * backoff_ms < UPISND_TIMEOUT_MS)
     /\ (Z.of_nat K * backoff_ms < UPISND_TIMEOUT_MS ->
         fst r = Z.of_N fd /\ errno (snd r) = 0
         /\ opens (trace (snd r)) = opens (trace s) ++ repeat path (K + 1)
         /\ sleeps (trace (snd r)) = sleeps (trace s) ++ repeat 1000 K)
     /\ (UPISND_TIMEOUT_MS <= Z.of_nat K * backoff_ms ->
         fst r = -1 /\ (errno (snd r) = ENOENT \/ errno (snd r) = EACCES)
         /\ opens (trace (snd r)) = opens (trace s) ++ repeat path 2000
         /\ sleeps (trace (snd r)) = sleeps (trace s) ++ repeat 1000 2000))
  /\ (forall e, a_open io K = OpenErr e -> (K < 2000)%nat ->
      Z.pos e <> ENOENT -> Z.pos e <> EACCES ->
      fst r = -1 /\ errno (snd r) = Z.pos e
      /\ opens (trace (snd r)) = opens (trace s) ++ repeat path (K + 1)
      /\ sleeps (trace (snd r)) = sleeps (trace s) ++ repeat 1000 K)
  /\ now_ms (snd r) <= now_ms s + UPISND_TIMEOUT_MS.
Proof.
  intros Hh Hc Hp Hret io path r.
  assert (Hr : r = match attr_open_loop 2000 io path flags (uint32 (now_ms s)) 0 s with
                   | Some r => r
                   | None => (-1, s)
                   end) by (apply attr_open_enters; assumption).
  assert (Hnow : now_ms s = now_ms s + Z.of_nat 0) by (cbn; lia).
  (* the first min K 1999 attempts are retried *)
  assert (Hhead : forall j fuel, (j <= K)%nat -> (j < 2000)%nat -> (j + fuel = 2000)%nat ->
            exists s',
              attr_open_loop 2000 io path flags (uint32 (now_ms s)) 0 s
              = attr_open_loop fuel io path flags (uint32 (now_ms s)) j s'
              /\ now_ms s' = now_ms s + Z.of_nat j
              /\ opens (trace s') = opens (trace s) ++ repeat path j
              /\ sleeps (trace s') = sleeps (trace s) ++ repeat 1000 j).
  { intros j fuel HjK Hj Hsum.
    destruct (attr_open_loop_retries io path flags (now_ms s) j fuel 0%nat s Hnow)
      as (s' & Heq & Hn & Ho & Hs).
    - intros i Hi. apply Hret; lia.
    - lia.
    - exists s'. rewrite <- Hsum. auto. }
  change backoff_ms with 1. unfold UPISND_TIMEOUT_MS. rewrite Z.mul_1_r.
  split; [|split].
  - intros fd Hopen.
    destruct (Z.ltb_spec (Z.of_nat K) 2000) as [Hlt|Hge].
    + (* success at attempt K *)
      destruct (Hhead K (S (1999 - K))) as (s' & Heq & Hn & Ho & Hs); [lia..|].
      rewrite Heq in Hr. cbn [attr_open_loop] in Hr. fold io in Hopen.
      rewrite Hopen in Hr. subst r. rewrite Hr. cbn [fst snd].
      assert (Hres : errno (set_errno 0 (log (EvOpen path flags) s')) = 0
                     /\ opens (trace (set_errno 0 (log (EvOpen path flags) s')))
                        = opens (trace s) ++ repeat path (K + 1)
                     /\ sleeps (trace (set_errno 0 (log (EvOpen path flags) s')))
                        = sleeps (trace s) ++ repeat 1000 K).
      { cbn. rewrite opens_app, sleeps_app, Ho, Hs. cbn.
        rewrite repeat_app, app_nil_r, <- app_assoc. auto. }
      split; [split; lia|]. split; [intros _; split; [reflexivity | exact Hres]|]. lia.
    + (* the timeout expires after attempt 1999 *)
      destruct (Hhead 1999%nat 1%nat) as (s' & Heq & Hn & Ho & Hs); [lia..|].
      rewrite Heq in Hr.
      destruct (retried_cases _ (Hret 1999%nat ltac:(lia))) as (e & He & Hcode).
      cbn [attr_open_loop] in Hr. fold io in He. rewrite He in Hr.
      cbn [errno set_errno] in Hr.
      assert (Hre : (Z.pos e =? ENOENT) || (Z.pos e =? EACCES) = true).
      { destruct Hcode as [-> | ->]; reflexivity. }
      rewrite Hre in Hr.
      set (s3 := usleep 1000 (set_errno (Z.pos e) (log (EvOpen path flags) s'))) in Hr.
      assert (Hnow3 : now_ms s3 = now_ms s + 2000).
      { subst s3. cbn. rewrite Hn. change (1000 / 1000) with 1. lia. }
      rewrite (elapsed_ms (now_ms s) s3 2000 Hnow3) in Hr by lia.
      change (2000 <? UPISND_TIMEOUT_MS) with false in Hr. subst r. rewrite Hr. cbn [fst snd].
      split; [split; lia|]. split; [lia|]. intros _.
      split; [reflexivity|]. split; [subst s3; exact Hcode|].
      subst s3. cbn [trace usleep log set_errno].
      rewrite !opens_app, !sleeps_app, Ho, Hs. cbn [opens sleeps app].
      rewrite !app_nil_r, <- !app_assoc.
      split; [f_equal; apply (repeat_snoc path 1999) | f_equal; apply (repeat_snoc 1000 1999)].
  - intros e Hopen HK Hne1 Hne2.
    destruct (Hhead K (S (1999 - K))) as (s' & Heq & Hn & Ho & Hs); [lia..|].
    rewrite Heq in Hr. cbn [attr_open_loop] in Hr. fold io in Hopen.
    rewrite Hopen in Hr. cbn [errno set_errno] in Hr.
    destruct (Z.eqb_spec (Z.pos e) ENOENT); [contradiction|].
    destruct (Z.eqb_spec (Z.pos e) EACCES); [contradiction|].
    cbn [orb] in Hr. subst r. rewrite Hr. cbn.
    rewrite opens_app, sleeps_app, Ho, Hs. cbn.
    rewrite repeat_app, app_nil_r, <- app_assoc. auto.
  - destruct (attr_open_loop_total io path flags (now_ms s) 2000 0%nat s Hnow)
      as (r0 & s' & Heq & Hb & _); [lia..|].
    rewrite Heq in Hr. subst r. rewrite Hr. cbn. exact Hb.
Qed.

(** * NULL handles *)

(** What the operations on an element do with a NULL handle: each returns
    its failure value at once.  The attribute open, every attribute read and
    write built on it, and the getters that check the handle themselves leave
    EINVAL in errno and change nothing else in the state, so no system call
    is made; [upisnd_element_get_name] returns NULL, [upisnd_element_get_type]
    returns its invalid value and leaves errno alone, and an unref of a NULL
    pointer or of a pointer to a NULL handle changes nothing. *)
Lemma null_handle_behaviour (w : world) (s : state) (attr : upisnd_element_attr_e)
    (flags i n : Z) (dst : option string) (str : string)
    (eo : upisnd_encoder_opts_t) (ao : upisnd_analog_input_opts_t) :
  let failed := set_errno EINVAL s in
  trace failed = trace s /\ nodes failed = nodes s /\ ctxs failed = ctxs s
  /\ upisnd_element_attr_open w attr flags None s = (-1, failed)
  /\ upisnd_element_open_value_fd w None flags s = (-1, failed)
  /\ upisnd_element_attr_read_int w attr None s = (-1, failed)
  /\ upisnd_element_attr_write_int w attr None i s = (-1, failed)
  /\ upisnd_element_attr_read_str w dst n attr None s = (-1, dst, failed)
  /\ upisnd_element_attr_write_str w attr None str s = (-1, failed)
  /\ upisnd_element_get_name None s = (None, s)
  /\ upisnd_element_get_type w None s = (UPISND_ELEMENT_TYPE_INVALID, s)
  /\ upisnd_element_get_pin w None s = (UPISND_PIN_INVALID, failed)
  /\ upisnd_element_encoder_get_pin_b w None s = (UPISND_PIN_INVALID, failed)
  /\ upisnd_element_gpio_get_direction w None s = (UPISND_PIN_DIR_INVALID, failed)
  /\ upisnd_element_gpio_get_pull w None s = (UPISND_PIN_PULL_INVALID, failed)
  /\ upisnd_element_encoder_get_pin_b_pull w None s = (UPISND_PIN_PULL_INVALID, failed)
  /\ upisnd_element_activity_get_type w None s = (UPISND_ACTIVITY_INVALID, failed)
  /\ fst (fst (upisnd_element_encoder_get_opts w None eo s)) = -1
  /\ snd (upisnd_element_encoder_get_opts w None eo s) = failed
  /\ upisnd_element_encoder_set_opts w None eo s = (-1, failed)
  /\ fst (fst (upisnd_element_analog_input_get_opts w None ao s)) = -1
  /\ snd (upisnd_element_analog_input_get_opts w None ao s) = failed
  /\ upisnd_element_analog_input_set_opts w None ao s = (-1, failed)
  /\ upisnd_element_add_ref None s = (None, s)
  /\ upisnd_element_unref w None s = (None, s)
  /\ upisnd_element_unref w (Some None) s = (Some None, s).
Proof.
  intros failed. subst failed.
  repeat (split; [reflexivity|]).
  split.
  { unfold upisnd_element_attr_read_str. destruct dst; [|reflexivity].
    destruct (n <? 2); reflexivity. }
  repeat (split; [reflexivity|]). reflexivity.
Qed.

(** C10: [upisnd_element_get_type] called with a NULL handle returns
    [UPISND_ELEMENT_TYPE_INVALID] and leaves errno as it was, so 0 when it
    was 0 before the call, although its documentation says to check errno
    on that result; [upisnd_element_get_pin] and
    [upisnd_element_gpio_get_direction], called with the same handle in the
    same state, leave EINVAL. *)
Theorem C10_get_type_null :
  (forall (w : world) (s : state),
      upisnd_element_get_type w None s = (UPISND_ELEMENT_TYPE_INVALID, s))
  /\ errno state_one = 0
  /\ fst (upisnd_element_get_type world_good None state_one) = UPISND_ELEMENT_TYPE_INVALID
  /\ errno (snd (upisnd_element_get_type world_good None state_one)) = 0
  /\ errno (snd (upisnd_element_get_type world_good None state_one)) <> EINVAL
  /\ upisnd_element_get_pin world_good None state_one
     = (UPISND_PIN_INVALID, set_errno EINVAL state_one)
  /\ upisnd_element_gpio_get_direction world_good None state_one
     = (UPISND_PIN_DIR_INVALID, set_errno EINVAL state_one)
  /\ errno (snd (upisnd_element_get_pin world_good None state_one)) = EINVAL.
Proof.
  split; [intros w s; reflexivity|].
  split; [reflexivity|]. split; [reflexivity|]. split; [reflexivity|].
  split; [cbn; discriminate|].
  split; [reflexivity|]. split; reflexivity.
Qed.

(** * Concrete instances *)

Lemma wf_state_one : wf state_one.
Proof.
  split; [reflexivity|]. split; [intros c [= <-]; eexists; apply lookup_singleton_eq|].
  intros c cx Hc. unfold state_one in *. cbn [ctxs] in Hc.
  apply lookup_singleton_Some in Hc as [<- <-].
  split.
  - apply Forall_cons. split; [|constructor].
    unfold live_in. cbn [nodes]. rewrite lookup_singleton_eq.
    split; [reflexivity|]. vm_compute. split; discriminate.
  - unfold names_of. cbn [ctx_elements ctx_one omap list_omap nodes].
    rewrite lookup_singleton_eq. apply NoDup_singleton.
Qed.

Lemma registered_state_one : registered state_one 1%positive "enc" 5%positive.
Proof.
  exists ctx_one, node_one. split; [apply lookup_singleton_eq|].
  split; [left|]. split; [apply lookup_singleton_eq | reflexivity].
Qed.

Lemma absent_state_one name : name <> "enc"%string ->
  forall h, ~ registered state_one 1%positive name h.
Proof.
  intros Hne h (cx & nd & Hc & Hin & Hh & Hname).
  unfold state_one in *. cbn [ctxs nodes] in *.
  apply lookup_singleton_Some in Hc as [_ <-].
  cbn in Hin. apply list_elem_of_singleton in Hin. subst h.
  apply lookup_singleton_Some in Hh as [_ <-]. cbn in Hname. congruence.
Qed.

(** ** Witnesses *)

Lemma C1_same_handle_witness :
  wf state_one /\ registered state_one 1%positive "enc" 5%positive
  /\ fst (upisnd_element_get (Some "enc") state_one) = Some 5%positive
  /\ refcount_of (snd (upisnd_element_get (Some "enc") state_one)) 5%positive = Some 2.
Proof.
  assert (Hval : 0 <= upisnd_validate_element_name (Some "enc")) by (vm_compute; discriminate).
  assert (Hmax : el_refcount node_one < INT_MAX) by (vm_compute; reflexivity).
  destruct (C1_same_handle 1%positive "enc" Hval) as [H _].
  pose proof (H state_one world_good 5%positive ctx_one node_one "gpio B03 output 1"
                wf_state_one eq_refl eq_refl registered_state_one eq_refl Hmax) as H1.
  cbv zeta in H1. destruct H1 as [H1 _].
  split; [exact wf_state_one|]. split; [exact registered_state_one | exact H1].
Defined.

Lemma C2_release_once_witness :
  wf state_one /\ el_refcount node_one = 1
  /\ nodes (snd (upisnd_element_unref world_good (Some (Some 5%positive)) state_one)) !! 5%positive
  = None
  /\ writes (trace (snd (upisnd_element_unref world_good (Some (Some 5%positive)) state_one)))
     = [("/sys/pisound-micro/unsetup"%string, "enc"%string)].
Proof.
  assert (Hin : 5%positive ∈ ctx_elements ctx_one) by left.
  pose proof (C2_release_once state_one world_good 5%positive node_one ctx_one
                wf_state_one eq_refl eq_refl Hin) as H.
  cbv zeta in H. destruct H as [H _].
  destruct (H eq_refl) as (H1 & _ & _ & H4).
  split; [exact wf_state_one|]. split; [reflexivity|].
  split; [exact H1|]. apply H4. split; [vm_compute; reflexivity | exact I].
Defined.

Lemma C3_wire_payloads_witness :
  wf state_one /\ txn_ok (w_setup world_good)
  /\ writes (trace (snd (upisnd_setup world_good (Some "gpio1")
                        (gpio_output_descriptor UPISND_PIN_B03 true) state_one)))
  = [("/sys/pisound-micro/setup"%string, "gpio1 gpio B03 output 1"%string)].
Proof.
  assert (Habs : forall h, ~ registered state_one 1%positive "gpio1" h)
    by (apply absent_state_one; discriminate).
  assert (Hfit : strlen (setup_node (ctx_sysfs_base ctx_one)) < UPISND_MAX_BASE_PATH_LENGTH)
    by (vm_compute; reflexivity).
  assert (Hok : txn_ok (w_setup world_good)) by (repeat split).
  assert (Hrel : release_reaches_driver world_good (ctx_sysfs_base ctx_one))
    by (split; [vm_compute; reflexivity | exact I]).
  destruct C3_wire_payloads as (_ & _ & H).
  pose proof (H state_one world_good world_good 1%positive 7%positive ctx_one
                wf_state_one eq_refl eq_refl Habs eq_refl Hfit Hok Hrel) as H1.
  cbv zeta in H1. destruct H1 as (_ & H1 & _).
  split; [exact wf_state_one|]. split; [exact Hok | exact H1].
Defined.

Lemma C7_attr_open_retry_witness :
  Z.of_nat 2 * backoff_ms < UPISND_TIMEOUT_MS
  /\ fst (upisnd_element_attr_open world_late_attr UPISND_ELEMENT_ATTR_VALUE O_RDONLY
         (Some 5%positive) state_one) = 4
  /\ errno (snd (upisnd_element_attr_open world_late_attr UPISND_ELEMENT_ATTR_VALUE O_RDONLY
                   (Some 5%positive) state_one)) = 0.
Proof.
  assert (Hp : 0 <= fst (upisnd_element_path (ctx_sysfs_base ctx_one) (el_name node_one)
                           UPISND_ELEMENT_ATTR_VALUE)) by (vm_compute; discriminate).
  assert (Hret : forall i, (i < 2)%nat ->
            retried (a_open (w_attr world_late_attr UPISND_ELEMENT_ATTR_VALUE) i)).
  { intros i Hi. destruct i as [|[|i]]; [left; reflexivity | left; reflexivity | lia]. }
  pose proof (C7_attr_open_retry state_one world_late_attr UPISND_ELEMENT_ATTR_VALUE O_RDONLY
                5%positive node_one ctx_one 2 eq_refl eq_refl Hp Hret) as H.
  cbv zeta in H. destruct H as [H _].
  destruct (H 4%N eq_refl) as (_ & H2 & _).
  destruct H2 as (Hfd & Herr & _); [vm_compute; reflexivity|].
  split; [vm_compute; reflexivity|]. split; [exact Hfd | exact Herr].
Defined.

Lemma C8_setup_failure_rollback_witness :
  txn_fails_with (w_setup world_setup_denied) 13%positive
  /\ fst (upisnd_setup_do world_setup_denied (Some 1%positive) (Some "enc")
            "gpio B03 output 1" state_one) = None
  /\ errno (snd (upisnd_setup_do world_setup_denied (Some 1%positive) (Some "enc")
                   "gpio B03 output 1" state_one)) = EACCES
  /\ nodes (snd (upisnd_setup_do world_setup_denied (Some 1%positive) (Some "enc")
                   "gpio B03 output 1" state_one)) = nodes state_one.
Proof.
  assert (Hval : 0 <= upisnd_validate_element_name (Some "enc")) by (vm_compute; discriminate).
  assert (Hfit : setup_request_fits (ctx_sysfs_base ctx_one) "enc" "gpio B03 output 1")
    by (split; vm_compute; reflexivity).
  assert (Hf : txn_fails_with (w_setup world_setup_denied) 13%positive)
    by (apply fails_open; reflexivity).
  pose proof (C8_setup_failure_rollback state_one world_setup_denied 1%positive ctx_one
                "enc" "gpio B03 output 1" 13%positive wf_state_one eq_refl eq_refl
                Hval Hfit Hf) as H.
  cbv zeta in H. destruct H as [H _].
  destruct (H 5%positive registered_state_one) as (H1 & H2 & H3 & _).
  split; [exact Hf|]. split; [exact H1|]. split; [exact H2 | exact H3].
Defined.

(** Names the validator accepts and refuses. *)
Example validate_examples :
  upisnd_validate_element_name (Some "gpio1") = 5
  /\ upisnd_validate_element_name (Some "") = -1
  /\ upisnd_validate_element_name (Some "a/b") = -1
  /\ upisnd_validate_element_name
       (Some "0123456789012345678901234567890123456789012345678901234567890123") = -1
  /\ upisnd_validate_element_name
       (Some "012345678901234567890123456789012345678901234567890123456789012") = 63.
Proof. repeat split. Qed.

(** * Tokens of the enumerations *)

Section Tokens.

Variable to_str : Z -> string.
Variable count : Z.

(** The tokens of the values below [count] are pairwise different. *)
Hypothesis tokens_differ :
  forall i j : nat, (i < Z.to_nat count)%nat -> (j < Z.to_nat count)%nat ->
                    to_str (Z.of_nat i) = to_str (Z.of_nat j) -> i = j.

Lemma find_first_token (s : string) (a n : nat) (i : nat) :
  (a <= i < a + n)%nat -> (a + n <= Z.to_nat count)%nat -> to_str (Z.of_nat i) = s ->
  List.find (fun k => String.eqb s (to_str (Z.of_nat k))) (seq a n) = Some i.
Proof.
  revert a. induction n as [|n IH]; intros a Hi Hle Hs; [lia|].
  cbn [seq List.find].
  destruct (String.eqb_spec s (to_str (Z.of_nat a))) as [E|E].
  - f_equal. apply tokens_differ; [lia | lia | congruence].
  - apply IH; [|lia|exact Hs].
    assert (i <> a) by (intros ->; congruence). lia.
Qed.

Lemma str_to_enum_of_token (v : Z) :
  0 <= v < count -> str_to_enum to_str count (to_str v) = v.
Proof.
  intros Hv. unfold str_to_enum.
  rewrite (find_first_token (to_str v) 0 (Z.to_nat count) (Z.to_nat v)).
  - lia.
  - lia.
  - lia.
  - f_equal. lia.
Qed.

Lemma str_to_enum_sound (s : string) (v : Z) :
  str_to_enum to_str count s = v -> v <> -1 -> 0 <= v < count /\ to_str v = s.
Proof.
  unfold str_to_enum. intros H Hne.
  destruct (List.find _ _) as [i|] eqn:Hf; [|congruence].
  apply find_some in Hf. destruct Hf as [Hin Heq].
  apply in_seq in Hin. apply String.eqb_eq in Heq. subst v. split; [lia | auto].
Qed.

Lemma str_to_enum_unknown (s : string) :
  (forall i : nat, (i < Z.to_nat count)%nat -> to_str (Z.of_nat i) <> s) ->
  str_to_enum to_str count s = -1.
Proof.
  intros H. unfold str_to_enum.
  destruct (List.find _ _) as [i|] eqn:Hf; [|reflexivity].
  apply find_some in Hf. destruct Hf as [Hin Heq].
  apply in_seq in Hin. apply String.eqb_eq in Heq. exfalso. apply (H i); [lia | auto].
Qed.

End Tokens.

Lemma enum_tokens_differ (e : token_enum) (i j : nat) :
  (i < Z.to_nat (enum_count e))%nat -> (j < Z.to_nat (enum_count e))%nat ->
  enum_to_str e (Z.of_nat i) = enum_to_str e (Z.of_nat j) -> i = j.
Proof.
  destruct e; cbn [enum_count enum_to_str]; intros Hi Hj;
    repeat (destruct i as [|i]; [|try (exfalso; vm_compute in Hi; lia)]);
    repeat (destruct j as [|j]; [|try (exfalso; vm_compute in Hj; lia)]);
    try reflexivity; try (vm_compute; discriminate);
    exfalso; vm_compute in Hi, Hj; lia.
Qed.

Lemma enum_to_str_outside (e : token_enum) (v : Z) :
  ~ 0 <= v < enum_count e -> enum_to_str e v = ""%string.
Proof.
  destruct e; cbn [enum_count enum_to_str];
    unfold upisnd_pin_pull_to_str, upisnd_activity_to_str, upisnd_element_type_to_str,
      upisnd_pin_direction_to_str, upisnd_value_mode_to_str,
      UPISND_PIN_PULL_COUNT, UPISND_PIN_PULL_NONE, UPISND_PIN_PULL_UP, UPISND_PIN_PULL_DOWN,
      UPISND_ACTIVITY_COUNT, UPISND_ACTIVITY_MIDI_INPUT, UPISND_ACTIVITY_MIDI_OUTPUT,
      UPISND_ELEMENT_TYPE_COUNT, UPISND_ELEMENT_TYPE_NONE, UPISND_ELEMENT_TYPE_ENCODER,
      UPISND_ELEMENT_TYPE_ANALOG_INPUT, UPISND_ELEMENT_TYPE_GPIO, UPISND_ELEMENT_TYPE_ACTIVITY,
      UPISND_PIN_DIR_COUNT, UPISND_PIN_DIR_INPUT, UPISND_PIN_DIR_OUTPUT,
      UPISND_VALUE_MODE_COUNT, UPISND_VALUE_MODE_CLAMP, UPISND_VALUE_MODE_WRAP;
    intros H; cmp; reflexivity.
Qed.

Lemma str_to_enum_of_unfold (e : token_enum) :
  str_to_enum_of e = str_to_enum (enum_to_str e) (enum_count e).
Proof. destruct e; reflexivity. Qed.

(** X1: for each of the five enumerations with a generated parser (pull,
    activity, element type, direction, value mode), printing a value and
    parsing the token gives the value back when it is one of the
    enumeration, and the invalid value -1 otherwise; and a token that parses
    to a value other than -1 is the token that value prints to. *)
Theorem X1_enum_tokens (e : token_enum) :
  (forall v : Z,
      str_to_enum_of e (enum_to_str e v)
      = if (0 <=? v) && (v <? enum_count e) then v else -1)
  /\ (forall (s : string) (v : Z),
      str_to_enum_of e s = v /\ v <> -1 <-> (0 <= v < enum_count e) /\ enum_to_str e v = s).
Proof.
  rewrite str_to_enum_of_unfold. split.
  - intros v. destruct (Z.leb_spec 0 v) as [H0|H0], (Z.ltb_spec v (enum_count e)) as [H1|H1];
      cbn [andb].
    + apply str_to_enum_of_token; [apply enum_tokens_differ | lia].
    + rewrite enum_to_str_outside by lia.
      apply str_to_enum_unknown. intros i Hi. destruct e; clear - Hi;
        repeat (destruct i as [|i]; [vm_compute; discriminate|]);
        exfalso; vm_compute in Hi; lia.
    + rewrite enum_to_str_outside by lia.
      apply str_to_enum_unknown. intros i Hi. destruct e; clear - Hi;
        repeat (destruct i as [|i]; [vm_compute; discriminate|]);
        exfalso; vm_compute in Hi; lia.
    + rewrite enum_to_str_outside by lia.
      apply str_to_enum_unknown. intros i Hi. destruct e; clear - Hi;
        repeat (destruct i as [|i]; [vm_compute; discriminate|]);
        exfalso; vm_compute in Hi; lia.
  - intros s v. split.
    + intros [H Hne]. eapply str_to_enum_sound; eauto.
    + intros [Hv Hs]. subst s. split.
      * apply str_to_enum_of_token; [apply enum_tokens_differ | lia].
      * lia.
Qed.

(** * Pin names *)

Lemma pin_to_str_nth (i : nat) :
  (i < Z.to_nat UPISND_PIN_COUNT)%nat ->
  upisnd_pin_to_str (Z.of_nat i) = nth i UPISND_PIN_NAMES ""%string.
Proof.
  intros Hi. unfold upisnd_pin_to_str, upisnd_is_pin_valid.
  destruct (Z.ltb_spec (Z.of_nat i) UPISND_PIN_COUNT); [|lia].
  destruct (Z.ltb_spec (Z.of_nat i) 0); [lia|].
  rewrite Nat2Z.id. reflexivity.
Qed.

Lemma pin_bank_cases (c bank : ascii) :
  pin_bank c = Some bank ->
  (bank = "A"%char /\ (c = "A"%char \/ c = "a"%char))
  \/ (bank = "B"%char /\ (c = "B"%char \/ c = "b"%char)).
Proof.
  unfold pin_bank.
  destruct (Ascii.eqb_spec c "a"), (Ascii.eqb_spec c "A"), (Ascii.eqb_spec c "b"),
    (Ascii.eqb_spec c "B"); cbn; intros H; inversion H; subst; auto.
Qed.

(** X2: [upisnd_str_to_pin] inverts [upisnd_pin_to_str] on the 37 pins, with
    the bank letter in either case; a text that parses to a pin is the name
    of that pin with the bank letter in either case; NULL parses to
    [UPISND_PIN_INVALID]. *)
Theorem X2_pin_names :
  (forall p : Z, 0 <= p < UPISND_PIN_COUNT ->
      upisnd_str_to_pin (Some (upisnd_pin_to_str p)) = p
      /\ upisnd_str_to_pin (Some (lower_bank (upisnd_pin_to_str p))) = p)
  /\ (forall (s : string) (p : Z),
      upisnd_str_to_pin (Some s) = p -> p <> UPISND_PIN_INVALID ->
      0 <= p < UPISND_PIN_COUNT
      /\ (s = upisnd_pin_to_str p \/ s = lower_bank (upisnd_pin_to_str p)))
  /\ upisnd_str_to_pin None = UPISND_PIN_INVALID.
Proof.
  split; [|split; [|reflexivity]].
  - intros p Hp.
    assert (Hall : forallb (fun i =>
               (upisnd_str_to_pin (Some (upisnd_pin_to_str (Z.of_nat i))) =? Z.of_nat i)
               && (upisnd_str_to_pin (Some (lower_bank (upisnd_pin_to_str (Z.of_nat i))))
                   =? Z.of_nat i))
             (seq 0 (Z.to_nat UPISND_PIN_COUNT)) = true) by (vm_compute; reflexivity).
    rewrite forallb_forall in Hall.
    specialize (Hall (Z.to_nat p)). rewrite Z2Nat.id in Hall by lia.
    assert (Hin : In (Z.to_nat p) (seq 0 (Z.to_nat UPISND_PIN_COUNT))) by (apply in_seq; lia).
    apply Hall in Hin. apply andb_true_iff in Hin. destruct Hin as [H1 H2].
    apply Z.eqb_eq in H1, H2. auto.
  - intros s p H Hne. unfold upisnd_str_to_pin in H.
    destruct s as [|c0 [|c1 [|c2 [|c3 s]]]]; try congruence.
    destruct (negb (isdigit c1) || negb (isdigit c2)); [congruence|].
    destruct (pin_bank c0) as [bank|] eqn:Hb; [|congruence].
    destruct (List.find _ _) as [i|] eqn:Hf; [|congruence].
    apply find_some in Hf. destruct Hf as [Hin Heq].
    apply in_seq in Hin. apply String.eqb_eq in Heq.
    subst p. split; [lia|].
    rewrite pin_to_str_nth by lia. rewrite <- Heq.
    destruct (pin_bank_cases _ _ Hb) as [[-> [-> | ->]] | [-> [-> | ->]]]; cbn; auto.
Qed.

(** * Independence of the descriptor fields *)

Lemma applicable_type (f : field) (d : Z) :
  applicable f d -> field_of_type f (upisnd_internal_setup_get_element_type d).
Proof. intros [H _]. exact H. Qed.

Lemma has_main_pin_spec (d : Z) :
  applicable F_pin_id d -> has_main_pin (upisnd_internal_setup_get_element_type d) = true.
Proof.
  intros H. apply applicable_type in H. cbn in H. unfold has_main_pin.
  destruct H as [-> | [-> | [-> | ->]]]; reflexivity.
Qed.

(** On a descriptor a field applies to, its setter is the bare field write
    and its getter the bare field read. *)
Lemma setter_raw (f : field) (d v : Z) :
  applicable f d ->
  setter f d v = (0, field_set (field_shift f) (field_bits f) d (field_arg f v)).
Proof.
  intros Ha. destruct f; cbn [setter field_shift field_bits field_arg].
  - unfold upisnd_setup_set_pin_id. rewrite (has_main_pin_spec d Ha). reflexivity.
  - unfold upisnd_setup_set_gpio_pull. rewrite (pull_applies_spec d Ha). reflexivity.
  - apply applicable_type in Ha. cbn in Ha.
    unfold upisnd_setup_set_gpio_dir. rewrite Ha. reflexivity.
  - destruct (output_applies_spec d Ha) as [Ht Hd].
    unfold upisnd_setup_set_gpio_output. rewrite Ht, Hd. reflexivity.
  - apply applicable_type in Ha. cbn in Ha.
    unfold upisnd_setup_set_encoder_pin_b_id. rewrite Ha. reflexivity.
  - apply applicable_type in Ha. cbn in Ha.
    unfold upisnd_setup_set_encoder_pin_b_pull. rewrite Ha. reflexivity.
  - apply applicable_type in Ha. cbn in Ha.
    unfold upisnd_setup_set_activity_type. rewrite Ha. reflexivity.
Qed.

Lemma getter_raw (f : field) (d : Z) :
  applicable f d ->
  getter f d = field_cast f (field_get (field_shift f) (field_bits f) d).
Proof.
  intros Ha. destruct f; cbn [getter field_shift field_bits field_cast].
  - unfold upisnd_setup_get_pin_id. rewrite (has_main_pin_spec d Ha). reflexivity.
  - unfold upisnd_setup_get_gpio_pull. rewrite (pull_applies_spec d Ha). reflexivity.
  - apply applicable_type in Ha. cbn in Ha.
    unfold upisnd_setup_get_gpio_dir. rewrite Ha. reflexivity.
  - destruct (output_applies_spec d Ha) as [Ht Hd].
    unfold upisnd_setup_get_gpio_output. rewrite Ht, Hd. cbn.
    unfold upisnd_internal_setup_get_gpio_output.
    destruct (to_bool (field_get 12 1 d)); reflexivity.
  - apply applicable_type in Ha. cbn in Ha.
    unfold upisnd_setup_get_encoder_pin_b_id. rewrite Ha. reflexivity.
  - apply applicable_type in Ha. cbn in Ha.
    unfold upisnd_setup_get_encoder_pin_b_pull. rewrite Ha. reflexivity.
  - apply applicable_type in Ha. cbn in Ha.
    unfold upisnd_setup_get_activity_type. rewrite Ha. reflexivity.
Qed.

(** Two different fields that apply to one descriptor do not share a bit. *)
Lemma applicable_disjoint (f g : field) (d : Z) :
  f <> g -> applicable f d -> applicable g d ->
  field_shift g + field_bits g <= field_shift f
  \/ field_shift f + field_bits f <= field_shift g.
Proof.
  intros Hne Hf Hg.
  destruct f, g; try congruence; cbn [field_shift field_bits]; try lia; exfalso;
    try (apply applicable_type in Hf, Hg; cbn in Hf, Hg; consts; lia).
  - (* pull and level *)
    destruct (output_applies_spec d Hg) as [Ht Hd].
    destruct Hf as [_ Hf]. unfold upisnd_setup_get_element_type in Hf.
    specialize (Hf Ht). unfold upisnd_setup_get_gpio_dir in Hf.
    rewrite Ht, Z.eqb_refl in Hf. rewrite Hf in Hd. discriminate Hd.
  - destruct (output_applies_spec d Hf) as [Ht Hd].
    destruct Hg as [_ Hg]. unfold upisnd_setup_get_element_type in Hg.
    specialize (Hg Ht). unfold upisnd_setup_get_gpio_dir in Hg.
    rewrite Ht, Z.eqb_refl in Hg. rewrite Hg in Hd. discriminate Hd.
Qed.

(** X3: on a descriptor that two different fields apply to, setting the one
    leaves the type tag as it was and, as long as the other still applies
    afterwards, leaves what the getter of the other reads. *)
Theorem X3_fields_independent (f g : field) (setup v : Z) :
  f <> g -> applicable f setup -> applicable g setup ->
  let d := snd (setter f setup v) in
  upisnd_setup_get_element_type d = upisnd_setup_get_element_type setup
  /\ (applicable g d -> getter g d = getter g setup).
Proof.
  intros Hne Hf Hg d. subst d. rewrite (setter_raw f setup v Hf). cbn [snd]. split.
  - unfold upisnd_setup_get_element_type. apply tag_after_field_set; destruct f; cbn; lia.
  - intros Hg'. rewrite (getter_raw g _ Hg'), (getter_raw g _ Hg). f_equal.
    apply field_get_set_other; try (destruct f; cbn; lia); try (destruct g; cbn; lia).
    apply (applicable_disjoint f g setup Hne Hf Hg).
Qed.

Lemma X3_fields_independent_witness :
  let d := gpio_input_descriptor UPISND_PIN_B03 UPISND_PIN_PULL_UP in
  getter F_gpio_pull (snd (setter F_pin_id d UPISND_PIN_B04)) = UPISND_PIN_PULL_UP.
Proof.
  cbv zeta.
  assert (Hf : applicable F_pin_id (gpio_input_descriptor UPISND_PIN_B03 UPISND_PIN_PULL_UP)).
  { split; [right; right; left; reflexivity | exact I]. }
  assert (Hg : applicable F_gpio_pull (gpio_input_descriptor UPISND_PIN_B03 UPISND_PIN_PULL_UP)).
  { split; [right; reflexivity | intros _; reflexivity]. }
  assert (Hne : F_pin_id <> F_gpio_pull) by discriminate.
  destruct (X3_fields_independent F_pin_id F_gpio_pull _ UPISND_PIN_B04 Hne Hf Hg) as [_ H].
  rewrite H; [reflexivity|].
  split; [right; reflexivity | intros _; reflexivity].
Defined.

(** * Setup through a descriptor *)

Lemma below_spec (n v : Z) : 0 <= v < n -> In v (below n).
Proof.
  intros H. unfold below. apply in_map_iff. exists (Z.to_nat v).
  split; [lia | apply in_seq; lia].
Qed.

Lemma encoder_descriptor_fields (pa qa pb qb : Z) :
  0 <= pa < UPISND_PIN_COUNT -> 0 <= qa < UPISND_PIN_PULL_COUNT ->
  0 <= pb < UPISND_PIN_COUNT -> 0 <= qb < UPISND_PIN_PULL_COUNT ->
  let d := encoder_descriptor pa qa pb qb in
  upisnd_setup_get_element_type d = UPISND_ELEMENT_TYPE_ENCODER
  /\ upisnd_internal_setup_get_pin_id d = pa
  /\ upisnd_internal_setup_get_gpio_pull d = qa
  /\ upisnd_internal_setup_get_encoder_pin_b_id d = pb
  /\ upisnd_internal_setup_get_encoder_pin_b_pull d = qb.
Proof.
  intros Hpa Hqa Hpb Hqb.
  assert (Hall : forallb (fun pa => forallb (fun qa => forallb (fun pb => forallb (fun qb =>
            let d := encoder_descriptor pa qa pb qb in
            (upisnd_setup_get_element_type d =? UPISND_ELEMENT_TYPE_ENCODER)
            && (upisnd_internal_setup_get_pin_id d =? pa)
            && (upisnd_internal_setup_get_gpio_pull d =? qa)
            && (upisnd_internal_setup_get_encoder_pin_b_id d =? pb)
            && (upisnd_internal_setup_get_encoder_pin_b_pull d =? qb))
           (below UPISND_PIN_PULL_COUNT)) (below UPISND_PIN_COUNT))
           (below UPISND_PIN_PULL_COUNT)) (below UPISND_PIN_COUNT) = true)
    by (vm_compute; reflexivity).
  rewrite forallb_forall in Hall. specialize (Hall pa (below_spec _ _ Hpa)).
  rewrite forallb_forall in Hall. specialize (Hall qa (below_spec _ _ Hqa)).
  rewrite forallb_forall in Hall. specialize (Hall pb (below_spec _ _ Hpb)).
  rewrite forallb_forall in Hall. specialize (Hall qb (below_spec _ _ Hqb)).
  cbv zeta in Hall. rewrite !andb_true_iff, !Z.eqb_eq in Hall.
  cbv zeta. tauto.
Qed.

Lemma gpio_input_descriptor_fields (p q : Z) :
  0 <= p < UPISND_PIN_COUNT -> 0 <= q < UPISND_PIN_PULL_COUNT ->
  let d := gpio_input_descriptor p q in
  upisnd_setup_get_element_type d = UPISND_ELEMENT_TYPE_GPIO
  /\ upisnd_internal_setup_get_gpio_dir d = UPISND_PIN_DIR_INPUT
  /\ upisnd_internal_setup_get_pin_id d = p
  /\ upisnd_internal_setup_get_gpio_pull d = q.
Proof.
  intros Hp Hq.
  assert (Hall : forallb (fun p => forallb (fun q =>
            let d := gpio_input_descriptor p q in
            (upisnd_setup_get_element_type d =? UPISND_ELEMENT_TYPE_GPIO)
            && (upisnd_internal_setup_get_gpio_dir d =? UPISND_PIN_DIR_INPUT)
            && (upisnd_internal_setup_get_pin_id d =? p)
            && (upisnd_internal_setup_get_gpio_pull d =? q))
           (below UPISND_PIN_PULL_COUNT)) (below UPISND_PIN_COUNT) = true)
    by (vm_compute; reflexivity).
  rewrite forallb_forall in Hall. specialize (Hall p (below_spec _ _ Hp)).
  rewrite forallb_forall in Hall. specialize (Hall q (below_spec _ _ Hq)).
  cbv zeta in Hall. rewrite !andb_true_iff, !Z.eqb_eq in Hall.
  cbv zeta. tauto.
Qed.

Lemma gpio_output_descriptor_fields (p : Z) (high : bool) :
  0 <= p < UPISND_PIN_COUNT ->
  let d := gpio_output_descriptor p high in
  upisnd_setup_get_element_type d = UPISND_ELEMENT_TYPE_GPIO
  /\ upisnd_internal_setup_get_gpio_dir d = UPISND_PIN_DIR_OUTPUT
  /\ upisnd_internal_setup_get_pin_id d = p
  /\ upisnd_internal_setup_get_gpio_output d = high.
Proof.
  intros Hp.
  assert (Hall : forallb (fun p => forallb (fun high =>
            let d := gpio_output_descriptor p high in
            (upisnd_setup_get_element_type d =? UPISND_ELEMENT_TYPE_GPIO)
            && (upisnd_internal_setup_get_gpio_dir d =? UPISND_PIN_DIR_OUTPUT)
            && (upisnd_internal_setup_get_pin_id d =? p)
            && Bool.eqb (upisnd_internal_setup_get_gpio_output d) high)
           [true; false]) (below UPISND_PIN_COUNT) = true)
    by (vm_compute; reflexivity).
  rewrite forallb_forall in Hall. specialize (Hall p (below_spec _ _ Hp)).
  rewrite forallb_forall in Hall.
  assert (Hin : In high [true; false]) by (destruct high; cbn; auto).
  specialize (Hall high Hin).
  cbv zeta in Hall. rewrite !andb_true_iff, !Z.eqb_eq in Hall.
  destruct Hall as [[[H1 H2] H3] H4]. apply Bool.eqb_prop in H4.
  cbv zeta. tauto.
Qed.

Lemma analog_input_descriptor_fields (p : Z) :
  0 <= p < UPISND_PIN_COUNT ->
  let d := analog_input_descriptor p in
  upisnd_setup_get_element_type d = UPISND_ELEMENT_TYPE_ANALOG_INPUT
  /\ upisnd_internal_setup_get_pin_id d = p.
Proof.
  intros Hp.
  assert (Hall : forallb (fun p =>
            let d := analog_input_descriptor p in
            (upisnd_setup_get_element_type d =? UPISND_ELEMENT_TYPE_ANALOG_INPUT)
            && (upisnd_internal_setup_get_pin_id d =? p))
           (below UPISND_PIN_COUNT) = true)
    by (vm_compute; reflexivity).
  rewrite forallb_forall in Hall. specialize (Hall p (below_spec _ _ Hp)).
  cbv zeta in Hall. rewrite !andb_true_iff, !Z.eqb_eq in Hall.
  cbv zeta. tauto.
Qed.

Lemma activity_descriptor_fields (p a : Z) :
  0 <= p < UPISND_PIN_COUNT -> 0 <= a < UPISND_ACTIVITY_COUNT ->
  let d := activity_descriptor p a in
  upisnd_setup_get_element_type d = UPISND_ELEMENT_TYPE_ACTIVITY
  /\ upisnd_internal_setup_get_pin_id d = p
  /\ upisnd_internal_setup_get_activity_type d = a.
Proof.
  intros Hp Ha.
  assert (Hall : forallb (fun p => forallb (fun a =>
            let d := activity_descriptor p a in
            (upisnd_setup_get_element_type d =? UPISND_ELEMENT_TYPE_ACTIVITY)
            && (upisnd_internal_setup_get_pin_id d =? p)
            && (upisnd_internal_setup_get_activity_type d =? a))
           (below UPISND_ACTIVITY_COUNT)) (below UPISND_PIN_COUNT) = true)
    by (vm_compute; reflexivity).
  rewrite forallb_forall in Hall. specialize (Hall p (below_spec _ _ Hp)).
  rewrite forallb_forall in Hall. specialize (Hall a (below_spec _ _ Ha)).
  cbv zeta in Hall. rewrite !andb_true_iff, !Z.eqb_eq in Hall.
  cbv zeta. tauto.
Qed.

(** X4: [upisnd_setup] on a descriptor built through the public setters from
    values of the enumerations is the call of the setup function of that
    element type with those values, for each of the five kinds of element;
    on a descriptor whose type tag is none, or is not an element type, it
    makes no system call and fails with EINVAL. *)
Theorem X4_setup_dispatch (w : world) (name : option string) (s : state) :
  (forall pa qa pb qb,
      0 <= pa < UPISND_PIN_COUNT -> 0 <= qa < UPISND_PIN_PULL_COUNT ->
      0 <= pb < UPISND_PIN_COUNT -> 0 <= qb < UPISND_PIN_PULL_COUNT ->
      upisnd_setup w name (encoder_descriptor pa qa pb qb) s
      = upisnd_setup_encoder w name pa qa pb qb s)
  /\ (forall p, 0 <= p < UPISND_PIN_COUNT ->
      upisnd_setup w name (analog_input_descriptor p) s = upisnd_setup_analog_input w name p s)
  /\ (forall p q, 0 <= p < UPISND_PIN_COUNT -> 0 <= q < UPISND_PIN_PULL_COUNT ->
      upisnd_setup w name (gpio_input_descriptor p q) s = upisnd_setup_gpio_input w name p q s)
  /\ (forall p high, 0 <= p < UPISND_PIN_COUNT ->
      upisnd_setup w name (gpio_output_descriptor p high) s
      = upisnd_setup_gpio_output w name p high s)
  /\ (forall p a, 0 <= p < UPISND_PIN_COUNT -> 0 <= a < UPISND_ACTIVITY_COUNT ->
      upisnd_setup w name (activity_descriptor p a) s = upisnd_setup_activity w name p a s)
  /\ (forall d,
      ~ UPISND_ELEMENT_TYPE_ENCODER <= upisnd_setup_get_element_type d
          <= UPISND_ELEMENT_TYPE_ACTIVITY ->
      upisnd_setup w name d s = (None, set_errno EINVAL s)).
Proof.
  repeat split.
  - intros pa qa pb qb Hpa Hqa Hpb Hqb.
    destruct (encoder_descriptor_fields pa qa pb qb Hpa Hqa Hpb Hqb)
      as (Ht & H1 & H2 & H3 & H4).
    unfold upisnd_setup. rewrite Ht, H1, H2, H3, H4. reflexivity.
  - intros p Hp. destruct (analog_input_descriptor_fields p Hp) as (Ht & H1).
    unfold upisnd_setup. rewrite Ht, H1. reflexivity.
  - intros p q Hp Hq. destruct (gpio_input_descriptor_fields p q Hp Hq) as (Ht & Hd & H1 & H2).
    unfold upisnd_setup. rewrite Ht, Hd, H1, H2. reflexivity.
  - intros p high Hp.
    destruct (gpio_output_descriptor_fields p high Hp) as (Ht & Hd & H1 & H2).
    unfold upisnd_setup. rewrite Ht, Hd, H1, H2. reflexivity.
  - intros p a Hp Ha. destruct (activity_descriptor_fields p a Hp Ha) as (Ht & H1 & H2).
    unfold upisnd_setup. rewrite Ht, H1, H2. reflexivity.
  - intros d Hd. unfold upisnd_setup. revert Hd. consts.
    set (t := upisnd_setup_get_element_type d). intros Hd.
    unfold UPISND_ELEMENT_TYPE_ENCODER, UPISND_ELEMENT_TYPE_ANALOG_INPUT,
      UPISND_ELEMENT_TYPE_GPIO, UPISND_ELEMENT_TYPE_ACTIVITY in *.
    destruct (Z.eqb_spec t 1); [lia|]. destruct (Z.eqb_spec t 2); [lia|].
    destruct (Z.eqb_spec t 3); [lia|]. destruct (Z.eqb_spec t 4); [lia|]. reflexivity.
Qed.

(** * Paths and their buffers *)

Lemma attr_file_length (attr : upisnd_element_attr_e) : 0 <= strlen (attr_file attr) <= 13.
Proof. destruct attr; vm_compute; split; discriminate. Qed.

Lemma validate_length (name : string) :
  0 <= upisnd_validate_element_name (Some name) ->
  upisnd_validate_element_name (Some name) = strlen name /\ 1 <= strlen name <= 63.
Proof.
  unfold upisnd_validate_element_name. destruct name as [|a name]; [lia|].
  unfold UPISND_MAX_ELEMENT_NAME_LENGTH. rewrite Z.geb_leb.
  destruct (Z.leb_spec 64 (strlen (String a name))); [lia|].
  destruct (strchr (String a name) "/"); [lia|].
  intros _. split; [reflexivity|]. unfold strlen in *. cbn [String.length] in *. lia.
Qed.

(** X5: under a root of at most 40 bytes (the default root has 18) nothing
    overflows a path buffer: the setup and unsetup nodes and, for every valid
    element name, every attribute file get their full path, root, then
    elements, then the name, then the file. *)
Theorem X5_paths_fit (base name : string) (attr : upisnd_element_attr_e) :
  strlen base <= 40 -> 0 <= upisnd_validate_element_name (Some name) ->
  upisnd_path UPISND_PATH_SETUP base = (strlen base + 6, base +:+ "/setup")
  /\ upisnd_path UPISND_PATH_UNSETUP base = (strlen base + 8, base +:+ "/unsetup")
  /\ snd (upisnd_element_path base name attr)
     = base +:+ "/elements/" +:+ name +:+ "/" +:+ attr_file attr
  /\ 0 < fst (upisnd_element_path base name attr) < UPISND_ELEMENT_MAX_PATH_LENGTH.
Proof.
  intros Hb Hv. destruct (validate_length name Hv) as [_ Hn].
  pose proof (strlen_nonneg base) as Hb0.
  pose proof (attr_file_length attr) as Ha.
  unfold upisnd_path, upisnd_element_path, UPISND_ELEMENT_MAX_PATH_LENGTH,
    UPISND_MAX_BASE_PATH_LENGTH, UPISND_MAX_ELEMENT_NAME_LENGTH.
  rewrite !strlen_app.
  change (strlen "/setup") with 6. change (strlen "/unsetup") with 8.
  change (strlen "/elements/") with 10. change (strlen "/") with 1.
  split; [|split].
  - destruct (Z.ltb_spec 0 (strlen base + 6)); [|lia].
    destruct (Z.ltb_spec (strlen base + 6) 64); [|lia]. reflexivity.
  - destruct (Z.ltb_spec 0 (strlen base + 8)); [|lia].
    destruct (Z.ltb_spec (strlen base + 8) 64); [|lia]. reflexivity.
  - set (n := strlen base + (10 + (strlen name + (1 + strlen (attr_file attr))))).
    destruct (Z.ltb_spec 0 n); [|lia].
    destruct (Z.ltb_spec n (64 + 64)); [|lia]. cbn [andb fst snd].
    split; [reflexivity|].
    destruct attr; lia.
Qed.

Lemma X5_paths_fit_witness :
  snd (upisnd_element_path UPISND_SYSFS_DEFAULT_BASE_PATH "enc" UPISND_ELEMENT_ATTR_VALUE)
  = "/sys/pisound-micro/elements/enc/value"%string.
Proof.
  assert (Hb : strlen UPISND_SYSFS_DEFAULT_BASE_PATH <= 40) by (vm_compute; discriminate).
  assert (Hv : 0 <= upisnd_validate_element_name (Some "enc"%string))
    by (vm_compute; discriminate).
  destruct (X5_paths_fit UPISND_SYSFS_DEFAULT_BASE_PATH "enc" UPISND_ELEMENT_ATTR_VALUE Hb Hv)
    as (_ & _ & H & _).
  rewrite H. reflexivity.
Defined.

(** X6: a root of 58 bytes or more leaves no room for the setup node in its
    64-byte buffer, so every setup of a valid name in a context on such a
    root fails with ENAMETOOLONG before any system call and changes nothing
    else; a root of 56 bytes or more leaves no room for the unsetup node, so
    a release by name returns -ENAMETOOLONG and makes no system call. *)
Theorem X6_long_root (w : world) (s : state) (c : ptr) (cx : ctx_t)
    (name request : string) :
  ctxs s !! c = Some cx ->
  0 <= upisnd_validate_element_name (Some name) ->
  (58 <= strlen (ctx_sysfs_base cx) ->
   upisnd_setup_do w (Some c) (Some name) request s = (None, set_errno ENAMETOOLONG s))
  /\ (56 <= strlen (ctx_sysfs_base cx) ->
      upisnd_unsetup_do w (ctx_sysfs_base cx) name s = (- ENAMETOOLONG, s)).
Proof.
  intros Hc Hv. split; intros Hb.
  - unfold upisnd_setup_do. destruct (Z.ltb_spec (upisnd_validate_element_name (Some name)) 0);
      [lia|]. rewrite Hc.
    unfold upisnd_path, UPISND_MAX_BASE_PATH_LENGTH. rewrite strlen_app.
    change (strlen "/setup") with 6.
    destruct (Z.ltb_spec (strlen (ctx_sysfs_base cx) + 6) 64); [lia|].
    rewrite andb_false_r. cbn. rewrite Z.opp_involutive. reflexivity.
  - unfold upisnd_unsetup_do, upisnd_open_fd.
    unfold upisnd_path, UPISND_MAX_BASE_PATH_LENGTH. rewrite strlen_app.
    change (strlen "/unsetup") with 8.
    destruct (Z.ltb_spec (strlen (ctx_sysfs_base cx) + 8) 64); [lia|].
    rewrite andb_false_r. cbn. reflexivity.
Qed.

(** * Base64 *)

Section Base64.

Lemma list_ind3 (P : list Z -> Prop) :
  P [] -> (forall a, P [a]) -> (forall a b, P [a; b]) ->
  (forall a b c rest, P rest -> P (a :: b :: c :: rest)) ->
  forall l, P l.
Proof.
  intros H0 H1 H2 H3.
  fix IH 1. intros [|a [|b [|c rest]]]; [exact H0 | apply H1 | apply H2 |].
  apply H3. apply IH.
Qed.

(** A check over all pairs of values below [n] and [m], by evaluation. *)
Lemma check_pairs (n m : Z) (f : Z -> Z -> bool) :
  forallb (fun a => forallb (f a) (below m)) (below n) = true ->
  forall a b, 0 <= a < n -> 0 <= b < m -> f a b = true.
Proof.
  intros H a b Ha Hb. rewrite forallb_forall in H.
  specialize (H a (below_spec _ _ Ha)). rewrite forallb_forall in H.
  apply H, below_spec, Hb.
Qed.

Lemma base64_char_inj (i j : Z) :
  0 <= i < 64 -> 0 <= j < 64 -> base64_char i = base64_char j -> i = j.
Proof.
  intros Hi Hj H.
  pose proof (check_pairs 64 64
                (fun i j => implb (Ascii.eqb (base64_char i) (base64_char j)) (i =? j))) as Hc.
  specialize (Hc ltac:(vm_compute; reflexivity) i j Hi Hj).
  cbv beta in Hc. rewrite H, Ascii.eqb_refl in Hc. cbn in Hc. apply Z.eqb_eq, Hc.
Qed.

Lemma base64_char_table (i : Z) : 0 <= i < 64 -> In (base64_char i) UPISND_BASE64_TABLE.
Proof.
  intros Hi.
  pose proof (check_pairs 64 1
                (fun i _ => existsb (Ascii.eqb (base64_char i)) UPISND_BASE64_TABLE)) as Hc.
  specialize (Hc ltac:(vm_compute; reflexivity) i 0 Hi ltac:(lia)).
  cbv beta in Hc. apply existsb_exists in Hc. destruct Hc as (c & Hin & Hc).
  apply Ascii.eqb_eq in Hc. subst c. exact Hin.
Qed.

Lemma base64_char_not_pad (i : Z) : 0 <= i < 64 -> base64_char i <> "="%char.
Proof.
  intros Hi H. pose proof (base64_char_table i Hi) as Hin. rewrite H in Hin.
  vm_compute in Hin. intuition discriminate.
Qed.

(** The table indices of a group: their range, and how the bytes of the
    group are found in them. *)
Lemma sextets_of_pair (a b : Z) :
  0 <= a < 256 -> 0 <= b < 256 ->
  let i0 := Z.shiftr a 2 in
  let i1 := Z.lor (Z.shiftl (Z.land a 3) 4) (Z.shiftr (Z.land b 240) 4) in
  let i2 := Z.lor (Z.shiftl (Z.land a 15) 2) (Z.shiftr b 6) in
  let i3 := Z.land b 63 in
  (0 <= i0 < 64 /\ 0 <= i1 < 64 /\ 0 <= i2 < 64 /\ 0 <= i3 < 64)
  /\ a = 4 * i0 + i1 / 16 /\ b / 16 = i1 mod 16
  /\ a mod 16 = i2 / 4 /\ b = 64 * (i2 mod 4) + i3.
Proof.
  intros Ha Hb.
  pose proof (check_pairs 256 256 (fun a b =>
            let i0 := Z.shiftr a 2 in
            let i1 := Z.lor (Z.shiftl (Z.land a 3) 4) (Z.shiftr (Z.land b 240) 4) in
            let i2 := Z.lor (Z.shiftl (Z.land a 15) 2) (Z.shiftr b 6) in
            let i3 := Z.land b 63 in
            (0 <=? i0) && (i0 <? 64) && (0 <=? i1) && (i1 <? 64) && (0 <=? i2) && (i2 <? 64)
            && (0 <=? i3) && (i3 <? 64)
            && (a =? 4 * i0 + i1 / 16) && (b / 16 =? i1 mod 16)
            && (a mod 16 =? i2 / 4) && (b =? 64 * (i2 mod 4) + i3))) as Hc.
  specialize (Hc ltac:(vm_compute; reflexivity) a b Ha Hb).
  cbv beta zeta in Hc. rewrite !andb_true_iff in Hc.
  rewrite !Z.eqb_eq, !Z.leb_le, !Z.ltb_lt in Hc. cbv zeta. lia.
Qed.

(** The two partial groups, where the byte that is missing counts as 0. *)
Lemma sextets_of_tail (a : Z) :
  Z.shiftl (Z.land a 3) 4 = Z.lor (Z.shiftl (Z.land a 3) 4) (Z.shiftr (Z.land 0 240) 4)
  /\ Z.shiftl (Z.land a 15) 2 = Z.lor (Z.shiftl (Z.land a 15) 2) (Z.shiftr 0 6).
Proof. cbn. rewrite !Z.lor_0_r. split; reflexivity. Qed.

End Base64.

Lemma strlen_of_list (l : list ascii) :
  strlen (string_of_list_ascii l) = Z.of_nat (List.length l).
Proof.
  unfold strlen. f_equal. induction l as [|c l IH]; [reflexivity|]. cbn. f_equal. exact IH.
Qed.

Lemma base64_chars_length (pad : bool) (data : list Z) :
  Z.of_nat (List.length (base64_chars pad data))
  = let n := Z.of_nat (List.length data) in
    if pad then 4 * ((n + 2) / 3) else (4 * n + 2) / 3.
Proof.
  induction data as [|a|a b|a b c rest IH] using list_ind3.
  - destruct pad; reflexivity.
  - destruct pad; reflexivity.
  - destruct pad; reflexivity.
  - cbn [base64_chars List.length]. cbv zeta in *.
    rewrite !Nat2Z.inj_succ, IH. destruct pad; Z.div_mod_to_equations; lia.
Qed.

Lemma bytes_cons (a : Z) (l : list Z) : bytes (a :: l) <-> 0 <= a < 256 /\ bytes l.
Proof. unfold bytes. rewrite Forall_cons. reflexivity. Qed.

Lemma base64_chars_alphabet (pad : bool) (data : list Z) (c : ascii) :
  bytes data -> In c (base64_chars pad data) ->
  In c UPISND_BASE64_TABLE \/ (pad = true /\ c = "="%char).
Proof.
  induction data as [|a|a b|a b d rest IH] using list_ind3; intros Hb Hin.
  - destruct Hin.
  - apply bytes_cons in Hb. destruct Hb as [Ha _].
    destruct (sextets_of_pair a 0 Ha ltac:(lia)) as [(H0 & H1 & _) _].
    cbn in H1. rewrite Z.lor_0_r in H1.
    cbn [base64_chars In] in Hin.
    destruct Hin as [<- | [<- | Hin]]; [left; apply base64_char_table; assumption ..|].
    destruct pad; [|destruct Hin]. cbn in Hin. right. intuition.
  - apply bytes_cons in Hb. destruct Hb as [Ha Hb]. apply bytes_cons in Hb.
    destruct Hb as [Hb _].
    destruct (sextets_of_pair a b Ha Hb) as [(H0 & H1 & _) _].
    destruct (sextets_of_pair b 0 Hb ltac:(lia)) as [(_ & _ & H2 & _) _].
    cbn in H2. rewrite Z.lor_0_r in H2.
    cbn [base64_chars In] in Hin.
    destruct Hin as [<- | [<- | [<- | Hin]]]; [left; apply base64_char_table; assumption ..|].
    destruct pad; [|destruct Hin]. cbn in Hin. right. intuition.
  - apply bytes_cons in Hb. destruct Hb as [Ha Hb]. apply bytes_cons in Hb.
    destruct Hb as [Hb Hd]. apply bytes_cons in Hd. destruct Hd as [Hd Hrest].
    destruct (sextets_of_pair a b Ha Hb) as [(H0 & H1 & _) _].
    destruct (sextets_of_pair b d Hb Hd) as [(_ & _ & H2 & H3) _].
    cbn [base64_chars In] in Hin.
    destruct Hin as [<- | [<- | [<- | [<- | Hin]]]];
      [left; apply base64_char_table; assumption ..|].
    apply IH; assumption.
Qed.

(** X7: [upisnd_base64_encode] refuses with -EINVAL, writing nothing, a
    buffer that cannot hold the text and its terminator; otherwise it returns
    the number of bytes it wrote, terminator included, which is one more than
    the length of the text: 4 characters per started group of 3 bytes when
    padding, the rounded-up 4/3 of the byte count when not.  Every character
    of the text is one of the 64 of the table (letters, digits, hyphen and
    underscore), or the padding sign at the end of a padded text. *)
Theorem X7_base64_shape (dst_length : Z) (data : list Z) (pad : bool) :
  bytes data ->
  let n := Z.of_nat (List.length data) in
  let need := if pad then 4 * ((n + 2) / 3) else (4 * n + 2) / 3 in
  (dst_length < need + 1 -> upisnd_base64_encode dst_length data pad = (- EINVAL, None))
  /\ (need + 1 <= dst_length ->
      exists text : string,
        upisnd_base64_encode dst_length data pad = (need + 1, Some text)
        /\ strlen text = need
        /\ forall c, In c (list_ascii_of_string text) ->
                     In c UPISND_BASE64_TABLE \/ (pad = true /\ c = "="%char)).
Proof.
  intros Hb n need. unfold upisnd_base64_encode. fold n.
  assert (Hlen : strlen (string_of_list_ascii (base64_chars pad data)) = need).
  { rewrite strlen_of_list, base64_chars_length. reflexivity. }
  split; intros Hd.
  - subst need. destruct pad.
    + destruct (Z.ltb_spec dst_length (4 * ((n + 2) / 3) + 1)); [reflexivity | lia].
    + destruct (Z.ltb_spec dst_length ((4 * n + 2) / 3 + 1)); [reflexivity | lia].
  - exists (string_of_list_ascii (base64_chars pad data)).
    split; [|split; [exact Hlen|]].
    + rewrite Hlen. subst need. destruct pad.
      * destruct (Z.ltb_spec dst_length (4 * ((n + 2) / 3) + 1)); [lia | reflexivity].
      * destruct (Z.ltb_spec dst_length ((4 * n + 2) / 3 + 1)); [lia | reflexivity].
    + intros c Hc. rewrite list_ascii_of_string_of_list_ascii in Hc.
      apply (base64_chars_alphabet pad data c Hb Hc).
Qed.

Lemma X7_base64_shape_witness :
  upisnd_base64_encode 5 [77; 97; 110] false = (5, Some "TWFu"%string)
  /\ upisnd_base64_encode 4 [77; 97; 110] false = (- EINVAL, None).
Proof.
  assert (Hb : bytes [77; 97; 110]).
  { repeat (apply Forall_cons; split; [lia|]). apply Forall_nil. exact I. }
  destruct (X7_base64_shape 5 [77; 97; 110] false Hb) as [_ H5].
  destruct (X7_base64_shape 4 [77; 97; 110] false Hb) as [H4 _].
  split.
  - destruct (H5 ltac:(vm_compute; discriminate)) as (text & H & _). reflexivity.
  - apply H4. vm_compute. reflexivity.
Defined.

(** Equal characters of the table come from equal indices. *)
Ltac same_index H :=
  apply base64_char_inj in H; [| lia | lia].

(** X8: [upisnd_base64_encode] is injective: two byte sequences that encode
    to the same text, both padded or both not, are the same sequence. *)
Theorem X8_base64_injective (pad : bool) (a b : list Z) (na nb ra rb : Z) (text : string) :
  bytes a -> bytes b ->
  upisnd_base64_encode na a pad = (ra, Some text) ->
  upisnd_base64_encode nb b pad = (rb, Some text) ->
  a = b.
Proof.
  intros Ha Hb Ea Eb.
  assert (E : base64_chars pad a = base64_chars pad b).
  { unfold upisnd_base64_encode in Ea, Eb.
    destruct (if pad then _ else _) in Ea; [discriminate|].
    destruct (if pad then _ else _) in Eb; [discriminate|].
    inversion Ea as [[Ra Ta]]. inversion Eb as [[Rb Tb]].
    rewrite <- Tb in Ta.
    rewrite <- (list_ascii_of_string_of_list_ascii (base64_chars pad a)),
            <- (list_ascii_of_string_of_list_ascii (base64_chars pad b)).
    f_equal. exact Ta. }
  clear Ea Eb. revert b Hb E.
  induction a as [|x|x y|x y z rest IH] using list_ind3; intros b Hb E.
  - destruct b as [|x' [|y' [|z' rest']]]; [reflexivity | discriminate E ..].
  - apply bytes_cons in Ha. destruct Ha as [Hx _].
    destruct (sextets_of_pair x 0 Hx ltac:(lia)) as [(X0 & X1 & _) (Xa & _)].
    cbn in X1, Xa. rewrite Z.lor_0_r in X1, Xa.
    destruct b as [|x' [|y' [|z' rest']]]; [discriminate E | | |].
    + apply bytes_cons in Hb. destruct Hb as [Hx' _].
      destruct (sextets_of_pair x' 0 Hx' ltac:(lia)) as [(X0' & X1' & _) (Xa' & _)].
      cbn in X1', Xa'. rewrite Z.lor_0_r in X1', Xa'.
      cbn [base64_chars] in E. inversion E as [[E0 E1]].
      same_index E0. same_index E1. f_equal. congruence.
    + apply bytes_cons in Hb. destruct Hb as [Hx' Hb]. apply bytes_cons in Hb.
      destruct Hb as [Hy' _].
      destruct (sextets_of_pair y' 0 Hy' ltac:(lia)) as [(_ & _ & Y2 & _) _].
      cbn in Y2. rewrite Z.lor_0_r in Y2.
      cbn [base64_chars] in E. destruct pad; inversion E as [[E0 E1 E2]].
      symmetry in E2. apply base64_char_not_pad in E2; [destruct E2 | exact Y2].
    + apply bytes_cons in Hb. destruct Hb as [Hx' Hb]. apply bytes_cons in Hb.
      destruct Hb as [Hy' Hb]. apply bytes_cons in Hb. destruct Hb as [Hz' _].
      destruct (sextets_of_pair y' z' Hy' Hz') as [(_ & _ & Y2 & _) _].
      cbn [base64_chars] in E. destruct pad; inversion E as [[E0 E1 E2]].
      symmetry in E2. apply base64_char_not_pad in E2; [destruct E2 | exact Y2].
  - apply bytes_cons in Ha. destruct Ha as [Hx Ha]. apply bytes_cons in Ha.
    destruct Ha as [Hy _].
    destruct (sextets_of_pair x y Hx Hy) as [(X0 & X1 & _) (Xa & Xb & _)].
    destruct (sextets_of_pair y 0 Hy ltac:(lia)) as [(_ & _ & Y2 & _) (_ & _ & Yc & _)].
    cbn in Y2, Yc. rewrite Z.lor_0_r in Y2, Yc.
    destruct b as [|x' [|y' [|z' rest']]]; [discriminate E | | |].
    + cbn [base64_chars] in E. destruct pad; inversion E as [[E0 E1 E2]].
      apply base64_char_not_pad in E2; [destruct E2 | exact Y2].
    + apply bytes_cons in Hb. destruct Hb as [Hx' Hb]. apply bytes_cons in Hb.
      destruct Hb as [Hy' _].
      destruct (sextets_of_pair x' y' Hx' Hy') as [(X0' & X1' & _) (Xa' & Xb' & _)].
      destruct (sextets_of_pair y' 0 Hy' ltac:(lia))
        as [(_ & _ & Y2' & _) (_ & _ & Yc' & _)].
      cbn in Y2', Yc'. rewrite Z.lor_0_r in Y2', Yc'.
      cbn [base64_chars] in E. inversion E as [[E0 E1 E2]].
      same_index E0. same_index E1. same_index E2.
      assert (x = x') by congruence.
      assert (y / 16 = y' / 16) by congruence.
      assert (y mod 16 = y' mod 16) by congruence.
      assert (y = y') by (Z.div_mod_to_equations; lia). congruence.
    + apply bytes_cons in Hb. destruct Hb as [Hx' Hb]. apply bytes_cons in Hb.
      destruct Hb as [Hy' Hb]. apply bytes_cons in Hb. destruct Hb as [Hz' _].
      destruct (sextets_of_pair y' z' Hy' Hz') as [(_ & _ & _ & Z3) _].
      cbn [base64_chars] in E. destruct pad; inversion E as [[E0 E1 E2 E3]].
      symmetry in E3. apply base64_char_not_pad in E3; [destruct E3 | exact Z3].
  - apply bytes_cons in Ha. destruct Ha as [Hx Ha]. apply bytes_cons in Ha.
    destruct Ha as [Hy Ha]. apply bytes_cons in Ha. destruct Ha as [Hz Hrest].
    destruct (sextets_of_pair x y Hx Hy) as [(X0 & X1 & _) (Xa & Xb & _)].
    destruct (sextets_of_pair y z Hy Hz) as [(_ & _ & Y2 & Y3) (_ & _ & Yc & Yd)].
    destruct b as [|x' [|y' [|z' rest']]]; [discriminate E | | |].
    + cbn [base64_chars] in E. destruct pad; inversion E as [[E0 E1 E2]].
      apply base64_char_not_pad in E2; [destruct E2 | exact Y2].
    + cbn [base64_chars] in E. destruct pad; inversion E as [[E0 E1 E2 E3]].
      apply base64_char_not_pad in E3; [destruct E3 | exact Y3].
    + apply bytes_cons in Hb. destruct Hb as [Hx' Hb]. apply bytes_cons in Hb.
      destruct Hb as [Hy' Hb]. apply bytes_cons in Hb. destruct Hb as [Hz' Hrest'].
      destruct (sextets_of_pair x' y' Hx' Hy') as [(X0' & X1' & _) (Xa' & Xb' & _)].
      destruct (sextets_of_pair y' z' Hy' Hz')
        as [(_ & _ & Y2' & Y3') (_ & _ & Yc' & Yd')].
      cbn [base64_chars] in E. inversion E as [[E0 E1 E2 E3 E4]].
      same_index E0. same_index E1. same_index E2. same_index E3.
      assert (x = x') by congruence.
      assert (y / 16 = y' / 16) by congruence.
      assert (y mod 16 = y' mod 16) by congruence.
      assert (y = y') by (Z.div_mod_to_equations; lia).
      assert (z = z') by congruence.
      subst x' y' z'. f_equal. f_equal. f_equal. apply IH; assumption.
Qed.

Lemma X8_base64_injective_witness :
  bytes [77; 97; 110]
  /\ upisnd_base64_encode 5 [77; 97; 110] true = (5, Some "TWFu"%string)
  /\ upisnd_base64_encode 9 [77; 97; 110] true = (5, Some "TWFu"%string)
  /\ [77; 97; 110] = [77; 97; 110].
Proof.
  assert (Ha : bytes [77; 97; 110]).
  { repeat (apply Forall_cons; split; [lia|]). apply Forall_nil. exact I. }
  split; [exact Ha|]. split; [reflexivity|]. split; [reflexivity|].
  apply (X8_base64_injective true [77; 97; 110] [77; 97; 110] 5 9 5 5 "TWFu"
           Ha Ha eq_refl eq_refl).
Defined.

(** * The generator *)

Section Xoshiro.

Lemma uint32_range (x : Z) : 0 <= x < 2 ^ 32 <-> uint32 x = x.
Proof.
  unfold uint32. split; intros H.
  - apply Z.mod_small, H.
  - rewrite <- H. apply Z.mod_pos_bound. lia.
Qed.

Lemma testbit_high (x i : Z) : uint32 x = x -> 32 <= i -> Z.testbit x i = false.
Proof.
  intros Hx Hi. rewrite <- Hx, testbit_uint32.
  destruct (Z.ltb_spec i 32); [lia | reflexivity].
Qed.

Lemma uint32_lxor (a b : Z) : uint32 a = a -> uint32 b = b -> uint32 (Z.lxor a b) = Z.lxor a b.
Proof.
  intros Ha Hb. apply Z.bits_inj'. intros i Hi.
  rewrite testbit_uint32, Z.lxor_spec.
  destruct (Z.ltb_spec i 32); [reflexivity|].
  rewrite (testbit_high a i Ha), (testbit_high b i Hb) by lia. reflexivity.
Qed.

Lemma uint32_idem (x : Z) : uint32 (uint32 x) = uint32 x.
Proof. unfold uint32. apply Z.mod_mod. lia. Qed.

Lemma testbit_rotl (x k i : Z) :
  uint32 x = x -> 0 < k < 32 -> 0 <= i ->
  Z.testbit (rotl x k) i
  = if i <? k then Z.testbit x (i + (32 - k))
    else if i <? 32 then Z.testbit x (i - k) else false.
Proof.
  intros Hx Hk Hi. unfold rotl.
  rewrite Z.lor_spec, testbit_uint32, Z.shiftl_spec, Z.shiftr_spec by lia.
  destruct (Z.ltb_spec i k).
  - rewrite (Z.testbit_neg_r x (i - k)) by lia. rewrite andb_false_r. reflexivity.
  - destruct (Z.ltb_spec i 32).
    + rewrite (testbit_high x (i + (32 - k)) Hx) by lia. rewrite orb_false_r. reflexivity.
    + rewrite (testbit_high x (i + (32 - k)) Hx) by lia. reflexivity.
Qed.

Lemma uint32_rotl (x k : Z) : uint32 x = x -> 0 < k < 32 -> uint32 (rotl x k) = rotl x k.
Proof.
  intros Hx Hk. apply Z.bits_inj'. intros i Hi.
  rewrite testbit_uint32, !testbit_rotl by assumption.
  destruct (Z.ltb_spec i 32), (Z.ltb_spec i k); try reflexivity. lia.
Qed.

Lemma rotl_inj (x y k : Z) :
  uint32 x = x -> uint32 y = y -> 0 < k < 32 -> rotl x k = rotl y k -> x = y.
Proof.
  intros Hx Hy Hk H. apply Z.bits_inj'. intros j Hj.
  destruct (Z.lt_ge_cases j 32) as [Hlt|Hge];
    [|rewrite (testbit_high x j Hx), (testbit_high y j Hy) by lia; reflexivity].
  destruct (Z.lt_ge_cases j (32 - k)) as [Hlo|Hhi].
  - assert (Hb : Z.testbit (rotl x k) (j + k) = Z.testbit (rotl y k) (j + k)) by (rewrite H; reflexivity).
    rewrite !testbit_rotl in Hb by (assumption || lia).
    destruct (Z.ltb_spec (j + k) k); [lia|].
    destruct (Z.ltb_spec (j + k) 32); [|lia].
    replace (j + k - k) with j in Hb by lia. exact Hb.
  - assert (Hb : Z.testbit (rotl x k) (j - (32 - k)) = Z.testbit (rotl y k) (j - (32 - k)))
      by (rewrite H; reflexivity).
    rewrite !testbit_rotl in Hb by (assumption || lia).
    destruct (Z.ltb_spec (j - (32 - k)) k); [|lia].
    replace (j - (32 - k) + (32 - k)) with j in Hb by lia. exact Hb.
Qed.

(** A word is determined by its exclusive or with its shift by 9. *)
Lemma lxor_shift_inj (x y : Z) :
  uint32 x = x -> uint32 y = y ->
  Z.lxor x (uint32 (Z.shiftl x 9)) = Z.lxor y (uint32 (Z.shiftl y 9)) -> x = y.
Proof.
  intros Hx Hy H. apply Z.bits_inj'. intros i Hi. revert i Hi.
  apply (Wf_Z.Zlt_0_ind (fun i => Z.testbit x i = Z.testbit y i)).
  intros i IH Hi.
  destruct (Z.lt_ge_cases i 32) as [Hlt|Hge];
    [|rewrite (testbit_high x i Hx), (testbit_high y i Hy) by lia; reflexivity].
  assert (Hb : Z.testbit (Z.lxor x (uint32 (Z.shiftl x 9))) i
               = Z.testbit (Z.lxor y (uint32 (Z.shiftl y 9))) i) by (rewrite H; reflexivity).
  rewrite !Z.lxor_spec, !testbit_uint32, !Z.shiftl_spec in Hb by lia.
  destruct (Z.ltb_spec i 32); [|lia]. cbn [andb] in Hb.
  destruct (Z.lt_ge_cases i 9) as [Hlo|Hhi].
  - rewrite !(Z.testbit_neg_r _ (i - 9)) in Hb by lia.
    rewrite !xorb_false_r in Hb. exact Hb.
  - rewrite (IH (i - 9)) in Hb by lia.
    apply (f_equal (fun b => xorb b (Z.testbit y (i - 9)))) in Hb.
    rewrite !xorb_assoc, !xorb_nilpotent, !xorb_false_r in Hb. exact Hb.
Qed.

Lemma lxor_cancel_r (a b c : Z) : Z.lxor a c = Z.lxor b c -> a = b.
Proof.
  intros H. apply (f_equal (fun z => Z.lxor z c)) in H.
  rewrite !Z.lxor_assoc, Z.lxor_nilpotent, !Z.lxor_0_r in H. exact H.
Qed.

Lemma seed_ok_uint32 (s : upisnd_xoshiro128_star_star_seed_t) :
  seed_ok s <-> uint32 (seed0 s) = seed0 s /\ uint32 (seed1 s) = seed1 s
                /\ uint32 (seed2 s) = seed2 s /\ uint32 (seed3 s) = seed3 s.
Proof. unfold seed_ok. rewrite !uint32_range. reflexivity. Qed.

Lemma xoshiro_next_inj (s s' : upisnd_xoshiro128_star_star_seed_t) :
  seed_ok s -> seed_ok s' ->
  snd (upisnd_xoshiro128_star_star_next s) = snd (upisnd_xoshiro128_star_star_next s') ->
  s = s'.
Proof.
  rewrite !seed_ok_uint32. intros (A0 & A1 & A2 & A3) (B0 & B1 & B2 & B3) H.
  destruct s as [a0 a1 a2 a3], s' as [b0 b1 b2 b3]. cbn in *.
  inversion H as [[H0 H1 H2 H3]]. clear H.
  apply rotl_inj in H3; [|apply uint32_lxor; assumption ..|lia].
  rewrite H3 in H0. apply lxor_cancel_r in H0. subst b0.
  assert (E1 : a1 = b1).
  { apply lxor_shift_inj; [assumption ..|].
    assert (Ha : Z.lxor (Z.lxor a1 (Z.lxor a2 a0)) (Z.lxor (Z.lxor a2 a0) (uint32 (Z.shiftl a1 9)))
                 = Z.lxor a1 (uint32 (Z.shiftl a1 9))).
    { rewrite Z.lxor_assoc, <- (Z.lxor_assoc (Z.lxor a2 a0)), Z.lxor_nilpotent, Z.lxor_0_l.
      reflexivity. }
    assert (Hb : Z.lxor (Z.lxor b1 (Z.lxor b2 a0)) (Z.lxor (Z.lxor b2 a0) (uint32 (Z.shiftl b1 9)))
                 = Z.lxor b1 (uint32 (Z.shiftl b1 9))).
    { rewrite Z.lxor_assoc, <- (Z.lxor_assoc (Z.lxor b2 a0)), Z.lxor_nilpotent, Z.lxor_0_l.
      reflexivity. }
    rewrite <- Ha, <- Hb, H1, H2. reflexivity. }
  subst b1. apply lxor_cancel_r in H3. subst b3.
  assert (E2 : a2 = b2).
  { apply (f_equal (Z.lxor a1)) in H1.
    rewrite <- !Z.lxor_assoc, Z.lxor_nilpotent, !Z.lxor_0_l in H1.
    apply lxor_cancel_r in H1. exact H1. }
  subst b2. reflexivity.
Qed.

End Xoshiro.

(** X9: one step of the generator keeps the four state words in 32 bits and
    gives a 32-bit result; the new state determines the old one, so no two
    states are stepped to the same state; the all-zero state is stepped to
    itself and a state that is not all zero is never stepped to it. *)
Theorem X9_xoshiro_step (s : upisnd_xoshiro128_star_star_seed_t) :
  seed_ok s ->
  let r := upisnd_xoshiro128_star_star_next s in
  seed_ok (snd r)
  /\ 0 <= fst r < 2 ^ 32
  /\ (forall s', seed_ok s' -> snd (upisnd_xoshiro128_star_star_next s') = snd r -> s' = s)
  /\ (snd r = seed_zero <-> s = seed_zero).
Proof.
  intros Hs r. subst r. split; [|split; [|split]].
  - apply seed_ok_uint32 in Hs. destruct Hs as (A0 & A1 & A2 & A3).
    apply seed_ok_uint32. cbn.
    repeat split; repeat (apply uint32_lxor || apply uint32_idem || apply uint32_rotl);
      try assumption; lia.
  - cbn. apply uint32_range, uint32_idem.
  - intros s' Hs' H. apply xoshiro_next_inj; assumption.
  - split.
    + intros H. apply xoshiro_next_inj; [assumption | |rewrite H; reflexivity].
      unfold seed_ok, seed_zero. cbn. lia.
    + intros ->. reflexivity.
Qed.

Lemma X9_xoshiro_step_witness :
  seed_ok (mk_seed 1 2 3 4)
  /\ upisnd_xoshiro128_star_star_next (mk_seed 1 2 3 4) = (5760, mk_seed 7 0 1026 12288)
  /\ seed_ok (mk_seed 7 0 1026 12288).
Proof.
  assert (Hs : seed_ok (mk_seed 1 2 3 4)) by (unfold seed_ok; cbn; lia).
  split; [exact Hs|]. split; [reflexivity|].
  destruct (X9_xoshiro_step (mk_seed 1 2 3 4) Hs) as (H & _). exact H.
Defined.

(** * References in balance *)

Lemma state_eta (s : state) :
  mk_state (ctxs s) (nodes s) (upisnd_active_ctx s) (errno s) (now_ms s) (trace s) (fault s) = s.
Proof. destruct s. reflexivity. Qed.

Lemma ctx_eta (cx : ctx_t) :
  mk_ctx (ctx_refcount cx) (ctx_sysfs_base cx) (ctx_elements cx) = cx.
Proof. destruct cx. reflexivity. Qed.

Lemma add_ref_unref (w : world) (s : state) (h : ptr) (nd : node) :
  nodes s !! h = Some nd -> 1 <= el_refcount nd < INT_MAX ->
  upisnd_element_unref w (Some (Some h)) (snd (upisnd_element_add_ref (Some h) s))
  = (Some None, s).
Proof.
  intros Hh Hrc. unfold upisnd_element_add_ref. rewrite Hh. cbn [snd].
  assert (Hinc : int32 (el_refcount nd + 1) = el_refcount nd + 1).
  { apply int32_small. unfold INT_MAX in Hrc. lia. }
  rewrite (element_unref_keeps w _ h
             (mk_node (int32 (el_refcount nd + 1)) (el_name nd) (el_ctx nd))).
  - cbn [el_refcount el_name el_ctx]. f_equal.
    rewrite int32_inc_dec by (unfold INT_MAX in Hrc; lia).
    unfold set_nodes. cbn. rewrite insert_insert_eq, node_eta, (insert_id _ _ _ Hh).
    apply state_eta.
  - cbn. apply lookup_insert_eq.
  - cbn [el_refcount]. rewrite int32_inc_dec by (unfold INT_MAX in Hrc; lia). lia.
Qed.

(** X10: taking a reference and giving it back changes nothing.  On a
    handle registered under a valid name, [upisnd_element_add_ref] followed
    by [upisnd_element_unref] leaves the state as it was, and
    [upisnd_element_get] of the name followed by [upisnd_element_unref]
    leaves it as it was but for errno, which the lookup set to 0; neither
    makes a system call. *)
Theorem X10_ref_unref_balanced (w : world) (s : state) (c : ptr) (cx : ctx_t)
    (name : string) (h : ptr) (nd : node) :
  wf s -> upisnd_active_ctx s = Some c -> ctxs s !! c = Some cx ->
  registered s c name h -> nodes s !! h = Some nd -> el_refcount nd < INT_MAX ->
  0 <= upisnd_validate_element_name (Some name) ->
  let a := upisnd_element_add_ref (Some h) s in
  let g := upisnd_element_get (Some name) s in
  fst a = Some h
  /\ upisnd_element_unref w (Some (fst a)) (snd a) = (Some None, s)
  /\ fst g = Some h
  /\ upisnd_element_unref w (Some (fst g)) (snd g) = (Some None, set_errno 0 s).
Proof.
  intros Hwf Hact Hc Hreg Hh Hmax Hval a g.
  destruct (registered_live _ _ _ _ Hwf Hreg)
    as (cx' & nd' & Hc' & Hin & Hh' & Hname & Hctx & Hrc).
  assert (cx' = cx) by congruence. assert (nd' = nd) by congruence. subst cx' nd'.
  assert (Ha : fst a = Some h) by (subst a; unfold upisnd_element_add_ref; rewrite Hh; reflexivity).
  split; [exact Ha|]. split.
  - rewrite Ha. subst a. apply (add_ref_unref w s h nd Hh). lia.
  - assert (Hg : g = (Some h, set_errno 0 (snd (upisnd_element_add_ref (Some h) s)))).
    { subst g. rewrite (element_get_registered s c name h nd cx) by assumption.
      unfold upisnd_element_add_ref. rewrite Hh. reflexivity. }
    rewrite Hg. cbn [fst snd]. split; [reflexivity|].
    unfold upisnd_element_add_ref. rewrite Hh. cbn [snd].
    assert (Hinc : int32 (el_refcount nd + 1) = el_refcount nd + 1).
    { apply int32_small. unfold INT_MAX in Hmax. lia. }
    rewrite (element_unref_keeps w _ h
               (mk_node (int32 (el_refcount nd + 1)) (el_name nd) (el_ctx nd))).
    + cbn [el_refcount el_name el_ctx]. f_equal.
      rewrite int32_inc_dec by (unfold INT_MAX in Hmax; lia).
      unfold set_nodes, set_errno. cbn.
      rewrite insert_insert_eq, node_eta, (insert_id _ _ _ Hh). reflexivity.
    + cbn. apply lookup_insert_eq.
    + cbn [el_refcount]. rewrite int32_inc_dec by (unfold INT_MAX in Hmax; lia). lia.
Qed.

(** X11: a first setup of a name followed by the release of the handle it
    returned leaves the heap and the registries as they were before the
    setup; when the unsetup node can be reached, the pair makes exactly two
    writes, the request to the setup node and then the name to the unsetup
    node. *)
Theorem X11_setup_unref_cancel (w1 w2 : world) (s : state) (c : ptr) (cx : ctx_t)
    (name request : string) (p : ptr) :
  wf s -> upisnd_active_ctx s = Some c -> ctxs s !! c = Some cx ->
  0 <= upisnd_validate_element_name (Some name) ->
  (forall h, ~ registered s c name h) ->
  w_malloc w1 = Some p -> nodes s !! p = None ->
  setup_goes_through w1 (ctx_sysfs_base cx) name request ->
  let r1 := upisnd_setup_do w1 (Some c) (Some name) request s in
  let r2 := upisnd_element_unref w2 (Some (fst r1)) (snd r1) in
  fst r1 = Some p /\ registered (snd r1) c name p
  /\ fst r2 = Some None
  /\ nodes (snd r2) = nodes s /\ ctxs (snd r2) = ctxs s
  /\ upisnd_active_ctx (snd r2) = upisnd_active_ctx s /\ fault (snd r2) = false
  /\ (release_reaches_driver w2 (ctx_sysfs_base cx) ->
      writes (trace (snd r2))
      = writes (trace s) ++ [(setup_node (ctx_sysfs_base cx), name +:+ " " +:+ request);
                             (unsetup_node (ctx_sysfs_base cx), name)]).
Proof.
  intros Hwf Hact Hc Hval Habs Hm Hfresh Hgo r1 r2.
  destruct (setup_do_fresh_ok w1 s c cx name request p Hwf Hact Hc Hval Habs Hm Hgo)
    as (s1 & Heq1 & Hn1 & Hc1 & Hf1 & Ha1 & Hw1).
  subst r2 r1. rewrite Heq1. cbn [fst snd].
  set (cx1 := mk_ctx (ctx_refcount cx) (ctx_sysfs_base cx) (p :: ctx_elements cx)) in *.
  assert (Hp1 : nodes s1 !! p = Some (mk_node 1 name c))
    by (rewrite Hn1; apply lookup_insert_eq).
  assert (Hcx1 : ctxs s1 !! c = Some cx1) by (rewrite Hc1; apply lookup_insert_eq).
  destruct (element_unref_last w2 s1 p (mk_node 1 name c) cx1 Hp1 eq_refl Hcx1)
    as (s2 & l' & Heq2 & Hul & Hn2 & Hc2 & Hf2 & Ha2 & _ & Hreach).
  { cbn. left. }
  rewrite Heq2. cbn [fst snd].
  split; [reflexivity|]. split.
  { exists cx1, (mk_node 1 name c). repeat split; [exact Hcx1 | cbn; left | exact Hp1]. }
  split; [reflexivity|].
  cbn [unlink ctx_elements cx1] in Hul. rewrite Pos.eqb_refl in Hul. inversion Hul; subst l'.
  split; [|split; [|split; [|split]]].
  - rewrite Hn2, Hn1. apply delete_insert_id, Hfresh.
  - rewrite Hc2, Hc1. cbn [el_ctx ctx_refcount ctx_sysfs_base cx1].
    rewrite insert_insert_eq, ctx_eta. apply insert_id, Hc.
  - congruence.
  - destruct Hwf as [Hf _]. congruence.
  - intros Hrel. destruct (Hreach Hrel) as [Hw2 _].
    rewrite Hw2, Hw1, <- app_assoc. reflexivity.
Qed.

(** * Release by name *)

Lemma unsetup_do_result (w : world) (base name : string) (s : state) :
  strlen (unsetup_node base) < UPISND_MAX_BASE_PATH_LENGTH ->
  let r := upisnd_unsetup_do w base name s in
  (txn_ok (w_unsetup w) -> fst r = 0 /\ errno (snd r) = 0)
  /\ (forall e, txn_fails_with (w_unsetup w) e -> fst r = - Z.pos e /\ errno (snd r) = Z.pos e).
Proof.
  intros Hfit r. subst r. unfold upisnd_unsetup_do, upisnd_open_fd.
  rewrite (upisnd_path_unsetup base Hfit). cbn [snd].
  pose proof (strlen_nonneg (unsetup_node base)) as Hn.
  destruct (Z.ltb_spec (strlen (unsetup_node base)) 0); [lia|].
  destruct (t_open (w_unsetup w)) as [fd|e0] eqn:Hop.
  - destruct (Z.ltb_spec (Z.of_N fd) 0); [lia|].
    match goal with |- context [write_sync_close ?t ?p ?d ?st] =>
      destruct (write_sync_close_spec t p d st)
        as (err & s' & Heq & _ & _ & _ & Hok & Hcl & Hwr & Hsy)
    end.
    rewrite Heq. cbn [fst snd]. split.
    + intros (_ & Hw & Hs & Hc). destruct (Hok Hw Hs Hc) as [-> _]. split; reflexivity.
    + intros e He. destruct He as [He | _ He | _ Hc He | _ Hc Hw He].
      * congruence.
      * destruct (Hcl e He) as [-> _]. split; reflexivity.
      * destruct (Hwr e Hc He) as [-> _]. split; reflexivity.
      * destruct (Hsy e Hc Hw He) as [-> _]. split; reflexivity.
  - destruct (Z.ltb_spec (- Z.pos e0) 0); [|lia]. cbn [fst snd]. split.
    + intros (Ho & _). rewrite Hop in Ho. destruct Ho.
    + intros e He. destruct He as [He | Ho _ | Ho _ _ | Ho _ _ _];
        try (rewrite Hop in Ho; destruct Ho).
      rewrite Hop in He. inversion He; subst. split; reflexivity.
Qed.

(** X12: [upisnd_unsetup] without an active context fails with EINVAL and
    makes no system call.  With one, it writes the text it is given, which
    it does not validate, to the unsetup node, returns 0 when every call
    succeeded and minus the error otherwise, and leaves the heap and the
    registries untouched: a handle held on the name stays registered with
    the count it had. *)
Theorem X12_unsetup_by_name (w : world) (s : state) (name : string) :
  (upisnd_active_ctx s = None -> upisnd_unsetup w name s = (-1, set_errno EINVAL s))
  /\ (forall c cx,
      upisnd_active_ctx s = Some c -> ctxs s !! c = Some cx ->
      let r := upisnd_unsetup w name s in
      let dev := unsetup_node (ctx_sysfs_base cx) in
      same_store s (snd r)
      /\ (forall n h, registered (snd r) c n h <-> registered s c n h)
      /\ (forall h, refcount_of (snd r) h = refcount_of s h)
      /\ (strlen dev < UPISND_MAX_BASE_PATH_LENGTH ->
          (txn_ok (w_unsetup w) ->
           fst r = 0 /\ errno (snd r) = 0
           /\ writes (trace (snd r)) = writes (trace s) ++ [(dev, name)])
          /\ (forall e, txn_fails_with (w_unsetup w) e ->
                        fst r = - Z.pos e /\ errno (snd r) = Z.pos e))).
Proof.
  split.
  - intros Hact. unfold upisnd_unsetup. rewrite Hact. reflexivity.
  - intros c cx Hact Hc r dev. subst r dev. unfold upisnd_unsetup. rewrite Hact, Hc.
    destruct (unsetup_do_spec w (ctx_sysfs_base cx) name s)
      as (r & s' & Heq & Hsame & Hreach & _).
    pose proof (unsetup_do_result w (ctx_sysfs_base cx) name s) as Hres.
    rewrite Heq in *. cbn [fst snd] in *.
    destruct Hsame as (Hcs & Hns & Ha & Hf & Ht).
    split; [repeat split; assumption|]. split; [|split].
    + intros n h. unfold registered. rewrite Hcs, Hns. reflexivity.
    + intros h. unfold refcount_of. rewrite Hns. reflexivity.
    + intros Hfit. destruct (Hres Hfit) as [Hok Hfail]. split; [|exact Hfail].
      intros Htx. destruct (Hok Htx) as [H1 H2]. split; [exact H1|]. split; [exact H2|].
      destruct Htx as (Ho & _). apply (Hreach Hfit Ho).
Qed.

(** * The registry invariant is kept *)

Lemma wf_set_errno (e : Z) (s : state) : wf s -> wf (set_errno e s).
Proof. intros H. apply (wf_frame s); [exact H | reflexivity ..]. Qed.

Lemma wf_setup_do_any (w : world) (s : state) (name : option string) (request : string) :
  wf s -> counts_bounded s ->
  (forall p, w_malloc w = Some p -> nodes s !! p = None) ->
  wf (snd (upisnd_setup_do w (upisnd_active_ctx s) name request s)).
Proof.
  intros Hwf Hcb Hfresh. destruct (upisnd_active_ctx s) as [c|] eqn:Hact.
  - apply wf_setup_do; assumption.
  - cbn. apply wf_set_errno, Hwf.
Qed.

(** X13: the registry invariant is kept by every public operation on
    elements.  From a state with no dangling pointer, where each registry
    links live nodes of its own context under pairwise different names with
    counts between 1 and INT_MAX, a lookup, the release of a registered
    handle, a setup (by typed request or by descriptor) and a release by
    name all end in such a state, as long as no count is at INT_MAX and
    malloc hands out a block that is not in use. *)
Theorem X13_registry_invariant (w : world) (s : state) :
  wf s -> counts_bounded s ->
  (forall name, wf (snd (upisnd_element_get name s)))
  /\ (forall h nd cx,
      nodes s !! h = Some nd -> ctxs s !! el_ctx nd = Some cx -> h ∈ ctx_elements cx ->
      wf (snd (upisnd_element_unref w (Some (Some h)) s)))
  /\ ((forall p, w_malloc w = Some p -> nodes s !! p = None) ->
      (forall name request,
          wf (snd (upisnd_setup_do w (upisnd_active_ctx s) name request s)))
      /\ (forall name setup, wf (snd (upisnd_setup w name setup s))))
  /\ (forall name, wf (snd (upisnd_unsetup w name s))).
Proof.
  intros Hwf Hcb. split; [|split; [|split]].
  - intros name. apply wf_element_get; assumption.
  - intros h nd cx Hh Hc Hin. apply (wf_element_unref w s h nd cx); assumption.
  - intros Hfresh. split.
    + intros name request. apply wf_setup_do_any; assumption.
    + intros name setup. unfold upisnd_setup, upisnd_setup_encoder, upisnd_setup_analog_input,
        upisnd_setup_gpio_input, upisnd_setup_gpio_output, upisnd_setup_activity.
      repeat match goal with
             | |- context [if ?b then _ else _] => destruct b
             end;
        first [apply wf_setup_do_any; assumption | apply wf_set_errno, Hwf].
  - intros name. unfold upisnd_unsetup.
    destruct (upisnd_active_ctx s) as [c|] eqn:Hact; [|apply wf_set_errno, Hwf].
    destruct (proj1 (proj2 Hwf) c Hact) as [cx Hc]. rewrite Hc.
    destruct (unsetup_do_spec w (ctx_sysfs_base cx) name s)
      as (r & s' & Heq & (Hcs' & Hns & Ha' & Hf' & _) & _).
    rewrite Heq. cbn [snd]. apply (wf_frame s); assumption.
Qed.

Lemma X13_registry_invariant_witness :
  wf state_one /\ counts_bounded state_one
  /\ wf (snd (upisnd_element_get (Some "enc"%string) state_one)).
Proof.
  assert (Hcb : counts_bounded state_one).
  { intros h nd H. unfold state_one in H. cbn [nodes] in H.
    apply lookup_singleton_Some in H. destruct H as [_ <-]. vm_compute. reflexivity. }
  split; [exact wf_state_one|]. split; [exact Hcb|].
  destruct (X13_registry_invariant world_good state_one wf_state_one Hcb) as [H _].
  apply H.
Defined.

(** * Contexts *)

Lemma ctx_alloc_fails (io : ctx_io) (base : option string) (l l' : lib) :
  upisnd_ctx_alloc io base l = (None, l') -> same_contexts l l'.
Proof.
  unfold upisnd_ctx_alloc. destruct (c_open io).
  - destruct (c_read io) as [data|e].
    + destruct (_ <? 0); [|destruct (c_malloc io); [discriminate|]];
        intros H; inversion H; subst l'; destruct (c_close io);
        repeat split; reflexivity.
    + destruct (_ <? 0); [|destruct (c_malloc io); [discriminate|]];
        intros H; inversion H; subst l'; destruct (c_close io);
        repeat split; reflexivity.
  - intros H. inversion H. repeat split; reflexivity.
Qed.

(** X14: [upisnd_init_internal] refuses a root longer than 64 bytes with
    ENAMETOOLONG and a root that does not start with a slash, the empty root
    included, with EINVAL, before any system call; and whenever it returns
    NULL, for these or any other reason, the contexts, their list and seeds,
    the active context and the nodes are as they were. *)
Theorem X14_init_failure (io : ctx_io) (sysfs_base : option string) (l : lib) :
  (forall b, sysfs_base = Some b -> UPISND_MAX_BASE_PATH_LENGTH < strlen b ->
             upisnd_init_internal io sysfs_base l
             = (None, with_st (set_errno ENAMETOOLONG (st l)) l))
  /\ (forall b, sysfs_base = Some b -> strlen b <= UPISND_MAX_BASE_PATH_LENGTH ->
                (forall rest, b <> String "/" rest) ->
                upisnd_init_internal io sysfs_base l
                = (None, with_st (set_errno EINVAL (st l)) l))
  /\ (fst (upisnd_init_internal io sysfs_base l) = None ->
      same_contexts l (snd (upisnd_init_internal io sysfs_base l))).
Proof.
  split; [|split].
  - intros b -> Hb. unfold upisnd_init_internal, init_root.
    destruct (Z.gtb_spec (strlen b) UPISND_MAX_BASE_PATH_LENGTH); [reflexivity | lia].
  - intros b -> Hb Hne. unfold upisnd_init_internal, init_root.
    destruct (Z.gtb_spec (strlen b) UPISND_MAX_BASE_PATH_LENGTH); [lia|].
    destruct b as [|c rest]; [reflexivity|].
    destruct (Ascii.eqb_spec c "/"); [|reflexivity]. subst c. destruct (Hne rest eq_refl).
  - unfold upisnd_init_internal. destruct (init_root sysfs_base) as [e|base].
    { intros _. repeat split; reflexivity. }
    destruct (match upisnd_active_ctx (st l) with Some c => _ | None => _ end) as [ch|].
    2: { intros _. repeat split; reflexivity. }
    destruct (find_ctx _ _ _) as [[c|]|].
    + destruct (ctxs (st l) !! c); [discriminate|]. intros _. repeat split; reflexivity.
    + destruct (upisnd_ctx_alloc io (Some base) l) as [[p|] l1] eqn:Ha; [discriminate|].
      intros _. cbn [snd]. apply (ctx_alloc_fails io (Some base) l l1 Ha).
    + intros _. repeat split; reflexivity.
Qed.

Lemma init_root_accepted (sysfs_base : option string) :
  root_accepted sysfs_base -> init_root sysfs_base = inr (root_of sysfs_base).
Proof.
  destruct sysfs_base as [b|]; [|reflexivity]. intros [Hlen [rest ->]].
  unfold init_root, root_of. cbn [default].
  destruct (Z.gtb_spec (strlen (String "/" rest)) UPISND_MAX_BASE_PATH_LENGTH); [lia|].
  reflexivity.
Qed.

Lemma chain_from_elem (c : ptr) (l : list ptr) :
  c ∈ l -> exists ch, chain_from c l = Some (c :: ch).
Proof.
  induction l as [|p l IH]; intros Hin; [inversion Hin|].
  cbn. destruct (Pos.eqb_spec p c) as [->|Hne]; [eauto|].
  apply IH. apply elem_of_cons in Hin. destruct Hin; congruence.
Qed.

Lemma lib_eta (l : lib) : mk_lib (st l) (upisnd_ctx_list l) (seeds l) = l.
Proof. destruct l. reflexivity. Qed.

(** An init on the root of the active context. *)
Lemma init_again_spec (io : ctx_io) (sysfs_base : option string) (l : lib)
    (c : ptr) (cx : ctx_t) :
  root_accepted sysfs_base ->
  upisnd_active_ctx (st l) = Some c -> c ∈ upisnd_ctx_list l ->
  ctxs (st l) !! c = Some cx -> ctx_sysfs_base cx = root_of sysfs_base ->
  upisnd_init_internal io sysfs_base l
  = (Some c,
     with_st (set_ctxs (<[c := mk_ctx (int32 (ctx_refcount cx + 1)) (ctx_sysfs_base cx)
                                      (ctx_elements cx)]> (ctxs (st l))) (st l)) l).
Proof.
  intros Hroot Hact Hin Hc Hbase. unfold upisnd_init_internal.
  rewrite (init_root_accepted _ Hroot), Hact.
  destruct (chain_from_elem c _ Hin) as [ch ->].
  cbn [find_ctx]. rewrite Hc, <- Hbase, String.eqb_refl, Hc.
  f_equal. unfold with_st, upisnd_set_active_ctx, set_ctxs. cbn. rewrite Hact. reflexivity.
Qed.

(** X15: [upisnd_init_internal] on the root of the active context returns
    that context and counts one more reference on it; it makes no system
    call and changes nothing else, errno included. *)
Theorem X15_init_again (io : ctx_io) (sysfs_base : option string) (l : lib)
    (c : ptr) (cx : ctx_t) :
  root_accepted sysfs_base ->
  upisnd_active_ctx (st l) = Some c -> c ∈ upisnd_ctx_list l ->
  ctxs (st l) !! c = Some cx -> ctx_sysfs_base cx = root_of sysfs_base ->
  upisnd_init_internal io sysfs_base l
  = (Some c,
     with_st (set_ctxs (<[c := mk_ctx (int32 (ctx_refcount cx + 1)) (ctx_sysfs_base cx)
                                      (ctx_elements cx)]> (ctxs (st l))) (st l)) l).
Proof. apply init_again_spec. Qed.

Lemma X15_init_again_witness :
  let l := mk_lib state_one [1%positive] ∅ in
  fst (upisnd_init_internal (mk_ctx_io (OpenErr 2) (ReadErr 5) SysOk seed_zero None) None l)
  = Some 1%positive.
Proof.
  cbv zeta.
  rewrite (X15_init_again (mk_ctx_io (OpenErr 2) (ReadErr 5) SysOk seed_zero None) None
             (mk_lib state_one [1%positive] ∅) 1%positive ctx_one I eq_refl).
  - reflexivity.
  - cbn. left.
  - reflexivity.
  - reflexivity.
Defined.

Lemma firstn_string_bytes (data : string) :
  16 <= strlen data -> List.length (firstn 16 (string_bytes data)) = 16%nat.
Proof.
  intros H. rewrite length_firstn. unfold string_bytes. rewrite length_map.
  assert (Hl : List.length (list_ascii_of_string data) = String.length data).
  { clear. induction data as [|a d IH]; [reflexivity|]. cbn. f_equal. exact IH. }
  rewrite Hl. unfold strlen in H. lia.
Qed.

(** An init that makes a context. *)
Lemma init_fresh_spec (io : ctx_io) (sysfs_base : option string) (l : lib)
    (p : ptr) (data : string) :
  root_accepted sysfs_base ->
  upisnd_active_ctx (st l) = None ->
  ctx_io_ok io p data ->
  let r := upisnd_init_internal io sysfs_base l in
  fst r = Some p
  /\ ctxs (st (snd r)) = <[p := mk_ctx 1 (root_of sysfs_base) []]> (ctxs (st l))
  /\ upisnd_ctx_list (snd r) = p :: upisnd_ctx_list l
  /\ upisnd_active_ctx (st (snd r)) = Some p
  /\ seeds (snd r) = <[p := bytes_seed (firstn 16 (string_bytes data))]> (seeds l)
  /\ nodes (st (snd r)) = nodes (st l)
  /\ fault (st (snd r)) = fault (st l)
  /\ trace (st (snd r))
     = trace (st l) ++ [EvOpen URANDOM (Z.lor O_CLOEXEC O_RDONLY); EvRead URANDOM 16;
                        EvClose URANDOM].
Proof.
  intros Hroot Hact (Hop & Hrd & Hlen & Hm) r. subst r.
  unfold upisnd_init_internal. rewrite (init_root_accepted _ Hroot), Hact.
  cbn [find_ctx]. unfold upisnd_ctx_alloc.
  destruct (c_open io) as [fd|e]; [|destruct Hop]. rewrite Hrd.
  rewrite (firstn_string_bytes data Hlen). change (Z.of_nat 16) with 16.
  change (16 =? 16) with true. cbv iota. change (16 <? 0) with false. cbv iota. rewrite Hm.
  cbn [fst snd st upisnd_contexts_prepend upisnd_set_active_ctx with_st upisnd_ctx_list seeds].
  assert (Hsk : skipn 16 (seed_bytes (c_stack io)) = []) by reflexivity.
  rewrite Hsk, app_nil_r.
  destruct (c_close io); cbn; rewrite <- ?app_assoc; repeat split; reflexivity.
Qed.

(** X16: when no context is active and the random device and malloc
    answer, [upisnd_init_internal] makes a context on the root asked for,
    with one reference and no element, seeded with the first 16 bytes read,
    puts it at the head of the list and makes it active; the system calls it
    makes are the open, one read of 16 bytes and the close of the random
    device. *)
Theorem X16_init_fresh (io : ctx_io) (sysfs_base : option string) (l : lib)
    (p : ptr) (data : string) :
  root_accepted sysfs_base ->
  upisnd_active_ctx (st l) = None ->
  ctx_io_ok io p data ->
  let r := upisnd_init_internal io sysfs_base l in
  fst r = Some p
  /\ ctxs (st (snd r)) = <[p := mk_ctx 1 (root_of sysfs_base) []]> (ctxs (st l))
  /\ upisnd_ctx_list (snd r) = p :: upisnd_ctx_list l
  /\ upisnd_active_ctx (st (snd r)) = Some p
  /\ seeds (snd r) = <[p := bytes_seed (firstn 16 (string_bytes data))]> (seeds l)
  /\ nodes (st (snd r)) = nodes (st l)
  /\ fault (st (snd r)) = fault (st l)
  /\ trace (st (snd r))
     = trace (st l) ++ [EvOpen URANDOM (Z.lor O_CLOEXEC O_RDONLY); EvRead URANDOM 16;
                        EvClose URANDOM].
Proof. apply init_fresh_spec. Qed.

Lemma X16_init_fresh_witness :
  fst (upisnd_init (mk_ctx_io (Opened 3) (ReadOk "0123456789abcdef") SysOk seed_zero
                              (Some 1%positive)) lib_initial) = 0.
Proof.
  assert (Hio : ctx_io_ok (mk_ctx_io (Opened 3) (ReadOk "0123456789abcdef") SysOk seed_zero
                                     (Some 1%positive)) 1%positive "0123456789abcdef").
  { repeat split. vm_compute. discriminate. }
  destruct (X16_init_fresh _ None lib_initial 1%positive "0123456789abcdef" I eq_refl Hio)
    as [H _].
  unfold upisnd_init.
  destruct (upisnd_init_internal _ None lib_initial) as [[q|] l']; [reflexivity|].
  discriminate H.
Defined.

(** * Leaving a context *)

Lemma sys_frame (r : sys_res) (s : state) :
  ctxs (sys r s) = ctxs s /\ nodes (sys r s) = nodes s
  /\ upisnd_active_ctx (sys r s) = upisnd_active_ctx s
  /\ fault (sys r s) = fault s /\ trace (sys r s) = trace s.
Proof. destruct r; repeat split; reflexivity. Qed.

Ltac sys_simpl :=
  repeat match goal with
  | |- context [ctxs (sys ?r ?s)] => rewrite (proj1 (sys_frame r s))
  | |- context [nodes (sys ?r ?s)] => rewrite (proj1 (proj2 (sys_frame r s)))
  | |- context [upisnd_active_ctx (sys ?r ?s)] =>
      rewrite (proj1 (proj2 (proj2 (sys_frame r s))))
  | |- context [fault (sys ?r ?s)] =>
      rewrite (proj1 (proj2 (proj2 (proj2 (sys_frame r s)))))
  | |- context [trace (sys ?r ?s)] =>
      rewrite (proj2 (proj2 (proj2 (proj2 (sys_frame r s)))))
  end.

(** The loop of [upisnd_unsetup_all_elements] over live, pairwise
    different nodes: every name is written, every node is freed. *)
Lemma release_all_spec (io : release_io) (path : string) (els : list ptr) :
  forall (i : nat) (s : state),
    Forall (fun h => is_Some (nodes s !! h)) els -> NoDup els ->
    let s' := release_all io path i els s in
    fault s' = fault s /\ ctxs s' = ctxs s
    /\ upisnd_active_ctx s' = upisnd_active_ctx s
    /\ (forall h, h ∈ els -> nodes s' !! h = None)
    /\ (forall h, h ∉ els -> nodes s' !! h = nodes s !! h)
    /\ writes (trace s') = writes (trace s) ++ map (pair path) (names_of s els)
    /\ opens (trace s') = opens (trace s).
Proof.
  induction els as [|n rest IH]; intros i s Hlive Hnd; cbn zeta.
  - cbn. rewrite app_nil_r. repeat split; try reflexivity. intros h Hh. inversion Hh.
  - apply Forall_cons in Hlive. destruct Hlive as [[nd Hn] Hlive].
    apply NoDup_cons in Hnd. destruct Hnd as [Hnotin Hnd].
    cbn [release_all]. rewrite Hn.
    set (s3 := sys (r_lseek io i) _).
    assert (Hs3 : ctxs s3 = ctxs s /\ nodes s3 = nodes s
                  /\ upisnd_active_ctx s3 = upisnd_active_ctx s /\ fault s3 = fault s
                  /\ trace s3 = trace s ++ [EvWrite path (el_name nd); EvFdatasync path;
                                            EvLseek path]).
    { subst s3. sys_simpl. cbn. sys_simpl. cbn. sys_simpl. cbn.
      rewrite <- !app_assoc. repeat split; reflexivity. }
    destruct Hs3 as (Hc3 & Hn3 & Ha3 & Hf3 & Ht3).
    set (s4 := upisnd_elements_free n s3).
    assert (Hn4 : nodes s4 = delete n (nodes s)) by (subst s4; cbn; rewrite Hn3; reflexivity).
    assert (Hlive4 : Forall (fun h => is_Some (nodes s4 !! h)) rest).
    { apply Forall_forall. intros h Hh. rewrite Hn4, lookup_delete_ne.
      - rewrite Forall_forall in Hlive. apply Hlive, Hh.
      - intros ->. contradiction. }
    destruct (IH (S i) s4 Hlive4 Hnd) as (Hf & Hc & Ha & Hin & Hout & Hw & Ho).
    split; [rewrite Hf; subst s4; cbn; exact Hf3|].
    split; [rewrite Hc; subst s4; cbn; exact Hc3|].
    split; [rewrite Ha; subst s4; cbn; exact Ha3|].
    split; [|split; [|split]].
    + intros h Hh. apply elem_of_cons in Hh. destruct Hh as [->|Hh]; [|apply Hin, Hh].
      rewrite (Hout n Hnotin), Hn4. apply lookup_delete_eq.
    + intros h Hh. apply not_elem_of_cons in Hh. destruct Hh as [Hne Hh].
      rewrite (Hout h Hh), Hn4. apply lookup_delete_ne. congruence.
    + assert (Ht4 : trace s4 = trace s3) by reflexivity.
      assert (Hnames : names_of s4 rest = names_of s rest).
      { apply names_of_ext. intros x Hx. rewrite Hn4.
        apply lookup_delete_ne. intros ->. contradiction. }
      rewrite Hw, Ht4, Ht3, Hnames, writes_app. cbn [writes].
      rewrite (names_of_cons s n rest nd Hn). cbn [map].
      rewrite <- app_assoc. reflexivity.
    + assert (Ht4 : trace s4 = trace s3) by reflexivity.
      rewrite Ho, Ht4, Ht3, opens_app. cbn. apply app_nil_r.
Qed.

Lemma open_fd_frame (r : open_res) (t : upisnd_path_type_t) (flags : Z) (base : string)
    (s : state) :
  let s' := snd (upisnd_open_fd r t flags base s) in
  ctxs s' = ctxs s /\ nodes s' = nodes s /\ upisnd_active_ctx s' = upisnd_active_ctx s
  /\ fault s' = fault s /\ writes (trace s') = writes (trace s).
Proof.
  unfold upisnd_open_fd. destruct (upisnd_path t base) as [err path].
  destruct (err <? 0); [repeat split; reflexivity|].
  destruct r; cbn; rewrite writes_app, app_nil_r; repeat split; reflexivity.
Qed.

Lemma unsetup_all_spec (io : release_io) (c : ptr) (cx : ctx_t) (s : state) :
  ctxs s !! c = Some cx ->
  Forall (fun h => is_Some (nodes s !! h)) (ctx_elements cx) -> NoDup (ctx_elements cx) ->
  let s' := snd (upisnd_unsetup_all_elements io c s) in
  let dev := unsetup_node (ctx_sysfs_base cx) in
  fault s' = fault s /\ upisnd_active_ctx s' = upisnd_active_ctx s
  /\ delete c (ctxs s') = delete c (ctxs s)
  /\ (release_all_reaches_driver io (ctx_sysfs_base cx) ->
      (forall h, h ∈ ctx_elements cx -> nodes s' !! h = None)
      /\ (forall h, h ∉ ctx_elements cx -> nodes s' !! h = nodes s !! h)
      /\ writes (trace s') = writes (trace s) ++ map (pair dev) (names_of s (ctx_elements cx)))
  /\ (~ release_all_reaches_driver io (ctx_sysfs_base cx) ->
      nodes s' = nodes s /\ writes (trace s') = writes (trace s)).
Proof.
  intros Hc Hlive Hnd s' dev. subst s' dev. unfold upisnd_unsetup_all_elements. rewrite Hc.
  destruct (ctx_elements cx) as [|e els] eqn:Hels.
  { cbn. rewrite app_nil_r. repeat split; try reflexivity; auto.
    intros h Hh. inversion Hh. }
  rewrite <- Hels in *.
  pose proof (open_fd_frame (r_open io) UPISND_PATH_UNSETUP (Z.lor O_CLOEXEC O_WRONLY)
                (ctx_sysfs_base cx) s) as Hframe.
  destruct (upisnd_open_fd (r_open io) UPISND_PATH_UNSETUP (Z.lor O_CLOEXEC O_WRONLY)
              (ctx_sysfs_base cx) s) as [fd s1] eqn:Hopen.
  cbn [snd] in Hframe. destruct Hframe as (Hc1 & Hn1 & Ha1 & Hf1 & Hw1).
  assert (Hfd : 0 <= fd <-> release_all_reaches_driver io (ctx_sysfs_base cx)).
  { revert Hopen. unfold upisnd_open_fd, release_all_reaches_driver, upisnd_path, unsetup_node.
    pose proof (strlen_nonneg (ctx_sysfs_base cx +:+ "/unsetup")) as H0.
    assert (Hpos : 0 < strlen (ctx_sysfs_base cx +:+ "/unsetup")).
    { rewrite strlen_app. change (strlen "/unsetup") with 8.
      pose proof (strlen_nonneg (ctx_sysfs_base cx)). lia. }
    destruct (Z.ltb_spec 0 (strlen (ctx_sysfs_base cx +:+ "/unsetup"))); [|lia].
    destruct (Z.ltb_spec (strlen (ctx_sysfs_base cx +:+ "/unsetup"))
                UPISND_MAX_BASE_PATH_LENGTH) as [Hfit|Hfit]; cbn [andb].
    - destruct (Z.ltb_spec (strlen (ctx_sysfs_base cx +:+ "/unsetup")) 0); [lia|].
      destruct (r_open io) as [n|e']; intros Hx; inversion Hx; subst; cbn.
      + split; [intros _; split; [exact Hfit | exact I] | intros _; lia].
      + split; [lia | intros [_ []]].
    - unfold ENAMETOOLONG. cbn. intros Hx. inversion Hx; subst.
      split; [lia | intros [Hlt _]; lia]. }
  destruct (Z.ltb_spec fd 0) as [Hneg|Hpos].
  - cbn [snd]. split; [exact Hf1|]. split; [exact Ha1|]. split; [rewrite Hc1; reflexivity|].
    split.
    + intros Hr. apply Hfd in Hr. lia.
    + intros _. split; assumption.
  - cbn [snd].
    assert (Hlive1 : Forall (fun h => is_Some (nodes s1 !! h)) (ctx_elements cx))
      by (rewrite Hn1; exact Hlive).
    destruct (release_all_spec io (snd (upisnd_path UPISND_PATH_UNSETUP (ctx_sysfs_base cx)))
                (ctx_elements cx) 0 s1 Hlive1 Hnd)
      as (Hf & Hcs & Ha & Hin & Hout & Hw & _).
    set (s2 := release_all _ _ _ _ _) in *.
    sys_simpl. cbn [fault upisnd_active_ctx ctxs nodes trace log set_ctxs].
    split; [congruence|]. split; [congruence|].
    split; [rewrite delete_insert_eq; congruence|].
    split.
    + intros _. split; [exact Hin|]. split.
      * intros h Hh. rewrite (Hout h Hh), Hn1. reflexivity.
      * rewrite writes_app, Hw, Hw1, app_nil_r, upisnd_path_snd_unsetup.
        f_equal. f_equal. apply names_of_ext. intros x _. rewrite Hn1. reflexivity.
    + intros Hr. exfalso. apply Hr, Hfd. lia.
Qed.

Lemma wf_links (s : state) (c : ptr) (cx : ctx_t) :
  wf s -> ctxs s !! c = Some cx ->
  Forall (fun h => is_Some (nodes s !! h)) (ctx_elements cx) /\ NoDup (ctx_elements cx).
Proof.
  intros Hwf Hc. destruct (wf_ctx s c cx Hwf Hc) as [Hlive Hnames]. split.
  - apply Forall_forall. intros h Hh. rewrite Forall_forall in Hlive.
    destruct (live_in_lookup s c h (Hlive h Hh)) as [nd Hn]. eauto.
  - apply (NoDup_links s c); assumption.
Qed.

Lemma uninit_last_unfold (io : release_io) (l : lib) (c : ptr) (cx : ctx_t) (l0 : list ptr) :
  upisnd_active_ctx (st l) = Some c -> ctxs (st l) !! c = Some cx ->
  ctx_refcount cx = 1 -> unlink c (upisnd_ctx_list l) = Some l0 ->
  upisnd_uninit io l
  = let s1 := set_ctxs (<[c := mk_ctx 0 (ctx_sysfs_base cx) (ctx_elements cx)]>
                          (ctxs (st l))) (st l) in
    let s2 := snd (upisnd_unsetup_all_elements io c s1) in
    mk_lib (mk_state (delete c (ctxs s2)) (nodes s2) (head l0) 0 (now_ms s2) (trace s2)
                     (fault s2))
           l0 (delete c (seeds l)).
Proof.
  intros Hact Hc Hrc Hul. unfold upisnd_uninit. rewrite Hact, Hc, Hrc.
  change (int32 (1 - 1)) with 0. change (0 =? 0) with true. cbv iota.
  unfold upisnd_contexts_remove. cbn [upisnd_ctx_list with_st]. rewrite Hul.
  unfold upisnd_ctx_free. cbn [st seeds upisnd_ctx_list]. cbv zeta.
  destruct (upisnd_unsetup_all_elements io c _) as [r s2]. reflexivity.
Qed.

(** X18: the [upisnd_uninit] that drops the last reference to the active
    context frees the context, takes it off the list and makes the head of
    the remaining list active.  When the unsetup node can be reached, the
    name of every element of the context is written to it, in registry
    order, and every node of the context is freed, whatever its count; when
    it cannot, nothing is written and the nodes stay allocated. *)
Theorem X18_uninit_last (io : release_io) (l : lib) (c : ptr) (cx : ctx_t) :
  wf (st l) -> upisnd_active_ctx (st l) = Some c -> ctxs (st l) !! c = Some cx ->
  ctx_refcount cx = 1 -> c ∈ upisnd_ctx_list l ->
  let l' := upisnd_uninit io l in
  let dev := unsetup_node (ctx_sysfs_base cx) in
  ctxs (st l') = delete c (ctxs (st l))
  /\ seeds l' = delete c (seeds l)
  /\ upisnd_ctx_list l' = without c (upisnd_ctx_list l)
  /\ upisnd_active_ctx (st l') = head (without c (upisnd_ctx_list l))
  /\ fault (st l') = false
  /\ (release_all_reaches_driver io (ctx_sysfs_base cx) ->
      (forall h, h ∈ ctx_elements cx -> nodes (st l') !! h = None)
      /\ (forall h, h ∉ ctx_elements cx -> nodes (st l') !! h = nodes (st l) !! h)
      /\ writes (trace (st l'))
         = writes (trace (st l)) ++ map (pair dev) (names_of (st l) (ctx_elements cx)))
  /\ (~ release_all_reaches_driver io (ctx_sysfs_base cx) ->
      nodes (st l') = nodes (st l) /\ writes (trace (st l')) = writes (trace (st l))).
Proof.
  intros Hwf Hact Hc Hrc Hin l' dev. subst l' dev.
  destruct (wf_links (st l) c cx Hwf Hc) as [Hlive Hnd].
  destruct (unlink_elem c _ Hin) as [l0 Hul].
  rewrite (uninit_last_unfold io l c cx l0 Hact Hc Hrc Hul).
  unfold without. rewrite Hul. cbn [default]. cbv zeta.
  set (cx0 := mk_ctx 0 (ctx_sysfs_base cx) (ctx_elements cx)).
  set (s1 := set_ctxs (<[c := cx0]> (ctxs (st l))) (st l)).
  assert (Hc1 : ctxs s1 !! c = Some cx0) by (subst s1; cbn; apply lookup_insert_eq).
  pose proof (unsetup_all_spec io c cx0 s1 Hc1 Hlive Hnd) as Hspec.
  cbv zeta in Hspec. cbn [ctx_elements ctx_sysfs_base cx0] in Hspec.
  destruct Hspec as (Hf & Ha & Hcs & Hreach & Hfail).
  cbn [st seeds upisnd_ctx_list ctxs nodes fault trace upisnd_active_ctx].
  split; [rewrite Hcs; subst s1; cbn; apply delete_insert_eq|].
  split; [reflexivity|]. split; [reflexivity|]. split; [reflexivity|].
  split; [rewrite Hf; subst s1; cbn; apply Hwf|].
  split.
  - intros Hr. destruct (Hreach Hr) as (H1 & H2 & H3). split; [exact H1|].
    split; [exact H2 | exact H3].
  - intros Hr. apply (Hfail Hr).
Qed.

(** X17: [upisnd_init_internal] and [upisnd_uninit] are in balance.  After
    an init on the root of the active context, an uninit gives back the very
    state of before the init.  After an init that made a context (none was
    active), an uninit frees that context again without a system call and
    leaves the contexts, their list, their seeds and the nodes as they were
    before the init, with the head of the list, if any, active. *)
Theorem X17_init_uninit_balanced (io : ctx_io) (rio : release_io)
    (sysfs_base : option string) (l : lib) :
  root_accepted sysfs_base ->
  let l1 := snd (upisnd_init_internal io sysfs_base l) in
  (forall c cx,
      upisnd_active_ctx (st l) = Some c -> c ∈ upisnd_ctx_list l ->
      ctxs (st l) !! c = Some cx -> ctx_sysfs_base cx = root_of sysfs_base ->
      1 <= ctx_refcount cx < INT_MAX ->
      upisnd_uninit rio l1 = l)
  /\ (forall p data,
      upisnd_active_ctx (st l) = None -> ctx_io_ok io p data ->
      ctxs (st l) !! p = None -> seeds l !! p = None ->
      let l2 := upisnd_uninit rio l1 in
      ctxs (st l2) = ctxs (st l) /\ nodes (st l2) = nodes (st l)
      /\ upisnd_ctx_list l2 = upisnd_ctx_list l /\ seeds l2 = seeds l
      /\ upisnd_active_ctx (st l2) = head (upisnd_ctx_list l)
      /\ fault (st l2) = fault (st l)
      /\ trace (st l2) = trace (st l1)).
Proof.
  intros Hroot l1. subst l1. split.
  - intros c cx Hact Hin Hc Hbase Hrc.
    rewrite (init_again_spec io sysfs_base l c cx Hroot Hact Hin Hc Hbase). cbn [snd].
    unfold upisnd_uninit. cbn [st with_st upisnd_active_ctx set_ctxs ctxs].
    rewrite Hact, lookup_insert_eq. cbn [ctx_refcount ctx_sysfs_base ctx_elements].
    rewrite int32_inc_dec by (unfold INT_MAX in Hrc; lia).
    destruct (Z.eqb_spec (ctx_refcount cx) 0); [lia|].
    unfold with_st. cbn. rewrite insert_insert_eq, ctx_eta, (insert_id _ _ _ Hc).
    unfold set_ctxs. cbn. rewrite state_eta. apply lib_eta.
  - intros p data Hact Hio Hfresh Hseed l2. subst l2.
    destruct (init_fresh_spec io sysfs_base l p data Hroot Hact Hio)
      as (_ & Hc1 & Hl1 & Ha1 & Hs1 & Hn1 & Hf1 & _).
    set (l1 := snd (upisnd_init_internal io sysfs_base l)) in *.
    assert (Hcp : ctxs (st l1) !! p = Some (mk_ctx 1 (root_of sysfs_base) []))
      by (rewrite Hc1; apply lookup_insert_eq).
    assert (Hul : unlink p (upisnd_ctx_list l1) = Some (upisnd_ctx_list l)).
    { rewrite Hl1. cbn. rewrite Pos.eqb_refl. reflexivity. }
    rewrite (uninit_last_unfold rio l1 p _ _ Ha1 Hcp eq_refl Hul).
    cbv zeta. cbn [ctx_sysfs_base ctx_elements].
    unfold upisnd_unsetup_all_elements. cbn [ctxs set_ctxs]. rewrite lookup_insert_eq.
    cbn [ctx_elements snd st seeds upisnd_ctx_list ctxs nodes fault trace upisnd_active_ctx
         set_ctxs].
    rewrite delete_insert_eq, Hc1, Hs1, !delete_insert_id by assumption.
    repeat split; assumption.
Qed.

Lemma X17_init_uninit_balanced_witness :
  let io := mk_ctx_io (Opened 3) (ReadOk "0123456789abcdef") SysOk seed_zero (Some 1%positive) in
  let rio := mk_release_io (Opened 3) (fun _ => SysOk) (fun _ => SysOk) (fun _ => SysOk) SysOk in
  ctxs (st (upisnd_uninit rio (snd (upisnd_init_internal io None lib_initial)))) = ∅.
Proof.
  cbv zeta.
  assert (Hio : ctx_io_ok (mk_ctx_io (Opened 3) (ReadOk "0123456789abcdef") SysOk seed_zero
                                     (Some 1%positive)) 1%positive "0123456789abcdef").
  { repeat split. vm_compute. discriminate. }
  destruct (X17_init_uninit_balanced
              (mk_ctx_io (Opened 3) (ReadOk "0123456789abcdef") SysOk seed_zero
                         (Some 1%positive))
              (mk_release_io (Opened 3) (fun _ => SysOk) (fun _ => SysOk) (fun _ => SysOk)
                             SysOk)
              None lib_initial I) as [_ H].
  destruct (H 1%positive "0123456789abcdef" eq_refl Hio eq_refl eq_refl) as [Hc _].
  exact Hc.
Defined.

Lemma X18_uninit_last_witness :
  let rio := mk_release_io (Opened 3) (fun _ => SysOk) (fun _ => SysOk) (fun _ => SysOk) SysOk in
  let l := mk_lib state_one [1%positive] ∅ in
  wf (st l)
  /\ writes (trace (st (upisnd_uninit rio l)))
     = [("/sys/pisound-micro/unsetup", "enc")]%string
  /\ nodes (st (upisnd_uninit rio l)) !! 5%positive = None.
Proof.
  cbv zeta. split; [exact wf_state_one|].
  assert (Hin : 1%positive ∈ [1%positive]) by (apply list_elem_of_singleton; reflexivity).
  destruct (X18_uninit_last
              (mk_release_io (Opened 3) (fun _ => SysOk) (fun _ => SysOk) (fun _ => SysOk) SysOk)
              (mk_lib state_one [1%positive] ∅) 1%positive ctx_one
              wf_state_one eq_refl eq_refl eq_refl Hin) as (_ & _ & _ & _ & _ & Hr & _).
  destruct Hr as (H1 & _ & H3).
  { split; [vm_compute; reflexivity | exact I]. }
  split.
  - rewrite H3. reflexivity.
  - apply H1. cbn. left.
Defined.

(** * Random names *)

Lemma validate_valid (name : string) :
  1 <= strlen name <= 63 -> ~ In "/"%char (list_ascii_of_string name) ->
  upisnd_validate_element_name (Some name) = strlen name.
Proof.
  intros Hlen Hs. apply strchr_None in Hs.
  unfold upisnd_validate_element_name, UPISND_MAX_ELEMENT_NAME_LENGTH.
  destruct name as [|a name]; [change (strlen "") with 0 in Hlen; lia|].
  rewrite Z.geb_leb. destruct (Z.leb_spec 64 (strlen (String a name))); [lia|].
  rewrite Hs. reflexivity.
Qed.

Lemma list_ascii_app (s1 s2 : string) :
  list_ascii_of_string (s1 +:+ s2) = list_ascii_of_string s1 ++ list_ascii_of_string s2.
Proof.
  induction s1 as [|a s1 IH]; [reflexivity|].
  change (String a s1 +:+ s2) with (String a (s1 +:+ s2)). cbn. f_equal. exact IH.
Qed.

Lemma substring_all (m : nat) (s : string) :
  (String.length s <= m)%nat -> substring 0 m s = s.
Proof.
  revert m. induction s as [|a s IH]; intros m Hm.
  - destruct m; reflexivity.
  - destruct m as [|m]; [cbn in Hm; lia|]. cbn. f_equal. apply IH. cbn in Hm. lia.
Qed.


Lemma substring_In (m : nat) (s : string) (c : ascii) :
  In c (list_ascii_of_string (substring 0 m s)) -> In c (list_ascii_of_string s).
Proof.
  revert m. induction s as [|a s IH]; intros m.
  - destruct m; intros [].
  - destruct m as [|m]; [intros []|]. cbn. intros [H|H]; [left; exact H | right; eauto].
Qed.

Lemma word_bytes_bytes (x : Z) : bytes (word_bytes x).
Proof.
  unfold bytes, word_bytes.
  repeat (apply Forall_cons; split; [apply Z.mod_pos_bound; lia|]). apply Forall_nil. exact I.
Qed.

Lemma bytes_app (a b : list Z) : bytes a -> bytes b -> bytes (a ++ b).
Proof. unfold bytes. intros Ha Hb. apply Forall_app. split; assumption. Qed.

(** The name made from four words of the generator: 22 characters of the
    table, hence a valid element name. *)
Lemma uuid_name (u0 u1 u2 u3 : Z) :
  exists name,
    upisnd_base64_encode 23 (word_bytes u0 ++ word_bytes u1 ++ word_bytes u2 ++ word_bytes u3)
                         false = (23, Some name)
    /\ strlen name = 22
    /\ (forall ch, In ch (list_ascii_of_string name) -> In ch UPISND_BASE64_TABLE)
    /\ upisnd_validate_element_name (Some name) = 22.
Proof.
  set (uuid := word_bytes u0 ++ word_bytes u1 ++ word_bytes u2 ++ word_bytes u3).
  assert (Hb : bytes uuid) by (repeat apply bytes_app; apply word_bytes_bytes).
  exists (string_of_list_ascii (base64_chars false uuid)).
  assert (Hlen : strlen (string_of_list_ascii (base64_chars false uuid)) = 22).
  { rewrite strlen_of_list, base64_chars_length. reflexivity. }
  assert (Hal : forall ch, In ch (list_ascii_of_string
                                    (string_of_list_ascii (base64_chars false uuid))) ->
                           In ch UPISND_BASE64_TABLE).
  { intros ch Hch. rewrite list_ascii_of_string_of_list_ascii in Hch.
    destruct (base64_chars_alphabet false uuid ch Hb Hch) as [H|[H _]]; [exact H|discriminate]. }
  split; [|split; [exact Hlen|split; [exact Hal|]]].
  - unfold upisnd_base64_encode. rewrite Hlen. reflexivity.
  - rewrite validate_valid; [exact Hlen | lia |].
    intros Hs. apply Hal in Hs. vm_compute in Hs. intuition discriminate.
Qed.

Lemma next4_seed_ok (sd : upisnd_xoshiro128_star_star_seed_t) :
  seed_ok sd ->
  seed_ok (snd (upisnd_xoshiro128_star_star_next
     (snd (upisnd_xoshiro128_star_star_next
        (snd (upisnd_xoshiro128_star_star_next
           (snd (upisnd_xoshiro128_star_star_next sd)))))))).
Proof.
  intros H.
  assert (Hstep : forall s, seed_ok s -> seed_ok (snd (upisnd_xoshiro128_star_star_next s))).
  { intros s Hs. apply seed_ok_uint32 in Hs. destruct Hs as (A0 & A1 & A2 & A3).
    apply seed_ok_uint32. cbn.
    repeat split; repeat (apply uint32_lxor || apply uint32_idem || apply uint32_rotl);
      try assumption; lia. }
  auto.
Qed.

Lemma random_name_spec (n : Z) (prefix : option string) (l : lib) (c : ptr) (cx : ctx_t)
    (sd : upisnd_xoshiro128_star_star_seed_t) :
  upisnd_active_ctx (st l) = Some c -> ctxs (st l) !! c = Some cx ->
  seeds l !! c = Some sd ->
  exists name sd',
    upisnd_generate_random_element_name n prefix l
    = (strlen (prefixed prefix name), snd (snprintf n (prefixed prefix name)),
       mk_lib (st l) (upisnd_ctx_list l) (<[c := sd']> (seeds l)))
    /\ upisnd_validate_element_name (Some name) = 22
    /\ (forall ch, In ch (list_ascii_of_string name) -> In ch UPISND_BASE64_TABLE)
    /\ (seed_ok sd -> seed_ok sd')
    /\ (strlen (prefixed prefix name) < n ->
        snd (snprintf n (prefixed prefix name)) = Some (prefixed prefix name))
    /\ (forall p, prefix = Some p -> 0 <= upisnd_validate_element_name (Some p) ->
                  strlen p <= 40 ->
                  upisnd_validate_element_name (Some (prefixed prefix name))
                  = strlen p + 23).
Proof.
  intros Hact Hc Hsd.
  unfold upisnd_generate_random_element_name. rewrite Hact, Hc, Hsd.
  destruct (upisnd_xoshiro128_star_star_next sd) as [u0 sd1] eqn:E0.
  destruct (upisnd_xoshiro128_star_star_next sd1) as [u1 sd2] eqn:E1.
  destruct (upisnd_xoshiro128_star_star_next sd2) as [u2 sd3] eqn:E2.
  destruct (upisnd_xoshiro128_star_star_next sd3) as [u3 sd4] eqn:E3.
  destruct (uuid_name u0 u1 u2 u3) as (name & Henc & Hlen & Hal & Hval).
  rewrite Henc. cbn [snd default].
  exists name, sd4. split; [reflexivity|]. split; [exact Hval|]. split; [exact Hal|].
  split; [|split].
  + intros Hok. pose proof (next4_seed_ok sd Hok) as H4.
    rewrite E0 in H4. cbn [snd] in H4. rewrite E1 in H4. cbn [snd] in H4.
    rewrite E2 in H4. cbn [snd] in H4. rewrite E3 in H4. exact H4.
  + intros Hn. unfold snprintf. cbn [snd].
    pose proof (strlen_nonneg (prefixed prefix name)) as H0.
    destruct (Z.leb_spec n 0); [lia|]. f_equal. apply substring_all.
    unfold strlen in Hn. lia.
  + intros p -> Hp Hshort.
    destruct (validate_accepts p Hp) as (Hplen & Hps & _).
    destruct p as [|a p]; [cbn in Hplen; lia|]. cbn [prefixed].
    rewrite validate_valid.
    * rewrite !strlen_app, Hlen. change (strlen "-") with 1. lia.
    * rewrite !strlen_app, Hlen. change (strlen "-") with 1.
      pose proof (strlen_nonneg (String a p)). lia.
    * rewrite !list_ascii_app, !in_app_iff. intros [H|[H|H]].
      -- apply Hps, H.
      -- cbn in H. intuition discriminate.
      -- apply Hal in H. vm_compute in H. intuition discriminate.
Qed.

(** X19: [upisnd_generate_random_element_name] without an active context
    fails with EINVAL and writes nothing.  With one, it changes the seed of
    that context, whose words stay within 32 bits, and nothing else of the
    state, and makes a name
    of 22 characters of the base64 table, which is a valid element name; it
    returns the length of the name, preceded by the prefix and a hyphen when
    a prefix that is not empty is given, and stores as much of that text as
    [n - 1] bytes hold.  With a valid prefix of at most 40 bytes the whole
    text is a valid element name. *)
Theorem X19_random_name (n : Z) (prefix : option string) (l : lib) :
  (upisnd_active_ctx (st l) = None ->
   upisnd_generate_random_element_name n prefix l
   = (-1, None, with_st (set_errno EINVAL (st l)) l))
  /\ (forall c cx sd,
      upisnd_active_ctx (st l) = Some c -> ctxs (st l) !! c = Some cx ->
      seeds l !! c = Some sd ->
      exists name sd',
        upisnd_generate_random_element_name n prefix l
        = (strlen (prefixed prefix name), snd (snprintf n (prefixed prefix name)),
           mk_lib (st l) (upisnd_ctx_list l) (<[c := sd']> (seeds l)))
        /\ upisnd_validate_element_name (Some name) = 22
        /\ (forall ch, In ch (list_ascii_of_string name) -> In ch UPISND_BASE64_TABLE)
        /\ (seed_ok sd -> seed_ok sd')
        /\ (strlen (prefixed prefix name) < n ->
            snd (snprintf n (prefixed prefix name)) = Some (prefixed prefix name))
        /\ (forall p, prefix = Some p -> 0 <= upisnd_validate_element_name (Some p) ->
                      strlen p <= 40 ->
                      upisnd_validate_element_name (Some (prefixed prefix name))
                      = strlen p + 23)).
Proof.
  split.
  - intros Hact. unfold upisnd_generate_random_element_name. rewrite Hact. reflexivity.
  - intros c cx sd. apply random_name_spec.
Qed.

(** * ElementName *)



Lemma ElementName_copy_short (text : string) :
  strlen text < UPISND_MAX_ELEMENT_NAME_LENGTH -> ElementName_copy text = text.
Proof.
  intros H. unfold ElementName_copy. apply substring_all.
  unfold strlen, UPISND_MAX_ELEMENT_NAME_LENGTH in *. lia.
Qed.

(** X21: [ElementName::randomized], with an active context, gives a valid
    element name: 22 characters of the base64 table when there is no prefix,
    and the prefix, a hyphen and those 22 characters when the prefix is a
    valid name of at most 40 bytes.  With a prefix of more than 40 bytes, or
    with no active context, it gives the empty name. *)
Theorem X21_element_name_randomized (prefix : option string) (l : lib) :
  (upisnd_active_ctx (st l) = None -> fst (ElementName_randomized prefix l) = ""%string)
  /\ (forall c cx sd,
      upisnd_active_ctx (st l) = Some c -> ctxs (st l) !! c = Some cx ->
      seeds l !! c = Some sd ->
      let m_name := fst (ElementName_randomized prefix l) in
      (prefix = None -> upisnd_validate_element_name (Some m_name) = 22)
      /\ (forall p, prefix = Some p -> 0 <= upisnd_validate_element_name (Some p) ->
                    strlen p <= 40 ->
                    upisnd_validate_element_name (Some m_name) = strlen p + 23
                    /\ exists name, m_name = p +:+ "-" +:+ name)
      /\ (forall p, prefix = Some p -> 40 < strlen p -> m_name = ""%string)).
Proof.
  split.
  - intros Hact. unfold ElementName_randomized.
    unfold upisnd_generate_random_element_name. rewrite Hact. reflexivity.
  - intros c cx sd Hact Hc Hsd m_name. subst m_name.
    destruct (random_name_spec UPISND_MAX_ELEMENT_NAME_LENGTH prefix l c cx sd
                Hact Hc Hsd) as (name & sd' & Heq & Hval & Hal & _ & Hfit & Hpre).
    unfold ElementName_randomized. rewrite Heq. cbn [fst].
    destruct (validate_accepts name ltac:(lia)) as (_ & _ & Hn). rewrite Hval in Hn.
    unfold UPISND_MAX_ELEMENT_NAME_LENGTH in *.
    split; [|split].
    + intros ->. cbn [prefixed] in *. rewrite <- Hn.
      change (0 <? 22) with true. change (22 <? 64) with true. cbn [andb].
      rewrite Hfit by lia. cbn [default from_option id].
      rewrite ElementName_copy_short by (unfold UPISND_MAX_ELEMENT_NAME_LENGTH; lia).
      exact Hval.
    + intros p -> Hp Hshort.
      specialize (Hpre p eq_refl Hp Hshort).
      destruct (validate_accepts _ ltac:(rewrite Hpre; pose proof (strlen_nonneg p); lia))
        as (_ & _ & Hlen).
      rewrite Hpre in Hlen. rewrite <- Hlen.
      pose proof (strlen_nonneg p).
      destruct (Z.ltb_spec 0 (strlen p + 23)); [|lia].
      destruct (Z.ltb_spec (strlen p + 23) 64); [|lia]. cbn [andb].
      rewrite Hfit by lia. cbn [default from_option id].
      rewrite ElementName_copy_short by (unfold UPISND_MAX_ELEMENT_NAME_LENGTH; lia).
      split; [exact Hpre|].
      destruct (validate_accepts p Hp) as (Hpl & _).
      destruct p as [|a p]; [cbn in Hpl; lia|]. exists name. reflexivity.
    + intros p -> Hlong.
      destruct p as [|a p]; [change (strlen "") with 0 in Hlong; lia|].
      cbn [prefixed]. rewrite !strlen_app, <- Hn. change (strlen "-") with 1.
      destruct (Z.ltb_spec (strlen (String a p) + (1 + 22)) 64); [lia|].
      rewrite andb_false_r. reflexivity.
Qed.

(** * Attribute files *)

Lemma element_ready_path (s : state) (h : ptr) (attr : upisnd_element_attr_e) :
  element_ready s h ->
  exists nd cx, nodes s !! h = Some nd /\ ctxs s !! el_ctx nd = Some cx
    /\ 0 <= fst (upisnd_element_path (ctx_sysfs_base cx) (el_name nd) attr).
Proof.
  intros (nd & cx & Hn & Hc & Hb & Hv). exists nd, cx. split; [exact Hn|]. split; [exact Hc|].
  pose proof (validate_length (el_name nd) Hv) as [_ Hlen].
  pose proof (strlen_nonneg (ctx_sysfs_base cx)) as Hb0.
  pose proof (attr_file_length attr) as Ha.
  unfold upisnd_element_path, UPISND_ELEMENT_MAX_PATH_LENGTH,
    UPISND_MAX_BASE_PATH_LENGTH, UPISND_MAX_ELEMENT_NAME_LENGTH.
  rewrite !strlen_app. change (strlen "/elements/") with 10. change (strlen "/") with 1.
  set (n := strlen (ctx_sysfs_base cx) + (10 + (strlen (el_name nd)
                                                 + (1 + strlen (attr_file attr))))).
  destruct (Z.ltb_spec 0 n); [|lia]. destruct (Z.ltb_spec n (64 + 64)); [|lia].
  cbn [andb fst]. destruct attr; lia.
Qed.

Lemma attr_open_loop_S (fuel : nat) (io : attr_io) (path : string) (flags t0 : Z)
    (attempt : nat) (s : state) :
  attr_open_loop (S fuel) io path flags t0 attempt s
  = let s1 := log (EvOpen path flags) s in
    match a_open io attempt with
    | Opened fd => Some (Z.of_N fd, set_errno 0 s1)
    | OpenErr e =>
      let s2 := set_errno (Z.pos e) s1 in
      if (errno s2 =? ENOENT) || (errno s2 =? EACCES) then
        let s3 := usleep 1000 s2 in
        if uint32 (upisnd_get_ms s3 - t0) <? UPISND_TIMEOUT_MS
        then attr_open_loop fuel io path flags t0 (S attempt) s3
        else Some (-1, s3)
      else Some (-1, s2)
    end.
Proof. reflexivity. Qed.

(** The first attempt of [upisnd_element_attr_open] succeeds. *)
Lemma attr_open_first (w : world) (attr : upisnd_element_attr_e) (flags : Z) (h : ptr)
    (s : state) :
  element_ready s h -> attr_opens w attr ->
  exists fd, upisnd_element_attr_open w attr flags (Some h) s
             = (Z.of_N fd, set_errno 0 (log (EvOpen (attr_path attr (Some h) s) flags) s)).
Proof.
  intros Hr Ho. destruct (element_ready_path s h attr Hr) as (nd & cx & Hn & Hc & Hp).
  rewrite (attr_open_enters w attr flags h nd cx s Hn Hc Hp).
  unfold attr_opens in Ho. change 2000%nat with (S 1999). rewrite attr_open_loop_S. cbv zeta.
  destruct (a_open (w_attr w attr) 0) as [fd|e]; [|destruct Ho].
  exists fd. unfold attr_path. rewrite Hn, Hc. reflexivity.
Qed.

(** The first attempt fails with an error that is not retried. *)
Lemma attr_open_denied (w : world) (attr : upisnd_element_attr_e) (flags : Z) (h : ptr)
    (s : state) (e : positive) :
  element_ready s h -> a_open (w_attr w attr) 0%nat = OpenErr e ->
  Z.pos e <> ENOENT -> Z.pos e <> EACCES ->
  upisnd_element_attr_open w attr flags (Some h) s
  = (-1, set_errno (Z.pos e) (log (EvOpen (attr_path attr (Some h) s) flags) s)).
Proof.
  intros Hr Ho H1 H2. destruct (element_ready_path s h attr Hr) as (nd & cx & Hn & Hc & Hp).
  rewrite (attr_open_enters w attr flags h nd cx s Hn Hc Hp).
  change 2000%nat with (S 1999). rewrite attr_open_loop_S. cbv zeta.
  rewrite Ho. cbn [errno set_errno].
  destruct (Z.eqb_spec (Z.pos e) ENOENT); [contradiction|].
  destruct (Z.eqb_spec (Z.pos e) EACCES); [contradiction|].
  cbn [orb]. unfold attr_path. rewrite Hn, Hc. reflexivity.
Qed.

Lemma trim_no_separator (text rest : string) :
  no_separator text -> trim_at_separator (text +:+ String "010" rest) = text.
Proof.
  intros H. induction text as [|a text IH].
  - reflexivity.
  - change (String a text +:+ String "010" rest) with (String a (text +:+ String "010" rest)).
    cbn [trim_at_separator]. rewrite (H a) by (left; reflexivity). f_equal.
    apply IH. intros c Hc. apply H. right. exact Hc.
Qed.

(** A read of an attribute file that holds [text] and a line feed. *)
Lemma attr_read_str_holds (w : world) (attr : upisnd_element_attr_e) (h : ptr) (s : state)
    (text : string) :
  element_ready s h -> attr_holds w attr text -> no_separator text ->
  exists r s',
    upisnd_element_attr_read_str w (Some ""%string) 64 attr (Some h) s = (r, Some text, s')
    /\ 0 <= r /\ errno s' = 0 /\ same_store s s'
    /\ writes (trace s') = writes (trace s).
Proof.
  intros Hr [Ho (rest & Hrd & Hlen)] Hsep.
  destruct (attr_open_first w attr (Z.lor O_CLOEXEC O_RDONLY) h s Hr Ho) as [fd Hopen].
  unfold upisnd_element_attr_read_str. change (64 <? 2) with false. cbv iota.
  rewrite Hopen. destruct (Z.ltb_spec (Z.of_N fd) 0); [lia|]. rewrite Hrd.
  change (Z.to_nat (64 - 1)) with 63%nat.
  rewrite substring_all by (unfold strlen in Hlen; lia).
  rewrite (trim_no_separator text rest Hsep).
  eexists _, _. split; [reflexivity|]. split; [apply strlen_nonneg|].
  split; [reflexivity|]. split; [repeat split; reflexivity|].
  cbn. rewrite !writes_app. cbn. rewrite !app_nil_r. reflexivity.
Qed.

Lemma enum_token_no_separator (e : token_enum) (v : Z) : no_separator (enum_to_str e v).
Proof.
  assert (Hall : forall i, (i < 6)%nat ->
            forallb (fun c => match strchr UPISND_TEXT_SEPARATORS c with
                              | None => true | Some _ => false end)
                    (list_ascii_of_string (enum_to_str e (Z.of_nat i))) = true).
  { intros i Hi. destruct e; do 6 (destruct i as [|i]; [vm_compute; reflexivity|]); lia. }
  intros c Hc.
  destruct (Z.lt_ge_cases v 0) as [Hneg|Hpos].
  - rewrite enum_to_str_outside in Hc by lia. destruct Hc.
  - destruct (Z.lt_ge_cases v 6) as [Hlt|Hge].
    + specialize (Hall (Z.to_nat v) ltac:(lia)). rewrite Z2Nat.id in Hall by lia.
      rewrite forallb_forall in Hall. specialize (Hall c Hc).
      destruct (strchr UPISND_TEXT_SEPARATORS c); [discriminate | reflexivity].
    + rewrite enum_to_str_outside in Hc
        by (destruct e; cbn [enum_count];
            unfold UPISND_PIN_PULL_COUNT, UPISND_ACTIVITY_COUNT, UPISND_ELEMENT_TYPE_COUNT,
              UPISND_PIN_DIR_COUNT, UPISND_VALUE_MODE_COUNT; lia).
      destruct Hc.
Qed.

Lemma element_get_enum_holds (w : world) (parse : string -> Z) (attr : upisnd_element_attr_e)
    (h : ptr) (s : state) (text : string) :
  element_ready s h -> attr_holds w attr text -> no_separator text ->
  let r := element_get_enum w parse attr (Some h) s in
  fst r = parse text
  /\ errno (snd r) = (if parse text =? -1 then EINVAL else 0)
  /\ same_store s (snd r) /\ writes (trace (snd r)) = writes (trace s).
Proof.
  intros Hr Hh Hsep r. subst r. unfold element_get_enum.
  destruct (attr_read_str_holds w attr h s text Hr Hh Hsep)
    as (n & s' & Heq & Hn & He & Hsame & Hw).
  rewrite Heq. destruct (Z.ltb_spec n 0); [lia|].
  change (default ""%string (Some text)) with text.
  destruct (Z.eqb_spec (parse text) (-1)) as [E|E]; cbn [fst snd].
  - rewrite E. split; [reflexivity|]. split; [reflexivity|]. split; [|exact Hw].
    destruct Hsame as (H1 & H2 & H3 & H4 & H5). repeat split; assumption.
  - split; [reflexivity|]. split; [exact He|]. split; [exact Hsame | exact Hw].
Qed.

(** X22: the getters that read an enumeration from sysfs (element type,
    direction, pull of either pin, activity kind), on an element whose
    attribute file opens and holds a token and a line feed, return what the
    parser of the enumeration makes of the token, so the value whose token it
    is, and leave errno at 0.  On a text that is no token they return -1;
    errno is then EINVAL, except after [upisnd_element_get_type], which
    leaves it at 0.  They make no write and change neither heap nor
    registry. *)
Theorem X22_enum_getters (g : enum_getter) (w : world) (s : state) (h : ptr) (text : string) :
  element_ready s h -> attr_holds w (getter_attr g) text -> no_separator text ->
  let r := getter_call g w (Some h) s in
  let v := str_to_enum_of (getter_enum g) text in
  fst r = v
  /\ errno (snd r) = (if v =? -1 then match g with G_type => 0 | _ => EINVAL end else 0)
  /\ same_store s (snd r) /\ writes (trace (snd r)) = writes (trace s)
  /\ (forall x, 0 <= x < enum_count (getter_enum g) ->
                text = enum_to_str (getter_enum g) x -> fst r = x).
Proof.
  intros Hr Hh Hsep r v.
  assert (Hmain : fst r = v
            /\ errno (snd r) = (if v =? -1 then match g with G_type => 0 | _ => EINVAL end
                                else 0)
            /\ same_store s (snd r) /\ writes (trace (snd r)) = writes (trace s)).
  { subst r v. destruct g; cbn [getter_call getter_enum str_to_enum_of getter_attr] in *;
      try (apply element_get_enum_holds; assumption).
    unfold upisnd_element_get_type.
    destruct (attr_read_str_holds w UPISND_ELEMENT_ATTR_TYPE h s text Hr Hh Hsep)
      as (n & s' & Heq & Hn & He & Hsame & Hw).
    rewrite Heq. destruct (Z.ltb_spec n 0); [lia|].
    change (default ""%string (Some text)) with text. cbn [fst snd].
    split; [reflexivity|]. split; [|split; assumption].
    rewrite He. destruct (_ =? _); reflexivity. }
  destruct Hmain as (H1 & H2 & H3 & H4).
  split; [exact H1|]. split; [exact H2|]. split; [exact H3|]. split; [exact H4|].
  intros x Hx ->. rewrite H1. subst v. rewrite str_to_enum_of_unfold.
  apply str_to_enum_of_token; [apply enum_tokens_differ | exact Hx].
Qed.

(** * Integers in attribute files *)

Lemma same_store_trans (s1 s2 s3 : state) :
  same_store s1 s2 -> same_store s2 s3 -> same_store s1 s3.
Proof.
  intros (A1 & A2 & A3 & A4 & A5) (B1 & B2 & B3 & B4 & B5).
  repeat split; congruence.
Qed.

Lemma element_ready_same (s s' : state) (h : ptr) :
  same_store s s' -> element_ready s h -> element_ready s' h.
Proof.
  intros (Hc & Hn & _) (nd & cx & H1 & H2 & H3 & H4). exists nd, cx.
  rewrite Hn, Hc. auto.
Qed.

Lemma attr_path_same (s s' : state) (attr : upisnd_element_attr_e) (el : option ptr) :
  same_store s s' -> attr_path attr el s' = attr_path attr el s.
Proof. intros (Hc & Hn & _). unfold attr_path. rewrite Hn, Hc. reflexivity. Qed.

Lemma read_int_denied (w : world) (attr : upisnd_element_attr_e) (h : ptr) (s : state)
    (e : positive) :
  element_ready s h -> a_open (w_attr w attr) 0%nat = OpenErr e -> not_retried e ->
  upisnd_element_attr_read_int w attr (Some h) s
  = (-1, set_errno (Z.pos e)
           (log (EvOpen (attr_path attr (Some h) s) (Z.lor O_CLOEXEC O_RDONLY)) s)).
Proof.
  intros Hr Ho [H1 H2]. unfold upisnd_element_attr_read_int.
  rewrite (attr_open_denied w attr _ h s e Hr Ho H1 H2). reflexivity.
Qed.

Lemma read_int_value (w : world) (attr : upisnd_element_attr_e) (h : ptr) (s : state)
    (data : string) :
  element_ready s h -> attr_opens w attr ->
  a_lseek (w_attr w attr) = SysOk -> a_read (w_attr w attr) = ReadOk data ->
  exists s',
    upisnd_element_attr_read_int w attr (Some h) s
    = (int32 (w_strtol w (substring 0 15 data)), s')
    /\ errno s' = 0 /\ same_store s s' /\ writes (trace s') = writes (trace s).
Proof.
  intros Hr Ho Hl Hrd. unfold upisnd_element_attr_read_int.
  destruct (attr_open_first w attr (Z.lor O_CLOEXEC O_RDONLY) h s Hr Ho) as [fd Hopen].
  rewrite Hopen. destruct (Z.ltb_spec (Z.of_N fd) 0); [lia|].
  unfold upisnd_value_read. rewrite Hl, Hrd.
  eexists. split; [reflexivity|]. split; [reflexivity|]. split; [repeat split; reflexivity|].
  cbn. rewrite !writes_app. cbn. rewrite !app_nil_r. reflexivity.
Qed.

Lemma pin_of_int_cases (v : Z) :
  - 128 <= v < 128 ->
  pin_of_int v = if v <? UPISND_PIN_COUNT then v else UPISND_PIN_INVALID.
Proof.
  intros Hv. unfold pin_of_int, upisnd_is_pin_valid.
  assert (E : int8 v = v).
  { unfold int8. destruct (Z.lt_ge_cases v 0).
    - replace (v mod 256) with (v + 256) by (Z.div_mod_to_equations; lia).
      destruct (Z.ltb_spec (v + 256) 128); lia.
    - rewrite Z.mod_small by lia. destruct (Z.ltb_spec v 128); lia. }
  rewrite E. reflexivity.
Qed.

(** X23: [upisnd_element_get_pin] and [upisnd_element_encoder_get_pin_b]
    return the number that the attribute file holds when it is one of the 37
    pins, and [UPISND_PIN_INVALID] when it is from 37 to 127; a negative
    number down to -128 is returned as it is.  When the file cannot be opened they return -1,
    which is not [UPISND_PIN_INVALID], with the errno of the open. *)
Theorem X23_get_pin (w : world) (s : state) (h : ptr) (b : bool) :
  element_ready s h ->
  let attr := if b then UPISND_ELEMENT_ATTR_PIN_B else UPISND_ELEMENT_ATTR_PIN in
  let r := if b then upisnd_element_encoder_get_pin_b w (Some h) s
           else upisnd_element_get_pin w (Some h) s in
  (forall e, a_open (w_attr w attr) 0%nat = OpenErr e -> not_retried e ->
             fst r = -1 /\ fst r <> UPISND_PIN_INVALID /\ errno (snd r) = Z.pos e)
  /\ (forall data,
      attr_opens w attr -> a_lseek (w_attr w attr) = SysOk ->
      a_read (w_attr w attr) = ReadOk data ->
      let v := w_strtol w (substring 0 15 data) in
      errno (snd r) = 0
      /\ (0 <= v < UPISND_PIN_COUNT -> fst r = v)
      /\ (UPISND_PIN_COUNT <= v < 128 -> fst r = UPISND_PIN_INVALID)
      /\ (- 128 <= v < 0 -> fst r = v)).
Proof.
  intros Hr attr r.
  assert (Hr' : r = let '(i, s1) := upisnd_element_attr_read_int w attr (Some h) s in
                    (pin_of_int i, s1)) by (subst r attr; destruct b; reflexivity).
  split.
  - intros e Ho He. rewrite Hr', (read_int_denied w attr h s e Hr Ho He). cbn [fst snd].
    split; [reflexivity|]. split; [vm_compute; discriminate | reflexivity].
  - intros data Ho Hl Hrd v.
    destruct (read_int_value w attr h s data Hr Ho Hl Hrd) as (s' & Heq & He & _).
    rewrite Hr', Heq. cbn [fst snd]. fold v. split; [exact He|].
    unfold UPISND_PIN_INVALID, UPISND_PIN_COUNT.
    split; [|split]; intros Hv; rewrite int32_small by lia;
      rewrite pin_of_int_cases by lia; unfold UPISND_PIN_INVALID, UPISND_PIN_COUNT.
    + destruct (Z.ltb_spec v 37); [reflexivity | lia].
    + destruct (Z.ltb_spec v 37); [lia | reflexivity].
    + destruct (Z.ltb_spec v 37); [reflexivity | lia].
Qed.

(** One integer written to an attribute file that opens. *)
Lemma write_int_spec (w : world) (attr : upisnd_element_attr_e) (h : ptr) (i : Z)
    (s : state) :
  element_ready s h -> attr_opens w attr ->
  exists r s',
    upisnd_element_attr_write_int w attr (Some h) i s = (r, s')
    /\ 0 <= r <= 1 /\ same_store s s'
    /\ (attr_write_ok w attr ->
        r = 1 /\ errno s' = 0
        /\ writes (trace s') = writes (trace s) ++ [(attr_path attr (Some h) s, pretty i)])
    /\ (~ attr_write_ok w attr -> r = 0 /\ errno s' <> 0).
Proof.
  intros Hr Ho. unfold upisnd_element_attr_write_int.
  destruct (attr_open_first w attr (Z.lor O_CLOEXEC O_WRONLY) h s Hr Ho) as [fd Hopen].
  rewrite Hopen. destruct (Z.ltb_spec (Z.of_N fd) 0); [lia|].
  unfold upisnd_value_write, seek_write_sync, attr_write_ok.
  destruct (a_lseek (w_attr w attr)) as [|e1];
    [destruct (a_write (w_attr w attr)) as [|e2];
     [destruct (a_fdatasync (w_attr w attr)) as [|e3]|]|].
  - pose proof (strlen_nonneg (pretty i)) as Hlen.
    destruct (Z.ltb_spec (strlen (pretty i)) 0); [lia|]. cbn [of_bool Z.eqb].
    eexists _, _. split; [reflexivity|]. split; [lia|].
    split; [repeat split; reflexivity|]. split.
    + intros _. split; [reflexivity|]. split; [reflexivity|].
      cbn. rewrite !writes_app. cbn. rewrite !app_nil_r. reflexivity.
    + intros Hn. exfalso. apply Hn. repeat split.
  - cbn [Z.ltb Z.compare errno set_errno of_bool Z.eqb log].
    eexists _, _. split; [reflexivity|]. split; [lia|].
    split; [repeat split; reflexivity|]. split.
    + intros (_ & _ & Hx). discriminate Hx.
    + intros _. split; [reflexivity | cbn; lia].
  - cbn [Z.ltb Z.compare errno set_errno of_bool Z.eqb log].
    eexists _, _. split; [reflexivity|]. split; [lia|].
    split; [repeat split; reflexivity|]. split.
    + intros (_ & Hx & _). discriminate Hx.
    + intros _. split; [reflexivity | cbn; lia].
  - cbn [Z.ltb Z.compare errno set_errno of_bool Z.eqb log].
    eexists _, _. split; [reflexivity|]. split; [lia|].
    split; [repeat split; reflexivity|]. split.
    + intros (Hx & _). discriminate Hx.
    + intros _. split; [reflexivity | cbn; lia].
Qed.

Lemma write_int_denied (w : world) (attr : upisnd_element_attr_e) (h : ptr) (i : Z)
    (s : state) (e : positive) :
  element_ready s h -> a_open (w_attr w attr) 0%nat = OpenErr e -> not_retried e ->
  upisnd_element_attr_write_int w attr (Some h) i s
  = (-1, set_errno (Z.pos e)
           (log (EvOpen (attr_path attr (Some h) s) (Z.lor O_CLOEXEC O_WRONLY)) s)).
Proof.
  intros Hr Ho [H1 H2]. unfold upisnd_element_attr_write_int.
  rewrite (attr_open_denied w attr _ h s e Hr Ho H1 H2). reflexivity.
Qed.

(** The chain of the four range writes, when the four files open. *)
Lemma write_ranges_spec (w : world) (h : ptr) (ir vr : upisnd_range_t) (s : state) :
  element_ready s h -> Forall (attr_opens w) range_attrs ->
  exists r s',
    write_ranges w (Some h) ir vr s = (r, s')
    /\ 0 <= r <= 1 /\ same_store s s'
    /\ (Forall (attr_write_ok w) range_attrs ->
        writes (trace s') = writes (trace s) ++ range_writes s h ir vr).
Proof.
  intros Hr Ho. unfold range_attrs in *.
  apply Forall_cons in Ho. destruct Ho as [O0 Ho].
  apply Forall_cons in Ho. destruct Ho as [O1 Ho].
  apply Forall_cons in Ho. destruct Ho as [O2 Ho].
  apply Forall_cons in Ho. destruct Ho as [O3 _].
  unfold write_ranges.
  destruct (write_int_spec w UPISND_ELEMENT_ATTR_INPUT_MIN h (low ir) s Hr O0)
    as (r0 & s0 & E0 & R0 & S0 & W0 & _).
  rewrite E0. destruct (Z.geb_spec r0 0); [|lia]. cbn [negb].
  pose proof (element_ready_same s s0 h S0 Hr) as Hr0.
  destruct (write_int_spec w UPISND_ELEMENT_ATTR_INPUT_MAX h (high ir) s0 Hr0 O1)
    as (r1 & s1 & E1 & R1 & S1 & W1 & _).
  rewrite E1. destruct (Z.geb_spec r1 0); [|lia]. cbn [negb].
  pose proof (element_ready_same s0 s1 h S1 Hr0) as Hr1.
  destruct (write_int_spec w UPISND_ELEMENT_ATTR_VALUE_LOW h (low vr) s1 Hr1 O2)
    as (r2 & s2 & E2 & R2 & S2 & W2 & _).
  rewrite E2. destruct (Z.geb_spec r2 0); [|lia]. cbn [negb].
  pose proof (element_ready_same s1 s2 h S2 Hr1) as Hr2.
  destruct (write_int_spec w UPISND_ELEMENT_ATTR_VALUE_HIGH h (high vr) s2 Hr2 O3)
    as (r3 & s3 & E3 & R3 & S3 & W3 & _).
  exists r3, s3. split; [exact E3|]. split; [exact R3|].
  pose proof (same_store_trans _ _ _ S0 S1) as S01.
  pose proof (same_store_trans _ _ _ S01 S2) as S02.
  split; [apply (same_store_trans _ _ _ S02 S3)|].
  intros Hok.
  apply Forall_cons in Hok. destruct Hok as [K0 Hok].
  apply Forall_cons in Hok. destruct Hok as [K1 Hok].
  apply Forall_cons in Hok. destruct Hok as [K2 Hok].
  apply Forall_cons in Hok. destruct Hok as [K3 _].
  destruct (W0 K0) as (_ & _ & T0). destruct (W1 K1) as (_ & _ & T1).
  destruct (W2 K2) as (_ & _ & T2). destruct (W3 K3) as (_ & _ & T3).
  rewrite T3, T2, T1, T0. unfold range_writes.
  rewrite (attr_path_same s s0 _ _ S0), (attr_path_same s s1 _ _ S01),
    (attr_path_same s s2 _ _ S02).
  rewrite <- !app_assoc. reflexivity.
Qed.

(** One text written to an attribute file that opens. *)
Lemma write_str_spec (w : world) (attr : upisnd_element_attr_e) (h : ptr) (str : string)
    (s : state) :
  element_ready s h -> attr_opens w attr -> strlen str <= UPISND_MAX_REQUEST_LENGTH ->
  exists r s',
    upisnd_element_attr_write_str w attr (Some h) str s = (r, s')
    /\ same_store s s'
    /\ (attr_write_ok w attr ->
        r = strlen str
        /\ writes (trace s') = writes (trace s) ++ [(attr_path attr (Some h) s, str)])
    /\ (~ attr_write_ok w attr -> r = -1 /\ errno s' <> 0).
Proof.
  intros Hr Ho Hlen. unfold upisnd_element_attr_write_str.
  destruct (attr_open_first w attr (Z.lor O_CLOEXEC O_WRONLY) h s Hr Ho) as [fd Hopen].
  rewrite Hopen. destruct (Z.ltb_spec (Z.of_N fd) 0); [lia|].
  rewrite substring_all
    by (unfold strlen, UPISND_MAX_REQUEST_LENGTH, UPISND_MAX_ELEMENT_NAME_LENGTH in *; lia).
  unfold seek_write_sync, attr_write_ok.
  destruct (a_lseek (w_attr w attr)) as [|e1];
    [destruct (a_write (w_attr w attr)) as [|e2];
     [destruct (a_fdatasync (w_attr w attr)) as [|e3]|]|];
    cbn [Z.eqb negb errno set_errno log].
  - eexists _, _. split; [reflexivity|]. split; [repeat split; reflexivity|]. split.
    + intros _. split; [reflexivity|].
      cbn. rewrite !writes_app. cbn. rewrite !app_nil_r. reflexivity.
    + intros Hn. exfalso. apply Hn. repeat split.
  - eexists _, _. split; [reflexivity|]. split; [repeat split; reflexivity|]. split.
    + intros (_ & _ & Hx). discriminate Hx.
    + intros _. split; [reflexivity | cbn; lia].
  - eexists _, _. split; [reflexivity|]. split; [repeat split; reflexivity|]. split.
    + intros (_ & Hx & _). discriminate Hx.
    + intros _. split; [reflexivity | cbn; lia].
  - eexists _, _. split; [reflexivity|]. split; [repeat split; reflexivity|]. split.
    + intros (Hx & _). discriminate Hx.
    + intros _. split; [reflexivity | cbn; lia].
Qed.

Lemma value_mode_token_length (mode : Z) :
  strlen (upisnd_value_mode_to_str mode) <= UPISND_MAX_REQUEST_LENGTH.
Proof.
  unfold upisnd_value_mode_to_str.
  destruct (mode =? UPISND_VALUE_MODE_CLAMP); [vm_compute; discriminate|].
  destruct (mode =? UPISND_VALUE_MODE_WRAP); vm_compute; discriminate.
Qed.

(** X24: the option setters write the four range values in decimal, each to
    its attribute file, in the order input_min, input_max, value_low,
    value_high, and [upisnd_element_encoder_set_opts] then writes the token
    of the value mode.  A failed write of a range value is not reported:
    [upisnd_element_analog_input_set_opts] returns 0 whenever the four files
    open.  A failed write of the value mode is: the encoder setter then
    returns -1.  When the first file cannot be opened both return -1 with
    the errno of the open and write nothing. *)
Theorem X24_set_opts (w : world) (s : state) (h : ptr) (ir vr : upisnd_range_t) (mode : Z) :
  element_ready s h ->
  let a := upisnd_element_analog_input_set_opts w (Some h) (mk_analog_input_opts ir vr) s in
  let e := upisnd_element_encoder_set_opts w (Some h) (mk_encoder_opts ir vr mode) s in
  let mode_file := UPISND_ELEMENT_ATTR_VALUE_MODE in
  (Forall (attr_opens w) range_attrs ->
   fst a = 0 /\ same_store s (snd a)
   /\ (Forall (attr_write_ok w) range_attrs ->
       writes (trace (snd a)) = writes (trace s) ++ range_writes s h ir vr)
   /\ (attr_opens w mode_file ->
       same_store s (snd e)
       /\ (attr_write_ok w mode_file -> fst e = 0)
       /\ (~ attr_write_ok w mode_file -> fst e = -1)
       /\ (Forall (attr_write_ok w) range_attrs -> attr_write_ok w mode_file ->
           writes (trace (snd e))
           = writes (trace s) ++ range_writes s h ir vr
             ++ [(attr_path mode_file (Some h) s, upisnd_value_mode_to_str mode)])))
  /\ (forall err, a_open (w_attr w UPISND_ELEMENT_ATTR_INPUT_MIN) 0%nat = OpenErr err ->
                  not_retried err ->
                  fst a = -1 /\ errno (snd a) = Z.pos err
                  /\ writes (trace (snd a)) = writes (trace s)
                  /\ fst e = -1 /\ errno (snd e) = Z.pos err
                  /\ writes (trace (snd e)) = writes (trace s)).
Proof.
  intros Hr a e mode_file. subst a e mode_file. split.
  - intros Ho. unfold upisnd_element_analog_input_set_opts, upisnd_element_encoder_set_opts.
    cbn [ain_input_range ain_value_range enc_input_range enc_value_range enc_value_mode].
    destruct (write_ranges_spec w h ir vr s Hr Ho) as (r & s' & Heq & Hrange & Hsame & Hw).
    rewrite Heq. destruct (Z.geb_spec r 0); [|lia]. cbn [fst snd negb].
    split; [reflexivity|]. split; [exact Hsame|]. split; [exact Hw|].
    intros Hm.
    destruct (write_str_spec w UPISND_ELEMENT_ATTR_VALUE_MODE h
                (upisnd_value_mode_to_str mode) s'
                (element_ready_same s s' h Hsame Hr) Hm (value_mode_token_length mode))
      as (r' & s'' & Heq' & Hsame' & Hok & Hbad).
    rewrite Heq'. cbn [fst snd].
    split; [apply (same_store_trans _ _ _ Hsame Hsame')|]. split; [|split].
    + intros Hk. destruct (Hok Hk) as [-> _].
      pose proof (strlen_nonneg (upisnd_value_mode_to_str mode)).
      destruct (Z.geb_spec (strlen (upisnd_value_mode_to_str mode)) 0); [reflexivity | lia].
    + intros Hk. destruct (Hbad Hk) as [-> _]. reflexivity.
    + intros Hks Hk. destruct (Hok Hk) as [_ Hw'].
      rewrite Hw', (Hw Hks), (attr_path_same s s' _ _ Hsame), <- app_assoc. reflexivity.
  - intros err Ho He.
    unfold upisnd_element_analog_input_set_opts, upisnd_element_encoder_set_opts, write_ranges.
    cbn [ain_input_range ain_value_range enc_input_range enc_value_range].
    rewrite (write_int_denied w _ h (low ir) s err Hr Ho He).
    do 3 (change (-1 >=? 0) with false; cbn [negb fst snd errno set_errno trace log]).
    repeat split; try reflexivity; rewrite writes_app; cbn [writes]; apply app_nil_r.
Qed.

(** * Reading the options *)

Lemma read_int_reads (w : world) (attr : upisnd_element_attr_e) (h : ptr) (s : state)
    (data : string) :
  element_ready s h -> attr_reads w attr data ->
  exists s',
    upisnd_element_attr_read_int w attr (Some h) s = (attr_number w data, s')
    /\ errno s' = 0 /\ same_store s s' /\ writes (trace s') = writes (trace s).
Proof. intros Hr (Ho & Hl & Hrd). apply read_int_value; assumption. Qed.

Lemma read_ranges_ok (w : world) (h : ptr) (ir vr : upisnd_range_t) (s : state)
    (d0 d1 d2 d3 : string) :
  element_ready s h ->
  attr_reads w UPISND_ELEMENT_ATTR_INPUT_MIN d0 ->
  attr_reads w UPISND_ELEMENT_ATTR_INPUT_MAX d1 ->
  attr_reads w UPISND_ELEMENT_ATTR_VALUE_LOW d2 ->
  attr_reads w UPISND_ELEMENT_ATTR_VALUE_HIGH d3 ->
  exists s',
    read_ranges w (Some h) ir vr s
    = (true, mk_range (attr_number w d0) (attr_number w d1),
       mk_range (attr_number w d2) (attr_number w d3), s')
    /\ errno s' = 0 /\ same_store s s' /\ writes (trace s') = writes (trace s).
Proof.
  intros Hr R0 R1 R2 R3. unfold read_ranges.
  destruct (read_int_reads w _ h s d0 Hr R0) as (s0 & E0 & Z0 & S0 & W0).
  rewrite E0, Z0. cbn [Z.eqb negb].
  pose proof (element_ready_same s s0 h S0 Hr) as Hr0.
  destruct (read_int_reads w _ h s0 d1 Hr0 R1) as (s1 & E1 & Z1 & S1 & W1).
  rewrite E1, Z1. cbn [Z.eqb negb].
  pose proof (element_ready_same s0 s1 h S1 Hr0) as Hr1.
  destruct (read_int_reads w _ h s1 d2 Hr1 R2) as (s2 & E2 & Z2 & S2 & W2).
  rewrite E2, Z2. cbn [Z.eqb negb].
  pose proof (element_ready_same s1 s2 h S2 Hr1) as Hr2.
  destruct (read_int_reads w _ h s2 d3 Hr2 R3) as (s3 & E3 & Z3 & S3 & W3).
  rewrite E3, Z3. cbn [Z.eqb negb low high].
  exists s3. split; [reflexivity|]. split; [exact Z3|]. split.
  - apply (same_store_trans _ _ _ (same_store_trans _ _ _ (same_store_trans _ _ _ S0 S1) S2) S3).
  - congruence.
Qed.

(** X25: the option getters read input_min, input_max, value_low and
    value_high, and [upisnd_element_encoder_get_opts] the value mode as
    well.  When every read succeeds they return 0 with the four
    numbers, and the mode, in the structure.  When the first file cannot be
    opened they return -1 with the errno of the open, and the structure is
    left with -1 in the low end of its input range and its other fields as
    they were.  When the value mode reads as a text that is no mode the
    encoder getter returns -1 with errno EINVAL, the four numbers and the
    invalid mode stored. *)
Theorem X25_get_opts (w : world) (s : state) (h : ptr)
    (aopts : upisnd_analog_input_opts_t) (eopts : upisnd_encoder_opts_t) :
  element_ready s h ->
  let a := upisnd_element_analog_input_get_opts w (Some h) aopts s in
  let e := upisnd_element_encoder_get_opts w (Some h) eopts s in
  (forall d0 d1 d2 d3,
      attr_reads w UPISND_ELEMENT_ATTR_INPUT_MIN d0 ->
      attr_reads w UPISND_ELEMENT_ATTR_INPUT_MAX d1 ->
      attr_reads w UPISND_ELEMENT_ATTR_VALUE_LOW d2 ->
      attr_reads w UPISND_ELEMENT_ATTR_VALUE_HIGH d3 ->
      let ir := mk_range (attr_number w d0) (attr_number w d1) in
      let vr := mk_range (attr_number w d2) (attr_number w d3) in
      fst a = (0, mk_analog_input_opts ir vr) /\ errno (snd a) = 0
      /\ forall text,
          attr_holds w UPISND_ELEMENT_ATTR_VALUE_MODE text -> no_separator text ->
          let m := upisnd_str_to_value_mode text in
          fst e = (if m =? UPISND_VALUE_MODE_INVALID then -1 else 0, mk_encoder_opts ir vr m)
          /\ errno (snd e) = (if m =? UPISND_VALUE_MODE_INVALID then EINVAL else 0))
  /\ (forall err, a_open (w_attr w UPISND_ELEMENT_ATTR_INPUT_MIN) 0%nat = OpenErr err ->
                  not_retried err ->
                  fst a = (-1, mk_analog_input_opts (mk_range (-1) (high (ain_input_range aopts)))
                                                    (ain_value_range aopts))
                  /\ errno (snd a) = Z.pos err
                  /\ fst e = (-1, mk_encoder_opts (mk_range (-1) (high (enc_input_range eopts)))
                                                  (enc_value_range eopts) (enc_value_mode eopts))
                  /\ errno (snd e) = Z.pos err).
Proof.
  intros Hr a e. subst a e. split.
  - intros d0 d1 d2 d3 R0 R1 R2 R3 ir vr.
    unfold upisnd_element_analog_input_get_opts, upisnd_element_encoder_get_opts.
    destruct (read_ranges_ok w h (ain_input_range aopts) (ain_value_range aopts) s
                d0 d1 d2 d3 Hr R0 R1 R2 R3) as (sa & Ea & Za & _).
    destruct (read_ranges_ok w h (enc_input_range eopts) (enc_value_range eopts) s
                d0 d1 d2 d3 Hr R0 R1 R2 R3) as (se & Ee & Ze & Se & _).
    rewrite Ea, Ee. cbn [fst snd negb]. split; [reflexivity|]. split; [exact Za|].
    intros text Hh Hsep.
    destruct (attr_read_str_holds w UPISND_ELEMENT_ATTR_VALUE_MODE h se text
                (element_ready_same s se h Se Hr) Hh Hsep)
      as (n & s' & Heq & Hn & He & _).
    rewrite Heq. destruct (Z.ltb_spec n 0); [lia|].
    change (default ""%string (Some text)) with text.
    destruct (upisnd_str_to_value_mode text =? UPISND_VALUE_MODE_INVALID);
      cbn [fst snd]; split; try reflexivity.
    exact He.
  - intros err Ho He.
    unfold upisnd_element_analog_input_get_opts, upisnd_element_encoder_get_opts, read_ranges.
    rewrite (read_int_denied w _ h s err Hr Ho He).
    cbn [errno set_errno log]. change (Z.pos err =? 0) with false. cbn [negb fst snd].
    repeat split; reflexivity.
Qed.

(** * Element objects hold counted references *)

Lemma ind_cases v h : (v = Some h /\ ind v h = 1) \/ (v <> Some h /\ ind v h = 0).
Proof. unfold ind. destruct (decide (v = Some h)); auto. Qed.

Lemma holders_nonneg refs h : 0 <= holders refs h.
Proof. unfold holders. lia. Qed.

Lemma holders_insert refs o v h :
  holders (<[o := v]> refs) h = holders refs h - ind (default None (refs !! o)) h + ind v h.
Proof.
  unfold holders, ind.
  set (P := fun kv : ptr * option ptr => kv.2 = Some h).
  assert (Hl : filter P refs !! o
               = if decide (default None (refs !! o) = Some h) then Some (Some h) else None).
  { destruct (decide (default None (refs !! o) = Some h)) as [He|Hne].
    - apply map_lookup_filter_Some. destruct (refs !! o) as [y|]; cbn in He; [|discriminate].
      subst y. split; reflexivity.
    - apply map_lookup_filter_None. destruct (refs !! o) as [y|]; [right|left; reflexivity].
      intros z [= <-]. exact Hne. }
  destruct (decide (v = Some h)) as [Hp|Hp].
  - rewrite (map_filter_insert_True P) by exact Hp. rewrite map_size_insert, Hl.
    destruct (decide (default None (refs !! o) = Some h)); cbn; lia.
  - rewrite (map_filter_insert_False P) by exact Hp.
    rewrite map_filter_delete, map_size_delete, Hl.
    destruct (decide (default None (refs !! o) = Some h)) as [He|Hne]; cbn; [|lia].
    assert (size (filter P refs) <> 0%nat).
    { apply (map_size_ne_0_lookup_2 _ o). rewrite Hl.
      destruct (decide (default None (refs !! o) = Some h)); [eauto|contradiction]. }
    lia.
Qed.

Lemma holders_delete refs o h :
  holders (delete o refs) h = holders refs h - ind (default None (refs !! o)) h.
Proof.
  unfold holders, ind.
  set (P := fun kv : ptr * option ptr => kv.2 = Some h).
  rewrite (map_filter_delete P), map_size_delete.
  destruct (decide (default None (refs !! o) = Some h)) as [He|Hne].
  - assert (Hl : filter P refs !! o = Some (Some h)).
    { apply map_lookup_filter_Some. destruct (refs !! o) as [y|]; cbn in He; [|discriminate].
      subst y. split; reflexivity. }
    rewrite Hl. assert (size (filter P refs) <> 0%nat).
    { apply (map_size_ne_0_lookup_2 _ o). rewrite Hl. eauto. }
    cbn. lia.
  - assert (Hl : filter P refs !! o = None).
    { apply map_lookup_filter_None. destruct (refs !! o) as [y|]; [right|left; reflexivity].
      intros z [= <-]. exact Hne. }
    rewrite Hl. cbn. lia.
Qed.

Lemma holders_one refs o h : refs !! o = Some (Some h) -> 1 <= holders refs h.
Proof.
  intros Ho. pose proof (holders_insert refs o None h) as Hi. rewrite Ho in Hi. cbn in Hi.
  pose proof (holders_nonneg (<[o := None]> refs) h).
  destruct (ind_cases (Some h) h) as [[_ H1]|[H1 _]]; [|congruence].
  destruct (ind_cases None h) as [[H2 _]|[_ H2]]; [discriminate|]. lia.
Qed.

Lemma holders_two refs o o' h :
  o <> o' -> refs !! o = Some (Some h) -> refs !! o' = Some (Some h) -> 2 <= holders refs h.
Proof.
  intros Hne Ho Ho'. pose proof (holders_insert refs o None h) as Hi. rewrite Ho in Hi. cbn in Hi.
  assert (H1 : 1 <= holders (<[o := None]> refs) h).
  { apply (holders_one _ o'). rewrite lookup_insert_ne by exact Hne. exact Ho'. }
  destruct (ind_cases (Some h) h) as [[_ H2]|[H2 _]]; [|congruence].
  destruct (ind_cases None h) as [[H3 _]|[_ H3]]; [discriminate|]. lia.
Qed.

Lemma holders_empty h : holders ∅ h = 0.
Proof. unfold holders. rewrite map_filter_empty, map_size_empty. reflexivity. Qed.

Lemma linked_frame s s' h :
  ctxs s' = ctxs s -> nodes s' = nodes s -> linked s h -> linked s' h.
Proof.
  intros Hc Hn (nd & cx & H1 & H2 & H3). exists nd, cx. rewrite Hc, Hn. auto.
Qed.

Lemma rcz_frame s s' h : nodes s' = nodes s -> rcz s' h = rcz s h.
Proof. intros Hn. unfold rcz. rewrite Hn. reflexivity. Qed.

Lemma linked_rcz s h : wf s -> linked s h -> 1 <= rcz s h <= INT_MAX.
Proof.
  intros Hwf (nd & cx & Hh & Hc & Hin).
  destruct (wf_ctx _ _ _ Hwf Hc) as [Hlive _].
  rewrite Forall_forall in Hlive. specialize (Hlive h Hin).
  unfold live_in in Hlive. unfold rcz. rewrite Hh in *. tauto.
Qed.

(** Taking a reference to a linked node. *)
Lemma add_ref_linked s h :
  wf s -> linked s h -> rcz s h < INT_MAX ->
  exists s', upisnd_element_add_ref (Some h) s = (Some h, s')
    /\ wf s'
    /\ (forall h', linked s' h' <-> linked s h')
    /\ (forall h', rcz s' h' = rcz s h' + ind (Some h) h').
Proof.
  intros Hwf Hl Hmax. pose proof (linked_rcz s h Hwf Hl) as Hrc.
  destruct Hl as (nd & cx & Hh & Hc & Hin).
  unfold rcz in Hmax, Hrc. rewrite Hh in Hmax, Hrc.
  unfold upisnd_element_add_ref. rewrite Hh.
  assert (Hi : int32 (el_refcount nd + 1) = el_refcount nd + 1).
  { apply int32_small. unfold INT_MAX in *. lia. }
  rewrite Hi. eexists. split; [reflexivity|].
  set (s' := set_nodes _ s).
  assert (Hn : nodes s' = <[h := mk_node (el_refcount nd + 1) (el_name nd) (el_ctx nd)]> (nodes s))
    by reflexivity.
  split; [|split].
  - apply (wf_store_refcount s s' h nd (el_refcount nd + 1)); try reflexivity; auto. lia.
  - intros h'. unfold linked. change (ctxs s') with (ctxs s). rewrite Hn. split.
    + intros (nd' & cx' & H1 & H2 & H3). destruct (decide (h = h')) as [<-|Hne].
      * rewrite lookup_insert_eq in H1. injection H1 as <-. cbn in H2. eauto.
      * rewrite lookup_insert_ne in H1 by exact Hne. eauto.
    + intros (nd' & cx' & H1 & H2 & H3). destruct (decide (h = h')) as [<-|Hne].
      * rewrite lookup_insert_eq. eexists _, cx'. split; [reflexivity|]. cbn.
        assert (nd' = nd) by congruence. subst nd'. auto.
      * rewrite lookup_insert_ne by exact Hne. eauto.
  - intros h'. unfold rcz. rewrite Hn. unfold ind.
    destruct (decide (Some h = Some h')) as [[= <-]|Hne].
    + rewrite lookup_insert_eq, Hh. reflexivity.
    + rewrite lookup_insert_ne by congruence. lia.
Qed.

(** Giving back a reference to a linked node. *)
Lemma unref_linked w s h :
  wf s -> linked s h ->
  exists s', upisnd_element_unref w (Some (Some h)) s = (Some None, s')
    /\ wf s'
    /\ (forall h', linked s' h' -> linked s h' /\ rcz s' h' = rcz s h' - ind (Some h) h')
    /\ (forall h', linked s h' -> h' <> h \/ 1 < rcz s h -> linked s' h').
Proof.
  intros Hwf Hl. pose proof (linked_rcz s h Hwf Hl) as Hrc.
  destruct Hl as (nd & cx & Hh & Hc & Hin).
  pose proof (wf_element_unref w s h nd cx Hwf Hh Hc Hin) as Hwf'.
  unfold rcz in Hrc. rewrite Hh in Hrc.
  destruct (Z.eq_dec (el_refcount nd) 1) as [H1|Hne1].
  - destruct (element_unref_last w s h nd cx Hh H1 Hc Hin)
      as (s' & l' & Heq & Hu & Hn & Hcs & Hf & Ha & _).
    rewrite Heq in *. cbn [snd] in Hwf'. exists s'. split; [reflexivity|]. split; [exact Hwf'|].
    destruct (wf_ctx _ _ _ Hwf Hc) as [Hlive Hnames].
    pose proof (NoDup_links _ _ _ Hlive Hnames) as Hnd.
    pose proof (unlink_spec _ _ _ Hu Hnd) as Hspec.
    split.
    + intros h' (nd' & cx' & G1 & G2 & G3). rewrite Hn in G1.
      destruct (decide (h = h')) as [<-|Hne]; [rewrite lookup_delete_eq in G1; discriminate|].
      rewrite lookup_delete_ne in G1 by exact Hne. split.
      * rewrite Hcs in G2. destruct (decide (el_ctx nd = el_ctx nd')) as [He|Hce].
        -- rewrite He, lookup_insert_eq in G2. injection G2 as <-. cbn in G3.
           apply Hspec in G3 as [G3 _]. exists nd', cx. rewrite <- He. auto.
        -- rewrite lookup_insert_ne in G2 by exact Hce. exists nd', cx'. auto.
      * unfold rcz. rewrite Hn, lookup_delete_ne by exact Hne. unfold ind.
        rewrite decide_False by congruence. lia.
    + intros h' (nd' & cx' & G1 & G2 & G3) [Hne|Hgt].
      2:{ unfold rcz in Hgt. rewrite Hh in Hgt. lia. }
      exists nd'. rewrite Hn, Hcs. rewrite lookup_delete_ne by congruence.
      destruct (decide (el_ctx nd = el_ctx nd')) as [He|Hce].
      * rewrite He, lookup_insert_eq. eexists. split; [exact G1|]. split; [reflexivity|].
        cbn. apply Hspec. split; [|exact Hne]. rewrite <- He in G2. congruence.
      * rewrite lookup_insert_ne by exact Hce. eauto.
  - assert (Hi : int32 (el_refcount nd - 1) = el_refcount nd - 1).
    { apply int32_small. unfold INT_MAX in Hrc. lia. }
    rewrite (element_unref_keeps w s h nd Hh) in * by (rewrite Hi; lia).
    cbn [snd] in Hwf'. rewrite Hi in *. eexists. split; [reflexivity|]. split; [exact Hwf'|].
    set (s' := set_nodes _ s) in *.
    assert (Hn : nodes s' = <[h := mk_node (el_refcount nd - 1) (el_name nd) (el_ctx nd)]> (nodes s))
      by reflexivity.
    split.
    + intros h' (nd' & cx' & G1 & G2 & G3). change (ctxs s') with (ctxs s) in G2.
      rewrite Hn in G1. split.
      * destruct (decide (h = h')) as [<-|Hne].
        -- rewrite lookup_insert_eq in G1. injection G1 as <-. cbn in G2. exists nd, cx'. auto.
        -- rewrite lookup_insert_ne in G1 by exact Hne. exists nd', cx'. auto.
      * unfold rcz. rewrite Hn. unfold ind.
        destruct (decide (Some h = Some h')) as [[= <-]|Hne].
        -- rewrite lookup_insert_eq, Hh. reflexivity.
        -- rewrite lookup_insert_ne by congruence. lia.
    + intros h' (nd' & cx' & G1 & G2 & G3) _. unfold linked.
      change (ctxs s') with (ctxs s). rewrite Hn.
      destruct (decide (h = h')) as [<-|Hne].
      * rewrite lookup_insert_eq. eexists _, cx'. split; [reflexivity|]. cbn.
        assert (nd' = nd) by congruence. subst nd'. auto.
      * rewrite lookup_insert_ne by exact Hne. eauto.
Qed.

Lemma Element_ref_lookup this x :
  Element_ref this x = default None (c_refs x !! this).
Proof. reflexivity. Qed.

Lemma counted_with_None s refs : counted (mk_cxx s refs) <-> counted_with s refs None.
Proof.
  unfold counted, counted_with. cbn. split.
  - intros (H1 & H2 & H3). split; [exact H1|]. split; [exact H2|].
    split; [discriminate|].
    intros h Hl. specialize (H3 h Hl).
    destruct (ind_cases None h) as [[? _]|[_ ->]]; [discriminate | lia].
  - intros (H1 & H2 & _ & H3). split; [exact H1|]. split; [exact H2|].
    intros h Hl. specialize (H3 h Hl).
    destruct (ind_cases None h) as [[? _]|[_ E]]; [discriminate | lia].
Qed.

(** Storing the reference in hand in an object. *)
Lemma set_with s refs this v :
  counted_with s refs v -> counted (mk_cxx s (<[this := v]> refs)).
Proof.
  intros (Hwf & H2 & Hv & H3). split; [exact Hwf|]. cbn. split.
  - intros o h. destruct (decide (this = o)) as [<-|Hne].
    + rewrite lookup_insert_eq. intros [= ->]. auto.
    + rewrite lookup_insert_ne by exact Hne. apply H2.
  - intros h Hl. rewrite holders_insert. specialize (H3 h Hl).
    destruct (ind_cases (default None (refs !! this)) h) as [[_ E]|[_ E]]; lia.
Qed.

(** The object gives its reference back. *)
Lemma unref_with w s refs this v :
  counted_with s refs v ->
  counted_with (snd (upisnd_element_unref w (Some (default None (refs !! this))) s))
               (<[this := None]> refs) v
  /\ fst (upisnd_element_unref w (Some (default None (refs !! this))) s) = Some None.
Proof.
  intros (Hwf & H2 & Hv & H3).
  destruct (refs !! this) as [[h0|]|] eqn:Hthis; cbn [default from_option id].
  - pose proof (H2 _ _ Hthis) as Hl0.
    destruct (unref_linked w s h0 Hwf Hl0) as (s' & Heq & Hwf' & Hback & Hfwd).
    rewrite Heq. cbn [fst snd]. split; [|reflexivity].
    pose proof (holders_one _ _ _ Hthis) as Hone.
    split; [exact Hwf'|]. split; [|split].
    + intros o h. destruct (decide (this = o)) as [<-|Hne].
      * rewrite lookup_insert_eq. discriminate.
      * rewrite lookup_insert_ne by exact Hne. intros Ho.
        apply Hfwd; [eauto|]. destruct (decide (h = h0)) as [->|Hd]; [right|left; exact Hd].
        pose proof (holders_two refs this o h0 Hne Hthis Ho).
        specialize (H3 h0 Hl0). destruct (ind_cases v h0) as [[_ E]|[_ E]]; lia.
    + intros h ->. apply Hfwd; [auto|].
      destruct (decide (h = h0)) as [->|Hd]; [right|left; exact Hd].
      specialize (H3 h0 Hl0). destruct (ind_cases (Some h0) h0) as [[_ E]|[E _]]; [lia|congruence].
    + intros h Hl. destruct (Hback h Hl) as [Hl' Hrc]. specialize (H3 h Hl').
      rewrite holders_insert, Hthis, Hrc. cbn [default from_option id].
      destruct (ind_cases None h) as [[? _]|[_ E]]; [discriminate|]. lia.
  - cbn. split; [|reflexivity]. split; [exact Hwf|]. split; [|split; [exact Hv|]].
    + intros o h. destruct (decide (this = o)) as [<-|Hne].
      * rewrite lookup_insert_eq. discriminate.
      * rewrite lookup_insert_ne by exact Hne. apply H2.
    + intros h Hl. specialize (H3 h Hl). rewrite holders_insert, Hthis. cbn [default from_option id].
      destruct (ind_cases None h) as [[? _]|[_ E]]; [discriminate|]. lia.
  - cbn. split; [|reflexivity]. split; [exact Hwf|]. split; [|split; [exact Hv|]].
    + intros o h. destruct (decide (this = o)) as [<-|Hne].
      * rewrite lookup_insert_eq. discriminate.
      * rewrite lookup_insert_ne by exact Hne. apply H2.
    + intros h Hl. specialize (H3 h Hl). rewrite holders_insert, Hthis. cbn [default from_option id].
      destruct (ind_cases None h) as [[? _]|[_ E]]; [discriminate|]. lia.
Qed.

(** Taking a reference to a linked handle, or to none. *)
Lemma add_ref_with s refs el :
  counted (mk_cxx s refs) -> (forall h, el = Some h -> linked s h) -> counts_bounded s ->
  fst (upisnd_element_add_ref el s) = el
  /\ counted_with (snd (upisnd_element_add_ref el s)) refs el.
Proof.
  intros Hc Hel Hmax. destruct el as [h|].
  - destruct Hc as (Hwf & H2 & H3). cbn in Hwf, H2, H3.
    pose proof (Hel h eq_refl) as Hl.
    destruct (add_ref_linked s h Hwf Hl) as (s' & Heq & Hwf' & Hiff & Hrc).
    { destruct Hl as (nd & cx & Hh & _). unfold rcz. rewrite Hh. exact (Hmax h nd Hh). }
    rewrite Heq. cbn [fst snd]. split; [reflexivity|].
    split; [exact Hwf'|]. split; [|split].
    + intros o h' Ho. apply Hiff. eauto.
    + intros h' [= <-]. apply Hiff. exact Hl.
    + intros h' Hl'. apply Hiff in Hl'. rewrite Hrc. specialize (H3 h' Hl'). lia.
  - cbn. split; [reflexivity|]. apply counted_with_None. exact Hc.
Qed.

(** Taking the reference out of an object. *)
Lemma take_with s refs rhs :
  counted (mk_cxx s refs) ->
  counted_with s (<[rhs := None]> refs) (default None (refs !! rhs)).
Proof.
  intros (Hwf & H2 & H3). cbn in *. split; [exact Hwf|]. split; [|split].
  - intros o h. destruct (decide (rhs = o)) as [<-|Hne].
    + rewrite lookup_insert_eq. discriminate.
    + rewrite lookup_insert_ne by exact Hne. apply H2.
  - intros h Hh. destruct (refs !! rhs) as [v|] eqn:E; cbn in Hh; [|discriminate].
    subst v. eauto.
  - intros h Hl. specialize (H3 h Hl). rewrite holders_insert.
    destruct (ind_cases None h) as [[? _]|[_ E]]; [discriminate|]. lia.
Qed.

(** The object goes. *)
Lemma delete_counted s refs this :
  counted (mk_cxx s refs) -> counted (mk_cxx s (delete this refs)).
Proof.
  intros (Hwf & H2 & H3). cbn in *. split; [exact Hwf|]. cbn. split.
  - intros o h Ho. apply lookup_delete_Some in Ho as [_ Ho]. eauto.
  - intros h Hl. specialize (H3 h Hl). rewrite holders_delete.
    destruct (ind_cases (default None (refs !! this)) h) as [[_ E]|[_ E]]; lia.
Qed.

Lemma counted_with_frame s s' refs v :
  counted_with s refs v -> ctxs s' = ctxs s -> nodes s' = nodes s -> fault s' = fault s ->
  upisnd_active_ctx s' = upisnd_active_ctx s -> counted_with s' refs v.
Proof.
  intros (Hwf & H2 & Hv & H3) Hc Hn Hf Ha. split; [apply (wf_frame s); auto|].
  assert (Hl : forall h, linked s' h <-> linked s h).
  { intros h. split; apply linked_frame; congruence. }
  split; [|split].
  - intros o h Ho. apply Hl. eauto.
  - intros h Hh. apply Hl. auto.
  - intros h Hh. apply Hl in Hh. rewrite (rcz_frame s s') by exact Hn. auto.
Qed.

(** The lookup hands out a counted reference, or none. *)
Lemma get_with s refs name :
  counted (mk_cxx s refs) -> counts_bounded s ->
  counted_with (snd (upisnd_element_get (Some name) s)) refs
               (fst (upisnd_element_get (Some name) s)).
Proof.
  intros Hc Hmax. pose proof Hc as (Hwf & H2 & H3). cbn in Hwf, H2, H3.
  assert (Hnone : forall e, counted_with (set_errno e s) refs None).
  { intros e. apply (counted_with_frame s); try reflexivity. apply counted_with_None, Hc. }
  unfold upisnd_element_get.
  destruct (upisnd_active_ctx s) as [c|] eqn:Hact; [|apply Hnone].
  destruct (upisnd_validate_element_name (Some name) <? 0); [apply Hnone|].
  destruct Hwf as (Hf & Ha & Hw). destruct (Ha c Hact) as [cx Hcx]. rewrite Hcx.
  assert (Hwf : wf s) by (split; [|split]; assumption).
  destruct (Hw c cx Hcx) as [Hlive _].
  destruct (scan_elements (nodes s) name (ctx_elements cx)) as [[h|]|] eqn:Hscan.
  - apply scan_elements_sound in Hscan as (Hin & nd & Hnd & Hname).
    assert (Hl : linked s h).
    { exists nd, cx. split; [exact Hnd|]. split; [|exact Hin].
      rewrite Forall_forall in Hlive. specialize (Hlive h Hin).
      unfold live_in in Hlive. rewrite Hnd in Hlive. destruct Hlive as [-> _]. exact Hcx. }
    destruct (add_ref_with s refs (Some h) Hc) as [Hfst Hcw]; [intros ? [= <-]; exact Hl | exact Hmax |].
    destruct (upisnd_element_add_ref (Some h) s) as [r s1]. cbn [fst snd] in *.
    apply (counted_with_frame s1); try reflexivity. exact Hcw.
  - cbn [fst snd]. apply counted_with_None, Hc.
  - exfalso. apply (scan_elements_live _ _ _ _ Hlive Hscan).
Qed.

Lemma holders_zero refs h :
  (forall o, refs !! o <> Some (Some h)) -> holders refs h = 0.
Proof.
  intros Hno. unfold holders.
  assert (E : filter (fun kv : ptr * option ptr => kv.2 = Some h) refs = ∅).
  { apply map_empty_filter. intros o v Ho Hv. cbn in Hv. subst v. exact (Hno o Ho). }
  rewrite E, map_size_empty. reflexivity.
Qed.

(** A setup hands out a counted reference, or none. *)
Lemma setup_do_with w s refs name request :
  counted (mk_cxx s refs) -> counts_bounded s ->
  (forall p, w_malloc w = Some p -> nodes s !! p = None) ->
  counted_with (snd (upisnd_setup_do w (upisnd_active_ctx s) name request s)) refs
               (fst (upisnd_setup_do w (upisnd_active_ctx s) name request s)).
Proof.
  intros Hc Hmax Hfresh. pose proof Hc as (Hwf & H2 & H3). cbn in Hwf, H2, H3.
  assert (Hnone : counted_with s refs None) by (apply counted_with_None, Hc).
  assert (Herr : forall e, counted_with (set_errno e s) refs None).
  { intros e. apply (counted_with_frame s); try reflexivity. exact Hnone. }
  destruct (upisnd_active_ctx s) as [c|] eqn:Hact; [|apply Herr].
  unfold upisnd_setup_do.
  destruct name as [name|]; [|apply Herr].
  destruct (Z.ltb_spec (upisnd_validate_element_name (Some name)) 0) as [|Hval];
    [apply Herr|].
  pose proof Hwf as (Hf & Ha & Hw). destruct (Ha c Hact) as [cx Hcx]. rewrite Hcx.
  destruct (upisnd_path UPISND_PATH_SETUP (ctx_sysfs_base cx)) as [err path].
  destruct (err <? 0); [apply Herr|]. cbv zeta.
  destruct ((strlen request <? 0)
            || (strlen request + (upisnd_validate_element_name (Some name) + 1)
                >=? UPISND_MAX_REQUEST_LENGTH)); [apply Herr|].
  set (payload := (name +:+ " " +:+ request)%string).
  destruct (registered_or_absent s c cx name Hwf Hcx) as [(h & nd & Hin & Hh & Hname)|Habs].
  - (* attach *)
    rewrite (element_get_registered s c name h nd cx Hwf Hact Hcx Hval Hin Hh Hname).
    set (nd1 := mk_node (int32 (el_refcount nd + 1)) (el_name nd) (el_ctx nd)).
    set (s1 := set_errno 0 (set_nodes (<[h := nd1]> (nodes s)) s)).
    destruct (registered_live s c name h Hwf) as (cx' & nd' & _ & _ & Hh' & _ & Hctx & Hrc).
    { exists cx, nd. auto. }
    assert (nd' = nd) by congruence. subst nd'.
    pose proof (Hmax h nd Hh) as Hlt.
    assert (Hl : linked s h) by (exists nd, cx; rewrite Hctx; auto).
    destruct (add_ref_with s refs (Some h) Hc) as [_ Hcw];
      [intros ? [= <-]; exact Hl | exact Hmax |].
    unfold upisnd_element_add_ref in Hcw. rewrite Hh in Hcw. cbn [snd] in Hcw.
    destruct (txn_cases (w_setup w)) as [Hok|[e Hfail]].
    + destruct (setup_finish_attach_ok w h path payload s1 Hok)
        as (s' & Heq & (Hs1 & Hs2 & Hs3 & Hs4 & Hs5) & _).
      rewrite Heq. cbn [fst snd]. eapply counted_with_frame; [exact Hcw| | | |];
        [rewrite Hs1 | rewrite Hs2 | rewrite Hs4 | rewrite Hs3]; reflexivity.
    + destruct (setup_finish_attach_fails w h nd1 path payload s1 e Hfail)
        as (s' & l & Heq & _ & Hn & Hcs & Hfl & _ & _ & _ & Hac).
      { subst s1. cbn. apply lookup_insert_eq. }
      { subst nd1. cbn. rewrite int32_inc_dec by (unfold INT_MAX in *; lia). lia. }
      rewrite Heq. cbn [fst snd]. apply (counted_with_frame s); [exact Hnone| | | |].
      * rewrite Hcs. reflexivity.
      * rewrite Hn. subst s1 nd1. cbn.
        rewrite int32_inc_dec by (unfold INT_MAX in *; lia).
        rewrite insert_insert_eq, node_eta. apply insert_id, Hh.
      * rewrite Hfl. reflexivity.
      * rewrite Hac. reflexivity.
  - (* first setup *)
    rewrite (element_get_absent s c name cx Hwf Hact Hcx Hval Habs).
    unfold upisnd_element_alloc.
    destruct (w_malloc w) as [p|] eqn:Hm; [|apply Herr].
    specialize (Hfresh p eq_refl).
    set (s2 := set_nodes (<[p := mk_node 1 name c]> (nodes s)) s).
    destruct (exists_in_sysfs_spec w (ctx_sysfs_base cx) name s2)
      as (b & s3 & Heq3 & (Hs1 & Hs2 & Hs3 & Hs4 & Hs5) & _).
    rewrite Heq3.
    destruct (txn_cases (w_setup w)) as [Hok|[e Hfail]].
    + destruct (setup_finish_fresh_ok w p (mk_node 1 name c) cx b path payload s3 Hok)
        as (s' & Heq & Hn & Hcs & Hfl & Hac & _).
      { rewrite Hs2. subst s2. cbn. apply lookup_insert_eq. }
      { cbn. rewrite Hs1. exact Hcx. }
      rewrite Heq. cbn [fst snd]. cbn [el_ctx] in Hcs.
      assert (Hn' : nodes s' = <[p := mk_node 1 name c]> (nodes s))
        by (rewrite Hn, Hs2; reflexivity).
      assert (Hcs' : ctxs s' = <[c := mk_ctx (ctx_refcount cx) (ctx_sysfs_base cx)
                                             (p :: ctx_elements cx)]> (ctxs s))
        by (rewrite Hcs, Hs1; reflexivity).
      assert (Hwf' : wf s').
      { apply (wf_link_fresh s s' c cx p name); auto.
        - rewrite Hfl, Hs4. reflexivity.
        - rewrite Hac, Hs3. reflexivity. }
      assert (Hfwd : forall h, linked s h -> linked s' h).
      { intros h (nd & cx0 & G1 & G2 & G3).
        assert (Hne : p <> h) by (intros ->; congruence).
        exists nd. rewrite Hn', Hcs', lookup_insert_ne by exact Hne.
        destruct (decide (c = el_ctx nd)) as [He|Hce].
        - rewrite <- He, lookup_insert_eq. eexists. split; [exact G1|].
          split; [reflexivity|]. cbn. right. rewrite <- He in G2. congruence.
        - rewrite lookup_insert_ne by exact Hce. eauto. }
      assert (Hback : forall h, p <> h -> linked s' h -> linked s h /\ rcz s' h = rcz s h).
      { intros h Hne (nd & cx0 & G1 & G2 & G3).
        rewrite Hn', lookup_insert_ne in G1 by exact Hne. split.
        - exists nd. rewrite Hcs' in G2.
          destruct (decide (c = el_ctx nd)) as [He|Hce].
          + rewrite <- He, lookup_insert_eq in G2. injection G2 as <-. cbn in G3.
            apply elem_of_cons in G3 as [->|G3]; [congruence|].
            exists cx. rewrite <- He. auto.
          + rewrite lookup_insert_ne in G2 by exact Hce. eauto.
        - unfold rcz. rewrite Hn', lookup_insert_ne by exact Hne. reflexivity. }
      split; [exact Hwf'|]. split; [|split].
      * intros o h Ho. apply Hfwd. eauto.
      * intros h [= <-]. exists (mk_node 1 name c). eexists.
        rewrite Hn', Hcs', lookup_insert_eq. cbn. rewrite lookup_insert_eq.
        split; [reflexivity|]. split; [reflexivity|]. cbn. left.
      * intros h Hl. destruct (decide (p = h)) as [<-|Hne].
        -- rewrite holders_zero.
           ++ unfold rcz. rewrite Hn', lookup_insert_eq. cbn.
              destruct (ind_cases (Some p) p) as [[_ E]|[E _]]; [lia|congruence].
           ++ intros o Ho. destruct (H2 o p Ho) as (nd & _ & G1 & _). congruence.
        -- destruct (Hback h Hne Hl) as [Hl0 Hrc]. rewrite Hrc. specialize (H3 h Hl0).
           destruct (ind_cases (Some p) h) as [[E _]|[_ E]]; [congruence|lia].
    + destruct (setup_finish_fresh_fails w p b path payload s3 e Hfail)
        as (s' & l & Heq & _ & Hn & Hcs & Hfl & _ & _ & _ & Hac).
      rewrite Heq. cbn [fst snd]. apply (counted_with_frame s); [exact Hnone| | | |].
      * rewrite Hcs, Hs1. reflexivity.
      * rewrite Hn, Hs2. subst s2. cbn. apply delete_insert_id, Hfresh.
      * rewrite Hfl, Hs4. reflexivity.
      * rewrite Hac, Hs3. reflexivity.
Qed.

Lemma setup_with w s refs name setup :
  counted (mk_cxx s refs) -> counts_bounded s ->
  (forall p, w_malloc w = Some p -> nodes s !! p = None) ->
  counted_with (snd (upisnd_setup w name setup s)) refs (fst (upisnd_setup w name setup s)).
Proof.
  intros Hc Hmax Hfresh.
  assert (Herr : forall e, counted_with (set_errno e s) refs None).
  { intros e. apply (counted_with_frame s); try reflexivity. apply counted_with_None, Hc. }
  unfold upisnd_setup, upisnd_setup_encoder, upisnd_setup_analog_input,
    upisnd_setup_gpio_input, upisnd_setup_gpio_output, upisnd_setup_activity.
  repeat match goal with
         | |- context [if ?b then _ else _] => destruct b
         end;
    first [apply setup_do_with; assumption | apply Herr].
Qed.

(** Every operation keeps the invariant. *)
Lemma Element_step_counted w op x :
  counted x -> Element_op_ok w op x -> counted (Element_step w op x).
Proof.
  destruct x as [s refs]. intros Hc Hok.
  destruct op as [this|this el|this rhs|this rhs|this rhs|this rhs|this|this|this name
                  |this name setup];
    cbn [Element_step Element_op_ok c_st c_refs] in *.
  - unfold Element_default. cbn. apply set_with, counted_with_None, Hc.
  - destruct Hok as (_ & Hel & Hmax).
    unfold Element_from_ref. cbn [c_st c_refs].
    destruct (add_ref_with s refs el Hc Hel Hmax) as [Hfst Hcw].
    destruct (upisnd_element_add_ref el s) as [r s1]. cbn [fst snd] in *. subst r.
    apply set_with, Hcw.
  - destruct Hok as (_ & _ & Hmax).
    unfold Element_copy, Element_from_ref, Element_ref. cbn [c_st c_refs].
    destruct (add_ref_with s refs (default None (refs !! rhs)) Hc) as [Hfst Hcw]; [|exact Hmax|].
    { intros h Hh. destruct Hc as (_ & H2 & _). cbn in H2.
      destruct (refs !! rhs) as [v|] eqn:E; cbn in Hh; [|discriminate]. subst v. eauto. }
    destruct (upisnd_element_add_ref (default None (refs !! rhs)) s) as [r s1].
    cbn [fst snd] in *. subst r. apply set_with, Hcw.
  - destruct Hok as (_ & _ & Hmax). unfold Element_assign.
    destruct (Pos.eqb_spec this rhs) as [_|Hne]; [exact Hc|].
    unfold Element_ref. cbn [c_st c_refs].
    destruct (add_ref_with s refs (default None (refs !! rhs)) Hc) as [_ Hcw]; [|exact Hmax|].
    { intros h Hh. destruct Hc as (_ & H2 & _). cbn in H2.
      destruct (refs !! rhs) as [v|] eqn:E; cbn in Hh; [|discriminate]. subst v. eauto. }
    set (r := default None (refs !! rhs)) in *.
    set (s1 := match r with Some _ => snd (upisnd_element_add_ref r s) | None => s end).
    assert (Hs1 : s1 = snd (upisnd_element_add_ref r s)) by (subst s1; destruct r; reflexivity).
    rewrite Hs1.
    destruct (unref_with w _ refs this r Hcw) as [Hcw2 _].
    destruct (upisnd_element_unref w (Some (default None (refs !! this))) _) as [r2 s2].
    cbn [snd] in Hcw2. apply (set_with _ _ this) in Hcw2.
    rewrite insert_insert_eq in Hcw2. exact Hcw2.
  - unfold Element_move, Element_ref. cbn [c_st c_refs].
    destruct (decide (this = rhs)) as [->|Hne].
    + rewrite insert_insert_eq. apply set_with, counted_with_None, Hc.
    + rewrite insert_insert_ne by congruence. apply set_with, take_with, Hc.
  - unfold Element_move_assign.
    destruct (Pos.eqb_spec this rhs) as [_|Hne]; [exact Hc|].
    unfold Element_ref. cbn [c_st c_refs].
    pose proof (take_with s refs rhs Hc) as Hcw.
    destruct (unref_with w s _ this _ Hcw) as [Hcw2 _].
    rewrite lookup_insert_ne in Hcw2 by congruence.
    destruct (upisnd_element_unref w (Some (default None (refs !! this))) s) as [r2 s2].
    cbn [snd] in Hcw2. apply (set_with _ _ this) in Hcw2.
    rewrite insert_insert_eq in Hcw2. rewrite insert_insert_ne by congruence. exact Hcw2.
  - unfold Element_dtor, Element_ref. cbn [c_st c_refs].
    destruct (unref_with w s refs this None) as [Hcw _]; [apply counted_with_None, Hc|].
    destruct (upisnd_element_unref w (Some (default None (refs !! this))) s) as [r2 s2].
    cbn [snd] in Hcw. apply counted_with_None in Hcw.
    apply (delete_counted _ _ this) in Hcw. rewrite delete_insert_eq in Hcw. exact Hcw.
  - unfold Element_release, Element_ref. cbn [c_st c_refs].
    destruct (unref_with w s refs this None) as [Hcw Hfst]; [apply counted_with_None, Hc|].
    destruct (upisnd_element_unref w (Some (default None (refs !! this))) s) as [r2 s2].
    cbn [fst snd] in *. subst r2. cbn [default from_option id]. apply counted_with_None, Hcw.
  - destruct Hok as (_ & Hmax). unfold Element_get, Element_adopt. cbn [c_st c_refs].
    pose proof (get_with s refs name Hc Hmax) as Hcw.
    destruct (upisnd_element_get (Some name) s) as [r s1]. cbn [fst snd c_st c_refs] in *.
    apply set_with, Hcw.
  - destruct Hok as (_ & Hmax & Hfresh). unfold Element_setup, Element_adopt.
    cbn [c_st c_refs].
    pose proof (setup_with w s refs (Some name) setup Hc Hmax Hfresh) as Hcw.
    destruct (upisnd_setup w (Some name) setup s) as [r s1]. cbn [fst snd c_st c_refs] in *.
    apply set_with, Hcw.
Qed.

(** X26: an Element object never holds a dangling handle.  From a state
    in which every object holds a counted reference, whatever program of
    constructions, copies, assignments, moves, move assignments, lookups,
    setups, releases and destructions a client runs and whatever the system calls
    answer, no freed node is touched, and every handle an object holds
    afterwards is a live node linked in its registry whose count is at
    least the number of objects holding it. *)
Theorem X26_element_handles (prog : list (world * Element_op)) (x : cxx) :
  counted x -> Element_run_ok prog x ->
  let x' := Element_run prog x in
  counted x'
  /\ fault (c_st x') = false
  /\ forall o h, c_refs x' !! o = Some (Some h) ->
       exists nd, nodes (c_st x') !! h = Some nd
                  /\ registered (c_st x') (el_ctx nd) (el_name nd) h
                  /\ 1 <= holders (c_refs x') h <= el_refcount nd.
Proof.
  revert x. induction prog as [|[w op] prog IH]; intros x Hc Hok; cbn [Element_run].
  - cbv zeta. split; [exact Hc|]. destruct Hc as (Hwf & H2 & H3).
    split; [apply Hwf|]. intros o h Ho.
    pose proof (H2 o h Ho) as Hl. pose proof (H3 h Hl) as Hle.
    destruct Hl as (nd & cx & Hh & Hcx & Hin). exists nd. split; [exact Hh|]. split.
    + exists cx, nd. auto.
    + unfold rcz in Hle. rewrite Hh in Hle. pose proof (holders_one _ _ _ Ho). lia.
  - destruct Hok as [Hok Hrest]. apply IH; [|exact Hrest].
    apply Element_step_counted; assumption.
Qed.

(** * The value of an element, through the classes *)

(** X27: what the value accessors of the classes return, for a live
    element whose paths fit.  When the value file cannot be opened,
    [Gpio::set] returns minus the error of the open, [Gpio::get] returns -1
    and leaves EBADF in errno, and [Encoder::get] and [AnalogInput::get]
    return minus EBADF, whatever the error of the open was.  When the file
    opens and is read, the three getters return the number read.  When it
    opens, [Gpio::set] returns 1, the length of the text written, after
    writing 1 or 0 to the file, and -1 when a call on the descriptor fails. *)
Theorem X27_value_accessors (w : world) (cl : sys_res) (s : state) (h : ptr) :
  element_ready s h ->
  let value := UPISND_ELEMENT_ATTR_VALUE in
  (forall e, a_open (w_attr w value) 0%nat = OpenErr e -> not_retried e ->
     (forall b, fst (Gpio_set w cl (Some h) b s) = - Z.pos e)
     /\ fst (Gpio_get w cl (Some h) s) = -1
     /\ errno (snd (Gpio_get w cl (Some h) s)) = EBADF
     /\ fst (Encoder_get w cl (Some h) s) = - EBADF
     /\ fst (AnalogInput_get w cl (Some h) s) = - EBADF
     /\ writes (trace (snd (Gpio_set w cl (Some h) true s))) = writes (trace s))
  /\ (forall data, attr_reads w value data ->
        fst (Gpio_get w cl (Some h) s) = attr_number w data
        /\ fst (Encoder_get w cl (Some h) s) = attr_number w data
        /\ fst (AnalogInput_get w cl (Some h) s) = attr_number w data)
  /\ (attr_opens w value ->
      forall b,
        (attr_write_ok w value ->
         fst (Gpio_set w cl (Some h) b s) = 1
         /\ writes (trace (snd (Gpio_set w cl (Some h) b s)))
            = writes (trace s)
              ++ [(attr_path value (Some h) s, if b then "1" else "0")%string])
        /\ (~ attr_write_ok w value -> fst (Gpio_set w cl (Some h) b s) = -1)).
Proof.
  intros Hr value. subst value. split; [|split].
  - intros e Ho [H1 H2].
    unfold Gpio_set, Gpio_get, Encoder_get, AnalogInput_get, upisnd_element_open_value_fd.
    rewrite !(attr_open_denied w UPISND_ELEMENT_ATTR_VALUE _ h s e Hr Ho H1 H2).
    unfold ValueFd_read, ValueFd_drop. cbn.
    split; [intros b; reflexivity|]. repeat split.
    rewrite writes_app. cbn. apply app_nil_r.
  - intros data (Ho & Hl & Hrd).
    unfold Gpio_get, Encoder_get, AnalogInput_get, upisnd_element_open_value_fd.
    destruct (attr_open_first w UPISND_ELEMENT_ATTR_VALUE (Z.lor O_RDONLY O_CLOEXEC) h s Hr Ho) as [fd Hopen].
    rewrite Hopen. unfold ValueFd_read.
    destruct (Z.leb_spec 0 (Z.of_N fd)); [|lia].
    unfold upisnd_value_read. rewrite Hl, Hrd. cbn. repeat split.
  - intros Ho b.
    unfold Gpio_set, upisnd_element_open_value_fd.
    destruct (attr_open_first w UPISND_ELEMENT_ATTR_VALUE (Z.lor O_WRONLY O_CLOEXEC) h s Hr Ho) as [fd Hopen].
    rewrite Hopen. unfold ValueFd_write, ValueFd_drop.
    destruct (Z.leb_spec 0 (Z.of_N fd)); [|lia].
    unfold upisnd_value_write, seek_write_sync, attr_write_ok.
    assert (Hp : pretty (if b then 1 else 0) = (if b then "1" else "0")%string)
      by (destruct b; vm_compute; reflexivity).
    rewrite Hp.
    assert (Hlen : strlen (if b then "1" else "0")%string = 1) by (destruct b; reflexivity).
    destruct (a_lseek (w_attr w UPISND_ELEMENT_ATTR_VALUE)) as [|e1];
      [destruct (a_write (w_attr w UPISND_ELEMENT_ATTR_VALUE)) as [|e2];
       [destruct (a_fdatasync (w_attr w UPISND_ELEMENT_ATTR_VALUE)) as [|e3]|]|]; cbn [fst snd].
    + split.
      * intros _. split; [exact Hlen|]. destruct cl; cbn; rewrite !writes_app; cbn;
          rewrite ?app_nil_r; reflexivity.
      * intros Hn. exfalso. apply Hn. repeat split.
    + split; [intros (_ & _ & Hx); discriminate Hx | reflexivity].
    + split; [intros (_ & Hx & _); discriminate Hx | reflexivity].
    + split; [intros (Hx & _); discriminate Hx | reflexivity].
Qed.

(** ** More witnesses *)

Lemma element_ready_state_one : element_ready state_one 5%positive.
Proof.
  exists node_one, ctx_one. split; [apply lookup_singleton_eq|].
  split; [apply lookup_singleton_eq|]. split; vm_compute; discriminate.
Qed.

Lemma counts_bounded_state_one : counts_bounded state_one.
Proof.
  intros h nd H. unfold state_one in H. cbn [nodes] in H.
  apply lookup_singleton_Some in H. destruct H as [_ <-]. vm_compute. reflexivity.
Qed.

Lemma is_Some_true {A} (o : option A) :
  match o with Some _ => true | None => false end = true -> is_Some o.
Proof. destruct o; [eauto | discriminate]. Qed.

Lemma X6_long_root_witness :
  58 <= strlen (ctx_sysfs_base ctx_long)
  /\ upisnd_setup_do world_good (Some 1%positive) (Some "enc") "gpio B03 output 1" state_long
     = (None, set_errno ENAMETOOLONG state_long)
  /\ upisnd_unsetup_do world_good (ctx_sysfs_base ctx_long) "enc" state_long
     = (- ENAMETOOLONG, state_long).
Proof.
  assert (Hval : 0 <= upisnd_validate_element_name (Some "enc")) by (vm_compute; discriminate).
  assert (H58 : 58 <= strlen (ctx_sysfs_base ctx_long)) by (vm_compute; discriminate).
  assert (Hc : ctxs state_long !! 1%positive = Some ctx_long) by apply lookup_singleton_eq.
  destruct (X6_long_root world_good state_long 1%positive ctx_long "enc" "gpio B03 output 1"
              Hc Hval) as [H1 H2].
  split; [exact H58|]. split; [apply H1; exact H58 | apply H2; lia].
Defined.

Lemma X10_ref_unref_balanced_witness :
  wf state_one /\ registered state_one 1%positive "enc" 5%positive
  /\ upisnd_element_unref world_good
       (Some (fst (upisnd_element_get (Some "enc") state_one)))
       (snd (upisnd_element_get (Some "enc") state_one))
     = (Some None, set_errno 0 state_one).
Proof.
  assert (Hval : 0 <= upisnd_validate_element_name (Some "enc")) by (vm_compute; discriminate).
  assert (Hmax : el_refcount node_one < INT_MAX) by (vm_compute; reflexivity).
  pose proof (X10_ref_unref_balanced world_good state_one 1%positive ctx_one "enc" 5%positive
                node_one wf_state_one eq_refl eq_refl registered_state_one eq_refl Hmax Hval)
    as H.
  cbv zeta in H. destruct H as (_ & _ & _ & H).
  split; [exact wf_state_one|]. split; [exact registered_state_one | exact H].
Defined.

Lemma X11_setup_unref_cancel_witness :
  wf state_one /\ setup_goes_through world_good (ctx_sysfs_base ctx_one) "gpio1" "gpio B03 output 1"
  /\ nodes (snd (upisnd_element_unref world_good
                   (Some (fst (upisnd_setup_do world_good (Some 1%positive) (Some "gpio1")
                                 "gpio B03 output 1" state_one)))
                   (snd (upisnd_setup_do world_good (Some 1%positive) (Some "gpio1")
                           "gpio B03 output 1" state_one))))
     = nodes state_one.
Proof.
  assert (Hval : 0 <= upisnd_validate_element_name (Some "gpio1")) by (vm_compute; discriminate).
  assert (Habs : forall h, ~ registered state_one 1%positive "gpio1" h)
    by (apply absent_state_one; discriminate).
  assert (Hgo : setup_goes_through world_good (ctx_sysfs_base ctx_one) "gpio1"
                  "gpio B03 output 1").
  { split; [split; vm_compute; reflexivity | repeat split]. }
  pose proof (X11_setup_unref_cancel world_good world_good state_one 1%positive ctx_one
                "gpio1" "gpio B03 output 1" 7%positive wf_state_one eq_refl eq_refl Hval Habs
                eq_refl eq_refl Hgo) as H.
  cbv zeta in H. destruct H as (_ & _ & _ & H & _).
  split; [exact wf_state_one|]. split; [exact Hgo | exact H].
Defined.

Lemma X22_enum_getters_witness :
  element_ready state_one 5%positive
  /\ fst (upisnd_element_get_type (world_reads ("encoder" +:+ String "010" ""))
            (Some 5%positive) state_one) = UPISND_ELEMENT_TYPE_ENCODER.
Proof.
  split; [exact element_ready_state_one|].
  assert (Hh : attr_holds (world_reads ("encoder" +:+ String "010" "")) (getter_attr G_type)
                 "encoder").
  { split; [exact I|]. exists ""%string. split; [reflexivity | vm_compute; discriminate]. }
  pose proof (X22_enum_getters G_type (world_reads ("encoder" +:+ String "010" ""))
                state_one 5%positive "encoder" element_ready_state_one Hh
                (enum_token_no_separator E_element_type UPISND_ELEMENT_TYPE_ENCODER)) as H.
  cbv zeta in H. destruct H as (_ & _ & _ & _ & H).
  apply H; [vm_compute; split; discriminate || reflexivity | reflexivity].
Defined.

Lemma X23_get_pin_witness :
  element_ready state_one 5%positive
  /\ fst (upisnd_element_get_pin world_good (Some 5%positive) state_one) = 0.
Proof.
  split; [exact element_ready_state_one|].
  pose proof (X23_get_pin world_good state_one 5%positive false element_ready_state_one) as H.
  cbv zeta in H. destruct H as [_ H].
  destruct (H "0"%string I eq_refl eq_refl) as (_ & H1 & _).
  apply H1. vm_compute. split; [discriminate | reflexivity].
Defined.

Lemma X24_set_opts_witness :
  element_ready state_one 5%positive
  /\ fst (upisnd_element_analog_input_set_opts world_good (Some 5%positive)
            (mk_analog_input_opts (mk_range 0 1023) (mk_range 0 127)) state_one) = 0.
Proof.
  split; [exact element_ready_state_one|].
  pose proof (X24_set_opts world_good state_one 5%positive (mk_range 0 1023) (mk_range 0 127)
                UPISND_VALUE_MODE_CLAMP element_ready_state_one) as H.
  cbv zeta in H. destruct H as [H _].
  destruct H as [H _]; [repeat constructor | exact H].
Defined.

Lemma X25_get_opts_witness :
  element_ready state_one 5%positive
  /\ fst (upisnd_element_analog_input_get_opts world_good (Some 5%positive)
            (mk_analog_input_opts (mk_range 7 7) (mk_range 7 7)) state_one)
     = (0, mk_analog_input_opts (mk_range 0 0) (mk_range 0 0)).
Proof.
  split; [exact element_ready_state_one|].
  pose proof (X25_get_opts world_good state_one 5%positive
                (mk_analog_input_opts (mk_range 7 7) (mk_range 7 7))
                (mk_encoder_opts (mk_range 7 7) (mk_range 7 7) 0)
                element_ready_state_one) as H.
  cbv zeta in H. destruct H as [H _].
  assert (Hr : forall a, attr_reads world_good a "0") by (intros a; repeat split).
  destruct (H "0" "0" "0" "0"%string (Hr _) (Hr _) (Hr _) (Hr _)) as (H1 & _).
  exact H1.
Defined.

Lemma counted_initial (s : state) : wf s -> counted (mk_cxx s ∅).
Proof.
  intros Hwf. split; [exact Hwf|]. cbn. split.
  - intros o h Ho. rewrite lookup_empty in Ho. discriminate.
  - intros h Hl. rewrite holders_empty. pose proof (linked_rcz s h Hwf Hl). lia.
Qed.

Lemma X26_element_handles_witness :
  counted (mk_cxx state_one ∅) /\ Element_run_ok client_one (mk_cxx state_one ∅)
  /\ fault (c_st (Element_run client_one (mk_cxx state_one ∅))) = false.
Proof.
  assert (Hc : counted (mk_cxx state_one ∅)) by (apply counted_initial, wf_state_one).
  assert (Hcb : forall s, nodes s = nodes state_one -> counts_bounded s).
  { intros s Hs h nd Hh. rewrite Hs in Hh. exact (counts_bounded_state_one h nd Hh). }
  assert (Hok : Element_run_ok client_one (mk_cxx state_one ∅)).
  { unfold client_one. cbn [Element_run_ok Element_op_ok].
    split.
    { split; [reflexivity|]. split; [exact counts_bounded_state_one|].
      intros p [= <-]. reflexivity. }
    split; [apply is_Some_true; vm_compute; reflexivity|].
    split; [vm_compute; reflexivity|].
    split; [split; [vm_compute; reflexivity | apply Hcb; vm_compute; reflexivity]|].
    split; [split; apply is_Some_true; vm_compute; reflexivity|].
    split.
    { split; [vm_compute; reflexivity|].
      split; [apply is_Some_true; vm_compute; reflexivity|].
      intros h nd Hh. vm_compute in Hh.
      destruct h as [h|h|]; try discriminate Hh.
      repeat (destruct h as [h|h|]; try discriminate Hh).
      injection Hh as <-. vm_compute. reflexivity. }
    split; [apply is_Some_true; vm_compute; reflexivity|].
    split; [apply is_Some_true; vm_compute; reflexivity|].
    split; [apply is_Some_true; vm_compute; reflexivity|].
    split; [apply is_Some_true; vm_compute; reflexivity | exact I]. }
  destruct (X26_element_handles client_one (mk_cxx state_one ∅) Hc Hok) as (_ & Hf & _).
  split; [exact Hc|]. split; [exact Hok | exact Hf].
Defined.

Lemma X27_value_accessors_witness :
  element_ready state_one 5%positive
  /\ attr_reads world_good UPISND_ELEMENT_ATTR_VALUE "0"
  /\ fst (Gpio_get world_good SysOk (Some 5%positive) state_one) = 0
  /\ fst (Gpio_set world_good SysOk (Some 5%positive) true state_one) = 1.
Proof.
  pose proof (X27_value_accessors world_good SysOk state_one 5%positive
                element_ready_state_one) as H.
  cbv zeta in H. destruct H as (_ & Hg & Hs).
  assert (Hr : attr_reads world_good UPISND_ELEMENT_ATTR_VALUE "0") by (repeat split).
  split; [exact element_ready_state_one|]. split; [exact Hr|]. split.
  - destruct (Hg "0"%string Hr) as [H1 _]. exact H1.
  - destruct (Hs I true) as [H1 _]. apply H1. repeat split.
Defined.
